(* ===== verification/_CoqProject ===== *)
-Q . S2P
Prelude.v
Http.v
Libs.v
RefLibs.v
Path.v
Fs.v
Quality.v
Opts.v
CommandLine.v
Pages.v
Compression.v
Ranges.v
DirListing.v
StaticFiles.v
Cors.v
Routing.v
Policies.v
Metrics.v
Balancer.v
Routes.v
Settings.v
Proxy.v
Links.v
Handler.v
Head.v
Isolation.v
Cached.v
CachedService.v
Transport.v
Bodies.v
Tls.v
Server.v
Testing.v
Signals.v
Main.v
Windows.v
Archive.v
UnitTests.v
UnitTestsRouting.v
