(* ===== verification/Prelude.v ===== *)
(** Verification of WeaveGate, the frontend gateway of this repository: static files, reverse
    proxy with round-robin balancing, and connection tunnels behind one origin.

    * The program

    One process ([Main.v], [bin/server.rs]) reads its settings ([Settings.v]: command line, then
    manifest), starts a server ([Server.v], [server.rs]) and serves connections until a signal or
    a cancel ends it ([Signals.v], [signals.rs]).  A connection is plain TCP or TLS
    ([Transport.v], [Tls.v]); its service passes each request to the request handler
    ([Handler.v], [handler.rs]), a chain of stages each of which may answer: instrumentation,
    health, metrics, method check, CORS, basic authentication, maintenance, the reverse proxy,
    redirects, rewrites, virtual hosts, and the static file handler with its caches, ranges,
    listings, archives and compression; the answer then gets the headers the policies add.  The
    proxy's rules come from the manifest and from a control plane asked at start-up ([Routes.v]).
    The state that outlives a request is the [World] of [Proxy.v] (the handler options, which
    hold the balancers' counters and the tunnel permits, the requests sent upstream, the running
    tunnels), the collectors ([Metrics.v]) and the in-memory file store ([Ranges.v]).

    * The files, what of [src/src] they translate, and their main theorems

    Foundations.
    - [Prelude]: this header; [result] for [anyhow::Result] with the [let?] notation and [inv_res],
      fixed-width integers, [str] methods, UTF-8, the stable sort, counting lemmas.
    - [Http], [Libs]: the interfaces of the third-party crates as classes; [RefLibs]: concrete
      instances for the witnesses; [Path]: [std::path]; [Fs]: the file system and [fs/],
      [helpers.rs] — [sanitize_path_confined], [contains_symlink_spec].
    - [Opts]: the data of [settings/file.rs], [settings/cli.rs], [settings/mod.rs] and the options
      of [handler.rs]; [CommandLine]: the option table of [settings/cli.rs], whose
      default texts parse to the default settings.

    Static side.
    - [Quality] ([headers_ext/]); [Compression] ([compression*.rs], [mime_ext.rs],
      [text_charset.rs], [markdown.rs]) — [auto_compression]: when a response is compressed, with
      which coding, and what becomes of its headers; [Pages] ([error_page.rs], [fallback_page.rs], [maintenance_mode.rs],
      [health.rs]).
    - [Ranges] ([response.rs], [conditional_headers.rs], [mem_cache/]) — the range served is the
      one requested, the body and the headers deliver it, a cache hit answers as the file, the
      cache keeps only whole files.
    - [DirListing], [Archive] ([directory_listing/], [directory_listing_download.rs]) — contents,
      order and counts of a listing; what an archive contains, that its walk always ends and that
      it is complete.
    - [StaticFiles] ([static_files.rs]) — [handle_confined]: the path answered for lies below the
      root, and the symlink and hidden-file policies hold for it, or, for a directory request, for
      its directory; [directory_index]: the index of a directory.
    - [Links]: the client's side of a listing; [listing_links_lead_back]: each link, resolved
      against the address of the listing, leads to the entry it stands for.

    Requests and policies.
    - [Cors] ([cors.rs]), [Routing] ([redirects.rs], [rewrites.rs], [virtual_hosts.rs],
      [https_redirect.rs]) — [rewrite_effect] and the redirects —, [Policies] ([custom_headers.rs], [security_headers.rs],
      [control_headers.rs], [basic_auth.rs], [log_addr.rs]), [Metrics] ([metrics.rs],
      [service.rs]): the decision tables and the headers they lead to.

    Proxy side.
    - [Balancer] ([proxy_compile.rs], [proxy_sort.rs], the balancer of [settings/mod.rs]) — stable
      sort by the length of the sources, exact compilation, fairness of the rotation over the wrapping counter.
    - [Routes] ([routes/], [proxy_client.rs], start-up of [proxy.rs]) — resolution of the rules,
      failure policies and the snapshot round trip of the control-plane bootstrap.
    - [Proxy] ([proxy.rs]) — a longest matching rule is used; the request sent and the
      response returned, header by header; upgrades; the tunnel limit under every interleaving.

    The whole.
    - [Settings], [Handler], [Server]: [compile_advanced_spec], [handle_always_answers],
      [upstream_only_admitted], [startup_options] (every option of a server that starts), and [server_invariant], which goes from the
      configuration file to every reachable state of the running server.
    - [Head] and [Isolation]: relations between two runs of the pipeline.  [head_mirrors_get]:
      [HEAD] is [GET] without the body, unless the proxy, dynamic compression or a fallback page
      comes in.  [outside_unobservable]: without Markdown negotiation, links and pages beside the
      roots, two file systems that agree below the served roots cannot be told apart;
      [unauthorized_blind]: without credentials nothing at all can be.  [Cached]: the in-memory
      cache under any interleaving of static requests, streams and evictions, for every root that
      shares it; [CachedService]: the same for whole requests, a service step being steps of its
      cache; [cache_unobservable]: on roots without links, and with pre-compressed variants off, no
      answer but that to [OPTIONS] tells whether there is a cache.
    - [Transport] ([transport.rs]) and [Tls] ([tls.rs]): [tls_build_spec] and
      [tls_handshake_first]; [Bodies]: the stream adapter of [compression.rs] and the task of a
      tunnel, [tunnel_ends_with_permit_back].
    - [Testing] ([testing.rs]): the fixtures of the test suite against the options of a start-up.
    - [Signals] ([signals.rs]): an interleaving step relation; [signal_ends_wait] and
      [cancel_ends_wait] (liveness by a decreasing measure and progress), [no_spurious_shutdown].
    - [Main] ([bin/], [logger.rs], [cli_output.rs], the runtime part of [server.rs]):
      [process_outcome], [server_shutdown].
    - [Windows] (the Windows branches of [signals.rs], [server.rs] and [bin/server.rs], and
      [winservice.rs]): [windows_shutdown], [service_reports], [service_commands].
    - [UnitTests], [UnitTestsRouting]: the unit tests written in the sources, each as a computation
      on the definitions, with the same inputs and the same assertions; they all pass.

    * What the statements leave open

    Where the documentation or a comment of the repository and the code disagree, a theorem covers
    the cases on which they agree and an [Example] shows the other: the order of sources of one
    length ([more_wildcards_first]), [fail] with rules in the manifest and invalid documents
    ([fail_ignores_manifest_rules], [invalid_document_is_cached]), the page beside a directory
    ([page_before_second_index]), refused codings ([zero_quality_accepted]), the default of
    [use_webpki_roots], the default file limit of the cache.  Cases that break a property of the
    whole are hypotheses, each with an [Example] of what happens without it:
    [index_link_is_followed], [variant_link_is_followed], [markdown_probes_outside],
    [page_next_to_root], [head_exceptions], [head_not_compressed], [options_of_cached_file],
    [hidden_page_served], [variant_only_uncached].

    * Conventions

    Definitions are executable and follow the code's order of checks and early returns.  Strings
    and byte vectors are Rocq strings of bytes; [u64]/[usize] values are integers with
    [wrap64] where the code wraps; futures are run to their end, except where interleaving is the
    point ([Tunnels] in [Proxy], [Service] in [Metrics], [FileCache], [CachedService], [Signals],
    [TlsStream], [CtrlC]).  Errors are the chains of messages [anyhow] prints.  The model is of the Unix build
    with all Cargo features, and 64-bit words; [Windows] has what that build does otherwise.

    What is not under [src/] is a parameter: the classes of [Http], [Libs], [Transport] and
    [Tls], and section variables for clocks, the environment, the network, codecs and the
    operating system.  Laws are assumed only where a theorem names them: [HttpLaws] (a header map
    is a multimap), [TlsLaws] (an unreadable PEM source yields an error), [PercentLaws] (decoding
    undoes encoding, which keeps to the unreserved characters), and hypotheses on parsers stated
    with the theorem.  Every theorem with hypotheses has a witness with concrete instances.

    Fuel.  Path resolution uses the system's limit of forty links.  [Stream.drain],
    [Tls.read_to_end] and [Download.archive] take a number of rounds: one more than the bytes
    suffices for the first two ([file_stream_delivers], [read_file_spec]), and
    [archive_terminates] shows that some number always suffices for the third.  String functions
    that recurse on a remaining text use its length.

    * Not modelled

    Splitting the words of the command line and applying the rules between options ([clap], of
    which only the value parsers are described in [CommandLine]), rendering of man pages and
    completions, log output, and the module declarations of [lib.rs]: generated code or output
    only.  The benches, the fuzz target, and the unit tests of [tls.rs], which read real PEM
    files.  Sockets, the tokio runtime, hyper's protocol code, TLS, encoders, the tar format,
    calendars and the Windows service manager are third-party.  Clients that disconnect in the
    middle of a request are in [Metrics.Service] only.  Two requests of the same connection, or of
    different ones, are handled one after the other by [Server.step], so [server_invariant] speaks
    of the states between requests (upgrades that wait for their upstream meanwhile are the steps of
    [Tunnels.step], which [tunnel_limit] covers), since the code shares no
    state between them but the counters, the permits and the collectors, each updated
    atomically. *)
From Stdlib Require Import ZArith Lia Ascii String Permutation Sorted.
From stdpp Require Import base list strings pretty.

Create HintDb gate.
Create Rewrite HintDb gate_rw.

Declare Scope gate_scope.
Delimit Scope gate_scope with gate.

(** * Fallible code: [anyhow::Result] as a sum *)

(** [Ok]/[Err] of Rust's [Result]. *)
Inductive result (E A : Type) : Type :=
| Ok (a : A)
| Err (e : E).
Arguments Ok {E A} a.
Arguments Err {E A} e.

(** An [anyhow::Error]: its chain of messages, outermost context first. *)
Abbreviation error := (list string) (only parsing).

Module Res.
Definition bind {E A B} (r : result E A) (k : A → result E B) : result E B :=
  match r with Ok a => k a | Err e => Err e end.

Definition map {E A B} (f : A → B) (r : result E A) : result E B :=
  match r with Ok a => Ok (f a) | Err e => Err e end.

(** [Option::ok_or_else]. *)
Definition of_option {E A} (e : E) (o : option A) : result E A :=
  match o with Some a => Ok a | None => Err e end.

(** [Context::with_context]: one more message in front of the chain. *)
Definition context {A} (m : string) (r : result error A) : result error A :=
  match r with Ok a => Ok a | Err e => Err (m :: e) end.

Definition is_ok {E A} (r : result E A) : bool :=
  match r with Ok _ => true | Err _ => false end.

(** [Result::ok]. *)
Definition ok {E A} (r : result E A) : option A :=
  match r with Ok a => Some a | Err _ => None end.

(** [iter().map(f).collect::<Result<Vec<_>, _>>()]: stops at the first error. *)
Fixpoint mapM {E A B} (f : A → result E B) (l : list A) : result E (list B) :=
  match l with
  | [] => Ok []
  | a :: l' => bind (f a) (λ b, map (cons b) (mapM f l'))
  end.
End Res.

(** The [?] operator: [let? x := r in k] returns early with the error of [r]. *)
Notation "'let?' p ':=' r 'in' k" := (Res.bind r (λ p, k))
  (at level 10, p as pattern, r at level 200, k at level 200) : gate_scope.
Open Scope gate_scope.

Lemma bind_Ok {E A B} (r : result E A) (k : A → result E B) b :
  Res.bind r k = Ok b ↔ ∃ a, r = Ok a ∧ k a = Ok b.
Proof. destruct r; simpl; split; [eauto | | done | ]; intros (x & Hx & Hk); by simplify_eq. Qed.

Lemma map_Ok {E A B} (f : A → B) (r : result E A) b :
  Res.map f r = Ok b ↔ ∃ a, r = Ok a ∧ b = f a.
Proof. destruct r; simpl; split; [intros [= <-]; eauto | | done | ]; intros (x & Hx & Hk); by simplify_eq. Qed.

Lemma context_Ok {A} m (r : result error A) a : Res.context m r = Ok a ↔ r = Ok a.
Proof. destruct r; simpl; split; congruence. Qed.

Lemma of_option_Ok {E A} (e : E) (o : option A) a : Res.of_option e o = Ok a ↔ o = Some a.
Proof. destruct o; simpl; split; congruence. Qed.

Lemma mapM_Ok {E A B} (f : A → result E B) l l' :
  Res.mapM f l = Ok l' ↔ Forall2 (λ a b, f a = Ok b) l l'.
Proof.
  revert l'; induction l as [|a l IH]; intros l'; simpl.
  - split; [intros [= <-]; constructor | inversion 1; done].
  - rewrite bind_Ok. setoid_rewrite map_Ok. setoid_rewrite IH. split.
    + intros (b & Hb & t & Ht & ->). by constructor.
    + inversion 1; subst; eauto.
Qed.

(** Inverts every monadic equation [_ = Ok _] of the context. *)
Ltac inv_res :=
  repeat match goal with
  | H : Res.bind _ _ = Ok _ |- _ =>
      let a := fresh "a" in let Ha := fresh "Ha" in
      apply bind_Ok in H as (a & Ha & H)
  | H : Res.map _ _ = Ok _ |- _ =>
      let a := fresh "a" in let Ha := fresh "Ha" in
      apply map_Ok in H as (a & Ha & H)
  | H : Res.context _ _ = Ok _ |- _ => apply context_Ok in H
  | H : Res.of_option _ _ = Ok _ |- _ => apply of_option_Ok in H
  end; simplify_eq.

(** * Fixed-width unsigned integers *)

Definition u8_max : Z := 255.
Definition u16_max : Z := 65535.
Definition u32_max : Z := 4294967295.
Definition u64_max : Z := 18446744073709551615.

(** Release-mode [u64]/[usize] arithmetic (64-bit targets): results modulo 2^64. *)
Definition wrap64 (z : Z) : Z := z `mod` 18446744073709551616.

Lemma wrap64_small z : (0 ≤ z ≤ u64_max)%Z → wrap64 z = z.
Proof. unfold wrap64, u64_max. intros ?. rewrite Z.mod_small; lia. Qed.

Lemma wrap64_range z : (0 ≤ wrap64 z ≤ u64_max)%Z.
Proof. unfold wrap64, u64_max. pose proof (Z.mod_pos_bound z 18446744073709551616). lia. Qed.

#[export] Hint Resolve wrap64_range : gate.

(** * [str] methods on UTF-8 byte strings *)

Module Str.
Local Open Scope string_scope.

Definition starts_with (p s : string) : bool := String.prefix p s.

(** [str::strip_prefix]. *)
Fixpoint strip_prefix (p s : string) : option string :=
  match p, s with
  | "", _ => Some s
  | String a p', String b s' => if Ascii.eqb a b then strip_prefix p' s' else None
  | String _ _, "" => None
  end.

(** [str::starts_with(char)] / [str::ends_with(char)] for an ASCII character. *)
Definition starts_with_char (c : ascii) (s : string) : bool :=
  match s with String x _ => Ascii.eqb x c | "" => false end.

Fixpoint ends_with_char (c : ascii) (s : string) : bool :=
  match s with
  | "" => false
  | String x "" => Ascii.eqb x c
  | String _ s' => ends_with_char c s'
  end.

Definition is_empty (s : string) : bool := match s with "" => true | _ => false end.

(** [str::contains(&str)]. *)
Fixpoint contains (p s : string) : bool :=
  String.prefix p s || match s with "" => false | String _ s' => contains p s' end.

Fixpoint mem (c : ascii) (s : string) : bool :=
  match s with "" => false | String x s' => Ascii.eqb x c || mem c s' end.

(** [str::matches(c).count()]. *)
Fixpoint count (c : ascii) (s : string) : nat :=
  match s with
  | "" => 0
  | String x s' => if Ascii.eqb x c then S (count c s') else count c s'
  end.

(** [str::split(c)]: at least one piece, pieces may be empty. *)
Fixpoint split (c : ascii) (s : string) : list string :=
  match s with
  | "" => [""]
  | String x s' =>
      if Ascii.eqb x c then "" :: split c s'
      else match split c s' with
           | [] => [String x ""]
           | h :: t => String x h :: t
           end
  end.

(** [[T]::join(sep)]. *)
Definition join (sep : string) (l : list string) : string := String.concat sep l.

(** [str::replace(p, by)] for a non-empty pattern; [fuel] is the length of the text. *)
Fixpoint replace_from (fuel : nat) (p by_ s : string) : string :=
  match fuel with
  | O => s
  | S f =>
      match strip_prefix p s with
      | Some r => String.append by_ (replace_from f p by_ r)
      | None => match s with "" => "" | String x s' => String x (replace_from f p by_ s') end
      end
  end.
Definition replace (p by_ s : string) : string := replace_from (S (String.length s)) p by_ s.

(** [str::split_once(c)]: around the first occurrence. *)
Fixpoint split_once (c : ascii) (s : string) : option (string * string) :=
  match s with
  | "" => None
  | String x s' =>
      if Ascii.eqb x c then Some ("", s')
      else match split_once c s' with
           | Some (a, b) => Some (String x a, b)
           | None => None
           end
  end.

(** [str::rsplit_once(c)]: around the last occurrence. *)
Fixpoint rsplit_once (c : ascii) (s : string) : option (string * string) :=
  match s with
  | "" => None
  | String x s' =>
      match rsplit_once c s' with
      | Some (a, b) => Some (String x a, b)
      | None => if Ascii.eqb x c then Some ("", s') else None
      end
  end.

(** [str::splitn(2, "://")]-style split around the first occurrence of a pattern. *)
Fixpoint split_once_str (p s : string) : option (string * string) :=
  match strip_prefix p s with
  | Some r => Some ("", r)
  | None =>
      match s with
      | "" => None
      | String x s' =>
          match split_once_str p s' with
          | Some (a, b) => Some (String x a, b)
          | None => None
          end
      end
  end.

(** [str::trim_start_matches(c)] and [str::trim_end_matches(c)]. *)
Fixpoint trim_start_char (c : ascii) (s : string) : string :=
  match s with
  | String x s' => if Ascii.eqb x c then trim_start_char c s' else s
  | "" => ""
  end.

Fixpoint trim_end_char (c : ascii) (s : string) : string :=
  match s with
  | "" => ""
  | String x s' =>
      match trim_end_char c s' with
      | "" => if Ascii.eqb x c then "" else String x ""
      | r => String x r
      end
  end.

Fixpoint rev_app (s acc : string) : string :=
  match s with "" => acc | String x s' => rev_app s' (String x acc) end.
Definition rev (s : string) : string := rev_app s "".

Definition bytes (l : list nat) : string :=
  fold_right (λ n s, String (ascii_of_nat n) s) "" l.

(** The UTF-8 encodings of the Unicode [White_Space] characters. *)
Definition white_space : list string :=
  map bytes
    ([ [9]; [10]; [11]; [12]; [13]; [32]; [194; 133]; [194; 160]; [225; 154; 128];
       [226; 128; 168]; [226; 128; 169]; [226; 128; 175]; [226; 129; 159]; [227; 128; 128] ]
     ++ map (λ n, [226; 128; n]) (seq 128 11)).

Fixpoint strip_any (ps : list string) (s : string) : option string :=
  match ps with
  | [] => None
  | p :: ps' => match strip_prefix p s with Some r => Some r | None => strip_any ps' s end
  end.

Fixpoint trim_with (ps : list string) (fuel : nat) (s : string) : string :=
  match fuel with
  | O => s
  | S f => match strip_any ps s with Some r => trim_with ps f r | None => s end
  end.

(** [str::trim_start], [str::trim_end] and [str::trim]. *)
Definition trim_start (s : string) : string := trim_with white_space (String.length s) s.
Definition trim_end (s : string) : string :=
  rev (trim_with (map rev white_space) (String.length s) (rev s)).
Definition trim (s : string) : string := trim_end (trim_start s).

Definition ascii_lower (c : ascii) : ascii :=
  let n := nat_of_ascii c in
  if (Nat.leb 65 n && Nat.leb n 90)%bool then ascii_of_nat (n + 32) else c.

(** [str::to_ascii_lowercase] and [str::eq_ignore_ascii_case]. *)
Fixpoint to_ascii_lowercase (s : string) : string :=
  match s with "" => "" | String x s' => String (ascii_lower x) (to_ascii_lowercase s') end.
Definition eq_ignore_ascii_case (a b : string) : bool :=
  String.eqb (to_ascii_lowercase a) (to_ascii_lowercase b).

Definition digit (c : ascii) : option Z :=
  let n := nat_of_ascii c in
  if (Nat.leb 48 n && Nat.leb n 57)%bool then Some (Z.of_nat (n - 48)) else None.

Fixpoint digits (acc : Z) (s : string) : option Z :=
  match s with
  | "" => Some acc
  | String x s' => match digit x with Some d => digits (10 * acc + d) s' | None => None end
  end.

(** [str::parse::<uN>()] for the unsigned type whose maximum is [max]:
    an optional plus sign, at least one digit, no overflow. *)
Definition parse_uint (max : Z) (s : string) : option Z :=
  let body := match s with String "+"%char r => r | _ => s end in
  match body with
  | "" => None
  | _ => match digits 0 body with
         | Some n => if (n <=? max)%Z then Some n else None
         | None => None
         end
  end.

(** [ToString] of an unsigned integer. *)
Definition of_uint (z : Z) : string := pretty (Z.to_N z).
End Str.

(** * UTF-8 *)

Module Utf8.
Fixpoint to_bytes (s : string) : list nat :=
  match s with EmptyString => [] | String x s' => nat_of_ascii x :: to_bytes s' end.

Definition in_range (lo hi b : nat) : bool := (Nat.leb lo b && Nat.leb b hi)%bool.
Definition cont (b : nat) : bool := in_range 128 191 b.

(** Allowed second byte after the lead byte [b], for sequences of three or four bytes. *)
Definition second_ok (b c : nat) : bool :=
  match b with
  | 224 => in_range 160 191 c
  | 237 => in_range 128 159 c
  | 240 => in_range 144 191 c
  | 244 => in_range 128 143 c
  | _ => cont c
  end.

(** One decoding step: whether the bytes start with a well-formed sequence, and how many
    bytes the sequence (or the maximal ill-formed prefix) takes. *)
Definition step (l : list nat) : bool * nat :=
  match l with
  | [] => (true, 0)
  | b :: t =>
      if in_range 0 127 b then (true, 1)
      else if in_range 194 223 b then
        match t with c :: _ => if cont c then (true, 2) else (false, 1) | [] => (false, 1) end
      else if in_range 224 239 b then
        match t with
        | c :: t' =>
            if second_ok b c
            then match t' with
                 | d :: _ => if cont d then (true, 3) else (false, 2)
                 | [] => (false, 2)
                 end
            else (false, 1)
        | [] => (false, 1)
        end
      else if in_range 240 244 b then
        match t with
        | c :: t' =>
            if second_ok b c
            then match t' with
                 | d :: t'' =>
                     if cont d
                     then match t'' with
                          | e :: _ => if cont e then (true, 4) else (false, 3)
                          | [] => (false, 3)
                          end
                     else (false, 2)
                 | [] => (false, 2)
                 end
            else (false, 1)
        | [] => (false, 1)
        end
      else (false, 1)
  end.

Fixpoint valid_bytes (fuel : nat) (l : list nat) : bool :=
  match l, fuel with
  | [], _ => true
  | _, O => true
  | _, S f => let '(ok, n) := step l in (ok && valid_bytes f (drop n l))%bool
  end.

(** [str::from_utf8(..).is_ok()]. *)
Definition valid (s : string) : bool := valid_bytes (String.length s) (to_bytes s).

Fixpoint lossy_bytes (fuel : nat) (l : list nat) : list nat :=
  match l, fuel with
  | [], _ => []
  | _, O => []
  | _, S f =>
      let '(ok, n) := step l in
      (if ok then take n l else [239; 191; 189]) ++ lossy_bytes f (drop n l)
  end.

(** [String::from_utf8_lossy]. *)
Definition lossy (s : string) : string :=
  Str.bytes (lossy_bytes (String.length s) (to_bytes s)).
End Utf8.

(** * [slice::sort_by]: the stable sort of the standard library *)

Module Sort.
Section Sort.
Context {A : Type} (cmp : A → A → comparison).

(** [x] goes before the first element it is not greater than. *)
Fixpoint ins (x : A) (l : list A) : list A :=
  match l with
  | [] => [x]
  | y :: l' => match cmp x y with Gt => y :: ins x l' | _ => x :: l end
  end.

Definition sort_by (l : list A) : list A := fold_right ins [] l.

Definition le (x y : A) : Prop := cmp x y ≠ Gt.

(** The contract of a comparison function: a total preorder. *)
Class Laws : Prop := {
  cmp_flip x y : cmp x y = Gt → cmp y x = Lt;
  cmp_trans x y z : le x y → le y z → le x z;
}.

Lemma ins_perm x l : ins x l ≡ₚ x :: l.
Proof.
  induction l as [|y l IH]; simpl; [done|].
  destruct (cmp x y); [done..|]. rewrite IH. constructor.
Qed.

Lemma sort_perm l : sort_by l ≡ₚ l.
Proof. induction l as [|x l IH]; simpl; [done|]. by rewrite ins_perm, IH. Qed.

Lemma ins_sorted `{Laws} x l : StronglySorted le l → StronglySorted le (ins x l).
Proof.
  induction 1 as [|y l Hs IH Hall]; simpl; [by repeat constructor|].
  destruct (cmp x y) eqn:E.
  1,2: constructor; [by constructor|]; constructor; [unfold le; congruence|];
       eapply Forall_impl; [exact Hall|]; intros z Hz;
       apply (cmp_trans x y z); [unfold le; congruence | done].
  constructor; [done|]. rewrite ins_perm. constructor; [|done].
  unfold le. apply cmp_flip in E. congruence.
Qed.

Lemma sort_sorted `{Laws} l : StronglySorted le (sort_by l).
Proof. induction l; simpl; [constructor | by apply ins_sorted]. Qed.

(** Elements that compare equal keep their order. *)
Lemma ins_stable (P : A → Prop) `{∀ x, Decision (P x)} x l :
  (∀ y z, P y → P z → cmp y z = Eq) →
  filter P (ins x l) = filter P (x :: l).
Proof.
  intros HP. induction l as [|y l IH]; [done|]. simpl.
  destruct (cmp x y) eqn:E; [done..|].
  destruct (decide (P x)) as [Hx|Hx].
  - assert (¬ P y) as Hy by (intros Hy; rewrite (HP x y) in E; done).
    rewrite filter_cons_False by done. rewrite IH.
    rewrite !filter_cons_True by done. f_equal. by rewrite filter_cons_False.
  - rewrite (filter_cons_False P x) by done. rewrite (filter_cons_False P x) in IH by done.
    rewrite !filter_cons. by case_decide; rewrite IH.
Qed.

Lemma sort_stable (P : A → Prop) `{∀ x, Decision (P x)} l :
  (∀ y z, P y → P z → cmp y z = Eq) → filter P (sort_by l) = filter P l.
Proof.
  intros HP. induction l as [|x l IH]; [done|]. simpl. rewrite ins_stable by done.
  rewrite !filter_cons. by case_decide; rewrite IH.
Qed.
End Sort.
End Sort.

(** [Ord] of the keys [sort_by_key] uses here: integers, byte strings, options ([None] first). *)
Definition opt_compare {A} (cmp : A → A → comparison) (a b : option A) : comparison :=
  match a, b with
  | None, None => Eq
  | None, Some _ => Lt
  | Some _, None => Gt
  | Some x, Some y => cmp x y
  end.

#[export] Instance Z_compare_laws : Sort.Laws Z.compare.
Proof.
  split; unfold Sort.le; intros *; rewrite ?Z.compare_gt_iff, ?Z.compare_lt_iff, ?Z.compare_le_iff.
  all: lia.
Qed.

Lemma ascii_compare_N a b : Ascii.compare a b = N.compare (N_of_ascii a) (N_of_ascii b).
Proof. reflexivity. Qed.

#[export] Instance string_compare_laws : Sort.Laws String.compare.
Proof.
  split; unfold Sort.le.
  - intros x y Hxy. rewrite String.compare_antisym, Hxy. done.
  - induction x as [|a x IH]; intros [|b y] [|c z]; simpl; try done.
    rewrite !ascii_compare_N.
    destruct (N.compare_spec (N_of_ascii a) (N_of_ascii b)),
      (N.compare_spec (N_of_ascii b) (N_of_ascii c)),
      (N.compare_spec (N_of_ascii a) (N_of_ascii c)); try done; try lia. apply IH.
Qed.

#[export] Instance opt_compare_laws {A} (cmp : A → A → comparison) `{!Sort.Laws cmp} :
  Sort.Laws (opt_compare cmp).
Proof.
  split; unfold Sort.le.
  - intros [x|] [y|]; simpl; try congruence. apply (Sort.cmp_flip cmp).
  - intros [x|] [y|] [z|]; simpl; try congruence. apply (Sort.cmp_trans cmp).
Qed.

Lemma key_compare_laws {A K} (f : A → K) (cmp : K → K → comparison) `{!Sort.Laws cmp} :
  Sort.Laws (λ x y, cmp (f x) (f y)).
Proof.
  split; unfold Sort.le; [intros x y; apply (Sort.cmp_flip cmp) | intros x y z; apply (Sort.cmp_trans cmp)].
Qed.

(** A comparison of integer keys, and its lexicographic product. *)
Definition lex_compare (a b : comparison) : comparison := match a with Eq => b | _ => a end.

Lemma sorted_lookup_le {A} (R : A → A → Prop) l i j x y :
  StronglySorted R l → i < j → l !! i = Some x → l !! j = Some y → R x y.
Proof.
  intros Hs. revert i j. induction Hs as [|z l Hs IH Hall]; intros i j Hij Hi Hj; [done|].
  destruct j as [|j]; [lia|]. destruct i as [|i]; simpl in *.
  - simplify_eq. eapply (proj1 (Forall_forall _ _) Hall), list_elem_of_lookup_2, Hj.
  - eapply IH; [|eassumption..]. lia.
Qed.

Lemma filter_none {A} (P : A → Prop) `{∀ x, Decision (P x)} l :
  (∀ x, x ∈ l → ¬ P x) → filter P l = [].
Proof.
  intros Hn. induction l as [|x l IH]; [done|].
  rewrite filter_cons_False by (apply Hn; left). apply IH. intros y Hy. apply Hn. by right.
Qed.

(** * Counting *)

(** [n] consecutive integers meet every residue modulo [n] exactly once. *)
Definition residues (c : Z) (n m : nat) : list nat :=
  (λ i : nat, Z.to_nat ((c + Z.of_nat i) `mod` Z.of_nat n)) <$> seq 0 m.

Lemma residues_perm c n : n ≠ 0 → residues c n n ≡ₚ seq 0 n.
Proof.
  intros Hn. symmetry.
  assert (NoDup (residues c n n)) as Hnd.
  { unfold residues. apply NoDup_fmap_2_strong, NoDup_seq.
    intros i j Hi%elem_of_seq Hj%elem_of_seq Heq.
    apply Z2Nat.inj in Heq; [|apply Z.mod_pos_bound; lia..].
    pose proof (Z.div_mod (c + Z.of_nat i) (Z.of_nat n)) as Hd1.
    pose proof (Z.div_mod (c + Z.of_nat j) (Z.of_nat n)) as Hd2.
    set (q1 := (_ / _)%Z) in Hd1. set (q2 := (_ / _)%Z) in Hd2.
    assert (q1 = q2 ∨ q1 + 1 ≤ q2 ∨ q2 + 1 ≤ q1)%Z as [|[|]] by lia; nia. }
  symmetry. apply submseteq_length_Permutation.
  - apply NoDup_submseteq; [done|]. intros x Hx. unfold residues in Hx.
    apply list_elem_of_fmap in Hx as (i & -> & _). apply elem_of_seq.
    pose proof (Z.mod_pos_bound (c + Z.of_nat i) (Z.of_nat n)). lia.
  - unfold residues. by rewrite length_fmap, !length_seq.
Qed.

(** * Strings *)

Lemma length_string_app s1 s2 :
  String.length (s1 +:+ s2) = (String.length s1 + String.length s2)%nat.
Proof. induction s1; simpl; [done|]. by rewrite IHs1. Qed.

Lemma string_app_nil_r s : (s +:+ "" = s)%string.
Proof.
  induction s as [|c s IH]; [reflexivity|].
  change (String c (s +:+ "") = String c s)%string. by rewrite IH.
Qed.

Lemma join_cons x l : (Str.join "" (x :: l) = x +:+ Str.join "" l)%string.
Proof. unfold Str.join. destruct l; simpl; [by rewrite string_app_nil_r | reflexivity]. Qed.

Lemma string_app_assoc a b c : (a +:+ b) +:+ c = a +:+ (b +:+ c).
Proof. induction a as [|x a IH]; [done|]. change (String x ((a +:+ b) +:+ c) = String x (a +:+ (b +:+ c))). by rewrite IH. Qed.

(** [split] around a separator. *)
Lemma split_app c a b : Str.split c (a +:+ String c b) = Str.split c a ++ Str.split c b.
Proof.
  induction a as [|x a IH].
  - change ("" +:+ String c b) with (String c b). simpl. by rewrite Ascii.eqb_refl.
  - change (String x a +:+ String c b) with (String x (a +:+ String c b)). simpl.
    destruct (Ascii.eqb x c); rewrite IH; [done|].
    destruct (Str.split c a) as [|h t] eqn:E; [|done].
    exfalso. destruct a as [|y a]; [done|]. simpl in E. destruct (Ascii.eqb y c); [done|].
    by destruct (Str.split c a).
Qed.

Lemma rsplit_once_Some c s a b :
  Str.rsplit_once c s = Some (a, b) → s = a +:+ String c b ∧ Str.mem c b = false.
Proof.
  revert a b. induction s as [|x s IH]; intros a b; simpl; [done|].
  destruct (Str.rsplit_once c s) as [[a' b']|] eqn:E.
  - intros [= <- <-]. destruct (IH a' b' eq_refl) as [-> ?]. done.
  - destruct (Ascii.eqb_spec x c) as [->|_]; [|done]. intros [= <- <-]. split; [done|].
    clear IH. induction s as [|y s IH]; [done|]. simpl in *.
    destruct (Str.rsplit_once c s) as [[??]|]; [done|]. destruct (Ascii.eqb y c); [done|]. by apply IH.
Qed.

Lemma rsplit_once_mem c s : Str.mem c s = true → ∃ a b, Str.rsplit_once c s = Some (a, b).
Proof.
  induction s as [|x s IH]; simpl; [done|]. intros [Hx|Hs]%orb_true_iff.
  - rewrite Hx. destruct (Str.rsplit_once c s) as [[]|]; eauto.
  - destruct (IH Hs) as (a & b & ->). eauto.
Qed.

Lemma ends_with_char_app c a b :
  Str.ends_with_char c (a +:+ String c b) = Str.ends_with_char c (String c b).
Proof.
  induction a as [|x a IH]; [done|].
  change (String x a +:+ String c b) with (String x (a +:+ String c b)).
  rewrite <- IH. simpl. destruct a; [|done].
  by change ("" +:+ String c b) with (String c b).
Qed.

Lemma ends_with_char_snoc c a : Str.ends_with_char c (a +:+ String c "") = true.
Proof. rewrite ends_with_char_app. simpl. apply Ascii.eqb_refl. Qed.

(** A text that ends with a character splits around that last occurrence. *)
Lemma rsplit_once_ends c s a b :
  Str.rsplit_once c s = Some (a, b) → Str.ends_with_char c s = Str.is_empty b.
Proof.
  intros [-> Hb]%rsplit_once_Some. rewrite ends_with_char_app.
  destruct b as [|x b]; simpl; [by rewrite Ascii.eqb_refl|].
  revert x Hb. induction b as [|y b IH]; intros x [Hx Hb]%orb_false_iff; [done|]. by apply (IH y).
Qed.

Lemma mem_app c a b : Str.mem c (a +:+ b) = Str.mem c a || Str.mem c b.
Proof.
  induction a as [|x a IH]; [done|]. change (String x a +:+ b) with (String x (a +:+ b)). simpl.
  by rewrite IH, orb_assoc.
Qed.

Lemma ends_with_char_mem c s : Str.ends_with_char c s = true → Str.mem c s = true.
Proof.
  induction s as [|x s IH]; simpl; [done|]. destruct s; [by intros ->|].
  intros Hs. by rewrite IH, orb_true_r.
Qed.
