(* ===== verification/Http.v ===== *)
(** The HTTP vocabulary of the program.

    [HttpLib] is the interface of the third-party [http] crate (header map, header values,
    methods, status codes, URIs): its operations are parameters of every definition that uses
    them, and [HttpLaws] states the documented behaviour the theorems rely on.  Requests,
    responses and bodies are records over it; [src/src/http_ext.rs] is translated at the end. *)
From Stdlib Require Import ZArith Lia Ascii String.
From stdpp Require Import base list strings.
From S2P Require Import Prelude.
Local Open Scope string_scope.
Local Open Scope list_scope.

(** * The [http] crate *)

Class HttpLib := {
  (** [http::HeaderMap]: a multimap from lower-case names to values (as bytes). *)
  HeaderMap : Type;
  hm_empty : HeaderMap;
  hm_get_all : string → HeaderMap → list string;
  hm_insert : string → string → HeaderMap → HeaderMap;
  hm_remove : string → HeaderMap → HeaderMap;
  hm_iter : HeaderMap → list (string * string);
  (** [HeaderValue::from_str] accepts the value. *)
  hv_valid : string → bool;
  (** [HeaderValue::to_str] succeeds: only visible ASCII. *)
  hv_visible : string → bool;
  (** [HeaderName::from_bytes] accepts the name (it is then lower-cased). *)
  hname_valid : string → bool;
  (** [Method::from_bytes] accepts the method name. *)
  method_valid : string → bool;
  (** [StatusCode::from_u16] accepts the code; [canonical_reason]; [Display]. *)
  status_valid : Z → bool;
  status_reason : Z → option string;
  status_display : Z → string;
  (** [http::Uri] and its accessors; an authority is kept as its text. *)
  Uri : Type;
  uri_parse : string → option Uri;
  uri_display : Uri → string;
  uri_scheme : Uri → option string;
  uri_authority : Uri → option string;
  uri_path_and_query : Uri → option string;
  uri_path : Uri → string;
  uri_query : Uri → option string;
  uri_host : Uri → option string;
  uri_port_u16 : Uri → option Z;
  (** [Uri::from_parts], [Authority::host], [PathAndQuery::query] and its [FromStr]. *)
  uri_from_parts : option string → option string → option string → option Uri;
  authority_host : string → string;
  pq_query : string → option string;
  pq_valid : string → bool;
}.

Section Derived.
Context `{HttpLib}.

(** [HeaderMap::get], [contains_key] and [is_empty]. *)
Definition hm_get (n : string) (h : HeaderMap) : option string := head (hm_get_all n h).
Definition hm_contains (n : string) (h : HeaderMap) : bool :=
  match hm_get_all n h with [] => false | _ => true end.
Definition hm_is_empty (h : HeaderMap) : bool :=
  match hm_iter h with [] => true | _ => false end.

(** [HeaderValue::from_str] and [HeaderValue::to_str]. *)
Definition hv_from_str (s : string) : option string := if hv_valid s then Some s else None.
Definition hv_to_str (v : string) : option string := if hv_visible v then Some v else None.

(** [HeaderName::from_bytes]. *)
Definition hname_from_bytes (s : string) : option string :=
  if hname_valid s then Some (Str.to_ascii_lowercase s) else None.

(** [for (k, v) in l { h.insert(k, v) }]. *)
Definition hm_insert_all (l : list (string * string)) (h : HeaderMap) : HeaderMap :=
  fold_left (λ acc kv, hm_insert kv.1 kv.2 acc) l h.

(** The values listed under a name, in order. *)
Definition vals (n : string) (l : list (string * string)) : list string :=
  (filter (λ kv, kv.1 = n) l).*2.

(** Two header maps no lookup can tell apart. *)
Definition hm_equiv (h1 h2 : HeaderMap) : Prop := ∀ n, hm_get_all n h1 = hm_get_all n h2.
End Derived.

(** The documented behaviour of [HeaderMap] the theorems use. *)
Class HttpLaws `{HttpLib} : Prop := {
  get_all_empty n : hm_get_all n hm_empty = [];
  get_all_insert_eq n v h : hm_get_all n (hm_insert n v h) = [v];
  get_all_insert_ne n m v h : n ≠ m → hm_get_all m (hm_insert n v h) = hm_get_all m h;
  get_all_remove_eq n h : hm_get_all n (hm_remove n h) = [];
  get_all_remove_ne n m h : n ≠ m → hm_get_all m (hm_remove n h) = hm_get_all m h;
  iter_get_all n h : vals n (hm_iter h) = hm_get_all n h;
}.

(** * Requests, responses, bodies *)

(** What the program puts in a [hyper::Body]: nothing, bytes, a stream over the bytes a
    reader still has to deliver ([FileStream]), the same with the in-memory cache attached
    ([MemCacheFileStream], with the cache key and the buffer capacity), a reader that fails (an
    opened directory), a body run through an encoder, or the channel fed by the archive task. *)
Inductive Body : Type :=
| BodyEmpty
| BodyBytes (data : string)
| BodyFile (data : string) (buf_size : Z)
| BodyMemFile (data : string) (buf_size : Z) (key : string) (content_type : string)
    (last_modified : option Z) (capacity : Z)
| BodyReadError
| BodyEncoded (coding : string) (level : string) (inner : Body)
| BodyArchive (path src_path : string) (follow_symlinks ignore_hidden : bool).

(** The bytes a client reads from a body that is not encoded by a third-party encoder. *)
Definition body_bytes (b : Body) : option string :=
  match b with
  | BodyEmpty => Some ""
  | BodyBytes s | BodyFile s _ | BodyMemFile s _ _ _ _ _ => Some s
  | BodyReadError | BodyEncoded _ _ _ | BodyArchive _ _ _ _ => None
  end.

Section Messages.
Context `{HttpLib}.

Record Request := mkRequest {
  rq_method : string;
  rq_uri : Uri;
  rq_headers : HeaderMap;
  rq_body : Body;
}.

Record Response := mkResponse {
  rs_status : Z;
  rs_headers : HeaderMap;
  rs_body : Body;
}.

(** [Response::new(body)]: status 200 and no header. *)
Definition resp_new (b : Body) : Response := mkResponse 200 hm_empty b.

Definition set_status (s : Z) (r : Response) : Response :=
  mkResponse s (rs_headers r) (rs_body r).
Definition set_headers (h : HeaderMap) (r : Response) : Response :=
  mkResponse (rs_status r) h (rs_body r).
Definition set_body (b : Body) (r : Response) : Response :=
  mkResponse (rs_status r) (rs_headers r) b.
Definition set_header (n v : string) (r : Response) : Response :=
  set_headers (hm_insert n v (rs_headers r)) r.
Definition del_header (n : string) (r : Response) : Response :=
  set_headers (hm_remove n (rs_headers r)) r.

Definition rs_get (n : string) (r : Response) : option string := hm_get n (rs_headers r).
Definition rq_get (n : string) (r : Request) : option string := hm_get n (rq_headers r).
Definition rq_path (r : Request) : string := uri_path (rq_uri r).
End Messages.

(** * [http_ext.rs] *)

Definition HTTP_SUPPORTED_METHODS : list string := ["OPTIONS"; "HEAD"; "GET"].

(** [MethodExt::is_allowed]: the loop over the supported methods. *)
Fixpoint is_allowed_in (l : list string) (m : string) : bool :=
  match l with
  | [] => false
  | x :: l' => if String.eqb x m then true else is_allowed_in l' m
  end.
Definition is_allowed (m : string) : bool := is_allowed_in HTTP_SUPPORTED_METHODS m.
Definition is_get (m : string) : bool := String.eqb m "GET".
Definition is_head (m : string) : bool := String.eqb m "HEAD".
Definition is_options (m : string) : bool := String.eqb m "OPTIONS".

Lemma is_allowed_spec m : is_allowed m = true ↔ m = "OPTIONS" ∨ m = "HEAD" ∨ m = "GET".
Proof.
  unfold is_allowed, HTTP_SUPPORTED_METHODS, is_allowed_in.
  destruct (String.eqb_spec "OPTIONS" m) as [<-|]; [by split; auto|].
  destruct (String.eqb_spec "HEAD" m) as [<-|]; [by split; auto|].
  destruct (String.eqb_spec "GET" m) as [<-|]; [by split; auto|].
  split; [done | intros [->|[->| ->]]; done].
Qed.

(** * Lemmas on header maps *)

Section Laws.
Context `{HttpLaws}.

#[global] Instance hm_equiv_equivalence : Equivalence hm_equiv.
Proof. split; unfold hm_equiv; [done | | ]; intros ?; [done | congruence]. Qed.

Lemma get_all_insert n m v h :
  hm_get_all m (hm_insert n v h) = if decide (n = m) then [v] else hm_get_all m h.
Proof. case_decide; subst; auto using get_all_insert_eq, get_all_insert_ne. Qed.

Lemma get_all_remove n m h :
  hm_get_all m (hm_remove n h) = if decide (n = m) then [] else hm_get_all m h.
Proof. case_decide; subst; auto using get_all_remove_eq, get_all_remove_ne. Qed.

#[global] Instance hm_insert_proper n v : Proper (hm_equiv ==> hm_equiv) (hm_insert n v).
Proof. intros h1 h2 Heq m. rewrite !get_all_insert. by case_decide. Qed.

#[global] Instance hm_remove_proper n : Proper (hm_equiv ==> hm_equiv) (hm_remove n).
Proof. intros h1 h2 Heq m. rewrite !get_all_remove. by case_decide. Qed.

#[global] Instance hm_get_proper n : Proper (hm_equiv ==> eq) (hm_get n).
Proof. intros h1 h2 Heq. unfold hm_get. by rewrite Heq. Qed.

#[global] Instance hm_contains_proper n : Proper (hm_equiv ==> eq) (hm_contains n).
Proof. intros h1 h2 Heq. unfold hm_contains. by rewrite Heq. Qed.

Lemma insert_insert n v w h : hm_equiv (hm_insert n v (hm_insert n w h)) (hm_insert n v h).
Proof. intros m. rewrite !get_all_insert. by case_decide. Qed.

Lemma remove_insert n v h : hm_equiv (hm_remove n (hm_insert n v h)) (hm_remove n h).
Proof. intros m. rewrite !get_all_remove, get_all_insert. by case_decide. Qed.

Lemma get_insert n m v h :
  hm_get m (hm_insert n v h) = if decide (n = m) then Some v else hm_get m h.
Proof. unfold hm_get. rewrite get_all_insert. by case_decide. Qed.

Lemma get_remove n m h :
  hm_get m (hm_remove n h) = if decide (n = m) then None else hm_get m h.
Proof. unfold hm_get. rewrite get_all_remove. by case_decide. Qed.

Lemma get_empty n : hm_get n hm_empty = None.
Proof. unfold hm_get. by rewrite get_all_empty. Qed.

Lemma contains_get n h : hm_contains n h = match hm_get n h with Some _ => true | None => false end.
Proof. unfold hm_contains, hm_get. by destruct (hm_get_all n h). Qed.

Lemma is_empty_get_all h : hm_is_empty h = true ↔ ∀ n, hm_get_all n h = [].
Proof.
  unfold hm_is_empty. setoid_rewrite <- iter_get_all.
  destruct (hm_iter h) as [|[k v] l]; split; try done.
  intros Hall. specialize (Hall k). unfold vals in Hall.
  rewrite filter_cons_True in Hall by done. done.
Qed.

(** Inserting a list of pairs keeps, per name, the last value listed. *)
Lemma get_all_insert_all n l h :
  hm_get_all n (hm_insert_all l h) =
    match last (vals n l) with Some v => [v] | None => hm_get_all n h end.
Proof.
  unfold hm_insert_all, vals. revert h.
  induction l as [|[k v] l IH]; intros h; [done|]. cbn [fold_left fst snd]. rewrite IH.
  destruct (decide (k = n)) as [->|Hne].
  - rewrite filter_cons_True by done. rewrite fmap_cons, last_cons, get_all_insert_eq.
    by destruct (last _).
  - rewrite filter_cons_False by done. by rewrite get_all_insert_ne.
Qed.
End Laws.

#[export] Hint Rewrite @get_insert @get_remove @get_empty using typeclasses eauto : gate_rw.

(** Decides the lookups of concrete header names through inserts and removes. *)
Ltac simpl_headers :=
  repeat first
    [ progress autorewrite with gate_rw
    | rewrite decide_True by reflexivity
    | rewrite decide_False by (vm_compute; congruence) ].
