(* ===== verification/Libs.v ===== *)
(** Interfaces of the other third-party crates.

    One class per crate family; every operation is a parameter of the definitions that use it.
    [HeadersLib]: the typed headers of the [headers] crate.  [MimeLib]: [mime] and [mime_guess].
    [GlobLib]: [globset].  [RegexLib]: [regex_lite] and [aho_corasick].  [CodecLib]:
    [percent_encoding], [form_urlencoded], [bcrypt], [maud], [serde_json] and [chrono]. *)
From Stdlib Require Import ZArith Lia Ascii String.
From stdpp Require Import base list strings.
From S2P Require Import Prelude Http.
Local Open Scope string_scope.
Local Open Scope list_scope.

(** [std::ops::Bound<u64>], as [headers::Range::iter] yields it. *)
Inductive Bound : Type :=
| Included (n : Z)
| Excluded (n : Z)
| Unbounded.

Class MimeLib := {
  Mime : Type;
  (** [str::parse::<Mime>]. *)
  mime_parse : string → option Mime;
  (** [Mime::type_], [Mime::suffix], [Mime::essence_str], [get_param(CHARSET).is_some()]. *)
  mime_type : Mime → string;
  mime_suffix : Mime → option string;
  mime_essence : Mime → string;
  mime_has_charset : Mime → bool;
  (** [mime_guess::from_path(p).first_or_octet_stream()] from the file name, and the header
      text of a [ContentType]. *)
  mime_guess : string → Mime;
  mime_display : Mime → string;
}.

Class HeadersLib `{HttpLib, MimeLib} := {
  (** Header texts written by [typed_insert]. *)
  enc_content_length : Z → string;
  enc_last_modified : Z → string;
  enc_accept_ranges_bytes : string;
  enc_allow : list string → string;
  (** [ContentRange::bytes(start..end, len)] (an error for an invalid range) and
      [ContentRange::unsatisfied_bytes(len)]. *)
  enc_content_range : Z → Z → Z → option string;
  enc_content_range_unsatisfied : Z → string;
  (** [AccessControlAllowHeaders], [..ExposeHeaders] and [..AllowMethods] from an iterator. *)
  enc_comma_list : list string → string;
  (** [LastModified::from(SystemTime)]: an HTTP date has whole seconds. *)
  http_date : Z → Z;
  (** [typed_get] decoders. *)
  get_if_modified_since : HeaderMap → option Z;
  get_if_unmodified_since : HeaderMap → option Z;
  IfRange : Type;
  get_if_range : HeaderMap → option IfRange;
  get_range : HeaderMap → option (list (Bound * Bound));
  get_authorization_basic : HeaderMap → option (string * string);
  get_host_hostname : HeaderMap → option string;
  get_content_type : HeaderMap → option Mime;
  (** [IfModifiedSince::is_modified], [IfUnmodifiedSince::precondition_passes],
      [IfRange::is_modified(None, last_modified)]. *)
  since_is_modified : Z → Z → bool;
  precondition_passes : Z → Z → bool;
  if_range_is_modified : IfRange → option Z → bool;
  (** [Origin::try_from_parts(scheme, host, None)], printed. *)
  origin_try_from_parts : string → string → option string;
}.

Class GlobLib := {
  Glob : Type;
  (** [Glob::new] (and [GlobBuilder] with [literal_separator(true)]), [is_match], [regex]. *)
  glob_new : string → option Glob;
  glob_new_literal : string → option Glob;
  glob_is_match : Glob → string → bool;
  glob_regex : Glob → string;
}.

Class RegexLib := {
  Regex : Type;
  regex_new : string → option Regex;
  regex_is_match : Regex → string → bool;
  (** [Regex::captures]: group 0 is the match, absent groups are [None]. *)
  regex_captures : Regex → string → option (list (option string));
  (** [AhoCorasick::new(patterns)] then [try_replace_all(text, replacements)]. *)
  ac_new : list string → bool;
  ac_replace_all : list string → list string → string → option string;
}.

(** What [maud::html!] builds: the escapes are the renderer's business. *)
Inductive Markup : Type :=
| MDoctype
| MText (s : string)
| MElem (tag : string) (attrs : list (string * string)) (children : list Markup)
| MVoid (tag : string) (attrs : list (string * string)).

(** What serde gives to the JSON printer. *)
Inductive Json : Type :=
| JStr (s : string)
| JNum (n : Z)
| JObj (fields : list (string * Json))
| JArr (items : list Json).

Class CodecLib := {
  (** [percent_encoding::percent_decode_str] as bytes. *)
  percent_decode : string → string;
  (** [form_urlencoded::parse] and [form_urlencoded::byte_serialize]. *)
  form_parse : string → list (string * string);
  form_byte_serialize : string → string;
  (** [bcrypt::verify(password, hash)]. *)
  bcrypt_verify : string → string → result error bool;
  (** The text of a [maud] page. *)
  maud_render : list Markup → string;
  (** [percent_encode(bytes, NON_ALPHANUMERIC minus the kept characters)]. *)
  percent_encode : list ascii → string → string;
  (** [serde_json::to_string]. *)
  json_to_string : Json → result error string;
  (** [str::to_lowercase] (the Unicode tables) and [DateTime::format] in the server's zone and
      in UTC, of nanoseconds since the epoch. *)
  str_to_lowercase : string → string;
  format_local : string → Z → string;
  format_utc : string → Z → string;
}.

(** The ASCII letters and digits, which [percent_encode] always leaves alone. *)
Definition alphanumeric (c : ascii) : bool :=
  let n := nat_of_ascii c in
  (Nat.leb 48 n && Nat.leb n 57) || (Nat.leb 65 n && Nat.leb n 90) || (Nat.leb 97 n && Nat.leb n 122).

(** Percent encoding and decoding: decoding undoes the encoding, an encoded text holds nothing
    but letters, digits, kept characters and escapes, and an escape never spans a slash. *)
Class PercentLaws `{CodecLib} : Prop := {
  decode_nil : percent_decode "" = "";
  decode_slash a b : percent_decode (a +:+ "/" +:+ b) = percent_decode a +:+ "/" +:+ percent_decode b;
  decode_encode keep s : ("%" ∉ keep)%char → percent_decode (percent_encode keep s) = s;
  encode_chars keep s c :
    Str.mem c (percent_encode keep s) = true → alphanumeric c = true ∨ c = "%"%char ∨ c ∈ keep;
}.
