(* ===== verification/RefLibs.v ===== *)
(** Reference instances of the third-party interfaces.

    Concrete, executable functions with the documented behaviour of the interface, on the
    inputs the witnesses use: an association list for the header map, a small URI parser, an
    exact-match glob and regex.  They show that the hypotheses of the theorems can hold; no
    definition of the model depends on them. *)
From Stdlib Require Import ZArith Lia Ascii String.
From stdpp Require Import base list strings.
From S2P Require Import Prelude Http Libs.
Local Open Scope string_scope.
Local Open Scope list_scope.

(** * Header map: an association list *)

Module Assoc.
Abbreviation t := (list (string * string)).

Definition get_all (n : string) (h : t) : list string := (filter (λ kv, kv.1 = n) h).*2.
Definition remove (n : string) (h : t) : t := filter (λ kv, kv.1 ≠ n) h.
Definition insert (n v : string) (h : t) : t := remove n h ++ [(n, v)].

Lemma get_all_app n h1 h2 : get_all n (h1 ++ h2) = get_all n h1 ++ get_all n h2.
Proof. unfold get_all. by rewrite filter_app, fmap_app. Qed.

Lemma get_all_remove_eq n h : get_all n (remove n h) = [].
Proof.
  unfold get_all, remove. rewrite list_filter_filter.
  induction h as [|kv h IH]; [done|].
  rewrite filter_cons_False; [done | naive_solver].
Qed.

Lemma get_all_remove_ne n m h : n ≠ m → get_all m (remove n h) = get_all m h.
Proof.
  intros Hne. unfold get_all, remove. induction h as [|kv h IH]; [done|].
  destruct (decide (kv.1 = n)) as [Hk|Hk].
  - rewrite (filter_cons_False (λ kv, kv.1 ≠ n)) by naive_solver.
    rewrite (filter_cons_False (λ kv, kv.1 = m)) by congruence. done.
  - rewrite (filter_cons_True (λ kv, kv.1 ≠ n)) by done.
    destruct (decide (kv.1 = m)) as [Hm|Hm].
    + rewrite !(filter_cons_True (λ kv, kv.1 = m)) by done. rewrite !fmap_cons. by f_equal.
    + by rewrite !(filter_cons_False (λ kv, kv.1 = m)) by done.
Qed.
End Assoc.

(** * URIs: scheme, authority, path and query *)

Module RefUri.
Record t := mk { scheme : option string; authority : option string; pq : option string }.

Definition pq_path (s : string) : string :=
  match Str.split_once "?" s with Some (p, _) => p | None => s end.
Definition pq_query (s : string) : option string := snd <$> Str.split_once "?" s.

(** The authority ends at the first slash or question mark. *)
Fixpoint span_authority (s : string) : string * string :=
  match s with
  | "" => ("", "")
  | String x s' =>
      if (Ascii.eqb x "/" || Ascii.eqb x "?")%bool then ("", s)
      else let '(a, r) := span_authority s' in (String x a, r)
  end.

Definition ok_char (c : ascii) : bool :=
  let n := nat_of_ascii c in (Nat.ltb 32 n && Nat.ltb n 127)%bool.
Fixpoint ok_string (s : string) : bool :=
  match s with "" => true | String x s' => ok_char x && ok_string s' end.

Definition parse (s : string) : option t :=
  if (negb (ok_string s) || Str.is_empty s)%bool then None
  else match Str.split_once_str "://" s with
       | Some (sc, rest) =>
           let '(a, r) := span_authority rest in
           if Str.is_empty a then None
           else Some (mk (Some sc) (Some a) (Some (if Str.starts_with_char "/" r then r
                                                   else String "/" r)))
       | None =>
           if Str.starts_with_char "/" s then Some (mk None None (Some s))
           else Some (mk None (Some s) None)
       end.

Definition path (u : t) : string := match pq u with Some s => pq_path s | None => "" end.
Definition query (u : t) : option string := pq u ≫= pq_query.

(** [Authority::host]: without user information and port. *)
Definition host (a : string) : string :=
  let a := match Str.rsplit_once "@" a with Some (_, h) => h | None => a end in
  if Str.starts_with_char "[" a
  then match Str.split_once "]" a with Some (h, _) => h +:+ "]" | None => a end
  else match Str.split_once ":" a with Some (h, _) => h | None => a end.
Definition port (a : string) : option Z :=
  match Str.rsplit_once ":" a with Some (_, p) => Str.parse_uint u16_max p | None => None end.

Definition display (u : t) : string :=
  default "" ((λ s, s +:+ "://") <$> scheme u) +:+ default "" (authority u)
    +:+ default "" (pq u).
End RefUri.

Fixpoint visible (s : string) : bool :=
  match s with
  | "" => true
  | String x s' =>
      let n := nat_of_ascii x in
      ((Nat.leb 32 n && Nat.ltb n 127) || Nat.eqb n 9)%bool && visible s'
  end.

Definition ref_reason (z : Z) : option string :=
  match z with
  | 200 => Some "OK" | 400 => Some "Bad Request" | 401 => Some "Unauthorized"
  | 403 => Some "Forbidden" | 404 => Some "Not Found" | 405 => Some "Method Not Allowed"
  | 500 => Some "Internal Server Error" | 502 => Some "Bad Gateway"
  | 503 => Some "Service Unavailable" | _ => None
  end%Z.

#[export] Instance ref_http : HttpLib := {|
  HeaderMap := Assoc.t;
  hm_empty := [];
  hm_get_all := Assoc.get_all;
  hm_insert := Assoc.insert;
  hm_remove := Assoc.remove;
  hm_iter h := h;
  hv_valid := visible;
  hv_visible := visible;
  hname_valid s := negb (Str.is_empty s) && RefUri.ok_string s;
  method_valid s := negb (Str.is_empty s) && RefUri.ok_string s;
  status_valid z := ((100 <=? z) && (z <? 1000))%Z;
  status_reason := ref_reason;
  status_display z :=
    Str.of_uint z +:+ " " +:+ default "<unknown status code>" (ref_reason z);
  Uri := RefUri.t;
  uri_parse := RefUri.parse;
  uri_display := RefUri.display;
  uri_scheme := RefUri.scheme;
  uri_authority := RefUri.authority;
  uri_path_and_query := RefUri.pq;
  uri_path := RefUri.path;
  uri_query := RefUri.query;
  uri_host u := RefUri.host <$> RefUri.authority u;
  uri_port_u16 u := RefUri.authority u ≫= RefUri.port;
  uri_from_parts s a p :=
    if (match s, a, p with
        | Some _, Some _, Some _ | None, None, Some _ | None, Some _, None => true
        | _, _, _ => false end)
    then Some (RefUri.mk s a p) else None;
  authority_host := RefUri.host;
  pq_query := RefUri.pq_query;
  pq_valid := RefUri.ok_string;
|}.

#[export] Instance ref_http_laws : HttpLaws.
Proof.
  split; simpl.
  - done.
  - intros. unfold Assoc.insert. rewrite Assoc.get_all_app, Assoc.get_all_remove_eq.
    unfold Assoc.get_all. by rewrite filter_cons_True by done.
  - intros n m v h Hne. unfold Assoc.insert.
    rewrite Assoc.get_all_app, Assoc.get_all_remove_ne by done.
    unfold Assoc.get_all at 2. rewrite filter_cons_False by done. by rewrite app_nil_r.
  - apply Assoc.get_all_remove_eq.
  - apply Assoc.get_all_remove_ne.
  - done.
Qed.

(** * Globs and regular expressions *)

Module RefGlob.
(** [*] matches any sequence, every other character itself. *)
Fixpoint is_match (fuel : nat) (g s : string) : bool :=
  match fuel with
  | O => false
  | S f =>
      match g, s with
      | "", "" => true
      | "", _ => false
      | String "*" g', _ =>
          is_match f g' s || match s with "" => false | String _ s' => is_match f g s' end
      | String a g', String b s' => Ascii.eqb a b && is_match f g' s'
      | String _ _, "" => false
      end
  end.
End RefGlob.

#[export] Instance ref_glob : GlobLib := {|
  Glob := string;
  glob_new s := if Str.mem "[" s then None else Some s;
  glob_new_literal s := if Str.mem "[" s then None else Some s;
  glob_is_match g s := RefGlob.is_match (S (String.length g + String.length s)) g s;
  glob_regex g := "^" +:+ g +:+ "$";
|}.

Module RefRegex.
(** A literal prefix, and what follows it as the only group. *)
Definition captures (r s : string) : option (list (option string)) :=
  match Str.strip_prefix r s with Some rest => Some [Some s; Some rest] | None => None end.

Fixpoint first_pattern (ps rs : list string) (s : string) : option (string * string) :=
  match ps, rs with
  | p :: ps', r :: rs' =>
      match Str.strip_prefix p s with
      | Some rest => if Str.is_empty p then first_pattern ps' rs' s else Some (r, rest)
      | None => first_pattern ps' rs' s
      end
  | _, _ => None
  end.

Fixpoint replace_all (fuel : nat) (ps rs : list string) (s : string) : string :=
  match fuel with
  | O => s
  | S f =>
      match first_pattern ps rs s with
      | Some (r, rest) => r +:+ replace_all f ps rs rest
      | None => match s with "" => "" | String x s' => String x (replace_all f ps rs s') end
      end
  end.
End RefRegex.

#[export] Instance ref_regex : RegexLib := {|
  Regex := string;
  regex_new s := if Str.mem "[" s then None else Some s;
  regex_is_match r s := match Str.strip_prefix r s with Some _ => true | None => false end;
  regex_captures := RefRegex.captures;
  ac_new _ := true;
  ac_replace_all ps rs s :=
    if Nat.eqb (length ps) (length rs)
    then Some (RefRegex.replace_all (S (String.length s)) ps rs s) else None;
|}.

(** A header map of the reference instance from its pairs. *)
Definition ref_headers (l : list (string * string)) : @HeaderMap ref_http := l.

(** * Media types *)

Module RefMime.
Record t := mk { text : string; essence : string; charset : bool }.

Definition parse (s : string) : option t :=
  match Str.split ";" s with
  | e :: params =>
      let e := Str.to_ascii_lowercase (Str.trim e) in
      if Str.mem "/" e
      then Some (mk s e (existsb (λ p, Str.starts_with "charset=" (Str.to_ascii_lowercase (Str.trim p)))
                           params))
      else None
  | [] => None
  end.

Definition type_ (m : t) : string :=
  match Str.split_once "/" (essence m) with Some (a, _) => a | None => essence m end.
Definition suffix (m : t) : option string := snd <$> Str.rsplit_once "+" (essence m).

Definition of_essence (e : string) : t := mk e e false.
Definition guess (name : string) : t :=
  of_essence match Str.rsplit_once "." name with
             | Some (_, e) =>
                 if String.eqb e "html" then "text/html"
                 else if String.eqb e "txt" then "text/plain"
                 else if String.eqb e "css" then "text/css"
                 else if String.eqb e "json" then "application/json"
                 else "application/octet-stream"
             | None => "application/octet-stream"
             end.
End RefMime.

#[export] Instance ref_mime : MimeLib := {|
  Mime := RefMime.t;
  mime_parse := RefMime.parse;
  mime_type := RefMime.type_;
  mime_suffix := RefMime.suffix;
  mime_essence := RefMime.essence;
  mime_has_charset := RefMime.charset;
  mime_guess := RefMime.guess;
  mime_display := RefMime.text;
|}.

(** * Typed headers (dates are plain seconds) *)

Module RefHeaders.
Definition date (name : string) (h : @HeaderMap ref_http) : option Z :=
  hm_get name h ≫= Str.parse_uint u64_max.

Definition range_spec (s : string) : option (Bound * Bound) :=
  match Str.split_once "-" (Str.trim s) with
  | Some (a, b) =>
      match Str.parse_uint u64_max a, Str.parse_uint u64_max b with
      | Some a, Some b => Some (Included a, Included b)
      | Some a, None => if Str.is_empty b then Some (Included a, Unbounded) else None
      | None, Some b => if Str.is_empty a then Some (Unbounded, Included b) else None
      | None, None => None
      end
  | None => None
  end.
Definition range (h : @HeaderMap ref_http) : option (list (Bound * Bound)) :=
  match hm_get "range" h with
  | Some v => match Str.strip_prefix "bytes=" v with
              | Some r => Some (omap range_spec (Str.split "," r))
              | None => None
              end
  | None => None
  end.

Definition basic (h : @HeaderMap ref_http) : option (string * string) :=
  match hm_get "authorization" h with
  | Some v => match Str.strip_prefix "Basic " v with
              | Some c => Str.split_once ":" c
              | None => None
              end
  | None => None
  end.
End RefHeaders.

#[export] Instance ref_headers_lib : HeadersLib := {|
  enc_content_length := Str.of_uint;
  enc_last_modified := Str.of_uint;
  enc_accept_ranges_bytes := "bytes";
  enc_allow := Str.join ", ";
  enc_content_range a b len :=
    if (a <? b)%Z then Some ("bytes " +:+ Str.of_uint a +:+ "-" +:+ Str.of_uint (b - 1)%Z +:+ "/"
                               +:+ Str.of_uint len) else None;
  enc_content_range_unsatisfied len := "bytes */" +:+ Str.of_uint len;
  enc_comma_list := Str.join ", ";
  http_date t := (t / 1000000000)%Z;
  get_if_modified_since := RefHeaders.date "if-modified-since";
  get_if_unmodified_since := RefHeaders.date "if-unmodified-since";
  IfRange := Z;
  get_if_range := RefHeaders.date "if-range";
  get_range := RefHeaders.range;
  get_authorization_basic := RefHeaders.basic;
  get_host_hostname h := RefUri.host <$> hm_get "host" h;
  get_content_type h := hm_get "content-type" h ≫= RefMime.parse;
  since_is_modified since t := (since <? t)%Z;
  precondition_passes since t := (t <=? since)%Z;
  if_range_is_modified d lm := match lm with Some t => (d <? t)%Z | None => true end;
  origin_try_from_parts scheme host :=
    if Str.is_empty scheme || Str.is_empty host then None
    else Some (scheme +:+ "://" +:+ Str.trim_end_char "/" host);
|}.

(** * Percent encoding and forms *)

Module RefCodec.
Definition hex (c : ascii) : option nat :=
  let n := nat_of_ascii c in
  if (Nat.leb 48 n && Nat.leb n 57)%bool then Some (n - 48)
  else if (Nat.leb 65 n && Nat.leb n 70)%bool then Some (n - 55)
  else if (Nat.leb 97 n && Nat.leb n 102)%bool then Some (n - 87)
  else None.

Fixpoint percent_decode (s : string) : string :=
  match s with
  | "" => ""
  | String c s1 =>
      if Ascii.eqb c "%"
      then match s1 with
           | String a (String b s2) =>
               match hex a, hex b with
               | Some x, Some y => String (ascii_of_nat (16 * x + y)) (percent_decode s2)
               | _, _ => String c (percent_decode s1)
               end
           | _ => String c (percent_decode s1)
           end
      else String c (percent_decode s1)
  end.

Definition hex_digit (n : nat) : ascii :=
  ascii_of_nat (if Nat.ltb n 10 then 48 + n else 55 + n).

Fixpoint percent_encode (keep : list ascii) (s : string) : string :=
  match s with
  | "" => ""
  | String c s' =>
      if alphanumeric c || existsb (Ascii.eqb c) keep then String c (percent_encode keep s')
      else let n := nat_of_ascii c in
           String "%" (String (hex_digit (n / 16)) (String (hex_digit (n mod 16))
             (percent_encode keep s')))
  end.

Definition form_parse (s : string) : list (string * string) :=
  omap (λ p, if Str.is_empty p then None
             else Some (match Str.split_once "=" p with
                        | Some (k, v) => (percent_decode k, percent_decode v)
                        | None => (percent_decode p, "")
                        end)) (Str.split "&" s).

(** Markup and JSON without escapes. *)
Fixpoint render (m : Markup) : string :=
  match m with
  | MDoctype => "<!DOCTYPE html>"
  | MText s => s
  | MVoid tag _ => "<" +:+ tag +:+ ">"
  | MElem tag _ children => "<" +:+ tag +:+ ">" +:+ Str.join "" (map render children) +:+ "</" +:+ tag +:+ ">"
  end.
Fixpoint json (j : Json) : string :=
  match j with
  | JStr s => "'" +:+ s +:+ "'"
  | JNum n => Str.of_uint n
  | JObj fs => "{" +:+ Str.join "," (map (λ kv, kv.1 +:+ ":" +:+ json kv.2) fs) +:+ "}"
  | JArr l => "[" +:+ Str.join "," (map json l) +:+ "]"
  end.
End RefCodec.

#[export] Instance ref_codec : CodecLib := {|
  percent_decode := RefCodec.percent_decode;
  form_parse := RefCodec.form_parse;
  form_byte_serialize s := s;
  bcrypt_verify p h := Ok (String.eqb p h);
  maud_render l := Str.join "" (RefCodec.render <$> l);
  percent_encode := RefCodec.percent_encode;
  json_to_string j := Ok (RefCodec.json j);
  str_to_lowercase := Str.to_ascii_lowercase;
  format_local _ t := Str.of_uint t;
  format_utc _ t := Str.of_uint t;
|}.

Lemma hex_escape c :
  let n := nat_of_ascii c in
  RefCodec.hex (RefCodec.hex_digit (n / 16)) = Some (n / 16) ∧
  RefCodec.hex (RefCodec.hex_digit (n mod 16)) = Some (n mod 16) ∧
  ascii_of_nat (16 * (n / 16) + n mod 16) = c ∧
  alphanumeric (RefCodec.hex_digit (n / 16)) = true ∧
  alphanumeric (RefCodec.hex_digit (n mod 16)) = true.
Proof. destruct c as [[] [] [] [] [] [] [] []]; by split_and!. Qed.

Lemma ref_decode_slash a b :
  RefCodec.percent_decode (a +:+ "/" +:+ b) =
    RefCodec.percent_decode a +:+ "/" +:+ RefCodec.percent_decode b.
Proof.
  remember (String.length a) as n eqn:Hn. revert a Hn.
  induction n as [n IH] using lt_wf_ind. intros [|c a] Hn; [done|].
  assert (∀ a', String.length a' < n →
    RefCodec.percent_decode (a' +:+ "/" +:+ b) =
    RefCodec.percent_decode a' +:+ "/" +:+ RefCodec.percent_decode b) as IH' by eauto.
  clear IH. simpl in Hn. change (String c a +:+ "/" +:+ b) with (String c (a +:+ "/" +:+ b)).
  cbn [RefCodec.percent_decode]. destruct (Ascii.eqb c "%").
  2: { rewrite IH' by lia. done. }
  destruct a as [|x [|y a]].
  - change ("" +:+ "/" +:+ b) with (String "/" b). destruct b as [|y b]; [done|]. by destruct (RefCodec.hex y).
  - pose proof (IH' (String x "") ltac:(simpl in *; lia)) as IH1.
    change (String x "" +:+ "/" +:+ b) with (String x (String "/" b)) in *.
    cbn beta iota. rewrite IH1. by destruct (RefCodec.hex x).
  - change (String x (String y a) +:+ "/" +:+ b) with (String x (String y (a +:+ "/" +:+ b))).
    cbn beta iota. pose proof (IH' (String x (String y a))) as IH1.
    change (String x (String y a) +:+ "/" +:+ b) with (String x (String y (a +:+ "/" +:+ b))) in IH1.
    simpl in Hn. rewrite IH1 by (simpl; lia). rewrite IH' by lia.
    by destruct (RefCodec.hex x), (RefCodec.hex y).
Qed.

#[export] Instance ref_percent_laws : PercentLaws.
Proof.
  split; cbn [percent_decode percent_encode ref_codec].
  - done.
  - apply ref_decode_slash.
  - intros keep s Hkeep. induction s as [|c s IH]; [done|]. cbn [RefCodec.percent_encode].
    destruct (alphanumeric c || existsb (Ascii.eqb c) keep) eqn:E.
    + cbn [RefCodec.percent_decode]. destruct (Ascii.eqb_spec c "%") as [->|_]; [|by rewrite IH].
      exfalso. apply existsb_exists in E as (x & Hx & <-%Ascii.eqb_eq).
      by apply Hkeep, list_elem_of_In.
    + destruct (hex_escape c) as (H1 & H2 & H3 & _). cbv zeta. cbn [RefCodec.percent_decode].
      rewrite Ascii.eqb_refl, H1, H2, H3. by rewrite IH.
  - intros keep s c. induction s as [|x s IH]; [done|]. cbn [RefCodec.percent_encode].
    destruct (alphanumeric x || existsb (Ascii.eqb x) keep) eqn:E; cbn [Str.mem].
    + intros [->%Ascii.eqb_eq|Hm]%orb_true_iff; [|auto].
      apply orb_true_iff in E as [|(y & Hy & ->%Ascii.eqb_eq)%existsb_exists]; [by left|].
      right. right. by apply list_elem_of_In.
    + destruct (hex_escape x) as (_ & _ & _ & H4 & H5). cbv zeta in *. rewrite !orb_true_iff.
      intros [<-%Ascii.eqb_eq|[<-%Ascii.eqb_eq|[<-%Ascii.eqb_eq|Hm]]]; auto.
Qed.
