(* ===== verification/Path.v ===== *)
(** [std::path] on Unix.

    A path is the list its [components()] iterator yields: that is what equality, [push],
    [pop], [file_name], [strip_prefix] and [starts_with] of [Path]/[PathBuf] are defined on. *)
From Stdlib Require Import ZArith Lia Ascii String.
From stdpp Require Import base list strings.
From S2P Require Import Prelude.
Local Open Scope string_scope.
Local Open Scope list_scope.

(** [std::path::Component] (there is no [Prefix] on Unix). *)
Inductive component : Type :=
| RootDir
| CurDir
| ParentDir
| Normal (name : string).

#[export] Instance component_eq_dec : EqDecision component.
Proof. solve_decision. Defined.

Module Path.
Abbreviation t := (list component).

Definition piece (s : string) : option component :=
  if String.eqb s "" then None
  else if String.eqb s "." then None
  else if String.eqb s ".." then Some ParentDir
  else Some (Normal s).

(** [Path::new(s).components()]: empty and [.] pieces vanish, a leading [.] stays. *)
Definition parse (s : string) : t :=
  if Str.starts_with_char "/" s then RootDir :: omap piece (Str.split "/" s)
  else match Str.split "/" s with
       | p :: ps => if String.eqb p "." then CurDir :: omap piece ps else omap piece (p :: ps)
       | [] => []
       end.

Definition is_absolute (p : t) : bool :=
  match p with RootDir :: _ => true | _ => false end.

(** [PathBuf::push]: an absolute argument replaces the path. *)
Definition push (p q : t) : t :=
  if is_absolute q then q
  else match p, q with
       | [], _ => q
       | _, CurDir :: q' => p ++ q'
       | _, _ => p ++ q
       end.

(** [Path::parent] and [PathBuf::pop]. *)
Definition parent (p : t) : option t :=
  match last p with
  | None | Some RootDir => None
  | Some _ => Some (removelast p)
  end.
Definition pop (p : t) : t := default p (parent p).

Definition file_name (p : t) : option string :=
  match last p with Some (Normal s) => Some s | _ => None end.

(** [PathBuf::set_file_name], [Path::with_file_name]. *)
Definition set_file_name (n : string) (p : t) : t :=
  push (match file_name p with Some _ => pop p | None => p end) (parse n).

Fixpoint strip_prefix (p base : t) : option t :=
  match base, p with
  | [], _ => Some p
  | b :: base', c :: p' => if decide (b = c) then strip_prefix p' base' else None
  | _ :: _, [] => None
  end.

Definition starts_with (p base : t) : bool :=
  match strip_prefix p base with Some _ => true | None => false end.

(** [Path::extension] and [Path::file_stem]. *)
Definition extension (p : t) : option string :=
  match file_name p with
  | Some n => match Str.rsplit_once "." n with
              | Some (b, e) => if Str.is_empty b then None else Some e
              | None => None
              end
  | None => None
  end.
Definition file_stem (p : t) : option string :=
  match file_name p with
  | Some n => match Str.rsplit_once "." n with
              | Some (b, e) => if Str.is_empty b then Some n else Some b
              | None => Some n
              end
  | None => None
  end.
(** [Path::with_extension] for a non-empty extension. *)
Definition with_extension (e : string) (p : t) : t :=
  match file_stem p with Some n => set_file_name (n +:+ "." +:+ e) p | None => p end.

Definition component_text (c : component) : string :=
  match c with RootDir => "" | CurDir => "." | ParentDir => ".." | Normal s => s end.

(** [Path::to_str] of a path that is valid UTF-8; [Path::display]. *)
Definition text (p : t) : string :=
  match p with
  | [RootDir] => "/"
  | _ => Str.join "/" (component_text <$> p)
  end.
Definition to_str (p : t) : option string :=
  if Utf8.valid (text p) then Some (text p) else None.

(** A name the parser yields as a [Normal] component. *)
Definition proper_name (s : string) : Prop :=
  s ≠ "" ∧ s ≠ "." ∧ s ≠ ".." ∧ Str.mem "/" s = false.
End Path.

(** * Lemmas *)

Lemma split_pieces_no_sep c s p : p ∈ Str.split c s → Str.mem c p = false.
Proof.
  revert p; induction s as [|x s IH]; intros p; simpl.
  - intros ->%list_elem_of_singleton. done.
  - destruct (Ascii.eqb_spec x c) as [->|Hne].
    + intros [->|Hp]%elem_of_cons; [done | auto].
    + destruct (Str.split c s) as [|h t] eqn:E.
      * intros ->%list_elem_of_singleton. simpl. by apply Ascii.eqb_neq in Hne as ->.
      * intros [->|Hp]%elem_of_cons.
        -- simpl. apply Ascii.eqb_neq in Hne as ->. apply IH. left.
        -- apply IH. by right.
Qed.

Lemma split_single c s : Str.mem c s = false → Str.split c s = [s].
Proof.
  induction s as [|x s IH]; simpl; [done|].
  intros [Hx Hs]%orb_false_iff. by rewrite Hx, IH.
Qed.

Lemma piece_Normal s n : Path.piece s = Some (Normal n) → n = s ∧ s ≠ "" ∧ s ≠ "." ∧ s ≠ "..".
Proof.
  unfold Path.piece.
  destruct (String.eqb_spec s ""), (String.eqb_spec s "."), (String.eqb_spec s "..");
    intros; by simplify_eq.
Qed.

Lemma piece_not_root s : Path.piece s ≠ Some RootDir ∧ Path.piece s ≠ Some CurDir.
Proof. unfold Path.piece. by repeat case_match. Qed.

Lemma parse_Normal s n : Normal n ∈ Path.parse s → Path.proper_name n.
Proof.
  unfold Path.parse, Path.proper_name. intros Hin.
  assert (∃ p, p ∈ Str.split "/" s ∧ Path.piece p = Some (Normal n)) as (p & Hp & Hn).
  { case_match.
    - apply elem_of_cons in Hin as [|Hin]; [done|].
      by apply list_elem_of_omap in Hin as (p & ? & ?); eauto.
    - destruct (Str.split "/" s) as [|p ps]; [by apply elem_of_nil in Hin|].
      case_match.
      + apply elem_of_cons in Hin as [|Hin]; [done|].
        apply list_elem_of_omap in Hin as (q & ? & ?). exists q. split; [by right | done].
      + by apply list_elem_of_omap in Hin as (q & ? & ?); eauto. }
  apply piece_Normal in Hn as (-> & ? & ? & ?).
  eauto using split_pieces_no_sep.
Qed.

Lemma starts_with_char_mem c s : Str.mem c s = false → Str.starts_with_char c s = false.
Proof. destruct s; simpl; [done|]. by intros [? ?]%orb_false_iff. Qed.

Lemma parse_proper n : Path.proper_name n → Path.parse n = [Normal n].
Proof.
  intros (He & Hd & Hdd & Hs). unfold Path.parse.
  rewrite starts_with_char_mem, split_single by done.
  apply String.eqb_neq in Hd as Hd'. rewrite Hd'. simpl. unfold Path.piece.
  apply String.eqb_neq in He as ->. apply String.eqb_neq in Hdd as ->. by rewrite Hd'.
Qed.

Lemma push_Normal p n : Path.push p [Normal n] = p ++ [Normal n].
Proof. by destruct p. Qed.

Lemma file_name_snoc p n : Path.file_name (p ++ [Normal n]) = Some n.
Proof. unfold Path.file_name. by rewrite last_snoc. Qed.

Lemma pop_snoc p n : Path.pop (p ++ [Normal n]) = p.
Proof. unfold Path.pop, Path.parent. rewrite last_snoc. simpl. by rewrite removelast_last. Qed.

Lemma set_file_name_snoc p m n :
  Path.proper_name m → Path.set_file_name m (p ++ [Normal n]) = p ++ [Normal m].
Proof.
  intros Hm. unfold Path.set_file_name.
  by rewrite file_name_snoc, pop_snoc, parse_proper, push_Normal.
Qed.

Lemma strip_prefix_app base p : Path.strip_prefix (base ++ p) base = Some p.
Proof. induction base as [|b base IH]; simpl; [by destruct p|]. by rewrite decide_True by done. Qed.

Lemma strip_prefix_Some p base q : Path.strip_prefix p base = Some q ↔ p = base ++ q.
Proof.
  split; [|intros ->; apply strip_prefix_app].
  revert p; induction base as [|b base IH]; intros [|c p]; simpl; intros Hp; simplify_eq; try done.
  case_decide; subst; [|done]. f_equal. auto.
Qed.

Lemma starts_with_spec p base : Path.starts_with p base = true ↔ base `prefix_of` p.
Proof.
  unfold Path.starts_with, prefix. split.
  - destruct (Path.strip_prefix p base) as [q|] eqn:E; intros; [|done].
    exists q. by apply strip_prefix_Some.
  - intros [k ->]. by rewrite strip_prefix_app.
Qed.

(** ** A path and its text *)

(** The shape of what [parse] yields: the root or a dot at the head only, and proper names. *)
Definition inner (c : component) : Prop :=
  match c with ParentDir => True | Normal n => Path.proper_name n | RootDir | CurDir => False end.
Definition parsed (p : Path.t) : Prop :=
  match p with (RootDir | CurDir) :: q => Forall inner q | _ => Forall inner p end.

Lemma piece_inner l c : Forall (λ s, Str.mem "/" s = false) l → c ∈ omap Path.piece l → inner c.
Proof.
  intros Hl (s & Hs & Hc)%list_elem_of_omap. rewrite Forall_forall in Hl. specialize (Hl _ Hs).
  destruct (piece_not_root s) as [Hr Hd]. destruct c as [| | |n]; [congruence|congruence|exact I|].
  by apply piece_Normal in Hc as (-> & ? & ? & ?).
Qed.

Lemma parse_parsed s : parsed (Path.parse s).
Proof.
  assert (Forall (λ p, Str.mem "/" p = false) (Str.split "/" s)) as Hs
    by (apply Forall_forall; intros p; apply split_pieces_no_sep).
  assert (∀ l, Forall (λ p, Str.mem "/" p = false) l → Forall inner (omap Path.piece l)) as Hin
    by (intros l Hl; apply Forall_forall; intros c; by apply piece_inner).
  unfold Path.parse. destruct (Str.starts_with_char "/" s); [by apply Hin|].
  destruct (Str.split "/" s) as [|p ps]; [constructor|].
  destruct (String.eqb p "."); [by apply Hin, (Forall_inv_tail Hs)|].
  specialize (Hin _ Hs). unfold parsed. destruct (omap _ (p :: ps)) as [|c q]; [constructor|].
  pose proof (Forall_inv Hin). by destruct c.
Qed.

Lemma parsed_app p q : parsed p → Forall inner q → p ≠ [] → parsed (p ++ q).
Proof. intros Hp Hq Hn. destruct p as [|c p]; [done|].
  destruct c; [by apply Forall_app..|change (Forall inner ((ParentDir :: p) ++ q))|change (Forall inner ((Normal name :: p) ++ q))]; by apply Forall_app. Qed.

Lemma inner_text c : inner c →
  Str.mem "/" (Path.component_text c) = false ∧ Path.piece (Path.component_text c) = Some c ∧
  Path.component_text c ≠ "." .
Proof.
  destruct c as [| | |n]; [done|done|done|]. intros (He & Hd & Hdd & Hs). cbn [Path.component_text].
  unfold Path.piece. by rewrite !(proj2 (String.eqb_neq _ _)).
Qed.

Lemma split_join x l :
  Forall (λ s, Str.mem "/" s = false) (x :: l) → Str.split "/" (Str.join "/" (x :: l)) = x :: l.
Proof.
  revert x. induction l as [|y l IH]; intros x [Hx Hl]%Forall_cons; [by apply split_single|].
  change (Str.join "/" (x :: y :: l)) with (x +:+ String "/" (Str.join "/" (y :: l))).
  by rewrite split_app, split_single, IH.
Qed.

Lemma omap_piece_texts p : Forall inner p → omap Path.piece (Path.component_text <$> p) = p.
Proof.
  induction 1 as [|c p Hc _ IH]; [done|]. cbn [fmap list_fmap omap list_omap].
  destruct (inner_text c Hc) as (_ & -> & _). by f_equal.
Qed.

Lemma texts_no_sep p : Forall inner p → Forall (λ s, Str.mem "/" s = false) (Path.component_text <$> p).
Proof. intros Hp. apply Forall_fmap. eapply Forall_impl; [exact Hp|]. intros c Hc. by apply inner_text. Qed.

(** Parsing the text of a path gives the path back. *)
Lemma parse_text p : parsed p → Path.parse (Path.text p) = p.
Proof.
  assert (∀ c q, inner c → Forall inner q →
            Path.parse (Str.join "/" (Path.component_text <$> (c :: q))) = c :: q) as Hinner.
  { intros c q Hc Hq. destruct (inner_text c Hc) as (Hs & Hp & Hd). unfold Path.parse. rewrite fmap_cons.
    rewrite split_join by (apply (texts_no_sep (c :: q)); by constructor).
    assert (Str.starts_with_char "/" (Str.join "/" (Path.component_text c :: (Path.component_text <$> q))) = false) as ->.
    { destruct (Path.component_text c) as [|a t] eqn:E; [done|].
      simpl in Hs. apply orb_false_iff in Hs as [Ha _]. by destruct q. }
    rewrite (proj2 (String.eqb_neq _ _)) by done. 
    apply (omap_piece_texts (c :: q)). by constructor. }
  intros Hp. destruct p as [|[| | |n] [|c q]]; try done.
  - change (Path.parse ("/" +:+ Str.join "/" (Path.component_text <$> c :: q)) = RootDir :: c :: q).
    unfold Path.parse. change ("/" +:+ ?t) with ("" +:+ String "/" t).
    rewrite fmap_cons, split_app, split_join by by apply (texts_no_sep (c :: q)). cbn. f_equal.
    by apply (omap_piece_texts (c :: q)).
  - change (Path.parse (Str.join "/" (Path.component_text <$> CurDir :: c :: q)) = CurDir :: c :: q).
    unfold Path.parse. rewrite !fmap_cons, split_join
      by (constructor; [done|]; by apply (texts_no_sep (c :: q))).
    cbn. f_equal. by apply (omap_piece_texts (c :: q)).
  - apply Forall_cons in Hp as [Hc Hq]. by apply (Hinner ParentDir (c :: q)).
  - apply Forall_cons in Hp as [Hc Hq]. by apply (Hinner (Normal n) []).
  - apply Forall_cons in Hp as [Hc Hq]. by apply (Hinner (Normal n) (c :: q)).
Qed.

(** So two paths with one text are one path. *)
Lemma to_str_inj p q key :
  parsed p → parsed q → Path.to_str p = Some key → Path.to_str q = Some key → p = q.
Proof.
  unfold Path.to_str. intros Hp Hq. destruct (Utf8.valid (Path.text p)); [|done].
  destruct (Utf8.valid (Path.text q)); [|done]. intros [= <-] [= He].
  by rewrite <- (parse_text p Hp), <- (parse_text q Hq), He.
Qed.
