(* ===== verification/Fs.v ===== *)
(** The file system and the helpers over it: [fs/path.rs], [fs/meta.rs], [fs/stream.rs] and
    [helpers.rs].

    [Module Fs] models what the program asks of [std::fs] on Unix: a tree of files, directories
    and symbolic links addressed by absolute name lists, path resolution (at most 40 links, as
    Linux does), [metadata], [symlink_metadata], [canonicalize], [read], [File::open] and
    [read_dir].  [Module PathExt], [Module Meta], [Module Stream] and [Module Helpers] are the
    translated files. *)
From Stdlib Require Import ZArith Lia Ascii String.
From stdpp Require Import base list strings gmap.
From S2P Require Import Prelude Http Libs Path.
Local Open Scope string_scope.
Local Open Scope list_scope.
Local Open Scope nat_scope.

(** * The file system *)

(** [std::io::ErrorKind], as far as the program distinguishes it. *)
Inductive io_error := NotFound | PermissionDenied | OtherError.

(** A directory lists its entries in [read_dir] order; times are nanoseconds since the epoch
    ([None]: the platform cannot tell). *)
Inductive node : Type :=
| NFile (content : string) (modified : option Z) (readable : bool)
| NDir (entries : list string) (modified : option Z) (readable : bool)
| NLink (target : string) (modified : option Z).

(** [std::fs::Metadata]. *)
Record Metadata := mkMetadata {
  md_len : Z;
  md_is_dir : bool;
  md_is_file : bool;
  md_is_symlink : bool;
  md_modified : option Z;
  md_blksize : Z;
}.

(** [std::fs::File] opened for reading; a directory can be opened, reading it fails. *)
Record File := mkFile { fl_data : option string }.

Module Fs.

Record t := mkFs {
  nodes : gmap (list string) node;
  cwd : list string;
  blksize : Z;
}.

Definition node_at (fs : t) (p : list string) : option node :=
  match p with
  | [] => Some (default (NDir [] None true) (nodes fs !! []))
  | _ => nodes fs !! p
  end.

(** Linux's [MAXSYMLINKS]. *)
Definition max_links : nat := 40.

(** Resolves [todo] from the directory [cur]; [links] is how many links may still be followed,
    [follow] says whether a link in last position is.  The result keeps the remaining count. *)
Fixpoint walk (fs : t) (follow : bool) (links : nat) (cur : list string) (todo : Path.t)
    : result io_error (list string * nat) :=
  (fix go (cur : list string) (todo : Path.t) : result io_error (list string * nat) :=
     match todo with
     | [] => Ok (cur, links)
     | RootDir :: rest => go [] rest
     | CurDir :: rest => go cur rest
     | ParentDir :: rest => go (removelast cur) rest
     | Normal n :: rest =>
         match node_at fs (cur ++ [n]) with
         | None => Err NotFound
         | Some (NDir _ _ _) => go (cur ++ [n]) rest
         | Some (NFile _ _ _) =>
             match rest with [] => Ok (cur ++ [n], links) | _ => Err OtherError end
         | Some (NLink target _) =>
             if match rest with [] => negb follow | _ => false end
             then Ok (cur ++ [n], links)
             else match links with
                  | O => Err OtherError
                  | S links' => walk fs follow links' cur (Path.parse target ++ rest)
                  end
         end
     end) cur todo.

(** Resolution of a path; an empty path does not exist. *)
Definition resolve (fs : t) (follow : bool) (p : Path.t) : result io_error (list string) :=
  match p with
  | [] => Err NotFound
  | _ => Res.map fst (walk fs follow max_links (cwd fs) p)
  end.

Definition node_len (n : node) : Z :=
  match n with
  | NFile c _ _ => Z.of_nat (String.length c)
  | NDir es _ _ => 4096
  | NLink target _ => Z.of_nat (String.length target)
  end.
Definition node_modified (n : node) : option Z :=
  match n with NFile _ m _ | NDir _ m _ | NLink _ m => m end.
Definition node_metadata (fs : t) (n : node) : Metadata := {|
  md_len := node_len n;
  md_is_dir := match n with NDir _ _ _ => true | _ => false end;
  md_is_file := match n with NFile _ _ _ => true | _ => false end;
  md_is_symlink := match n with NLink _ _ => true | _ => false end;
  md_modified := node_modified n;
  md_blksize := blksize fs;
|}.

Definition get (fs : t) (follow : bool) (p : Path.t) : result io_error node :=
  let? q := resolve fs follow p in Res.of_option NotFound (node_at fs q).

(** [std::fs::metadata], [std::fs::symlink_metadata], [Path::canonicalize]. *)
Definition metadata (fs : t) (p : Path.t) : result io_error Metadata :=
  Res.map (node_metadata fs) (get fs true p).
Definition symlink_metadata (fs : t) (p : Path.t) : result io_error Metadata :=
  Res.map (node_metadata fs) (get fs false p).
Definition absolute (names : list string) : Path.t := RootDir :: (Normal <$> names).
Definition canonicalize (fs : t) (p : Path.t) : result io_error Path.t :=
  Res.map absolute (resolve fs true p).

(** [Path::exists], [is_dir], [is_file]. *)
Definition exists_ (fs : t) (p : Path.t) : bool := Res.is_ok (metadata fs p).
Definition is_dir (fs : t) (p : Path.t) : bool :=
  match metadata fs p with Ok m => md_is_dir m | Err _ => false end.
Definition is_file (fs : t) (p : Path.t) : bool :=
  match metadata fs p with Ok m => md_is_file m | Err _ => false end.

(** [File::open] and [std::fs::read]. *)
Definition open (fs : t) (p : Path.t) : result io_error File :=
  let? n := get fs true p in
  match n with
  | NFile c _ true => Ok (mkFile (Some c))
  | NDir _ _ true => Ok (mkFile None)
  | NFile _ _ false | NDir _ _ false => Err PermissionDenied
  | NLink _ _ => Err OtherError
  end.
Definition read (fs : t) (p : Path.t) : result io_error string :=
  let? f := open fs p in Res.of_option OtherError (fl_data f).

(** [std::fs::read_dir]: the entry names, in the directory's order. *)
Definition read_dir (fs : t) (p : Path.t) : result io_error (list string) :=
  let? n := get fs true p in
  match n with
  | NDir es _ true => Ok es
  | NDir _ _ false => Err PermissionDenied
  | _ => Err OtherError
  end.
End Fs.

(** * [helpers.rs] *)

Module Helpers.
Section Helpers.
Context (fs : Fs.t).

(** [get_valid_dirpath]. *)
Definition get_valid_dirpath (v : Path.t) : result error Path.t :=
  if negb (Fs.exists_ fs v)
  then Err ["path " +:+ Path.text v +:+ " was not found or inaccessible"]
  else if negb (Fs.is_dir fs v)
  then Err ["path " +:+ Path.text v +:+ " is not a valid directory"]
  else Ok v.

(** [read_bytes], [read_bytes_default], [read_file]. *)
Definition read_bytes (path : Path.t) : result error string :=
  Res.of_option ["failed to read file `" +:+ Path.text path +:+ "`"] (Res.ok (Fs.read fs path)).
Definition read_bytes_default (path : Path.t) : string :=
  default "" (Res.ok (Fs.read fs path)).
Definition read_file (path : Path.t) : result error string :=
  let? b := read_bytes path in
  if Utf8.valid b then Ok b
  else Err ["path at `" +:+ Path.text path +:+ "` was not valid utf-8"].
End Helpers.
End Helpers.

(** [serde_ignored::Path] and [helpers::stringify]. *)
Inductive serde_path : Type :=
| SRoot
| SSeq (parent : serde_path) (index : Z)
| SMap (parent : serde_path) (key : string)
| SSome (parent : serde_path)
| SNewtypeVariant (parent : serde_path)
| SNewtypeStruct (parent : serde_path).

Fixpoint stringify (dst : string) (path : serde_path) : string :=
  match path with
  | SRoot => dst
  | SSeq parent index =>
      let dst := stringify dst parent in
      (if Str.is_empty dst then dst else dst +:+ ".") +:+ Str.of_uint index
  | SMap parent key =>
      let dst := stringify dst parent in
      (if Str.is_empty dst then dst else dst +:+ ".") +:+ key
  | SSome parent | SNewtypeVariant parent | SNewtypeStruct parent => stringify dst parent
  end.

(** * [fs/path.rs] *)

Module PathExt.

(** [is_hidden]: [to_str] drops the names that are not UTF-8. *)
Definition is_hidden (p : Path.t) : bool :=
  existsb (Str.starts_with_char ".")
    (omap (λ c, match c with
                | Normal s => if Utf8.valid s then Some s else None
                | _ => None
                end) p).

(** The loop of [contains_symlink]. *)
Fixpoint contains_symlink_from (fs : Fs.t) (current : Path.t) (cs : Path.t) : result error bool :=
  match cs with
  | [] => Ok false
  | Normal c :: cs' =>
      let current := Path.push current [Normal c] in
      match Fs.symlink_metadata fs current with
      | Err _ => Err ["unable to get metadata for path '" +:+ Path.text current +:+ "'"]
      | Ok meta => if md_is_symlink meta then Ok true else contains_symlink_from fs current cs'
      end
  | _ :: cs' => contains_symlink_from fs current cs'
  end.
Definition contains_symlink (fs : Fs.t) (p base : Path.t) : result error bool :=
  contains_symlink_from fs base p.

Section Sanitize.
Context `{CodecLib}.

(** [decode_tail_path]. *)
Definition decode_tail_path (tail : string) : Path.t :=
  Path.parse (percent_decode (Str.trim_start_char "/" tail)).

Definition is_normal (c : component) : bool := match c with Normal _ => true | _ => false end.

(** The loop of [sanitize_path]. *)
Fixpoint sanitize_components (full_path : Path.t) (cs : Path.t) : Path.t :=
  match cs with
  | [] => full_path
  | Normal comp :: cs' =>
      sanitize_components
        (if forallb is_normal (Path.parse comp) then Path.push full_path (Path.parse comp)
         else full_path) cs'
  | _ :: cs' => sanitize_components full_path cs'
  end.

(** [sanitize_path]: it always returns [Ok]. *)
Definition sanitize_path (base : Path.t) (tail : string) : result Z Path.t :=
  Ok (sanitize_components base (decode_tail_path tail)).
End Sanitize.
End PathExt.

(** * [fs/meta.rs] *)

Module Meta.
Section Meta.
Context (fs : Fs.t).

(** [try_metadata]: any failure is a 404. *)
Definition try_metadata (file_path : Path.t) : result Z (Metadata * bool) :=
  match Fs.metadata fs file_path with
  | Ok meta => Ok (meta, md_is_dir meta)
  | Err _ => Err 404%Z
  end.

(** [try_metadata_with_html_suffix]: the path comes back as the code leaves it. *)
Definition try_metadata_with_html_suffix (file_path : Path.t) : Path.t * option Metadata :=
  match Path.file_name file_path with
  | Some filename =>
      let file_path := Path.set_file_name (filename +:+ ".html") file_path in
      match try_metadata file_path with
      | Ok (meta, _) => (file_path, Some meta)
      | Err _ => (Path.set_file_name filename file_path, None)
      end
  | None => (file_path, None)
  end.

Definition try_path (path : Path.t) : option Path.t :=
  match try_metadata path with Ok (_, false) => Some path | _ => None end.

Fixpoint try_suffixes (file_path : Path.t) (filename : string) (suffixes : list string)
    : option Path.t :=
  match suffixes with
  | [] => None
  | suffix :: suffixes' =>
      match try_path (Path.set_file_name (filename +:+ suffix) file_path) with
      | Some found => Some found
      | None => try_suffixes file_path filename suffixes'
      end
  end.

(** [try_markdown_variant]. *)
Definition try_markdown_variant (file_path : Path.t) : option Path.t :=
  match match Path.file_name file_path with
        | Some filename => try_suffixes file_path filename [".md"; ".html.md"]
        | None => None
        end with
  | Some found => Some found
  | None => try_path (Path.push file_path [Normal "index.html.md"])
  end.
End Meta.
End Meta.

(** * [fs/stream.rs] *)

Module Stream.

Definition DEFAULT_READ_BUF_SIZE : Z := 4096.

(** [get_block_size] and [optimal_buf_size]. *)
Definition get_block_size (m : Metadata) : Z := Z.max (md_blksize m) DEFAULT_READ_BUF_SIZE.
Definition optimal_buf_size (m : Metadata) : Z := Z.min (get_block_size m) (md_len m).

(** A reader: what it still has to deliver, and how much it is willing to give at each call.
    [read] returns at least one byte while there is data and room, as [Read] promises. *)
Record reader := mkReader { rd_data : string; rd_plan : list nat }.

Definition read_len (r : reader) (room : nat) : nat :=
  let most := Nat.min room (String.length (rd_data r)) in
  match rd_plan r with
  | [] => most
  | k :: _ => Nat.min most (Nat.max 1 k)
  end.

Definition str_take (n : nat) (s : string) : string := String.substring 0 n s.
Definition str_drop (n : nat) (s : string) : string :=
  String.substring n (String.length s - n) s.

Definition read (r : reader) (room : nat) : string * reader :=
  let n := read_len r room in
  (str_take n (rd_data r), mkReader (str_drop n (rd_data r)) (tail (rd_plan r))).

(** [FileStream]. *)
Record FileStream := mkFileStream { fst_reader : reader; fst_buf_size : Z }.

(** [poll_next] on a reader that does not fail: [None] ends the stream. *)
Definition poll_next (s : FileStream) : option string * FileStream :=
  let '(chunk, r) := read (fst_reader s) (Z.to_nat (fst_buf_size s)) in
  let s := mkFileStream r (fst_buf_size s) in
  if (String.length chunk =? 0)%nat then (None, s) else (Some chunk, s).

(** What a consumer that polls to the end gets; [fuel] bounds the polls. *)
Fixpoint drain (fuel : nat) (s : FileStream) : option (list string) :=
  match fuel with
  | O => None
  | S f =>
      match poll_next s with
      | (None, _) => Some []
      | (Some chunk, s') => cons chunk <$> drain f s'
      end
  end.
End Stream.

(** * Path resolution *)

Section WalkLemmas.
Context (fs : Fs.t).

(** One step of the inner loop, as an equation of [walk] itself. *)
Lemma walk_unfold follow links cur todo :
  Fs.walk fs follow links cur todo =
  match todo with
  | [] => Ok (cur, links)
  | RootDir :: rest => Fs.walk fs follow links [] rest
  | CurDir :: rest => Fs.walk fs follow links cur rest
  | ParentDir :: rest => Fs.walk fs follow links (removelast cur) rest
  | Normal n :: rest =>
      match Fs.node_at fs (cur ++ [n]) with
      | None => Err NotFound
      | Some (NDir _ _ _) => Fs.walk fs follow links (cur ++ [n]) rest
      | Some (NFile _ _ _) =>
          match rest with [] => Ok (cur ++ [n], links) | _ => Err OtherError end
      | Some (NLink target _) =>
          if match rest with [] => negb follow | _ => false end
          then Ok (cur ++ [n], links)
          else match links with
               | O => Err OtherError
               | S links' => Fs.walk fs follow links' cur (Path.parse target ++ rest)
               end
      end
  end.
Proof. destruct links, todo as [|[| | |n] rest]; reflexivity. Qed.

(** What may follow a resolved prefix: nothing, unless the prefix is a directory. *)
Definition is_dir_at (p : list string) : bool :=
  match Fs.node_at fs p with Some (NDir _ _ _) => true | _ => false end.

(** The names of a path with only [Normal] components. *)
Definition normals (names : list string) : Path.t := Normal <$> names.

End WalkLemmas.

(** [resolve] of a base directory followed by more: the walk continues from the base. *)
Lemma walk_app_dir fs follow links cur p q rest l :
  rest ≠ [] → Fs.walk fs true links cur p = Ok (q, l) → is_dir_at fs q = true →
  Fs.walk fs follow links cur (p ++ rest) = Fs.walk fs follow l q rest.
Proof.
  intros Hrest. revert cur p. induction links as [links IHlinks] using lt_wf_ind.
  intros cur p. revert cur. induction p as [|c p IH]; intros cur; rewrite walk_unfold.
  { intros [= <- <-] _. done. }
  rewrite (walk_unfold fs follow). destruct c as [| | |n]; simpl; auto.
  destruct (Fs.node_at fs (cur ++ [n])) as [[c m r|es m r|t m]|] eqn:En; auto; try done.
  - destruct p as [|c' p]; simpl; [|done].
    intros [= <- <-]. unfold is_dir_at. by rewrite En.
  - intros Hw Hd. destruct (p ++ rest) as [|c' rest'] eqn:Epr.
    { by apply app_eq_nil in Epr as [_ ?]. }
    assert (match links with
            | 0 => Err OtherError
            | S links' => Fs.walk fs true links' cur (Path.parse t ++ p)
            end = Ok (q, l)) as Hw' by (by destruct p).
    destruct links as [|links]; [done|].
    rewrite <- Epr, app_assoc. apply IHlinks; [lia | done | done].
Qed.

(** No component named by [names] below the directory [b] is a link. *)
Definition no_link_below (fs : Fs.t) (b : list string) (names : list string) : Prop :=
  ∀ k n, names !! k = Some n →
    ∃ nd, Fs.node_at fs (b ++ take k names ++ [n]) = Some nd ∧ ∀ t m, nd ≠ NLink t m.

Lemma no_link_cons fs b n names :
  no_link_below fs b (n :: names) →
  (∃ nd, Fs.node_at fs (b ++ [n]) = Some nd ∧ ∀ t m, nd ≠ NLink t m) ∧
  no_link_below fs (b ++ [n]) names.
Proof.
  intros Hall. split; [exact (Hall 0 n eq_refl)|]. intros k n' Hk.
  destruct (Hall (S k) n' Hk) as (nd & Hnd & ?). exists nd. split; [|done].
  by rewrite <- Hnd, <- app_assoc.
Qed.

Lemma no_link_snoc fs b names n nd :
  no_link_below fs b names → Fs.node_at fs (b ++ names ++ [n]) = Some nd →
  (∀ t m, nd ≠ NLink t m) → no_link_below fs b (names ++ [n]).
Proof.
  intros Hall Hnd Hlink k n' [Hk|[Hge Hk]]%lookup_app_Some.
  - rewrite take_app_le by (apply lookup_lt_Some in Hk; lia). by apply Hall.
  - apply list_lookup_singleton_Some in Hk as [Hk <-].
    rewrite take_app_le, take_ge by lia. by exists nd.
Qed.

(** A walk over names none of which (the last one apart) is a link stays literal. *)
Lemma walk_names fs follow links cur names n q l :
  no_link_below fs cur names →
  (follow = true → ∀ t m, Fs.node_at fs (cur ++ names ++ [n]) ≠ Some (NLink t m)) →
  Fs.walk fs follow links cur (normals (names ++ [n])) = Ok (q, l) → q = cur ++ names ++ [n].
Proof.
  revert cur. induction names as [|n0 names IH]; intros cur Hall Hlast; rewrite walk_unfold; simpl.
  - destruct (Fs.node_at fs (cur ++ [n])) as [[c m r|es m r|t m]|] eqn:En; [|rewrite walk_unfold|..];
      try (intros; by simplify_eq).
    destruct follow; simpl; [|by intros [= <- <-]]. by destruct (Hlast eq_refl t m).
  - apply no_link_cons in Hall as [(nd & Hnd & Hlink) Hall]. rewrite Hnd.
    destruct nd as [c m r|es m r|t m]; [by destruct names| |by destruct (Hlink t m)].
    intros Hw. apply IH in Hw as ->; [by rewrite <- app_assoc|done|].
    intros Hf t m'. rewrite <- app_assoc. by apply Hlast.
Qed.

(** A successful check of [contains_symlink] on names below a base directory. *)
Lemma contains_symlink_false fs base b l names prefix :
  base ≠ [] → Fs.walk fs true Fs.max_links (Fs.cwd fs) base = Ok (b, l) →
  is_dir_at fs b = true → no_link_below fs b prefix →
  PathExt.contains_symlink_from fs (base ++ normals prefix) (normals names) = Ok false →
  no_link_below fs b (prefix ++ names).
Proof.
  intros Hne Hb Hdir. revert prefix. induction names as [|n names IH]; intros prefix Hp.
  { intros _. by rewrite app_nil_r. }
  cbn [normals fmap list_fmap PathExt.contains_symlink_from]. fold (normals names).
  assert (Path.push (base ++ normals prefix) [Normal n] = base ++ normals (prefix ++ [n])) as ->.
  { rewrite push_Normal. unfold normals. by rewrite fmap_app, app_assoc. }
  destruct (Fs.symlink_metadata fs (base ++ normals (prefix ++ [n]))) as [meta|] eqn:Emeta; [|done].
  destruct (md_is_symlink meta) eqn:Esym; [done|].
  replace (prefix ++ n :: names) with ((prefix ++ [n]) ++ names) by (by rewrite <- app_assoc).
  intros Hrec. apply IH; [|exact Hrec].
  (* the lstat of the code resolved exactly this node *)
  unfold Fs.symlink_metadata, Fs.get, Fs.resolve in Emeta.
  apply map_Ok in Emeta as (nd & Hnd & ->). apply bind_Ok in Hnd as (q & Hq & Hnd).
  apply of_option_Ok in Hnd.
  destruct (base ++ normals (prefix ++ [n])) as [|c cs] eqn:Ebase; [by destruct base|].
  rewrite <- Ebase in Hq. apply map_Ok in Hq as ([q' l'] & Hw & ->). simpl in Hnd.
  rewrite (walk_app_dir fs false Fs.max_links (Fs.cwd fs) base b) with (l := l) in Hw;
    [|unfold normals; by destruct prefix|done..].
  apply walk_names in Hw as ->; [|done..].
  eapply no_link_snoc; [done|exact Hnd|]. intros t m ->. done.
Qed.

Lemma contains_symlink_true fs base b l names prefix :
  base ≠ [] → Fs.walk fs true Fs.max_links (Fs.cwd fs) base = Ok (b, l) →
  is_dir_at fs b = true → no_link_below fs b prefix →
  PathExt.contains_symlink_from fs (base ++ normals prefix) (normals names) = Ok true →
  ∃ k t m, k < length names ∧
    Fs.node_at fs (b ++ prefix ++ take (S k) names) = Some (NLink t m).
Proof.
  intros Hne Hb Hdir. revert prefix. induction names as [|n names IH]; intros prefix Hp; [done|].
  cbn [normals fmap list_fmap PathExt.contains_symlink_from]. fold (normals names).
  assert (Path.push (base ++ normals prefix) [Normal n] = base ++ normals (prefix ++ [n])) as ->.
  { rewrite push_Normal. unfold normals. by rewrite fmap_app, app_assoc. }
  destruct (Fs.symlink_metadata fs (base ++ normals (prefix ++ [n]))) as [meta|] eqn:Emeta; [|done].
  unfold Fs.symlink_metadata, Fs.get, Fs.resolve in Emeta.
  apply map_Ok in Emeta as (nd & Hnd & ->). apply bind_Ok in Hnd as (q & Hq & Hnd).
  apply of_option_Ok in Hnd.
  destruct (base ++ normals (prefix ++ [n])) as [|c cs] eqn:Ebase; [by destruct base|].
  rewrite <- Ebase in Hq. apply map_Ok in Hq as ([q' l'] & Hw & ->). simpl in Hnd.
  rewrite (walk_app_dir fs false Fs.max_links (Fs.cwd fs) base b) with (l := l) in Hw;
    [|unfold normals; by destruct prefix|done..].
  apply walk_names in Hw as ->; [|done..]. rewrite <- Ebase.
  destruct nd as [c0 m0 r0|es0 m0 r0|t0 m0]; simpl.
  3: { intros _. exists 0, t0, m0. split; [simpl; lia | exact Hnd]. }
  all: intros Hrec; destruct (IH (prefix ++ [n])) as (k & t & m & Hk & Hl);
    [by eapply no_link_snoc|exact Hrec|]; exists (S k), t, m; split; [simpl; lia|];
    rewrite <- Hl, <- app_assoc; done.
Qed.

Lemma absolute_inj p q : Fs.absolute p = Fs.absolute q → p = q.
Proof.
  unfold Fs.absolute. intros [= Heq]. revert q Heq.
  induction p as [|x p IH]; intros [|y q]; simpl; intros; simplify_eq; [done|]. f_equal. auto.
Qed.

(** A base directory, resolved. *)
Lemma dir_resolved fs base :
  Fs.is_dir fs base = true →
  base ≠ [] ∧ ∃ b l, Fs.walk fs true Fs.max_links (Fs.cwd fs) base = Ok (b, l) ∧
                     is_dir_at fs b = true ∧ Fs.canonicalize fs base = Ok (Fs.absolute b).
Proof.
  unfold Fs.is_dir, Fs.metadata, Fs.get, Fs.canonicalize, Fs.resolve.
  destruct base as [|c base]; [done|]. split; [done|].
  destruct (Fs.walk fs true Fs.max_links (Fs.cwd fs) (c :: base)) as [[b l]|]; [|done].
  simpl in *. exists b, l. split; [done|]. unfold is_dir_at.
  by destruct (Fs.node_at fs b) as [[]|].
Qed.

(** [contains_symlink] is exact: on a path of names below a directory, [Ok(false)] means that
    no component is a symbolic link and then the path resolves literally below the resolved base
    (canonicalization only prefixes it), while [Ok(true)] exhibits a component that is a link. *)
Theorem contains_symlink_spec (fs : Fs.t) (base : Path.t) (names : list string)
    (Hdir : Fs.is_dir fs base = true) :
  ∃ b, Fs.canonicalize fs base = Ok (Fs.absolute b) ∧
    match PathExt.contains_symlink fs (normals names) base with
    | Ok false =>
        no_link_below fs b names ∧
        ∀ p, Fs.canonicalize fs (base ++ normals names) = Ok p → p = Fs.absolute b ++ normals names
    | Ok true =>
        ∃ k t m, k < length names ∧ Fs.node_at fs (b ++ take (S k) names) = Some (NLink t m)
    | Err _ => True
    end.
Proof.
  destruct (dir_resolved fs base Hdir) as (Hne & b & l & Hw & Hd & Hc). exists b. split; [done|].
  unfold PathExt.contains_symlink.
  destruct (PathExt.contains_symlink_from fs base (normals names)) as [[|]|e] eqn:Ecs; [| |done].
  - apply (contains_symlink_true fs base b l names []); [done..|]. by rewrite app_nil_r.
  - assert (no_link_below fs b names) as Hno.
    { apply (contains_symlink_false fs base b l names []); [done..|]. by rewrite app_nil_r. }
    split; [done|]. intros p. destruct names as [|n names] using rev_ind.
    { rewrite app_nil_r, Hc. intros [= <-]. by rewrite app_nil_r. }
    clear IHnames. unfold Fs.canonicalize, Fs.resolve.
    destruct (base ++ normals (names ++ [n])) as [|c cs] eqn:Ebase; [by destruct base|].
    rewrite <- Ebase. intros Hp. apply map_Ok in Hp as (q & Hq & ->).
    apply map_Ok in Hq as ([q' l'] & Hwq & ->). simpl.
    rewrite (walk_app_dir fs true Fs.max_links (Fs.cwd fs) base b) with (l := l) in Hwq;
      [|unfold normals; by destruct names|done..].
    apply walk_names in Hwq as ->.
    + unfold Fs.absolute, normals. by rewrite fmap_app.
    + intros k x Hk. destruct (Hno k x) as (nd & Hnd & ?); [by apply lookup_app_l_Some|].
      exists nd. rewrite take_app_le in Hnd by (apply lookup_lt_Some in Hk; lia). done.
    + intros _ t m Hlink. destruct (Hno (length names) n) as (nd & Hnd & Hnl).
      { by rewrite lookup_app_r, Nat.sub_diag by done. }
      rewrite take_app_length in Hnd. rewrite Hnd in Hlink. by destruct (Hnl t m); simplify_eq.
Qed.

(** A small tree for the witnesses. *)
Module FsRef.
Definition fs : Fs.t := Fs.mkFs
  (list_to_map
     [(["srv"], NDir ["www"; "secret"] (Some 1000000000%Z) true);
      (["srv"; "secret"], NFile "top" (Some 1000000000%Z) true);
      (["srv"; "www"], NDir ["a.txt"; "out"; "docs"; "page.html"] (Some 1000000000%Z) true);
      (["srv"; "www"; "a.txt"], NFile "hello" (Some 5000000000%Z) true);
      (["srv"; "www"; "out"], NLink "../secret" None);
      (["srv"; "www"; "page.html"], NFile "<p>" (Some 6000000000%Z) true);
      (["srv"; "www"; "docs"], NDir ["x"] (Some 1000000000%Z) true);
      (["srv"; "www"; "docs"; "x"], NFile "y" (Some 1000000000%Z) true)])
  ["srv"] 4096.
End FsRef.

Lemma contains_symlink_spec_witness :
  PathExt.contains_symlink FsRef.fs (normals ["docs"; "x"]) (Path.parse "www") = Ok false ∧
  (∀ p, Fs.canonicalize FsRef.fs (Path.parse "www/docs/x") = Ok p →
        p = Path.parse "/srv/www/docs/x").
Proof.
  split; [by vm_compute|].
  destruct (contains_symlink_spec FsRef.fs (Path.parse "www") ["docs"; "x"])
    as (b & Hb & Hres); [by vm_compute|].
  assert (Fs.canonicalize FsRef.fs (Path.parse "www") = Ok (Fs.absolute ["srv"; "www"])) as Hc
    by (vm_compute; reflexivity).
  rewrite Hc in Hb. assert (b = ["srv"; "www"]) as -> by (apply absolute_inj; congruence).
  exact (proj2 Hres).
Defined.

(** * Request paths *)

Section SanitizeLemmas.
Context `{CodecLib}.

Lemma sanitize_components_spec base cs :
  (∀ n, Normal n ∈ cs → Path.proper_name n) →
  ∃ names, PathExt.sanitize_components base cs = base ++ normals names ∧
           Forall Path.proper_name names ∧
           normals names = filter (λ c, PathExt.is_normal c = true) cs.
Proof.
  revert base. induction cs as [|c cs IH]; intros base Hall.
  { exists []. by rewrite app_nil_r. }
  assert (∀ n, Normal n ∈ cs → Path.proper_name n) as Hcs by (intros; apply Hall; by right).
  destruct c as [| | |n]; cbn [PathExt.sanitize_components].
  1,2,3: destruct (IH base Hcs) as (names & -> & Hf & Hfl); exists names;
         split_and!; [done..|]; by rewrite filter_cons_False by done.
  assert (Path.proper_name n) as Hn by (apply Hall; left). rewrite parse_proper by done. simpl.
  rewrite push_Normal. destruct (IH (base ++ [Normal n]) Hcs) as (names & -> & Hf & Hfl).
  exists (n :: names). split_and!.
  - by rewrite <- app_assoc.
  - by constructor.
  - rewrite filter_cons_True by done. rewrite <- Hfl. done.
Qed.
End SanitizeLemmas.

(** C30. No request path escapes the root: whatever the tail (percent-encoded traversal, absolute
    paths, repeated slashes), [sanitize_path] returns the base followed by ordinary names, each
    non-empty, without a slash, and neither [.] nor [..]; they are the ordinary components of
    the decoded tail, in order. *)
Theorem sanitize_path_confined `{CodecLib} (base : Path.t) (tail : string) :
  ∃ names, PathExt.sanitize_path base tail = Ok (base ++ normals names) ∧
    Forall Path.proper_name names ∧
    normals names = filter (λ c, PathExt.is_normal c = true) (PathExt.decode_tail_path tail).
Proof.
  destruct (sanitize_components_spec base (PathExt.decode_tail_path tail)) as (names & Hs & Hf & Hl).
  { intros n. apply parse_Normal. }
  exists names. unfold PathExt.sanitize_path. by rewrite Hs.
Qed.

(** * Metadata *)

Lemma name_suffix_proper n suffix :
  Path.proper_name n → Str.mem "/" suffix = false → 2 < String.length (n +:+ suffix) →
  Path.proper_name (n +:+ suffix).
Proof.
  intros (He & _ & _ & Hs) Hsuf Hlen.
  assert (Str.mem "/" (n +:+ suffix) = false) by (by rewrite mem_app, Hs, Hsuf).
  split_and!; [by destruct n| | |done]; intros Heq; rewrite Heq in Hlen; simpl in Hlen; lia.
Qed.

(** The [.html] fallback either succeeds on the suffixed sibling, whose metadata it returns,
    or leaves the path exactly as it was; a path without a file name is untouched. *)
Theorem html_suffix_restores (fs : Fs.t) (dir : Path.t) (n : string) (Hn : Path.proper_name n) :
  Meta.try_metadata_with_html_suffix fs (dir ++ [Normal n]) =
    match Fs.metadata fs (dir ++ [Normal (n +:+ ".html")]) with
    | Ok m => (dir ++ [Normal (n +:+ ".html")], Some m)
    | Err _ => (dir ++ [Normal n], None)
    end.
Proof.
  unfold Meta.try_metadata_with_html_suffix. rewrite file_name_snoc.
  assert (Path.proper_name (n +:+ ".html")) as Hh.
  { apply name_suffix_proper; [done..|]. rewrite length_string_app. simpl. lia. }
  rewrite set_file_name_snoc by done. unfold Meta.try_metadata.
  destruct (Fs.metadata fs (dir ++ [Normal (n +:+ ".html")])) as [m|]; [done|].
  by rewrite set_file_name_snoc.
Qed.

Lemma html_suffix_restores_witness :
  (Meta.try_metadata_with_html_suffix FsRef.fs (Path.parse "www/page")).1 = Path.parse "www/page.html" ∧
  (Meta.try_metadata_with_html_suffix FsRef.fs (Path.parse "www/none")).1 = Path.parse "www/none".
Proof.
  split.
  - change (Path.parse "www/page") with ([Normal "www"] ++ [Normal "page"]).
    rewrite html_suffix_restores; [by vm_compute | by repeat split].
  - change (Path.parse "www/none") with ([Normal "www"] ++ [Normal "none"]).
    rewrite html_suffix_restores; [by vm_compute | by repeat split].
Defined.

(** The markdown variant is always a file next to (or below) the requested path. *)
Lemma markdown_variant_is_file fs p q :
  Meta.try_markdown_variant fs p = Some q →
  ∃ m, Fs.metadata fs q = Ok m ∧ md_is_dir m = false.
Proof.
  assert (∀ x y, Meta.try_path fs x = Some y → ∃ m, Fs.metadata fs y = Ok m ∧ md_is_dir m = false)
    as Htry.
  { intros x y. unfold Meta.try_path, Meta.try_metadata.
    destruct (Fs.metadata fs x) as [m|] eqn:E; [|done].
    destruct (md_is_dir m) eqn:Ed; [done|]. intros [= <-]. eauto. }
  unfold Meta.try_markdown_variant. destruct (Path.file_name p) as [n|]; [|eauto].
  simpl.
  destruct (Meta.try_path fs (Path.set_file_name (n +:+ ".md") p)) eqn:E1;
    [intros [= <-]; eauto|].
  destruct (Meta.try_path fs (Path.set_file_name (n +:+ ".html.md") p)) eqn:E2;
    [intros [= <-]; eauto|]. eauto.
Qed.

(** * Streaming *)

Lemma read_len_le r room : Stream.read_len r room ≤ room ∧
  Stream.read_len r room ≤ String.length (Stream.rd_data r).
Proof. unfold Stream.read_len. destruct (Stream.rd_plan r); lia. Qed.

Lemma read_len_pos r room :
  0 < room → 0 < String.length (Stream.rd_data r) → 0 < Stream.read_len r room.
Proof. unfold Stream.read_len. destruct (Stream.rd_plan r); lia. Qed.

Lemma str_take_drop n s : Stream.str_take n s +:+ Stream.str_drop n s = s.
Proof.
  unfold Stream.str_take, Stream.str_drop. revert n.
  induction s as [|c s IH]; intros [|n]; simpl; try reflexivity.
  - change (String c (substring 0 (String.length s) s) = String c s). f_equal.
    specialize (IH 0). rewrite Nat.sub_0_r in IH. by destruct s.
  - change (String c (substring 0 n s +:+ substring n (String.length s - n) s) = String c s).
    by rewrite IH.
Qed.

Lemma str_take_length n s :
  n ≤ String.length s → String.length (Stream.str_take n s) = n.
Proof.
  unfold Stream.str_take. revert n. induction s as [|c s IH]; intros [|n]; simpl; try lia.
  intros. rewrite IH; lia.
Qed.

Lemma drain_spec fuel data plan buf_size :
  (0 < buf_size)%Z → String.length data < fuel →
  ∃ chunks,
    Stream.drain fuel (Stream.mkFileStream (Stream.mkReader data plan) buf_size) = Some chunks ∧
    Str.join "" chunks = data ∧
    Forall (λ c, 0 < String.length c ≤ Z.to_nat buf_size) chunks.
Proof.
  intros Hbuf. revert data plan. induction fuel as [|fuel IH]; intros data plan Hlen; [lia|].
  cbn [Stream.drain]. unfold Stream.poll_next, Stream.read. cbn [Stream.fst_reader Stream.fst_buf_size].
  set (r := Stream.mkReader data plan). set (n := Stream.read_len r (Z.to_nat buf_size)).
  pose proof (read_len_le r (Z.to_nat buf_size)) as [Hn1 Hn2]. fold n in Hn1, Hn2.
  simpl in Hn2. rewrite str_take_length by (simpl; lia).
  destruct (Nat.eqb_spec n 0) as [Hz|Hnz].
  - exists []. split; [done|]. split; [|done].
    destruct data as [|c data]; [done|].
    pose proof (read_len_pos r (Z.to_nat buf_size)). simpl in *. unfold n in Hz. lia.
  - pose proof (str_take_drop n data) as Htd.
    assert (String.length (Stream.str_drop n data) = String.length data - n) as Hdl.
    { apply (f_equal String.length) in Htd. rewrite length_string_app, str_take_length in Htd; lia. }
    destruct (IH (Stream.str_drop n data) (tail plan)) as (chunks & Hd & Hj & Hall); [lia|].
    exists (Stream.str_take n data :: chunks).
    split; [cbn [Stream.rd_data r Stream.rd_plan]; by rewrite Hd|]. split.
    + by rewrite join_cons, Hj.
    + constructor; [|done]. rewrite str_take_length by lia. lia.
Qed.

(** A [FileStream] with a non-empty buffer delivers exactly the data, whatever short reads the
    operating system makes: polling ends, the chunks are non-empty and never longer than the
    buffer, and their concatenation is the file. *)
Theorem file_stream_delivers (data : string) (plan : list nat) (buf_size : Z)
    (Hbuf : (0 < buf_size)%Z) :
  ∃ chunks,
    Stream.drain (S (String.length data))
      (Stream.mkFileStream (Stream.mkReader data plan) buf_size) = Some chunks ∧
    Str.join "" chunks = data ∧
    Forall (λ c, 0 < String.length c ≤ Z.to_nat buf_size) chunks.
Proof. apply drain_spec; [done | lia]. Qed.

Lemma file_stream_delivers_witness :
  ∃ chunks, Stream.drain 6 (Stream.mkFileStream (Stream.mkReader "hello" [3; 0; 9]) 2) = Some chunks ∧
            Str.join "" chunks = "hello".
Proof.
  destruct (file_stream_delivers "hello" [3; 0; 9] 2) as (chunks & Hd & Hj & _); [lia|].
  exists chunks. split; [exact Hd | exact Hj].
Defined.

(** The buffer of a regular file: never larger than the file, never empty for a non-empty one. *)
Lemma optimal_buf_size_bounds (m : Metadata) :
  (0 < md_len m)%Z →
  (0 < Stream.optimal_buf_size m ≤ md_len m)%Z.
Proof.
  unfold Stream.optimal_buf_size, Stream.get_block_size, Stream.DEFAULT_READ_BUF_SIZE. lia.
Qed.
