(* ===== verification/Quality.v ===== *)
(** Quality-value headers: [headers_ext/quality_value.rs], [content_coding.rs], [accept.rs] and
    [accept_encoding.rs].

    [Module F32] gives the [f32] operations the code uses (decimal parsing rounded to nearest,
    multiplication, the saturating cast to [u16]) on the binary32 format of [SpecFloat]. *)
From Stdlib Require Import ZArith Lia Ascii String Sorted.
From Stdlib Require Import Floats.SpecFloat.
From stdpp Require Import base list strings gmap.
From S2P Require Import Prelude Http Libs RefLibs.
Local Open Scope string_scope.
Local Open Scope list_scope.
Local Open Scope nat_scope.

(** * [f32] *)

Module F32.
Definition prec : Z := 24.
Definition emax : Z := 128.

Definition mul (a b : spec_float) : spec_float := SFmul prec emax a b.

(** The float nearest to [m * 10^e], [m >= 0]: for a negative exponent the quotient is computed
    with at least 26 significant bits and a sticky bit before the final rounding. *)
Definition of_decimal (m e : Z) : spec_float :=
  if (0 <=? e)%Z then binary_normalize prec emax (m * 10 ^ e) 0 false
  else
    let d := (10 ^ (- e))%Z in
    let s := Z.max 0 (Z.log2_up d - Z.log2 m + 27) in
    let q := (m * 2 ^ s / d)%Z in
    let sticky := if (m * 2 ^ s mod d =? 0)%Z then 0%Z else 1%Z in
    binary_normalize prec emax (2 * q + sticky) (- s - 1) false.

Definition opp (f : spec_float) : spec_float := SFopp f.

(** An optional sign. *)
Definition sign (s : string) : bool * string :=
  match s with
  | String "-" r => (true, r)
  | String "+" r => (false, r)
  | _ => (false, s)
  end.

(** Splits at the first [e] or [E]. *)
Fixpoint split_exp (s : string) : string * option string :=
  match s with
  | "" => ("", None)
  | String x s' =>
      if (Ascii.eqb x "e" || Ascii.eqb x "E")%bool then ("", Some s')
      else let '(a, b) := split_exp s' in (String x a, b)
  end.

(** [str::parse::<f32>]. *)
Definition parse (s : string) : option spec_float :=
  let '(neg, body) := sign s in
  let finish (f : spec_float) := Some (if neg : bool then opp f else f) in
  let lower := Str.to_ascii_lowercase body in
  if (String.eqb lower "inf" || String.eqb lower "infinity")%bool
  then finish (S754_infinity false)
  else if String.eqb lower "nan" then Some S754_nan
  else
    let '(mant, ex) := split_exp body in
    let '(int, frac) := default (mant, "") (Str.split_once "." mant) in
    let e10 :=
      match ex with
      | None => Some 0%Z
      | Some t =>
          let '(eneg, ds) := sign t in
          if Str.is_empty ds then None
          else (λ n, if eneg : bool then (- n)%Z else n) <$> Str.digits 0 ds
      end in
    if Str.is_empty (int +:+ frac) then None
    else match Str.digits 0 (int +:+ frac), e10 with
         | Some m, Some e => finish (of_decimal m (e - Z.of_nat (String.length frac)))
         | _, _ => None
         end.

(** [as u16]: towards zero, saturating, NaN is 0. *)
Definition to_u16 (f : spec_float) : Z :=
  match f with
  | S754_nan | S754_zero _ | S754_infinity true | S754_finite true _ _ => 0
  | S754_infinity false => u16_max
  | S754_finite false m e =>
      Z.min u16_max (if (0 <=? e)%Z then Z.pos m * 2 ^ e else Z.pos m / 2 ^ (- e))
  end%Z.

Definition thousand : spec_float := of_decimal 1000 0.
End F32.

(** * [content_coding.rs] *)

Inductive ContentCoding := BROTLI | COMPRESS | DEFLATE | GZIP | IDENTITY | ZSTD.

#[export] Instance ContentCoding_eq_dec : EqDecision ContentCoding.
Proof. solve_decision. Defined.

Module Coding.
Definition as_str (c : ContentCoding) : string :=
  match c with
  | BROTLI => "br" | COMPRESS => "compress" | DEFLATE => "deflate"
  | GZIP => "gzip" | IDENTITY => "identity" | ZSTD => "zstd"
  end.

(** [stringify!($coding)]. *)
Definition name (c : ContentCoding) : string :=
  match c with
  | BROTLI => "BROTLI" | COMPRESS => "COMPRESS" | DEFLATE => "DEFLATE"
  | GZIP => "GZIP" | IDENTITY => "IDENTITY" | ZSTD => "ZSTD"
  end.

Definition all : list ContentCoding := [BROTLI; COMPRESS; DEFLATE; GZIP; IDENTITY; ZSTD].

(** The arms of the [match] of [from_str], in order. *)
Definition from_str (s : string) : option ContentCoding :=
  List.find (λ c, String.eqb s (name c) || String.eqb s (as_str c)) all.

(** [From<&str>]: an unknown coding is [IDENTITY]. *)
Definition from (s : string) : ContentCoding := default IDENTITY (from_str s).

(** [Display]. *)
Definition to_string (c : ContentCoding) : string := as_str c.

(** [From<ContentCoding> for HeaderValue]. *)
Definition header_value (c : ContentCoding) : string := as_str c.

Definition priority (c : ContentCoding) : Z :=
  match c with
  | IDENTITY => 1 | COMPRESS => 2 | DEFLATE => 3 | GZIP => 4 | BROTLI => 5 | ZSTD => 6
  end.
End Coding.

(** * [quality_value.rs] *)

Record QualityMeta := mkQualityMeta { data : string; quality : Z }.

Module Quality.

(** The loop over the parameters: the last readable [q=] wins. *)
Fixpoint scan (parts : list string) (quality : Z) : Z :=
  match parts with
  | [] => quality
  | part :: parts' =>
      scan parts'
        match Str.strip_prefix "q=" (Str.trim_start part) with
        | Some value =>
            match F32.parse (Str.trim value) with
            | Some parsed => F32.to_u16 (F32.mul parsed F32.thousand)
            | None => quality
            end
        | None => quality
        end
  end.

(** [QualityMeta::try_from]: [split] always yields a first part. *)
Definition meta_try_from (val : string) : option QualityMeta :=
  let parts := Str.split ";" val in
  match parts with
  | [] => None
  | first :: _ => Some (mkQualityMeta (Str.trim first) (scan parts 1000))
  end.

(** The comparison of [iter]: by decreasing quality, then by decreasing priority. *)
Definition cmp (a b : QualityMeta) : comparison :=
  let quality_cmp := Z.compare (quality b) (quality a) in
  match quality_cmp with
  | Eq => Z.compare (Coding.priority (Coding.from (data b))) (Coding.priority (Coding.from (data a)))
  | _ => quality_cmp
  end.

Section Http.
Context `{HttpLib}.

(** The items of [iter] before sorting: none when the value is not visible ASCII. *)
Definition items (value : string) : list QualityMeta :=
  match hv_to_str value with
  | Some s => omap meta_try_from (Str.split "," s)
  | None => []
  end.

Definition sorted_items (value : string) : list QualityMeta := Sort.sort_by cmp (items value).

(** [QualityValue::iter]. *)
Definition iter (value : string) : list string := data <$> sorted_items value.

(** [QualityValue::try_from_values]: several header lines are joined by a comma. *)
Definition try_from_values (values : list string) : option string :=
  match values with
  | [] => Some ""
  | [first] => Some first
  | first :: rest =>
      let buf := fold_left (λ acc v, acc +:+ ", " +:+ v) rest first in
      if hv_valid buf then Some buf else None
  end.

(** [HeaderMapExt::typed_get] of a quality-value header. *)
Definition typed_get (name : string) (headers : HeaderMap) : option string :=
  match hm_get_all name headers with
  | [] => None
  | values => try_from_values values
  end.
End Http.
End Quality.

(** * [accept.rs], [accept_encoding.rs] *)

Module Accept.
Section Accept.
Context `{HttpLib}.

Definition accepts (value media_type : string) : bool :=
  existsb (λ v, Str.eq_ignore_ascii_case v media_type) (Quality.iter value).
Definition accepts_markdown (value : string) : bool := accepts value "text/markdown".

(** [headers.typed_get::<Accept>()]. *)
Definition get (headers : HeaderMap) : option string := Quality.typed_get "accept" headers.
End Accept.
End Accept.

Module AcceptEncoding.
Section AcceptEncoding.
Context `{HttpLib}.

Definition sorted_encodings (value : string) : list ContentCoding :=
  Coding.from <$> Quality.iter value.

(** [headers.typed_get::<AcceptEncoding>()]. *)
Definition get (headers : HeaderMap) : option string :=
  Quality.typed_get "accept-encoding" headers.
End AcceptEncoding.
End AcceptEncoding.

(** * Theorems *)

(** Content codings print and parse back; the parser accepts exactly the lower-case token and
    the upper-case name of each coding. *)
Theorem content_coding_roundtrip (c : ContentCoding) (s : string) :
  Coding.from_str (Coding.as_str c) = Some c ∧ Coding.from (Coding.to_string c) = c ∧
  (Coding.from_str s = Some c ↔ s = Coding.as_str c ∨ s = Coding.name c).
Proof.
  assert (∀ c, Coding.from_str (Coding.as_str c) = Some c) as Has by (by intros []).
  assert (∀ c, Coding.from_str (Coding.name c) = Some c) as Hname by (by intros []).
  split_and!; [done | unfold Coding.from, Coding.to_string; by rewrite Has|].
  split; [|intros [-> | ->]; done].
  intros Hf. apply List.find_some in Hf as [_ Heq].
  apply orb_true_iff in Heq as [->%String.eqb_eq | ->%String.eqb_eq]; auto.
Qed.

#[export] Instance quality_laws : Sort.Laws Quality.cmp.
Proof.
  unfold Quality.cmp. split.
  - intros x y. destruct (Z.compare_spec (quality y) (quality x));
      destruct (Z.compare_spec (quality x) (quality y)); try lia; try done.
    rewrite Z.compare_gt_iff, Z.compare_lt_iff. lia.
  - intros x y z. unfold Sort.le.
    destruct (Z.compare_spec (quality y) (quality x));
      destruct (Z.compare_spec (quality z) (quality y));
      destruct (Z.compare_spec (quality z) (quality x)); try lia; try done.
    rewrite !Z.compare_le_iff. lia.
Qed.

(** Decreasing quality, and decreasing priority at equal quality. *)
Definition preferred (a b : QualityMeta) : Prop :=
  (quality b < quality a)%Z ∨
  (quality b = quality a ∧
   Coding.priority (Coding.from (data b)) ≤ Coding.priority (Coding.from (data a)))%Z.

Lemma quality_le a b : Sort.le Quality.cmp a b ↔ preferred a b.
Proof.
  unfold Sort.le, Quality.cmp, preferred.
  destruct (Z.compare_spec (quality b) (quality a)); rewrite ?Z.compare_le_iff;
    split; try lia; done.
Qed.

Lemma sorted_items_perm `{HttpLib} value : Quality.sorted_items value ≡ₚ Quality.items value.
Proof. apply Sort.sort_perm. Qed.

Lemma sorted_items_sorted `{HttpLib} value :
  StronglySorted preferred (Quality.sorted_items value).
Proof.
  pose proof (Sort.sort_sorted Quality.cmp (Quality.items value)) as Hs.
  unfold Quality.sorted_items. induction Hs as [|x l Hs IH Hall]; constructor; [done|].
  eapply Forall_impl; [exact Hall|]. intros y. apply quality_le.
Qed.

(** [QualityValue::iter] ranks the alternatives of a header: it is a permutation of what was
    parsed, by decreasing quality and, at equal quality, by decreasing server priority; items
    equal in both keep the client's order. *)
Theorem quality_iter_ranked `{HttpLib} (value : string) :
  ∃ l, Quality.iter value = data <$> l ∧ l ≡ₚ Quality.items value ∧
       StronglySorted preferred l ∧
       ∀ q p, let same m := quality m = q ∧ Coding.priority (Coding.from (data m)) = p in
              filter same l = filter same (Quality.items value).
Proof.
  exists (Quality.sorted_items value).
  split_and!; [done | apply sorted_items_perm | apply sorted_items_sorted|].
  intros q p same. apply Sort.sort_stable. intros y z [Hy1 Hy2] [Hz1 Hz2]. unfold Quality.cmp.
  by rewrite Hy1, Hz1, Hy2, Hz2, !Z.compare_refl.
Qed.

(** The text of [0.ddd] for [0 <= k < 1000]. *)
Definition three_decimals (k : nat) : string :=
  let digit (n : nat) := String (ascii_of_nat (48 + n)) "" in
  "0." +:+ digit (k / 100) +:+ digit (k / 10 mod 10) +:+ digit (k mod 10).

(** The weights whose product with 1000 is rounded below the integer. *)
Definition truncated_weights : list nat := [251; 253; 502; 506; 511].

Definition exact_weight (k : nat) : Z :=
  (Z.of_nat k - (if existsb (Nat.eqb k) truncated_weights then 1 else 0))%Z.

Lemma quality_table :
  forallb (λ k, Z.eqb (Quality.scan ["q=" +:+ three_decimals k] 1000) (exact_weight k))
    (seq 0 1000) = true.
Proof. vm_compute. reflexivity. Qed.

(** The quality of a well-formed weight [q=0.ddd] is its three digits, up to one unit: the
    [f32] product is truncated, and exactly the five weights 0.251, 0.253, 0.502, 0.506 and
    0.511 come out one thousandth too low. *)
Theorem quality_of_weight (k : nat) (Hk : k < 1000) :
  Quality.scan ["q=" +:+ three_decimals k] 1000 = exact_weight k.
Proof.
  pose proof quality_table as Ht. rewrite forallb_forall in Ht.
  apply Z.eqb_eq, Ht, in_seq. lia.
Qed.

Lemma quality_of_weight_witness : Quality.scan ["q=0.251"] 1000 = 250%Z.
Proof. apply (quality_of_weight 251). lia. Defined.
