(* ===== verification/Opts.v ===== *)
(** The configuration data of the program.

    [Module File] holds the types of [settings/file.rs] (the TOML manifest), [Module Cli] those
    of [settings/cli.rs]; the top level holds the runtime types of [settings/mod.rs] and the
    [RequestHandlerOpts] of [handler.rs] with its [Default].  All Cargo features on, Unix. *)
From Stdlib Require Import ZArith Lia Ascii String.
From stdpp Require Import base list strings gmap.
From S2P Require Import Prelude Http Libs Path.
Local Open Scope string_scope.
Local Open Scope list_scope.

(** [std::net::SocketAddr] and [IpAddr]; an IP address is its canonical text. *)
Abbreviation IpAddr := string (only parsing).
Record SocketAddr := mkSocketAddr { sa_ip : IpAddr; sa_port : Z }.

Inductive LogLevel := LvlError | LvlWarn | LvlInfo | LvlDebug | LvlTrace.

Definition LogLevel_name (l : LogLevel) : string :=
  match l with
  | LvlError => "error" | LvlWarn => "warn" | LvlInfo => "info"
  | LvlDebug => "debug" | LvlTrace => "trace"
  end.

Inductive CompressionLevel := Fastest | Best | Default.

(** [async_compression::Level], as far as the program builds it. *)
Inductive Level := LevelFastest | LevelBest | LevelPrecise (n : Z).

Definition into_algorithm_level (l : CompressionLevel) (default : Z) : Level :=
  match l with
  | Fastest => LevelFastest
  | Best => LevelBest
  | Default => LevelPrecise default
  end.

Inductive RedirectsKind := Permanent | Temporary.

(** The [repr(u16)] discriminants. *)
Definition RedirectsKind_u16 (k : RedirectsKind) : Z :=
  match k with Permanent => 301 | Temporary => 302 end.

Inductive DirListFmt := Html | Json.
Inductive DirDownloadFmt := Targz.

#[export] Instance DirDownloadFmt_eq_dec : EqDecision DirDownloadFmt.
Proof. solve_decision. Defined.

(** [advanced.routes-bootstrap.on-failure]; [#[default]] is [CacheThenFile]. *)
Inductive RoutesBootstrapOnFailure := CacheThenFile | Fail | FileOnly.

Definition RoutesBootstrapOnFailure_default : RoutesBootstrapOnFailure := CacheThenFile.

#[export] Instance OnFailure_eq_dec : EqDecision RoutesBootstrapOnFailure.
Proof. solve_decision. Defined.

(** * The TOML manifest: [settings/file.rs] *)

Module File.
Record Proxy := mkProxy {
  name : option string;
  host : option string;
  source : string;
  target : option string;
  targets : option (list string);
  strip_prefix : option string;
}.

#[export] Instance Proxy_eq_dec : EqDecision Proxy.
Proof. solve_decision. Defined.

Record ProxyTls := mkProxyTls {
  ca_file : option Path.t;
  ca_files : option (list Path.t);
  disable_webpki_roots : option bool;
}.

Record RoutesBootstrap := mkRoutesBootstrap {
  url : string;
  token_env : option string;
  timeout_secs : option Z;
  cache_path : option Path.t;
  on_failure : option RoutesBootstrapOnFailure;
  client_id : option string;
}.

Record VirtualHosts := mkVirtualHosts { vh_host : string; vh_root : option Path.t }.

Record MemoryCache := mkMemoryCache {
  capacity : option Z;
  ttl : option Z;
  tti : option Z;
  max_file_size : option Z;
}.

Record Redirects := mkRedirects {
  rd_host : option string;
  rd_source : string;
  rd_destination : string;
  rd_kind : RedirectsKind;
}.

Record Rewrites := mkRewrites {
  rw_source : string;
  rw_destination : string;
  rw_redirect : option RedirectsKind;
}.

Section WithHttp.
Context `{HttpLib}.

Record Headers := mkHeaders { hd_source : string; hd_headers : HeaderMap }.

Record Advanced := mkAdvanced {
  headers : option (list Headers);
  rewrites : option (list Rewrites);
  redirects : option (list Redirects);
  virtual_hosts : option (list VirtualHosts);
  proxies : option (list Proxy);
  routes_bootstrap : option RoutesBootstrap;
  proxy_tls : option ProxyTls;
  proxy_pool_max_idle_per_host : option Z;
  proxy_pool_idle_timeout_secs : option Z;
  proxy_first : option bool;
  max_upgrade_tunnels : option Z;
  memory_cache : option MemoryCache;
}.
End WithHttp.

(** [file::General]: every option may be absent. *)
Record General := mkGeneral {
  g_host : option string;
  g_port : option Z;
  g_root : option Path.t;
  g_log_level : option LogLevel;
  g_log_with_ansi : option bool;
  g_cache_control_headers : option bool;
  g_compression : option bool;
  g_compression_level : option CompressionLevel;
  g_compression_static : option bool;
  g_page404 : option Path.t;
  g_page50x : option Path.t;
  g_http2 : option bool;
  g_http2_tls_cert : option Path.t;
  g_http2_tls_key : option Path.t;
  g_https_redirect : option bool;
  g_https_redirect_host : option string;
  g_https_redirect_from_port : option Z;
  g_https_redirect_from_hosts : option string;
  g_security_headers : option bool;
  g_cors_allow_origins : option string;
  g_cors_allow_headers : option string;
  g_cors_expose_headers : option string;
  g_index_files : option string;
  g_directory_listing : option bool;
  g_directory_listing_order : option Z;
  g_directory_listing_format : option DirListFmt;
  g_directory_listing_download : option (list DirDownloadFmt);
  g_basic_auth : option string;
  g_fd : option Z;
  g_threads_multiplier : option Z;
  g_max_blocking_threads : option Z;
  g_grace_period : option Z;
  g_page_fallback : option Path.t;
  g_log_remote_address : option bool;
  g_log_x_real_ip : option bool;
  g_log_forwarded_for : option bool;
  g_trusted_proxies : option (list IpAddr);
  g_redirect_trailing_slash : option bool;
  g_ignore_hidden_files : option bool;
  g_disable_symlinks : option bool;
  g_health : option bool;
  g_accept_markdown : option bool;
  g_text_charset : option bool;
  g_metrics : option bool;
  g_maintenance_mode : option bool;
  g_maintenance_mode_status : option Z;
  g_maintenance_mode_file : option Path.t;
  g_memory_cache : option bool;
}.

Record Settings `{HttpLib} := mkSettings {
  general : option General;
  advanced : option Advanced;
}.
End File.

(** * The command line: [settings/cli.rs] *)

Module Cli.
(** [cli::Commands] on Unix. *)
Inductive Commands := Generate (completions man_pages : bool) (out_dir : Path.t).

Record General := mkGeneral {
  host : string;
  port : Z;
  fd : option Z;
  threads_multiplier : Z;
  max_blocking_threads : Z;
  root : Path.t;
  page50x : Path.t;
  page404 : Path.t;
  page_fallback : Path.t;
  log_level : string;
  log_with_ansi : bool;
  cors_allow_origins : string;
  cors_allow_headers : string;
  cors_expose_headers : string;
  http2 : bool;
  http2_tls_cert : option Path.t;
  http2_tls_key : option Path.t;
  https_redirect : bool;
  https_redirect_host : string;
  https_redirect_from_port : Z;
  https_redirect_from_hosts : string;
  index_files : string;
  compression : bool;
  compression_level : CompressionLevel;
  compression_static : bool;
  directory_listing : bool;
  directory_listing_order : Z;
  directory_listing_format : DirListFmt;
  directory_listing_download : list DirDownloadFmt;
  security_headers : bool;
  cache_control_headers : bool;
  basic_auth : string;
  grace_period : Z;
  config_file : Path.t;
  log_remote_address : bool;
  log_x_real_ip : bool;
  log_forwarded_for : bool;
  trusted_proxies : list IpAddr;
  redirect_trailing_slash : bool;
  ignore_hidden_files : bool;
  disable_symlinks : bool;
  accept_markdown : bool;
  text_charset : bool;
  health : bool;
  metrics : bool;
  maintenance_mode : bool;
  maintenance_mode_status : Z;
  maintenance_mode_file : Path.t;
  commands : option Commands;
  version : bool;
}.

(** The [default_value] of every option: what the parser yields for an empty command line
    and environment. *)
Definition General_default : General := {|
  host := "::";
  port := 80;
  fd := None;
  threads_multiplier := 1;
  max_blocking_threads := 512;
  root := Path.parse "./public";
  page50x := Path.parse "./50x.html";
  page404 := Path.parse "./404.html";
  page_fallback := [];
  log_level := "error";
  log_with_ansi := false;
  cors_allow_origins := "";
  cors_allow_headers := "origin, content-type, authorization";
  cors_expose_headers := "origin, content-type";
  http2 := false;
  http2_tls_cert := None;
  http2_tls_key := None;
  https_redirect := false;
  https_redirect_host := "localhost";
  https_redirect_from_port := 80;
  https_redirect_from_hosts := "localhost";
  index_files := "index.html";
  compression := true;
  compression_level := Default;
  compression_static := false;
  directory_listing := false;
  directory_listing_order := 6;
  directory_listing_format := Html;
  directory_listing_download := [];
  security_headers := false;
  cache_control_headers := true;
  basic_auth := "";
  grace_period := 0;
  config_file := Path.parse "./weavegate.toml";
  log_remote_address := false;
  log_x_real_ip := false;
  log_forwarded_for := false;
  trusted_proxies := [];
  redirect_trailing_slash := true;
  ignore_hidden_files := true;
  disable_symlinks := true;
  accept_markdown := false;
  text_charset := true;
  health := false;
  metrics := false;
  maintenance_mode := false;
  maintenance_mode_status := 503;
  maintenance_mode_file := [];
  commands := None;
  version := false;
|}.

(** [value_parser_status_code]: [None] stands for the error text. *)
Definition value_parser_status_code `{HttpLib} (s : string) : option Z :=
  match Str.parse_uint u16_max s with
  | Some code => if status_valid code then Some code else None
  | None => None
  end.
End Cli.

(** * Runtime settings: [settings/mod.rs] *)

(** [ProxyTlsSettings] and [ProxySettings], with the values of their [Default]. *)
Record ProxyTlsSettings := mkProxyTlsSettings {
  tls_ca_files : list Path.t;
  use_webpki_roots : bool;
}.

Definition ProxyTlsSettings_default : ProxyTlsSettings := mkProxyTlsSettings [] false.

Record ProxySettings := mkProxySettings {
  pool_max_idle_per_host : Z;
  pool_idle_timeout_secs : Z;
  ps_proxy_first : bool;
  max_upgrade_tunnels : option Z;
  tls : ProxyTlsSettings;
}.

Definition ProxySettings_default : ProxySettings :=
  mkProxySettings 32 90 false None ProxyTlsSettings_default.

(** [UpstreamUriTemplate]. *)
Record UpstreamUriTemplate := mkUpstreamUriTemplate {
  origin : string;
  base_path : string;
  t_strip_prefix : option string;
}.

(** The client of [proxy_client.rs], as the options its builders set: the pool settings are
    absent for the bootstrap client, [pc_roots] is [None] for the bundled WebPKI roots. *)
Record ProxyHttpClient := mkProxyHttpClient {
  pc_keepalive : option Z;
  pc_title_case : bool;
  pc_pool_max_idle : option Z;
  pc_pool_idle_timeout : option Z;
  pc_roots : option (bool * list string);
}.

(** [MemCacheOpts] of [mem_cache/cache.rs]. *)
Record MemCacheOpts := mkMemCacheOpts { mc_max_file_size : Z }.

Section Runtime.
Context `{HttpLib, GlobLib, RegexLib}.

(** [settings::Headers], [Rewrites], [Redirects], [VirtualHosts]. *)
Record Headers := mkHeaders { hd_source : Glob; hd_headers : HeaderMap }.

Record Rewrites := mkRewrites {
  rw_source : Regex;
  rw_destination : string;
  rw_redirect : option RedirectsKind;
}.

Record Redirects := mkRedirects {
  rd_host : option string;
  rd_source : Regex;
  rd_destination : string;
  rd_kind : Z;
}.

Record VirtualHosts := mkVirtualHosts { vh_host : string; vh_root : Path.t }.

(** [ProxyBalancer]; [next] is the current value of the atomic counter. *)
Record ProxyBalancer := mkProxyBalancer {
  pb_name : option string;
  pb_targets : list Uri;
  next : Z;
}.

Record ProxyRule := mkProxyRule {
  pr_host : option string;
  pr_source : Glob;
  balancer : ProxyBalancer;
  pr_strip_prefix : option string;
  uri_templates : list UpstreamUriTemplate;
}.

Record Advanced := mkAdvanced {
  headers : option (list Headers);
  rewrites : option (list Rewrites);
  redirects : option (list Redirects);
  virtual_hosts : option (list VirtualHosts);
  proxies : option (list ProxyRule);
  proxy_defs : option (list File.Proxy);
  routes_bootstrap : option File.RoutesBootstrap;
  adv_proxy_settings : ProxySettings;
  adv_memory_cache : option File.MemoryCache;
}.

Definition Advanced_default : Advanced :=
  mkAdvanced None None None None None None None ProxySettings_default None.

Definition set_proxies (p : option (list ProxyRule)) (a : Advanced) : Advanced :=
  mkAdvanced (headers a) (rewrites a) (redirects a) (virtual_hosts a) p (proxy_defs a)
    (routes_bootstrap a) (adv_proxy_settings a) (adv_memory_cache a).

Record Settings := mkSettings { general : Cli.General; advanced : option Advanced }.

(** ** [cors.rs]: the data; a [HashSet] is a finite set. *)
Record Cors := mkCors {
  allowed_headers : gset string;
  exposed_headers : gset string;
  max_age : option Z;
  allowed_methods : gset string;
  origins : option (gset string);
}.

(** [Configured]: the headers are kept as their encoded text. *)
Record Configured := mkConfigured {
  cors_ : Cors;
  cf_allowed_headers : string;
  cf_exposed_headers : string;
  cf_methods_header : string;
}.

(** * [handler.rs]: the request handler's options *)
Record RequestHandlerOpts := mkOpts {
  root_dir : Path.t;
  memory_cache : option MemCacheOpts;
  compression : bool;
  compression_level : CompressionLevel;
  compression_static : bool;
  dir_listing : bool;
  dir_listing_order : Z;
  dir_listing_format : DirListFmt;
  dir_listing_download : list DirDownloadFmt;
  cors : option Configured;
  security_headers : bool;
  cache_control_headers : bool;
  page404 : Path.t;
  page50x : Path.t;
  page_fallback : string;
  basic_auth : string;
  index_files : list string;
  log_remote_address : bool;
  log_x_real_ip : bool;
  log_forwarded_for : bool;
  trusted_proxies : list IpAddr;
  redirect_trailing_slash : bool;
  ignore_hidden_files : bool;
  disable_symlinks : bool;
  accept_markdown : bool;
  text_charset : bool;
  health : bool;
  metrics_enabled : bool;
  maintenance_mode : bool;
  maintenance_mode_status : Z;
  maintenance_mode_file : Path.t;
  advanced_opts : option Advanced;
  proxy_client : option ProxyHttpClient;
  proxy_settings : option ProxySettings;
  proxy_first : bool;
  upgrade_tunnel_semaphore : option Z;
}.

(** [RequestHandlerOpts::default]. *)
Definition RequestHandlerOpts_default : RequestHandlerOpts := {|
  root_dir := Path.parse "./public";
  memory_cache := None;
  compression := true;
  compression_level := Default;
  compression_static := false;
  dir_listing := false;
  dir_listing_order := 6;
  dir_listing_format := Html;
  dir_listing_download := [];
  cors := None;
  security_headers := false;
  cache_control_headers := true;
  page404 := Path.parse "./404.html";
  page50x := Path.parse "./50x.html";
  page_fallback := "";
  basic_auth := "";
  index_files := ["index.html"];
  log_remote_address := false;
  log_x_real_ip := false;
  log_forwarded_for := false;
  trusted_proxies := [];
  redirect_trailing_slash := true;
  ignore_hidden_files := false;
  disable_symlinks := false;
  accept_markdown := false;
  text_charset := true;
  health := false;
  metrics_enabled := false;
  maintenance_mode := false;
  maintenance_mode_status := 503;
  maintenance_mode_file := [];
  advanced_opts := None;
  proxy_client := None;
  proxy_settings := None;
  proxy_first := false;
  upgrade_tunnel_semaphore := None;
|}.
End Runtime.
