(* ===== verification/CommandLine.v ===== *)
(** The command line: the attributes of [settings/cli.rs].

    [args] is the table of the options as the attributes declare them: long name (the field),
    short letter, default text, environment variable, value parser and the rules between
    options.  Reading the words of the command line is [clap]'s; [accept] is what the value
    parsers take, those of [clap] as documented, the program's own translated. *)
From Stdlib Require Import ZArith Lia Ascii String.
From stdpp Require Import base list strings.
From S2P Require Import Prelude Http Libs RefLibs Path Opts.
Import Cli.
Local Open Scope string_scope.
Local Open Scope list_scope.

Module CommandLine.

(** The value parsers, by the type of the field; [KPathAny] is [value_parser_pathbuf]. *)
Inductive Kind :=
| KString | KBool | KUint (max : Z) | KPath | KPathAny | KLevel | KFormat | KDownloads
| KStatus | KIps | KFlag.

Inductive Value :=
| VString (s : string) | VBool (b : bool) | VInt (n : Z) | VPath (p : Path.t)
| VLevel (l : CompressionLevel) | VFormat (f : DirListFmt) | VFormats (l : list DirDownloadFmt)
| VIps (l : list IpAddr).

(** [conflicts_with_all], [requires_if(value, id)], [required_if_eq(id, value)] and
    [default_value_if(id, value, default)]. *)
Inductive Rule :=
| ConflictsWith (id : string)
| RequiresIf (value id : string)
| RequiredIfEq (id value : string)
| DefaultIf (id value default : string).

Record Arg := mkArg {
  arg_id : string;
  arg_short : option ascii;
  arg_default : option string;
  arg_env : option string;
  arg_kind : Kind;
  arg_rules : list Rule;
  arg_field : General → option Value;
}.

(** Where to listen. *)
Definition listen_args : list Arg :=
  [mkArg "host" (Some "a"%char) (Some "::") (Some "SERVER_HOST") KString
     [] (λ g, Some (VString (host g)));
   mkArg "port" (Some "p"%char) (Some "80") (Some "SERVER_PORT") (KUint u16_max)
     [] (λ g, Some (VInt (port g)));
   mkArg "fd" (Some "f"%char) None (Some "SERVER_LISTEN_FD") (KUint u64_max)
     [ConflictsWith "host"; ConflictsWith "port"; ConflictsWith "https_redirect"]
     (λ g, VInt <$> fd g)].

(** The runtime (the native defaults). *)
Definition runtime_args : list Arg :=
  [mkArg "threads_multiplier" (Some "n"%char) (Some "1") (Some "SERVER_THREADS_MULTIPLIER") (KUint u64_max)
     [] (λ g, Some (VInt (threads_multiplier g)));
   mkArg "max_blocking_threads" (Some "b"%char) (Some "512") (Some "SERVER_MAX_BLOCKING_THREADS")
     (KUint u64_max)
     [] (λ g, Some (VInt (max_blocking_threads g)))].

(** The root directory and the pages. *)
Definition page_args : list Arg :=
  [mkArg "root" (Some "d"%char) (Some "./public") (Some "SERVER_ROOT") KPath
     [] (λ g, Some (VPath (root g)));
   mkArg "page50x" None (Some "./50x.html") (Some "SERVER_ERROR_PAGE_50X") KPath
     [] (λ g, Some (VPath (page50x g)));
   mkArg "page404" None (Some "./404.html") (Some "SERVER_ERROR_PAGE_404") KPath
     [] (λ g, Some (VPath (page404 g)));
   mkArg "page_fallback" None (Some "") (Some "SERVER_FALLBACK_PAGE") KPathAny
     [] (λ g, Some (VPath (page_fallback g)))].

(** The log. *)
Definition log_args : list Arg :=
  [mkArg "log_level" (Some "g"%char) (Some "error") (Some "SERVER_LOG_LEVEL") KString
     [] (λ g, Some (VString (log_level g)));
   mkArg "log_with_ansi" None (Some "false") (Some "SERVER_LOG_WITH_ANSI") KBool
     [] (λ g, Some (VBool (log_with_ansi g)))].

(** CORS. *)
Definition cors_args : list Arg :=
  [mkArg "cors_allow_origins" (Some "c"%char) (Some "") (Some "SERVER_CORS_ALLOW_ORIGINS") KString
     [] (λ g, Some (VString (cors_allow_origins g)));
   mkArg "cors_allow_headers" (Some "j"%char) (Some "origin, content-type, authorization") (Some "SERVER_CORS_ALLOW_HEADERS")
     KString
     [] (λ g, Some (VString (cors_allow_headers g)));
   mkArg "cors_expose_headers" None (Some "origin, content-type") (Some "SERVER_CORS_EXPOSE_HEADERS")
     KString
     [] (λ g, Some (VString (cors_expose_headers g)))].

(** HTTP/2, TLS and the HTTPS redirect. *)
Definition tls_args : list Arg :=
  [mkArg "http2" (Some "t"%char) (Some "false") (Some "SERVER_HTTP2_TLS") KBool
     [] (λ g, Some (VBool (http2 g)));
   mkArg "http2_tls_cert" None None (Some "SERVER_HTTP2_TLS_CERT") KPath
     [RequiredIfEq "http2" "true"] (λ g, VPath <$> http2_tls_cert g);
   mkArg "http2_tls_key" None None (Some "SERVER_HTTP2_TLS_KEY") KPath
     [RequiredIfEq "http2" "true"] (λ g, VPath <$> http2_tls_key g);
   mkArg "https_redirect" None (Some "false") (Some "SERVER_HTTPS_REDIRECT") KBool
     [RequiresIf "true" "http2"] (λ g, Some (VBool (https_redirect g)));
   mkArg "https_redirect_host" None (Some "localhost") (Some "SERVER_HTTPS_REDIRECT_HOST") KString
     [RequiresIf "true" "https_redirect"] (λ g, Some (VString (https_redirect_host g)));
   mkArg "https_redirect_from_port" None (Some "80") (Some "SERVER_HTTPS_REDIRECT_FROM_PORT")
     (KUint u16_max)
     [RequiresIf "true" "https_redirect"] (λ g, Some (VInt (https_redirect_from_port g)));
   mkArg "https_redirect_from_hosts" None (Some "localhost") (Some "SERVER_HTTPS_REDIRECT_FROM_HOSTS")
     KString
     [RequiresIf "true" "https_redirect"] (λ g, Some (VString (https_redirect_from_hosts g)))].

(** Index files and compression. *)
Definition content_args : list Arg :=
  [mkArg "index_files" None (Some "index.html") (Some "SERVER_INDEX_FILES") KString
     [] (λ g, Some (VString (index_files g)));
   mkArg "compression" (Some "x"%char) (Some "true") (Some "SERVER_COMPRESSION") KBool
     [] (λ g, Some (VBool (compression g)));
   mkArg "compression_level" None (Some "default") (Some "SERVER_COMPRESSION_LEVEL") KLevel
     [] (λ g, Some (VLevel (compression_level g)));
   mkArg "compression_static" None (Some "false") (Some "SERVER_COMPRESSION_STATIC") KBool
     [] (λ g, Some (VBool (compression_static g)))].

(** Directory listings and downloads. *)
Definition listing_args : list Arg :=
  [mkArg "directory_listing" (Some "z"%char) (Some "false") (Some "SERVER_DIRECTORY_LISTING") KBool
     [] (λ g, Some (VBool (directory_listing g)));
   mkArg "directory_listing_order" None (Some "6") (Some "SERVER_DIRECTORY_LISTING_ORDER")
     (KUint u8_max)
     [RequiresIf "true" "directory_listing"] (λ g, Some (VInt (directory_listing_order g)));
   mkArg "directory_listing_format" None (Some "html") (Some "SERVER_DIRECTORY_LISTING_FORMAT")
     KFormat
     [RequiresIf "true" "directory_listing"] (λ g, Some (VFormat (directory_listing_format g)));
   mkArg "directory_listing_download" None None (Some "SERVER_DIRECTORY_LISTING_DOWNLOAD")
     KDownloads
     [RequiresIf "targz" "directory_listing"]
     (λ g, match directory_listing_download g with [] => None | l => Some (VFormats l) end)].

(** Headers, authentication, shutdown and the manifest. *)
Definition policy_args : list Arg :=
  [mkArg "security_headers" None (Some "false") (Some "SERVER_SECURITY_HEADERS") KBool
     [DefaultIf "http2" "true" "true"] (λ g, Some (VBool (security_headers g)));
   mkArg "cache_control_headers" (Some "e"%char) (Some "true") (Some "SERVER_CACHE_CONTROL_HEADERS")
     KBool
     [] (λ g, Some (VBool (cache_control_headers g)));
   mkArg "basic_auth" None (Some "") (Some "SERVER_BASIC_AUTH") KString
     [] (λ g, Some (VString (basic_auth g)));
   mkArg "grace_period" (Some "q"%char) (Some "0") (Some "SERVER_GRACE_PERIOD") (KUint u8_max)
     [] (λ g, Some (VInt (grace_period g)));
   mkArg "config_file" (Some "w"%char) (Some "./weavegate.toml") (Some "SERVER_CONFIG_FILE")
     KPathAny
     [] (λ g, Some (VPath (config_file g)))].

(** Client addresses in the log. *)
Definition address_args : list Arg :=
  [mkArg "log_remote_address" None (Some "false") (Some "SERVER_LOG_REMOTE_ADDRESS") KBool
     [] (λ g, Some (VBool (log_remote_address g)));
   mkArg "log_x_real_ip" None (Some "false") (Some "SERVER_LOG_X_REAL_IP") KBool
     [] (λ g, Some (VBool (log_x_real_ip g)));
   mkArg "log_forwarded_for" None (Some "false") (Some "SERVER_LOG_FORWARDED_FOR") KBool
     [] (λ g, Some (VBool (log_forwarded_for g)));
   mkArg "trusted_proxies" None None (Some "SERVER_TRUSTED_PROXIES") KIps
     [] (λ g, match trusted_proxies g with [] => None | l => Some (VIps l) end)].

(** How files are served, and the endpoints. *)
Definition serving_args : list Arg :=
  [mkArg "redirect_trailing_slash" None (Some "true") (Some "SERVER_REDIRECT_TRAILING_SLASH") KBool
     [] (λ g, Some (VBool (redirect_trailing_slash g)));
   mkArg "ignore_hidden_files" None (Some "true") (Some "SERVER_IGNORE_HIDDEN_FILES") KBool
     [] (λ g, Some (VBool (ignore_hidden_files g)));
   mkArg "disable_symlinks" None (Some "true") (Some "SERVER_DISABLE_SYMLINKS") KBool
     [] (λ g, Some (VBool (disable_symlinks g)));
   mkArg "accept_markdown" None (Some "false") (Some "SERVER_ACCEPT_MARKDOWN") KBool
     [] (λ g, Some (VBool (accept_markdown g)));
   mkArg "text_charset" None (Some "true") (Some "SERVER_TEXT_CHARSET") KBool
     [] (λ g, Some (VBool (text_charset g)));
   mkArg "health" None (Some "false") (Some "SERVER_HEALTH") KBool
     [] (λ g, Some (VBool (health g)));
   mkArg "metrics" None (Some "false") (Some "SERVER_METRICS") KBool
     [] (λ g, Some (VBool (metrics g)))].

(** Maintenance mode. *)
Definition maintenance_args : list Arg :=
  [mkArg "maintenance_mode" None (Some "false") (Some "SERVER_MAINTENANCE_MODE") KBool
     [] (λ g, Some (VBool (maintenance_mode g)));
   mkArg "maintenance_mode_status" None (Some "503") (Some "SERVER_MAINTENANCE_MODE_STATUS") KStatus
     [RequiresIf "true" "maintenance_mode"] (λ g, Some (VInt (maintenance_mode_status g)));
   mkArg "maintenance_mode_file" None (Some "") (Some "SERVER_MAINTENANCE_MODE_FILE") KPathAny
     [RequiresIf "true" "maintenance_mode"] (λ g, Some (VPath (maintenance_mode_file g)))].

(** The version flag. *)
Definition version_args : list Arg :=
  [mkArg "version" (Some "V"%char) (Some "false") None KFlag
     [] (λ g, Some (VBool (version g)))].

Definition args : list Arg :=
  listen_args ++ runtime_args ++ page_args ++ log_args ++ cors_args ++ tls_args ++ content_args ++
  listing_args ++ policy_args ++ address_args ++ serving_args ++ maintenance_args ++ version_args.

(** The option the Windows build has besides: its field is of that build only. *)
Definition windows_args (windows_service : bool) : list Arg :=
  [mkArg "windows_service" (Some "s"%char) (Some "false") (Some "SERVER_WINDOWS_SERVICE") KBool
     [] (λ _, Some (VBool windows_service))].

(** [value_parser_pathbuf]: any text, the empty one included. *)
Definition value_parser_pathbuf (s : string) : Path.t := Path.parse s.

(** What a value parser makes of one text (of one element, for the lists); [ip_parse] is
    [str::parse::<IpAddr>].  [clap] takes [true] and [false] for a [bool], no
    empty [PathBuf], and the names of a [ValueEnum], those of the formats in any case. *)
Definition accept `{HttpLib} (ip_parse : string → option IpAddr) (k : Kind) (s : string)
    : option Value :=
  match k with
  | KString => Some (VString s)
  | KBool | KFlag =>
      if String.eqb s "true" then Some (VBool true)
      else if String.eqb s "false" then Some (VBool false) else None
  | KUint max => VInt <$> Str.parse_uint max s
  | KPath => if Str.is_empty s then None else Some (VPath (Path.parse s))
  | KPathAny => Some (VPath (value_parser_pathbuf s))
  | KLevel =>
      if String.eqb s "fastest" then Some (VLevel Fastest)
      else if String.eqb s "best" then Some (VLevel Best)
      else if String.eqb s "default" then Some (VLevel Default) else None
  | KFormat =>
      if Str.eq_ignore_ascii_case s "html" then Some (VFormat Html)
      else if Str.eq_ignore_ascii_case s "json" then Some (VFormat Json) else None
  | KDownloads => if Str.eq_ignore_ascii_case s "targz" then Some (VFormats [Targz]) else None
  | KStatus => VInt <$> value_parser_status_code s
  | KIps => (λ ip, VIps [ip]) <$> ip_parse s
  end.
End CommandLine.

(** * The table is well formed *)

(** The long name [clap] derives from a field: its underscores as hyphens. *)
Fixpoint long_name (id : string) : string :=
  match id with
  | "" => ""
  | String c s => String (if Ascii.eqb c "_" then "-"%char else c) (long_name s)
  end.

(** The option's default text is accepted and is the field of [General_default]; an option
    without one has no value there. *)
Definition default_ok `{HttpLib} (ip_parse : string → option IpAddr) (a : CommandLine.Arg) : Prop :=
  match CommandLine.arg_default a with
  | Some text => ∃ v, CommandLine.accept ip_parse (CommandLine.arg_kind a) text = Some v ∧
                      CommandLine.arg_field a General_default = Some v
  | None => CommandLine.arg_field a General_default = None
  end.

Lemma accept_503 `{HttpLib} ip_parse :
  status_valid 503 = true →
  CommandLine.accept ip_parse CommandLine.KStatus "503" = Some (CommandLine.VInt 503).
Proof.
  intros Hs. unfold CommandLine.accept, value_parser_status_code.
  assert (Str.parse_uint u16_max "503" = Some 503%Z) as -> by (vm_compute; reflexivity).
  by rewrite Hs.
Qed.

(** Each default text is accepted by its option's value parser and is what the settings of an empty
    command line hold, which for the empty paths takes the parser the program supplies. *)
Lemma defaults_ok `{HttpLib} ip_parse :
  status_valid 503 = true → Forall (default_ok ip_parse) CommandLine.args.
Proof.
  intros Hs. unfold CommandLine.args.
  repeat apply Forall_app_2;
    repeat (apply Forall_cons_2;
      [unfold default_ok;
       cbn [CommandLine.arg_default CommandLine.arg_kind CommandLine.arg_field];
       first [ reflexivity
             | eexists; split; [by apply (accept_503 ip_parse) | reflexivity]
             | eexists; split; reflexivity ]|]);
    apply Forall_nil_2.
Qed.

(** No two options share a long name, a short letter or an environment variable, nor take those of
    the help flag, also with the option of the Windows build. *)
Lemma windows_wellformed windows_service :
  let args := CommandLine.args ++ CommandLine.windows_args windows_service in
  NoDup ("help" :: (long_name ∘ CommandLine.arg_id <$> args)) ∧
  NoDup ("h"%char :: omap CommandLine.arg_short args) ∧ NoDup (omap CommandLine.arg_env args).
Proof. split_and!; apply (bool_decide_unpack _); vm_compute; exact I. Qed.

(** An option given a text, as one word of the command line. *)
Definition option_word (a : CommandLine.Arg) (text : string) : string :=
  "--" +:+ long_name (CommandLine.arg_id a) +:+ "=" +:+ text.

(** [requires_if] looks at the value of its own option, not of the one it names: on an option
    whose parser refuses the text [true] such a rule never fires. *)
Example requires_if_never_fires `{HttpLib} (ip_parse : string → option IpAddr) :
  forallb
    (λ a, negb (bool_decide (CommandLine.arg_id a ∈
             ["https_redirect_from_port"; "directory_listing_order"; "directory_listing_format";
              "maintenance_mode_status"])) ||
          existsb (λ r, match r with CommandLine.RequiresIf v _ => String.eqb v "true" | _ => false end)
            (CommandLine.arg_rules a) &&
          match CommandLine.accept ip_parse (CommandLine.arg_kind a) "true" with
          | None => true | Some _ => false end)
    CommandLine.args = true.
Proof. vm_compute. reflexivity. Qed.
