(* ===== verification/Pages.v ===== *)
(** Pages the server answers itself: [error_page.rs], [fallback_page.rs], [maintenance_mode.rs]
    and [health.rs]. *)
From Stdlib Require Import ZArith Lia Ascii String.
From stdpp Require Import base list strings gmap.
From coqutil Require Import Datatypes.RecordSetters.
Import DoubleBraceUpdate.
From S2P Require Import Prelude Http Libs RefLibs Path Fs Opts.
Local Open Scope string_scope.
Local Open Scope list_scope.
Local Open Scope nat_scope.

(** [ContentType::from(mime::TEXT_HTML_UTF_8)] as a header text. *)
Definition TEXT_HTML_UTF_8 : string := "text/html; charset=utf-8".

Section TypedInsert.
Context `{HeadersLib}.

(** [typed_insert] of [ContentType], [ContentLength] and [AcceptRanges::bytes()]. *)
Definition insert_content_type (v : string) (r : Response) : Response :=
  set_header "content-type" v r.
Definition insert_content_length (n : Z) (r : Response) : Response :=
  set_header "content-length" (enc_content_length n) r.
Definition insert_accept_ranges (r : Response) : Response :=
  set_header "accept-ranges" enc_accept_ranges_bytes r.
End TypedInsert.

Module ErrorPage.

Definition codes_4xx : list Z :=
  [400; 401; 402; 403; 404; 405; 406; 407; 408; 409; 410; 411; 412; 413; 414; 415; 416; 417]%Z.
Definition codes_50x : list Z := [500; 501; 502; 503; 504; 505; 506; 507; 508]%Z.

Section ErrorPage.
Context `{HeadersLib, CodecLib}.

(** The trimmed text of a page file, when it is a regular file. *)
Definition page_text (fs : Fs.t) (page : Path.t) : string :=
  if Fs.is_file fs page then Str.trim (Utf8.lossy (Helpers.read_bytes_default fs page)) else "".

(** The custom content chosen by the status code. *)
Definition page_content (fs : Fs.t) (status : Z) (page404 page50x : Path.t) : string :=
  if existsb (Z.eqb status) codes_4xx
  then if (status =? 404)%Z then page_text fs page404 else ""
  else if existsb (Z.eqb status) codes_50x then page_text fs page50x
  else "".

Definition title (status : Z) : string :=
  Str.of_uint status +:+ " " +:+ default "" (status_reason status).

(** The built-in page. *)
Definition error_page (title : string) : list Markup :=
  [MDoctype;
   MElem "html" []
     [MElem "head" []
        [MVoid "meta" [("charset", "utf-8")];
         MVoid "meta" [("name", "viewport");
                       ("content", "width=device-width,minimum-scale=1,initial-scale=1")];
         MElem "title" [] [MText title];
         MElem "style" []
           [MText "html { color-scheme: light dark; } body { font-family: sans-serif; text-align: center; }"]];
      MElem "body" [] [MElem "h1" [] [MText title]]]].

(** [error_response]: it always returns [Ok]. *)
Definition error_response (fs : Fs.t) (uri : Uri) (method : string) (status : Z)
    (page404 page50x : Path.t) : result error Response :=
  let content := page_content fs status page404 page50x in
  let content := if Str.is_empty content then maud_render (error_page (title status)) else content in
  let body := if negb (is_head method) then BodyBytes content else BodyEmpty in
  let len := Z.of_nat (String.length content) in
  Ok (insert_accept_ranges
        (insert_content_length len
           (insert_content_type TEXT_HTML_UTF_8 (set_status status (resp_new body))))).
End ErrorPage.
End ErrorPage.

Module FallbackPage.
Section FallbackPage.
Context `{HeadersLib, GlobLib, RegexLib}.

(** [init]. *)
Definition init (fs : Fs.t) (file_path : Path.t) (o : RequestHandlerOpts) : RequestHandlerOpts :=
  if Fs.is_file fs file_path
  then o {{ page_fallback := Str.trim (Utf8.lossy (Helpers.read_bytes_default fs file_path)) }}
  else o.

(** [fallback_response]. *)
Definition fallback_response (page : string) : Response :=
  insert_accept_ranges
    (insert_content_type TEXT_HTML_UTF_8
       (insert_content_length (Z.of_nat (String.length page))
          (set_status 200 (resp_new (BodyBytes page))))).

(** [post_process]. *)
Definition post_process (o : RequestHandlerOpts) (req : Request) (resp : Response)
    : result error Response :=
  Ok (if is_get (rq_method req) && (rs_status resp =? 404)%Z
         && negb (Str.is_empty (page_fallback o))
      then fallback_response (page_fallback o) else resp).
End FallbackPage.
End FallbackPage.

Module Maintenance.
Section Maintenance.
Context `{HeadersLib, GlobLib, RegexLib}.

Definition DEFAULT_BODY_CONTENT : string := "The server is in maintenance mode.".

(** [init]. *)
Definition init (mode : bool) (status : Z) (file : Path.t) (o : RequestHandlerOpts)
    : RequestHandlerOpts :=
  o {{ maintenance_mode := mode; maintenance_mode_status := status;
       maintenance_mode_file := file }}.

(** [get_response]. *)
Definition get_response (fs : Fs.t) (method : string) (status : Z) (file_path : Path.t)
    : result error Response :=
  let body_content :=
    if Fs.is_file fs file_path
    then Str.trim (Utf8.lossy (Helpers.read_bytes_default fs file_path))
    else "<html><head><title>" +:+ status_display status +:+ "</title></head><body><center><h1>"
           +:+ DEFAULT_BODY_CONTENT +:+ "</h1></center></body></html>" in
  let body := if negb (is_head method) then BodyBytes body_content else BodyEmpty in
  Ok (insert_accept_ranges
        (insert_content_length (Z.of_nat (String.length body_content))
           (insert_content_type TEXT_HTML_UTF_8 (set_status status (resp_new body))))).

(** [pre_process]. *)
Definition pre_process (fs : Fs.t) (o : RequestHandlerOpts) (req : Request)
    : option (result error Response) :=
  if maintenance_mode o
  then Some (get_response fs (rq_method req) (maintenance_mode_status o) (maintenance_mode_file o))
  else None.
End Maintenance.
End Maintenance.

Module Health.
Section Health.
Context `{HeadersLib, GlobLib, RegexLib}.

(** [init]. *)
Definition init (enabled : bool) (o : RequestHandlerOpts) : RequestHandlerOpts :=
  o {{ health := enabled }}.

Definition is_health_endpoint (req : Request) : bool := String.eqb (rq_path req) "/health".

(** [pre_process]; [ContentType::html()] prints [text/html]. *)
Definition pre_process (o : RequestHandlerOpts) (req : Request)
    : option (result error Response) :=
  if negb (health o) then None
  else if negb (is_health_endpoint req) then None
  else
    let reply body := Some (Ok (insert_content_type "text/html" (resp_new body))) in
    if is_head (rq_method req) then reply BodyEmpty
    else if is_get (rq_method req) then reply (BodyBytes "OK")
    else None.
End Health.
End Health.

(** * Lemmas *)

Section PageLemmas.
Context `{HttpLaws} `{!MimeLib, !HeadersLib, !CodecLib}.

(** What every error page looks like, up to its text. *)
Lemma error_response_shape fs uri method status p404 p50x :
  ∃ r content,
    ErrorPage.error_response fs uri method status p404 p50x = Ok r ∧
    rs_status r = status ∧
    rs_body r = (if is_head method then BodyEmpty else BodyBytes content) ∧
    rs_get "content-type" r = Some TEXT_HTML_UTF_8 ∧
    rs_get "content-length" r = Some (enc_content_length (Z.of_nat (String.length content))) ∧
    content = (let c := ErrorPage.page_content fs status p404 p50x in
               if Str.is_empty c then maud_render (ErrorPage.error_page (ErrorPage.title status)) else c).
Proof.
  unfold ErrorPage.error_response. cbv zeta. set (content := if Str.is_empty _ then _ else _).
  eexists _, content. split; [done|]. split; [done|]. split; [by destruct (is_head method)|].
  unfold rs_get, insert_accept_ranges, insert_content_length, insert_content_type. simpl.
  rewrite !get_insert. split; [done|]. split; [done|]. done.
Qed.
End PageLemmas.
