(* ===== verification/Compression.v ===== *)
(** Content negotiation: [mime_ext.rs], [text_charset.rs], [markdown.rs], [compression.rs] and
    [compression_static.rs].  The encoders are third-party: a compressed body is kept as the
    coding, the level and the body that goes in. *)
From Stdlib Require Import ZArith Lia Ascii String Sorted.
From stdpp Require Import base list strings gmap.
From coqutil Require Import Datatypes.RecordSetters.
Import DoubleBraceUpdate.
From S2P Require Import Prelude Http Libs RefLibs Path Fs Quality Opts Pages.
Local Open Scope string_scope.
Local Open Scope list_scope.
Local Open Scope nat_scope.

(** * [mime_ext.rs] *)

Module MimeExt.
Section MimeExt.
Context `{MimeLib}.

Definition TEXT_MIME_TYPES : list string :=
  ["application/csv"; "application/graphql"; "application/javascript"; "application/json";
   "application/rtf"; "application/sql"; "application/x-yaml"; "application/xml";
   "application/yaml"].

Definition ADDITIONAL_COMPRESSIBLE_TYPES : list string :=
  ["application/wasm"; "application/font-sfnt"; "application/vnd.ms-fontobject";
   "image/x-icon"; "image/vnd.microsoft.icon"].

(** [[&str]::contains]. *)
Definition contains (l : list string) (s : string) : bool := existsb (String.eqb s) l.

Definition is_text_only (m : Mime) : bool := String.eqb (mime_type m) "text".

Definition is_text (m : Mime) : bool :=
  if is_text_only m then true
  else if match mime_suffix m with
          | Some s => contains ["json"; "xml"; "yaml"; "svg"] s
          | None => false
          end then true
  else contains TEXT_MIME_TYPES (mime_essence m).

Definition contains_text_only (m : Mime) (l : list string) : bool :=
  if negb (is_text_only m) then false else contains l (mime_essence m).

Definition is_compressible (m : Mime) : bool :=
  let s := mime_essence m in
  if is_text m then true
  else if String.eqb (mime_type m) "font" then negb (String.eqb s "font/woff2")
  else contains ADDITIONAL_COMPRESSIBLE_TYPES s.
End MimeExt.
End MimeExt.

(** * [text_charset.rs] *)

Module TextCharset.
Section TextCharset.
Context `{HeadersLib, GlobLib, RegexLib}.

Definition TEXT_ONLY_TYPES : list string :=
  ["application/atom+xml"; "application/rss+xml"; "text/calendar"; "text/csv"; "text/html";
   "text/markdown"; "text/plain"; "text/xml"].

(** The new header value, when there is one. *)
Definition new_header (resp : Response) : option string :=
  match rs_get "content-type" resp ≫= hv_to_str with
  | None => None
  | Some s =>
      match mime_parse s with
      | None => None
      | Some m =>
          if MimeExt.contains_text_only m TEXT_ONLY_TYPES && negb (mime_has_charset m)
          then hv_from_str (Str.trim_end_char ";" (Str.trim_end s) +:+ "; charset=utf-8")
          else None
      end
  end.

(** [post_process]. *)
Definition post_process (o : RequestHandlerOpts) (resp : Response) : result error Response :=
  if negb (text_charset o) then Ok resp
  else match new_header resp with
       | Some value => Ok (set_header "content-type" value resp)
       | None => Ok resp
       end.
End TextCharset.
End TextCharset.

(** * [markdown.rs] *)

Module Markdown.
Section Markdown.
Context `{HeadersLib, GlobLib, RegexLib}.

(** [pre_process]: the path text is pushed undecoded. *)
Definition pre_process (fs : Fs.t) (req : Request) (base_path : Path.t) (uri_path : string)
    : option string :=
  let accepts_markdown :=
    match Accept.get (rq_headers req) with
    | Some accept => Accept.accepts_markdown accept
    | None => false
    end in
  if negb accepts_markdown then None
  else
    let sanitized_path := Str.trim_start_char "/" uri_path in
    let file_path := if negb (Str.is_empty sanitized_path)
                     then Path.push base_path (Path.parse sanitized_path) else base_path in
    match Meta.try_markdown_variant fs file_path with
    | None => None
    | Some md_path =>
        match Path.strip_prefix md_path base_path with
        | None => None
        | Some p => (λ s, "/" +:+ s) <$> Path.to_str p
        end
    end.

(** [post_process]. *)
Definition post_process (is_markdown_variant : bool) (o : RequestHandlerOpts) (resp : Response)
    : result error Response :=
  if negb is_markdown_variant || negb (accept_markdown o) then Ok resp
  else match hv_from_str "text/markdown; charset=utf-8" with
       | Some content_type => Ok (set_header "content-type" content_type resp)
       | None => Ok resp
       end.
End Markdown.
End Markdown.

(** * [compression.rs] *)

Module Compression.
Section Compression.
Context `{HeadersLib, CodecLib, GlobLib, RegexLib}.

Definition AVAILABLE_ENCODINGS : list ContentCoding := [DEFLATE; GZIP; BROTLI; ZSTD].

(** [AVAILABLE_ENCODINGS.contains(&encoding)]. *)
Definition available (c : ContentCoding) : bool := bool_decide (c ∈ AVAILABLE_ENCODINGS).

(** [init]. *)
Definition init (enabled : bool) (level : CompressionLevel) (o : RequestHandlerOpts)
    : RequestHandlerOpts :=
  o {{ compression := enabled; compression_level := level }}.

(** The loop of [get_preferred_encoding]. *)
Fixpoint first_available (l : list ContentCoding) : option ContentCoding :=
  match l with
  | [] => None
  | encoding :: l' => if available encoding then Some encoding else first_available l'
  end.

Definition get_preferred_encoding (headers : HeaderMap) : option ContentCoding :=
  match AcceptEncoding.get headers with
  | Some accept_encoding => first_available (AcceptEncoding.sorted_encodings accept_encoding)
  | None => None
  end.

(** [get_encodings]. *)
Definition get_encodings (headers : HeaderMap) : list ContentCoding :=
  match AcceptEncoding.get headers with
  | Some accept_encoding =>
      List.filter available (AcceptEncoding.sorted_encodings accept_encoding)
  | None => []
  end.

(** [create_encoding_header]. *)
Definition create_encoding_header (existing : option string) (coding : ContentCoding) : string :=
  match existing ≫= hv_to_str with
  | Some str_val =>
      let v := str_val +:+ ", " +:+ Coding.as_str coding in
      if hv_valid v then v else Coding.header_value coding
  | None => Coding.header_value coding
  end.

(** A level as the encoders get it. *)
Definition level_text (l : Level) : string :=
  match l with
  | LevelFastest => "fastest"
  | LevelBest => "best"
  | LevelPrecise n => "precise " +:+ Str.of_uint n
  end.

(** The common body of [gzip], [deflate], [brotli] and [zstd]. *)
Definition encode (coding : ContentCoding) (default_level : Z) (resp : Response)
    (level : CompressionLevel) : Response :=
  let level := into_algorithm_level level default_level in
  let body := BodyEncoded (Coding.as_str coding) (level_text level) (rs_body resp) in
  let existing := hm_get "content-encoding" (rs_headers resp) in
  let headers := hm_remove "content-encoding" (rs_headers resp) in
  let header := create_encoding_header existing coding in
  let headers := hm_remove "content-length" headers in
  let headers := hm_insert "content-encoding" header headers in
  mkResponse (rs_status resp) headers body.

Definition gzip (resp : Response) (level : CompressionLevel) : Response :=
  encode GZIP 4 resp level.
Definition deflate (resp : Response) (level : CompressionLevel) : Response :=
  encode DEFLATE 4 resp level.
Definition brotli (resp : Response) (level : CompressionLevel) : Response :=
  encode BROTLI 4 resp level.
Definition zstd (resp : Response) (level : CompressionLevel) : Response :=
  encode ZSTD 3 resp level.

(** [auto]. *)
Definition auto (method : string) (headers : HeaderMap) (level : CompressionLevel)
    (resp : Response) : result error Response :=
  if is_head method || is_options method then Ok resp
  else
    match get_preferred_encoding headers with
    | Some encoding =>
        if match get_content_type (rs_headers resp) with
           | Some content_type => negb (MimeExt.is_compressible content_type)
           | None => false
           end
        then Ok resp
        else match encoding with
             | GZIP => Ok (gzip resp level)
             | DEFLATE => Ok (deflate resp level)
             | BROTLI => Ok (brotli resp level)
             | ZSTD => Ok (zstd resp level)
             | _ => Ok resp
             end
    | None => Ok resp
    end.

(** The [Vary] value: [accept-encoding] is added unless the text already has it. *)
Definition vary_value (existing : option string) : string :=
  match existing with
  | None => "accept-encoding"
  | Some h =>
      let a := default "" (hv_to_str h) in
      if negb (Str.contains "accept-encoding" a)
      then (if negb (Str.is_empty a) then a +:+ "," else a) +:+ "accept-encoding"
      else a
  end.

(** [post_process]. *)
Definition post_process (fs : Fs.t) (o : RequestHandlerOpts) (req : Request) (resp : Response)
    : result error Response :=
  if negb (compression o) then Ok resp
  else if hm_contains "content-encoding" (rs_headers resp) then Ok resp
  else
    let value := vary_value (rs_get "vary" resp) in
    let resp := set_header "vary" value resp in
    match auto (rq_method req) (rq_headers req) (compression_level o) resp with
    | Ok resp => Ok resp
    | Err _ => ErrorPage.error_response fs (rq_uri req) (rq_method req) 500
                 (page404 o) (page50x o)
    end.
End Compression.
End Compression.

(** * [compression_static.rs] *)

Module CompressionStatic.

Record CompressedFileVariant := mkVariant {
  cv_file_path : Path.t;
  cv_metadata : Metadata;
  cv_encoding : ContentCoding;
}.

Definition comp_ext (c : ContentCoding) : option string :=
  match c with
  | GZIP | DEFLATE => Some "gz"
  | BROTLI => Some "br"
  | ZSTD => Some "zst"
  | _ => None
  end.

Section Variant.
Context (fs : Fs.t).

(** One iteration of the loop of [precompressed_variant]; [None] is a [continue]. *)
Definition try_variant (file_path : Path.t) (encoding : ContentCoding)
    : option CompressedFileVariant :=
  match comp_ext encoding with
  | None => None
  | Some comp_ext =>
      match Path.file_name file_path with
      | None => None
      | Some comp_name =>
          if negb (Utf8.valid comp_name) then None
          else
            let file_path := Path.set_file_name (comp_name +:+ "." +:+ comp_ext) file_path in
            match Meta.try_metadata fs file_path with
            | Err _ => None
            | Ok (metadata, is_dir) =>
                if is_dir : bool then None else Some (mkVariant file_path metadata encoding)
            end
      end
  end.

Fixpoint first_variant (file_path : Path.t) (encodings : list ContentCoding)
    : option CompressedFileVariant :=
  match encodings with
  | [] => None
  | encoding :: encodings' =>
      match try_variant file_path encoding with
      | Some v => Some v
      | None => first_variant file_path encodings'
      end
  end.

(** [precompressed_variant]. *)
Definition precompressed_variant `{HttpLib} (file_path : Path.t) (headers : HeaderMap)
    : option CompressedFileVariant :=
  match AcceptEncoding.get headers with
  | Some accept_encoding =>
      first_variant file_path (AcceptEncoding.sorted_encodings accept_encoding)
  | None => None
  end.
End Variant.

Section Static.
Context `{HttpLib, GlobLib, RegexLib}.

(** [init]. *)
Definition init (enabled : bool) (o : RequestHandlerOpts) : RequestHandlerOpts :=
  o {{ compression_static := enabled }}.

(** [post_process]. *)
Definition post_process (o : RequestHandlerOpts) (req : Request) (resp : Response)
    : result error Response :=
  if negb (compression_static o) then Ok resp
  else
    let value := match rs_get "vary" resp with
                 | None => "accept-encoding"
                 | Some h => default "" (hv_to_str h) +:+ "," +:+ "accept-encoding"
                 end in
    Ok (set_header "vary" value resp).
End Static.
End CompressionStatic.

(** * Theorems *)

Section NegotiationLemmas.
Context `{HttpLib}.

Lemma first_available_filter l :
  Compression.first_available l = head (List.filter Compression.available l).
Proof. induction l as [|c l IH]; simpl; [done|]. by destruct (Compression.available c). Qed.

Lemma first_available_split l c :
  Compression.first_available l = Some c →
  Compression.available c = true ∧
  ∃ l1 l2, l = l1 ++ c :: l2 ∧ Forall (λ x, Compression.available x = false) l1.
Proof.
  induction l as [|x l IH]; simpl; [done|].
  destruct (Compression.available x) eqn:E.
  - intros [= <-]. split; [done|]. by exists [], l.
  - intros (Ha & l1 & l2 & -> & Hall)%IH. split; [done|]. exists (x :: l1), l2.
    split; [done|]. by constructor.
Qed.

Lemma first_available_None l :
  Compression.first_available l = None → Forall (λ x, Compression.available x = false) l.
Proof.
  induction l as [|x l IH]; simpl; [constructor|].
  destruct (Compression.available x) eqn:E; [done|]. intros. constructor; auto.
Qed.
End NegotiationLemmas.

(** The coding the server picks for a request with an [Accept-Encoding] header is the best
    one: it is supported, the client listed it, and no supported coding the client listed has a
    higher quality (nor, at the same quality, a higher server priority); it is the head of
    [get_encodings]; no coding is picked only when the client lists no supported one. *)
Theorem preferred_encoding_best `{HttpLib} (headers : HeaderMap) (value : string)
    (Hget : AcceptEncoding.get headers = Some value) :
  Compression.get_preferred_encoding headers = head (Compression.get_encodings headers) ∧
  match Compression.get_preferred_encoding headers with
  | Some c =>
      Compression.available c = true ∧
      ∃ m, m ∈ Quality.items value ∧ Coding.from (data m) = c ∧
        ∀ m', m' ∈ Quality.items value → Compression.available (Coding.from (data m')) = true →
              preferred m m' ∨ m = m'
  | None =>
      ∀ m, m ∈ Quality.items value → Compression.available (Coding.from (data m)) = false
  end.
Proof.
  unfold Compression.get_preferred_encoding, Compression.get_encodings. rewrite Hget.
  split; [apply first_available_filter|].
  unfold AcceptEncoding.sorted_encodings, Quality.iter. rewrite <- list_fmap_compose.
  pose proof (sorted_items_perm value) as Hperm. pose proof (sorted_items_sorted value) as Hsort.
  destruct (Compression.first_available _) as [c|] eqn:E.
  - apply first_available_split in E as (Ha & l1 & l2 & Hl & Hall). split; [done|].
    apply fmap_app_inv in Hl as (s1 & s2 & Hs1 & Hs2 & Hs).
    destruct s2 as [|m s2]; [done|]. injection Hs2 as Hc Hs2.
    exists m. split; [rewrite <- Hperm, Hs; set_solver|]. split; [done|].
    intros m' Hm' Hav. rewrite <- Hperm, Hs in Hm'.
    apply elem_of_app in Hm' as [Hm'|[->|Hm']%elem_of_cons].
    + exfalso. subst l1. rewrite Forall_fmap in Hall.
      eapply Forall_forall in Hall; [|exact Hm']. simpl in Hall. congruence.
    + by right.
    + left. rewrite Hs in Hsort.
      apply list_elem_of_lookup in Hm' as [k Hk].
      apply (sorted_lookup_le _ _ (length s1) (length s1 + S k) m m' Hsort); [lia| |].
      * by rewrite lookup_app_r, Nat.sub_diag by done.
      * rewrite lookup_app_r by lia. by replace (length s1 + S k - length s1) with (S k) by lia.
  - apply first_available_None in E. rewrite Forall_fmap in E. intros m Hm.
    rewrite <- Hperm in Hm. by eapply Forall_forall in E.
Qed.

Lemma preferred_encoding_best_witness :
  let h := ref_headers [("accept-encoding", "deflate, br;q=0.9, gzip;q=1.0")] in
  Compression.get_preferred_encoding h = head (Compression.get_encodings h).
Proof.
  intros h.
  assert (AcceptEncoding.get h = Some "deflate, br;q=0.9, gzip;q=1.0") as Hget by reflexivity.
  exact (proj1 (preferred_encoding_best h _ Hget)).
Defined.

(** Zero-quality codings are not excluded. *)
Example zero_quality_accepted :
  Compression.get_preferred_encoding (ref_headers [("accept-encoding", "gzip;q=0")]) = Some GZIP.
Proof. vm_compute. reflexivity. Qed.

(** What the documentation promises of dynamic compression ([docs/content/features/compression.md]). *)
Module CompressionSpec.
(** The codings in the order of preference at equal weight. *)
Definition rank (c : ContentCoding) : option nat :=
  match c with ZSTD => Some 0 | BROTLI => Some 1 | GZIP => Some 2 | DEFLATE => Some 3 | _ => None end.
Definition supported (c : ContentCoding) : bool := bool_decide (is_Some (rank c)).

(** The media types that are compressed. *)
Definition listed_type `{MimeLib} (m : Mime) : bool :=
  bool_decide (mime_type m = "text") ||
  bool_decide (mime_essence m ∈
    ["application/csv"; "application/graphql"; "application/javascript"; "application/json";
     "application/rtf"; "application/sql"; "application/x-yaml"; "application/xml";
     "application/yaml"; "application/wasm"; "application/font-sfnt";
     "application/vnd.ms-fontobject"; "image/x-icon"; "image/vnd.microsoft.icon"]).

Section Http.
Context `{HttpLib}.

(** The [Accept-Encoding] value lists a supported coding. *)
Definition lists_supported (value : string) : Prop :=
  ∃ m, m ∈ Quality.items value ∧ supported (Coding.from (data m)) = true.

(** [c] is listed, and no supported coding listed has a higher weight or, at the same weight, a
    better rank. *)
Definition best (value : string) (c : ContentCoding) : Prop :=
  ∃ m k, m ∈ Quality.items value ∧ Coding.from (data m) = c ∧ rank c = Some k ∧
    ∀ m' k', m' ∈ Quality.items value → rank (Coding.from (data m')) = Some k' →
      (quality m' < quality m)%Z ∨ quality m' = quality m ∧ k ≤ k'.

(** Some supported coding is listed with a weight other than zero, if any is listed. *)
Definition weighted (value : string) : Prop :=
  ∀ m, m ∈ Quality.items value → supported (Coding.from (data m)) = true →
  ∃ m', m' ∈ Quality.items value ∧ supported (Coding.from (data m')) = true ∧ (0 < quality m')%Z.

(** The level an encoder gets: the extremes, or the number of the algorithm. *)
Definition level_of (c : ContentCoding) (l : CompressionLevel) : string :=
  match l, c with
  | Fastest, _ => "fastest"
  | Best, _ => "best"
  | Default, ZSTD => "precise 3"
  | Default, _ => "precise 4"
  end.

(** The [Vary] value: [accept-encoding] is in it, after what was there. *)
Definition vary (existing : option string) : string :=
  let a := default "" (existing ≫= hv_to_str) in
  if Str.contains "accept-encoding" a then a
  else if Str.is_empty a then "accept-encoding" else a +:+ "," +:+ "accept-encoding".
End Http.
End CompressionSpec.

Section AutoLemmas.
Context `{HttpLib}.

Lemma supported_available c : Compression.available c = CompressionSpec.supported c.
Proof. by destruct c. Qed.

Lemma rank_priority c k :
  CompressionSpec.rank c = Some k → Coding.priority c = (6 - Z.of_nat k)%Z.
Proof. destruct c; by intros [= <-]. Qed.

(** The coding picked is the best one. *)
Lemma preferred_best headers value c :
  AcceptEncoding.get headers = Some value →
  Compression.get_preferred_encoding headers = Some c → CompressionSpec.best value c.
Proof.
  intros Hget Hc. pose proof (proj2 (preferred_encoding_best headers value Hget)) as Hp. rewrite Hc in Hp.
  destruct Hp as (Hav & m & Hm & Hmc & Hall). rewrite supported_available in Hav.
  apply bool_decide_eq_true in Hav as [k Hk].
  exists m, k. split_and!; [done..|]. intros m' k' Hm' Hk'.
  assert (Compression.available (Coding.from (data m')) = true) as Hav'.
  { rewrite supported_available. apply bool_decide_eq_true. eauto. }
  destruct (Hall m' Hm' Hav') as [Hpref|<-].
  - unfold preferred in Hpref. rewrite Hmc, (rank_priority _ _ Hk), (rank_priority _ _ Hk') in Hpref.
    lia.
  - rewrite Hmc in Hk'. simplify_eq. right. by split; [|lia].
Qed.

Lemma preferred_none headers value :
  AcceptEncoding.get headers = Some value →
  Compression.get_preferred_encoding headers = None → ¬ CompressionSpec.lists_supported value.
Proof.
  intros Hget Hc (m & Hm & Hs). pose proof (proj2 (preferred_encoding_best headers value Hget)) as Hp.
  rewrite Hc in Hp. specialize (Hp m Hm). rewrite supported_available in Hp. congruence.
Qed.

Lemma vary_value_spec v : Compression.vary_value v = CompressionSpec.vary v.
Proof.
  unfold Compression.vary_value, CompressionSpec.vary. destruct v as [h|]; simpl; [|done].
  destruct (hv_to_str h) as [a|]; simpl; [|done].
  destruct (Str.contains "accept-encoding" a); simpl; [done|].
  destruct a as [|x a]; simpl; [done|]. by rewrite string_app_assoc.
Qed.
End AutoLemmas.

(** The response [encode] makes of one without [Content-Encoding]. *)
Lemma encode_spec `{HttpLaws, !MimeLib, !HeadersLib} (c : ContentCoding) (resp r : Response)
    (level : CompressionLevel) :
  rs_get "content-encoding" resp = None →
  r = Compression.encode c (match c with ZSTD => 3 | _ => 4 end)%Z resp level →
  rs_status r = rs_status resp ∧
  rs_body r = BodyEncoded (Coding.as_str c) (CompressionSpec.level_of c level) (rs_body resp) ∧
  ∀ n, hm_get_all n (rs_headers r) =
    if decide (n = "content-encoding") then [Coding.as_str c]
    else if decide (n = "content-length") then [] else hm_get_all n (rs_headers resp).
Proof.
  intros Hplain ->. unfold Compression.encode, Compression.create_encoding_header, rs_get in *.
  rewrite Hplain. simpl. split_and!; [done| |].
  - by destruct c, level.
  - intros n. rewrite get_all_insert, !get_all_remove.
    repeat case_decide; first [congruence | reflexivity].
Qed.

(** C38. Dynamic compression, for a response whose type (read off its [Content-Type] alone) is one
    the documented list and the code's test agree on. A response is left as it was when compression
    is off or when it is encoded already. Otherwise its [Vary] names [accept-encoding], and it is
    compressed exactly when the method is not [HEAD] or [OPTIONS], the type is a listed one, and the
    request lists a supported coding in [Accept-Encoding]: then with the best one, by weight and, at
    the same weight, in the documented order, at the configured level; the status and the other
    headers are kept, [Content-Encoding] names exactly that coding, and [Content-Length] is dropped.
    Left open: types such as [image/svg+xml] and [font/ttf], which the code compresses though the
    list does not have them; responses without a type; and requests that give every supported coding
    they list the weight zero, for which the code picks one all the same ([zero_quality_accepted]). *)
Theorem auto_compression `{HttpLaws, !MimeLib, !HeadersLib, !CodecLib, !GlobLib, !RegexLib}
    (fs : Fs.t) (o : RequestHandlerOpts) (req : Request) (resp : Response) (m : Mime)
    (Htype : get_content_type (rs_headers resp) = Some m)
    (Htyped : ∀ h h', hm_get_all "content-type" h = hm_get_all "content-type" h' →
                get_content_type h = get_content_type h')
    (Hlisted : MimeExt.is_compressible m = CompressionSpec.listed_type m)
    (Hweight : ∀ value, AcceptEncoding.get (rq_headers req) = Some value →
                 CompressionSpec.weighted value) :
  ∃ r, Compression.post_process fs o req resp = Ok r ∧
    if negb (compression o) || hm_contains "content-encoding" (rs_headers resp) then r = resp
    else
      let compressed :=
        is_head (rq_method req) = false ∧ is_options (rq_method req) = false ∧
        CompressionSpec.listed_type m = true ∧
        ∃ value c, AcceptEncoding.get (rq_headers req) = Some value ∧
          CompressionSpec.best value c ∧
          rs_body r = BodyEncoded (Coding.as_str c)
                        (CompressionSpec.level_of c (compression_level o)) (rs_body resp) ∧
          ∀ n, hm_get_all n (rs_headers r) =
            if decide (n = "vary") then [CompressionSpec.vary (rs_get "vary" resp)]
            else if decide (n = "content-encoding") then [Coding.as_str c]
            else if decide (n = "content-length") then []
            else hm_get_all n (rs_headers resp) in
      let unchanged :=
        (is_head (rq_method req) = true ∨ is_options (rq_method req) = true ∨
         CompressionSpec.listed_type m = false ∨
         ∀ value, AcceptEncoding.get (rq_headers req) = Some value →
                  ¬ CompressionSpec.lists_supported value) ∧
        rs_body r = rs_body resp ∧
        ∀ n, hm_get_all n (rs_headers r) =
          if decide (n = "vary") then [CompressionSpec.vary (rs_get "vary" resp)]
          else hm_get_all n (rs_headers resp) in
      rs_status r = rs_status resp ∧ (compressed ∨ unchanged).
Proof.
  unfold Compression.post_process. destruct (compression o); [|by eexists]. cbn [negb orb].
  destruct (hm_contains "content-encoding" (rs_headers resp)) eqn:Hc; [by eexists|].
  rewrite vary_value_spec. set (v := CompressionSpec.vary (rs_get "vary" resp)).
  set (resp' := set_header "vary" v resp).
  assert (∀ n, hm_get_all n (rs_headers resp') =
            if decide (n = "vary") then [v] else hm_get_all n (rs_headers resp)) as Hv.
  { intros n. unfold resp', set_header. simpl. rewrite get_all_insert.
    repeat case_decide; congruence. }
  assert (get_content_type (rs_headers resp') = Some m) as Htype'.
  { rewrite <- Htype. apply Htyped. by rewrite Hv. }
  assert (rs_get "content-encoding" resp' = None) as Hplain.
  { rewrite contains_get in Hc. unfold rs_get, hm_get in *. rewrite Hv. simpl.
    by destruct (hm_get_all _ _). }
  unfold Compression.auto.
  destruct (is_head (rq_method req)) eqn:Eh;
    [eexists; split; [done|]; split; [done|]; right; split_and!; [by left|done..]|].
  destruct (is_options (rq_method req)) eqn:Eo;
    [eexists; split; [done|]; split; [done|]; right; split_and!; [by right; left|done..]|].
  cbn [orb]. rewrite Htype', Hlisted.
  destruct (Compression.get_preferred_encoding (rq_headers req)) as [c|] eqn:Ec.
  2: { eexists. split; [done|]. split; [done|]. right. split_and!; [|done..].
       do 3 right. intros value Hget. by eapply preferred_none. }
  destruct (CompressionSpec.listed_type m) eqn:El; cbn [negb].
  2: { eexists. split; [done|]. split; [done|]. right. split_and!; [by do 2 right; left|done..]. }
  destruct (AcceptEncoding.get (rq_headers req)) as [value|] eqn:Hget.
  2: { unfold Compression.get_preferred_encoding in Ec. by rewrite Hget in Ec. }
  pose proof (preferred_best _ value c Hget Ec) as Hbest.
  pose proof (encode_spec c resp' _ (compression_level o) Hplain eq_refl) as (Hs & Hb & Hh).
  exists (Compression.encode c (match c with ZSTD => 3 | _ => 4 end)%Z resp' (compression_level o)).
  split.
  { destruct Hbest as (? & k & _ & _ & Hk & _). by destruct c. }
  split; [done|]. left. split_and!; [done..|]. exists value, c. split_and!; [done..|].
  intros n. rewrite Hh, Hv. repeat case_decide; congruence.
Qed.


Lemma text_charset_spec `{HttpLib, MimeLib} (resp : Response) (s : string) (m : Mime) :
  rs_get "content-type" resp ≫= hv_to_str = Some s → mime_parse s = Some m →
  mime_type m ≠ "text" → TextCharset.new_header resp = None.
Proof.
  intros Hs Hm Ht. unfold TextCharset.new_header. rewrite Hs, Hm.
  unfold MimeExt.contains_text_only, MimeExt.is_text_only.
  by apply String.eqb_neq in Ht as ->.
Qed.

Lemma auto_compression_witness :
  let resp := mkResponse 200 (ref_headers [("content-type", "text/html"); ("content-length", "2")])
                (BodyBytes "hi") in
  let req := mkRequest "GET" (RefUri.mk None None (Some "/"))
               (ref_headers [("accept-encoding", "deflate, gzip;q=0.5")]) BodyEmpty in
  let o := RequestHandlerOpts_default {{ compression := true; compression_level := Best }} in
  ∃ r, Compression.post_process (Fs.mkFs ∅ [] 0) o req resp = Ok r ∧
       rs_body r = BodyEncoded "deflate" "best" (BodyBytes "hi").
Proof.
  intros resp req o.
  destruct (auto_compression (Fs.mkFs ∅ [] 0) o req resp
              (RefMime.mk "text/html" "text/html" false : @Mime ref_mime)) as (r & Hr & Hrest).
  - reflexivity.
  - intros h h' Hh. simpl. unfold hm_get. by rewrite Hh.
  - reflexivity.
  - intros value [= <-] m Hm Hs. exists m. split; [exact Hm|]. split; [exact Hs|].
    vm_compute in Hm. repeat (apply elem_of_cons in Hm as [->|Hm]; [done|]). by apply elem_of_nil in Hm.
  - exists r. split; [exact Hr|].
    destruct Hrest as [_ [(_ & _ & _ & value & c & [= <-] & Hb & Hbody & _)|([Hx|[Hx|[Hx|Hx]]] & _)]];
      [|discriminate Hx..|].
    + rewrite Hbody. destruct Hb as (m & k & Hm & <- & Hk & Hall). vm_compute in Hm.
      apply elem_of_cons in Hm as [->|Hm]; [reflexivity|].
      apply elem_of_cons in Hm as [->|Hm]; [|by apply elem_of_nil in Hm].
      destruct (Hall (mkQualityMeta "deflate" 1000) 3) as [Hq|[Hq _]]; [|reflexivity|..].
      * vm_compute. by left.
      * vm_compute in Hq. discriminate Hq.
      * vm_compute in Hq. discriminate Hq.
    + destruct (Hx _ eq_refl). exists (mkQualityMeta "deflate" 1000). vm_compute.
      split; [by left|reflexivity].
Defined.
