(* ===== verification/Ranges.v ===== *)
(** Files as responses: [conditional_headers.rs], [response.rs], and the in-memory file cache of
    [mem_cache/cache.rs] and [mem_cache/stream.rs].

    Dates are whole seconds, lengths and offsets are [u64] values. *)
From Stdlib Require Import ZArith Lia Ascii String.
From stdpp Require Import base list strings gmap.
From coqutil Require Import Datatypes.RecordSetters.
Import DoubleBraceUpdate.
From S2P Require Import Prelude Http Libs RefLibs Path Fs Opts Pages.
Local Open Scope string_scope.
Local Open Scope list_scope.
Local Open Scope nat_scope.

(** [headers::Range]: its specifiers in order. *)
Abbreviation Range := (list (Bound * Bound)) (only parsing).

(** * [conditional_headers.rs] *)

Module Conditional.
Section Conditional.
Context `{HeadersLib}.

Record ConditionalHeaders := mkConditionalHeaders {
  if_modified_since : option Z;
  if_unmodified_since : option Z;
  if_range : option IfRange;
  range : option Range;
}.

Inductive ConditionalBody :=
| NoBody (r : Response)
| WithBody (range : option Range).

(** [ConditionalHeaders::new]. *)
Definition new (headers : HeaderMap) : ConditionalHeaders := {|
  if_modified_since := get_if_modified_since headers;
  if_unmodified_since := get_if_unmodified_since headers;
  if_range := get_if_range headers;
  range := get_range headers;
|}.

(** The three checks, each [Some] when it ends the function. *)
Definition check_unmodified_since (c : ConditionalHeaders) (last_modified : option Z)
    : option ConditionalBody :=
  match if_unmodified_since c with
  | Some since =>
      let precondition := match last_modified with
                          | Some time => precondition_passes since time
                          | None => false
                          end in
      if negb precondition then Some (NoBody (set_status 412 (resp_new BodyEmpty))) else None
  | None => None
  end.

Definition check_modified_since (c : ConditionalHeaders) (last_modified : option Z)
    : option ConditionalBody :=
  match if_modified_since c with
  | Some since =>
      let unmodified := match last_modified with
                        | Some time => negb (since_is_modified since time)
                        | None => false
                        end in
      if unmodified : bool then Some (NoBody (set_status 304 (resp_new BodyEmpty))) else None
  | None => None
  end.

Definition check_if_range (c : ConditionalHeaders) (last_modified : option Z)
    : option ConditionalBody :=
  match if_range c with
  | Some if_range =>
      let can_range := negb (if_range_is_modified if_range last_modified) in
      if negb can_range then Some (WithBody None) else None
  | None => None
  end.

(** [check]. *)
Definition check (c : ConditionalHeaders) (last_modified : option Z) : ConditionalBody :=
  match check_unmodified_since c last_modified with
  | Some r => r
  | None =>
      match check_modified_since c last_modified with
      | Some r => r
      | None =>
          match check_if_range c last_modified with
          | Some r => r
          | None => WithBody (range c)
          end
      end
  end.
End Conditional.
End Conditional.

(** * [response.rs]: byte ranges *)

(** [BadRangeError], or the panic of [unreachable!()]. *)
Inductive range_error := BadRangeError | RangePanic.

Module Bytes.

(** The closure of [bytes_range]; [b + 1] wraps in release builds. *)
Definition range_of (start fin : Bound) (max_len : Z) : result range_error (Z * Z) :=
  let? p :=
    match start, fin with
    | Unbounded, Unbounded => Ok (0, max_len)
    | Included a, Included b =>
        if (b <? a) then Err BadRangeError
        else Ok (a, if (b =? max_len) then b else wrap64 (b + 1))
    | Included a, Unbounded => Ok (a, max_len)
    | Unbounded, Included b =>
        if (max_len <? b) then Ok (0, max_len) else Ok (max_len - b, max_len)
    | _, _ => Err RangePanic
    end%Z in
  let '(start, fin) := p in
  if (start <? fin)%Z && (fin <=? max_len)%Z then Ok (start, fin)
  else if (start <? fin)%Z && (start <=? max_len)%Z then Ok (start, max_len)
  else Err BadRangeError.

(** [bytes_range]: only the first specifier counts. *)
Definition bytes_range (range : option Range) (max_len : Z) : result range_error (Z * Z) :=
  match range with
  | None => Ok (0%Z, max_len)
  | Some specs =>
      match specs with
      | [] => Err BadRangeError
      | (start, fin) :: _ => range_of start fin max_len
      end
  end.
End Bytes.

(** [reader.take(n)] after [seek(SeekFrom::Start(start))]. *)
Definition slice (s : string) (start n : Z) : string :=
  String.substring (Z.to_nat start) (Z.to_nat n) s.

(** * [mem_cache]: cached files *)

Record MemFile := mkMemFile {
  mf_data : string;
  mf_buf_size : Z;
  mf_content_type : string;
  mf_last_modified : option Z;
}.

(** [CACHE_STORE]; expiration is not modelled, entries may also be missing. *)
Abbreviation CacheStore := (gmap string MemFile) (only parsing).

Module Respond.
Section Respond.
Context `{HeadersLib}.

(** [resp.headers_mut().typed_insert(last_modified)] when there is one. *)
Definition insert_last_modified (modified : option Z) (r : Response) : Response :=
  match modified with
  | Some lm => set_header "last-modified" (enc_last_modified lm) r
  | None => r
  end.

(** The 416 answer. *)
Definition not_satisfiable (len : Z) : Response :=
  set_header "content-range" (enc_content_range_unsatisfied len)
    (set_status 416 (resp_new BodyEmpty)).

(** The end of [response_body], common to files and cached files: status and headers around a
    body for the bytes [start, fin) of [len]. *)
Definition finish (body : Body) (start fin len : Z) (content_type : string) (modified : option Z)
    : Response :=
  let sub_len := wrap64 (fin - start) in
  let resp := resp_new body in
  let headers resp :=
    insert_last_modified modified
      (insert_accept_ranges
         (insert_content_type content_type
            (insert_content_length sub_len resp))) in
  if negb (sub_len =? len)%Z
  then match enc_content_range start fin len with
       | Some range => headers (set_header "content-range" range (set_status 206 resp))
       | None => not_satisfiable len
       end
  else headers resp.

(** [LastModified::from] of a modification time that is not the epoch. *)
Definition modified_of (meta : Metadata) : option Z :=
  match md_modified meta with
  | Some t => if (t =? 0)%Z then None else Some (http_date t)
  | None => None
  end.

(** [ContentType::from(mime_guess::from_path(path).first_or_octet_stream())]. *)
Definition content_type_of (path : Path.t) : string :=
  mime_display (mime_guess (default "" (Path.file_name path))).

(** The stream over the [sub_len] bytes from [start] of an opened file. *)
Definition file_body (file : File) (path : Path.t) (meta : Metadata) (start sub_len : Z)
    (modified : option Z) (memory_cache : option MemCacheOpts) : Body :=
  let buf_size := Stream.optimal_buf_size meta in
  let len := md_len meta in
  match fl_data file with
  | None => BodyReadError
  | Some data =>
      let plain := BodyFile (slice data start sub_len) buf_size in
      match memory_cache with
      | Some mem_cache_opts =>
          if (len <=? mc_max_file_size mem_cache_opts)%Z
          then match Path.to_str path with
               | Some path_str => BodyMemFile (slice data start sub_len) buf_size path_str
                                    (content_type_of path) modified len
               | None => plain
               end
          else plain
      | None => plain
      end
  end.

(** [response_body]; its error statuses come from a failing seek, which a file does not do. *)
Definition response_body (file : File) (path : Path.t) (meta : Metadata)
    (conditionals : Conditional.ConditionalHeaders) (memory_cache : option MemCacheOpts)
    : result Z Response :=
  let len := md_len meta in
  let modified := modified_of meta in
  match Conditional.check conditionals modified with
  | Conditional.NoBody resp => Ok resp
  | Conditional.WithBody range =>
      match Bytes.bytes_range range len with
      | Ok (start, fin) =>
          let body := file_body file path meta start (wrap64 (fin - start)) modified memory_cache in
          Ok (finish body start fin len (content_type_of path) modified)
      | Err _ => Ok (not_satisfiable len)
      end
  end.

(** [MemFile::response_body]. *)
Definition mem_response_body (mf : MemFile) (headers : HeaderMap) : result Z Response :=
  let modified := mf_last_modified mf in
  match Conditional.check (Conditional.new headers) modified with
  | Conditional.NoBody resp => Ok resp
  | Conditional.WithBody range =>
      let len := Z.of_nat (String.length (mf_data mf)) in
      match Bytes.bytes_range range len with
      | Ok (start, fin) =>
          let body := BodyFile (slice (mf_data mf) start (wrap64 (fin - start))) (mf_buf_size mf) in
          Ok (finish body start fin len (mf_content_type mf) modified)
      | Err _ => Ok (not_satisfiable len)
      end
  end.

(** [get_or_acquire]: the permit it takes on a miss is dropped at once. *)
Definition get_or_acquire (store : CacheStore) (file_path : Path.t) (headers : HeaderMap)
    : option (result Z Response) :=
  match Path.to_str file_path with
  | None => None
  | Some file_path_str =>
      match store !! file_path_str with
      | Some mem_file => Some (mem_response_body mem_file headers)
      | None => None
      end
  end.
End Respond.
End Respond.

Module MemCache.
Section Init.
Context `{HttpLib, GlobLib, RegexLib}.

(** [MemCacheOpts::new]: megabytes to bytes, modulo 2^64. *)
Definition new (max_file_size : Z) : MemCacheOpts :=
  mkMemCacheOpts (wrap64 (1024 * 1024 * max_file_size)).

(** The parameters of the cache [init] builds: capacity, TTL, TTI. *)
Record CacheConfig := mkCacheConfig { cc_capacity : Z; cc_ttl : Z; cc_tti : Z }.

(** [init]; the store can be set only once per process. *)
Definition init (o : RequestHandlerOpts) (store : option CacheConfig)
    : result error (RequestHandlerOpts * option CacheConfig) :=
  match advanced_opts o ≫= adv_memory_cache with
  | Some opts =>
      let capacity := default 256%Z (File.capacity opts) in
      let ttl := default 3600%Z (File.ttl opts) in
      let tti := default 300%Z (File.tti opts) in
      let max_file_size := default 8192%Z (File.max_file_size opts) in
      match store with
      | Some _ => Err ["unable to initialize the in-memory cache store"]
      | None => Ok (o {{ memory_cache := Some (new max_file_size) }},
                    Some (mkCacheConfig capacity ttl tti))
      end
  | None => Ok (o, store)
  end.
End Init.

(** [MemCacheFileStream] ([mem_stream.rs]): the reader, and the buffer while it is collecting. *)
Record MemCacheFileStream := mkMemStream {
  ms_reader : Stream.reader;
  ms_buf_size : Z;
  ms_key : string;
  ms_content_type : string;
  ms_last_modified : option Z;
  ms_buf : option string;
  ms_capacity : Z;
}.

(** [poll_next]: the chunk goes to the buffer too; a full buffer becomes a cache entry. *)
Definition poll_next (s : MemCacheFileStream) (store : CacheStore)
    : option string * MemCacheFileStream * CacheStore :=
  let '(chunk, r) := Stream.read (ms_reader s) (Z.to_nat (ms_buf_size s)) in
  let s := mkMemStream r (ms_buf_size s) (ms_key s) (ms_content_type s) (ms_last_modified s)
             (ms_buf s) (ms_capacity s) in
  if (String.length chunk =? 0)%nat then (None, s, store)
  else
    match ms_buf s with
    | None => (Some chunk, s, store)
    | Some buf =>
        let buf := buf +:+ chunk in
        let with_buf b := mkMemStream r (ms_buf_size s) (ms_key s) (ms_content_type s)
                            (ms_last_modified s) b (ms_capacity s) in
        if (Z.of_nat (String.length buf) =? ms_capacity s)%Z
        then (Some chunk, with_buf None,
              <[ ms_key s := mkMemFile buf (ms_buf_size s) (ms_content_type s)
                               (ms_last_modified s) ]> store)
        else (Some chunk, with_buf (Some buf), store)
    end.

(** Polling to the end. *)
Fixpoint drain (fuel : nat) (s : MemCacheFileStream) (store : CacheStore)
    : option (list string * CacheStore) :=
  match fuel with
  | O => None
  | S f =>
      match poll_next s store with
      | (None, _, store') => Some ([], store')
      | (Some chunk, s', store') =>
          match drain f s' store' with
          | Some (chunks, store'') => Some (chunk :: chunks, store'')
          | None => None
          end
      end
  end.
End MemCache.

(** * Byte ranges *)

Definition u64 (z : Z) : Prop := (0 ≤ z ≤ u64_max)%Z.

(** What the first specifier of a [Range] header denotes on [len] bytes: the bytes available,
    unless there are none.  The two last lines are where the code differs from that. *)
Definition denoted (start fin : Bound) (len : Z) : option (Z * Z) :=
  match start, fin with
  | Included a, Included b =>
      if (a <=? b)%Z && (a <? len)%Z then Some (a, Z.min (b + 1) len) else None
  | Included a, Unbounded => if (a <? len)%Z then Some (a, len) else None
  | Unbounded, Included n =>
      if (0 <? n)%Z && (0 <? len)%Z then Some (Z.max 0 (len - n), len) else None
  | Unbounded, Unbounded => if (0 <? len)%Z then Some (0%Z, len) else None
  | _, _ => None
  end.

(** The two anomalies: a range starting exactly at the end with an end beyond it, and an end of
    [u64::MAX]. *)
Definition anomalous (start fin : Bound) (len : Z) : bool :=
  match start, fin with
  | Included a, Included b => ((a =? len) && (len <? b)) || (b =? u64_max)
  | _, _ => false
  end%Z.

(** A bound [headers::Range::iter] can yield, on [u64] values. *)
Definition range_bounds (start fin : Bound) : Prop :=
  match start, fin with
  | Included a, Included b => u64 a ∧ u64 b
  | Included a, Unbounded => u64 a
  | Unbounded, Included b => u64 b
  | Unbounded, Unbounded => True
  | _, _ => False
  end.

Lemma range_of_denoted start fin len :
  u64 len → range_bounds start fin → anomalous start fin len = false →
  Bytes.range_of start fin len =
    match denoted start fin len with Some p => Ok p | None => Err BadRangeError end.
Proof.
  unfold u64, u64_max. intros Hlen Hb Ha.
  unfold Bytes.range_of, denoted, anomalous, range_bounds, u64, u64_max in *.
  destruct start as [a|a|], fin as [b|b|]; try done; simpl.
  - destruct (Z.ltb_spec b a), (Z.leb_spec a b); try lia; [done|]. simpl in *.
    apply orb_false_iff in Ha as [Ha Hm]. apply Z.eqb_neq in Hm.
    rewrite wrap64_small by (unfold u64_max; lia).
    destruct (Z.eqb_spec b len) as [->|Hne]; simpl.
    + rewrite (proj2 (Z.leb_le len len)) by lia. rewrite andb_true_r.
      destruct (Z.ltb_spec a len); [|done]. by rewrite Z.min_r by lia.
    + destruct (Z.eqb_spec a len), (Z.ltb_spec len b); try done;
        destruct (Z.ltb_spec a (b + 1)), (Z.leb_spec (b + 1) len), (Z.leb_spec a len),
          (Z.ltb_spec a len); simpl; try lia; try done; f_equal; f_equal; lia.
  - destruct (Z.ltb_spec a len), (Z.leb_spec len len); simpl; try lia; done.
  - destruct (Z.ltb_spec len b), (Z.ltb_spec 0 b), (Z.ltb_spec 0 len); simpl; try lia;
      destruct (Z.leb_spec len len), (Z.ltb_spec 0 len), (Z.ltb_spec (len - b) len); simpl;
      try lia; try done; try (f_equal; f_equal; lia).
  - destruct (Z.ltb_spec 0 len), (Z.leb_spec len len); simpl; try lia; done.
Qed.

(** C18. [bytes_range] is exact on [u64] inputs: the first specifier of the header selects the bytes
    it denotes, clipped to the file, and a specifier that denotes none is refused; the only
    exceptions are the two [anomalous] specifiers, which [bytes_range_anomalies] describes. *)
Theorem bytes_range_exact (start fin : Bound) (specs : list (Bound * Bound)) (len : Z)
    (Hlen : u64 len) (Hb : range_bounds start fin) (Ha : anomalous start fin len = false) :
  Bytes.bytes_range (Some ((start, fin) :: specs)) len =
    match denoted start fin len with Some p => Ok p | None => Err BadRangeError end.
Proof. by apply range_of_denoted. Qed.

Lemma bytes_range_exact_witness :
  Bytes.bytes_range (Some [(Included 2, Included 9)]) 5 = Ok (2, 5)%Z ∧
  Bytes.bytes_range (Some [(Unbounded, Included 2); (Included 0, Included 0)]) 5 = Ok (3, 5)%Z.
Proof.
  split.
  - rewrite bytes_range_exact; [done|unfold u64, u64_max; lia| |done].
    split; unfold u64, u64_max; lia.
  - rewrite bytes_range_exact; [done|unfold u64, u64_max; lia| |done].
    simpl. unfold u64, u64_max. lia.
Defined.

(** The two anomalies of [bytes_range].  A range that starts exactly at the end of the file and
    ends beyond it is answered with the empty range [len..len] instead of being refused; and a
    range whose end is [u64::MAX] is refused although it covers bytes, because [b + 1] wraps. *)
Theorem bytes_range_anomalies (len b a : Z) (specs : list (Bound * Bound)) (Hlen : u64 len)
    (Hb : (len < b < u64_max)%Z) (Ha : (0 ≤ a < len)%Z) :
  Bytes.bytes_range (Some ((Included len, Included b) :: specs)) len = Ok (len, len) ∧
  Bytes.bytes_range (Some ((Included a, Included u64_max) :: specs)) len = Err BadRangeError.
Proof.
  unfold u64 in *. assert (u64_max = 18446744073709551615)%Z as Hmax by done.
  unfold Bytes.bytes_range, Bytes.range_of. split.
  - destruct (Z.ltb_spec b len), (Z.eqb_spec b len); try lia.
    rewrite wrap64_small by lia. simpl.
    destruct (Z.ltb_spec len (b + 1)), (Z.leb_spec (b + 1) len), (Z.leb_spec len len); try lia.
    done.
  - destruct (Z.ltb_spec u64_max a), (Z.eqb_spec u64_max len); try lia.
    change (wrap64 (u64_max + 1)) with 0%Z. simpl.
    destruct (Z.ltb_spec a 0); [lia|]. done.
Qed.

Lemma bytes_range_anomalies_witness :
  Bytes.bytes_range (Some [(Included 5, Included 10)]) 5 = Ok (5, 5)%Z ∧
  Bytes.bytes_range (Some [(Included 0, Included u64_max)]) 5 = Err BadRangeError.
Proof.
  apply (bytes_range_anomalies 5 10 0 []); unfold u64, u64_max; lia.
Defined.

Lemma bytes_range_bounds range len s e :
  u64 len →
  (∀ specs, range = Some specs → Forall (λ p, range_bounds p.1 p.2) specs) →
  Bytes.bytes_range range len = Ok (s, e) → (0 ≤ s ≤ e ∧ e ≤ len)%Z.
Proof.
  unfold u64, u64_max. intros Hlen Hall. unfold Bytes.bytes_range.
  destruct range as [[|[start fin] specs]|]; [done| |intros [= <- <-]; lia].
  specialize (Hall _ eq_refl). apply Forall_cons in Hall as [Hb _]. simpl in Hb.
  unfold Bytes.range_of. intros Hok. apply bind_Ok in Hok as ([s0 e0] & Hp & Hok).
  assert (0 ≤ s0)%Z.
  { unfold range_bounds, u64 in Hb. destruct start, fin; simpl in Hp; try done;
      repeat case_match; simplify_eq; lia. }
  destruct (Z.ltb_spec s0 e0), (Z.leb_spec e0 len); simpl in Hok; simplify_eq; [lia| |done..].
  destruct (Z.leb_spec s0 len); simplify_eq. lia.
Qed.

(** * Responses *)

Lemma slice_length s start n :
  (0 ≤ start)%Z → (0 ≤ n)%Z → (start + n ≤ Z.of_nat (String.length s))%Z →
  Z.of_nat (String.length (slice s start n)) = n.
Proof.
  intros Hs Hn Hle. unfold slice.
  assert (∀ k m (t : string), k + m ≤ String.length t → String.length (substring k m t) = m) as Hsub.
  { intros k m t. revert k m. induction t as [|c t IH]; intros [|k] [|m]; simpl; intros; try lia.
    - rewrite IH; simpl; lia.
    - apply IH. lia.
    - rewrite IH; lia. }
  rewrite Hsub; lia.
Qed.

(** What [finish] answers for the selected bytes [s, e) of [len]: the whole file; a part, with its
    [Content-Range]; or, when that header cannot be formed, a refusal. *)
Lemma finish_answer `{HttpLaws} `{!MimeLib, !HeadersLib} body s e len ct lm :
  wrap64 (e - s) = (e - s)%Z →
  let r := Respond.finish body s e len ct lm in
  let delivers status range :=
    rs_status r = status ∧ rs_get "content-range" r = range ∧ rs_body r = body ∧
    rs_get "content-length" r = Some (enc_content_length (e - s)) ∧
    rs_get "content-type" r = Some ct ∧
    rs_get "last-modified" r = (enc_last_modified <$> lm) in
  if (e - s =? len)%Z then delivers 200%Z None
  else match enc_content_range s e len with
       | Some range => delivers 206%Z (Some range)
       | None => r = Respond.not_satisfiable len
       end.
Proof.
  intros Hw. unfold Respond.finish. rewrite Hw.
  destruct (Z.eqb_spec (e - s) len); simpl; [|destruct (enc_content_range s e len) as [cr|]; [|done]].
  all: destruct lm; unfold rs_get, insert_accept_ranges, insert_content_type, insert_content_length;
    simpl; by rewrite !get_insert, ?get_empty.
Qed.

Lemma not_satisfiable_spec `{HttpLaws} `{!MimeLib, !HeadersLib} len :
  let r := Respond.not_satisfiable len in
  rs_status r = 416%Z ∧ rs_get "content-range" r = Some (enc_content_range_unsatisfied len) ∧
  rs_body r = BodyEmpty.
Proof. unfold Respond.not_satisfiable, rs_get. simpl. by rewrite get_insert. Qed.

(** C11. A file response delivers what it announces.  For a file whose metadata matches its content
    and a request whose conditions allow a body: when the [Range] header (or its absence) selects
    the bytes [s, e), the body is exactly those bytes, [Content-Length] is their number, and
    [Content-Type] and [Last-Modified] are those of the file; the status is 200, without a
    [Content-Range], for the whole file, and 206 with the [Content-Range] of [s, e) otherwise.
    When the range is bad, or its [Content-Range] cannot be formed, the answer is 416 without a
    body and its [Content-Range] gives the length of the file. *)
Theorem response_body_delivers `{HttpLaws} `{!MimeLib, !HeadersLib}
    (data : string) (path : Path.t) (meta : Metadata) (headers : HeaderMap)
    (cache : option MemCacheOpts) (range : option (list (Bound * Bound)))
    (Hlen : md_len meta = Z.of_nat (String.length data)) (Hu64 : u64 (md_len meta))
    (Hcheck : Conditional.check (Conditional.new headers) (Respond.modified_of meta) =
                Conditional.WithBody range)
    (Hbounds : ∀ specs, range = Some specs → Forall (λ p, range_bounds p.1 p.2) specs) :
  ∃ r, Respond.response_body (mkFile (Some data)) path meta (Conditional.new headers) cache = Ok r ∧
    let len := md_len meta in
    let delivers s e status content_range :=
      rs_status r = status ∧ rs_get "content-range" r = content_range ∧
      body_bytes (rs_body r) = Some (slice data s (e - s)) ∧
      Z.of_nat (String.length (slice data s (e - s))) = (e - s)%Z ∧
      rs_get "content-length" r = Some (enc_content_length (e - s)) ∧
      rs_get "content-type" r = Some (Respond.content_type_of path) ∧
      rs_get "last-modified" r = (enc_last_modified <$> Respond.modified_of meta) in
    let refuses :=
      rs_status r = 416%Z ∧ rs_get "content-range" r = Some (enc_content_range_unsatisfied len) ∧
      rs_body r = BodyEmpty in
    match Bytes.bytes_range range len with
    | Ok (s, e) =>
        (0 ≤ s ≤ e ∧ e ≤ len)%Z ∧
        if (e - s =? len)%Z then delivers s e 200%Z None
        else match enc_content_range s e len with
             | Some content_range => delivers s e 206%Z (Some content_range)
             | None => refuses
             end
    | Err _ => refuses
    end.
Proof.
  unfold Respond.response_body. rewrite Hcheck.
  destruct (Bytes.bytes_range range (md_len meta)) as [[s e]|err] eqn:Eb;
    [|eexists; split; [done|]; apply not_satisfiable_spec].
  pose proof (bytes_range_bounds range (md_len meta) s e Hu64 Hbounds Eb) as Hse.
  assert (wrap64 (e - s) = (e - s)%Z) as Hw.
  { apply wrap64_small. unfold u64 in Hu64. lia. }
  eexists. split; [done|]. split; [done|]. rewrite Hw.
  set (body := Respond.file_body (mkFile (Some data)) path meta s (e - s)
                 (Respond.modified_of meta) cache).
  assert (body_bytes body = Some (slice data s (e - s))) as Hbody.
  { unfold body, Respond.file_body. simpl. by repeat case_match. }
  assert (Z.of_nat (String.length (slice data s (e - s))) = (e - s)%Z) as Hsize
    by (apply slice_length; lia).
  pose proof (finish_answer body s e (md_len meta) (Respond.content_type_of path)
                (Respond.modified_of meta) Hw) as Hf.
  cbv zeta in Hf |- *.
  destruct (e - s =? md_len meta)%Z; [|destruct (enc_content_range s e (md_len meta))].
  3: rewrite Hf; apply not_satisfiable_spec.
  all: destruct Hf as (? & ? & -> & ? & ? & ?); by split_and!.
Qed.

Lemma response_body_delivers_witness :
  let meta := mkMetadata 5 false true false (Some 5000000000%Z) 4096 in
  let h := ref_headers [("range", "bytes=1-2")] in
  ∃ r, Respond.response_body (mkFile (Some "hello")) (Path.parse "a.txt") meta
         (Conditional.new h) None = Ok r ∧
       body_bytes (rs_body r) = Some "el" ∧ rs_status r = 206%Z ∧
       rs_get "content-range" r = Some "bytes 1-2/5".
Proof.
  intros meta h.
  destruct (response_body_delivers "hello" (Path.parse "a.txt") meta h None
              (Some [(Included 1, Included 2)])) as (r & Hr & _ & Hrest).
  - reflexivity.
  - unfold u64, u64_max, meta. simpl. lia.
  - reflexivity.
  - intros specs [= <-]. repeat constructor; unfold u64, u64_max; simpl; lia.
  - exists r. split; [exact Hr|]. destruct Hrest as (Hs & Hc & Hb & _).
    split; [exact Hb|]. split; [exact Hs | exact Hc].
Defined.

(** Conditional requests follow a fixed precedence: a failed [If-Unmodified-Since] (or one on a
    file without a date) is 412, then an [If-Modified-Since] that is not newer is 304, both
    without a body; then a stale [If-Range] discards the range; otherwise the range stands. *)
Theorem conditional_precedence `{HeadersLib} (c : Conditional.ConditionalHeaders)
    (last_modified : option Z) :
  Conditional.check c last_modified =
    let fails :=
      match Conditional.if_unmodified_since c, last_modified with
      | Some since, Some time => negb (precondition_passes since time)
      | Some _, None => true
      | None, _ => false
      end in
    let unmodified :=
      match Conditional.if_modified_since c, last_modified with
      | Some since, Some time => negb (since_is_modified since time)
      | _, _ => false
      end in
    let stale :=
      match Conditional.if_range c with
      | Some r => if_range_is_modified r last_modified
      | None => false
      end in
    if fails : bool then Conditional.NoBody (mkResponse 412 hm_empty BodyEmpty)
    else if unmodified : bool then Conditional.NoBody (mkResponse 304 hm_empty BodyEmpty)
    else Conditional.WithBody (if stale : bool then None else Conditional.range c).
Proof.
  unfold Conditional.check, Conditional.check_unmodified_since, Conditional.check_modified_since,
    Conditional.check_if_range.
  destruct (Conditional.if_unmodified_since c) as [s1|], last_modified as [t|],
    (Conditional.if_modified_since c) as [s2|], (Conditional.if_range c) as [r|]; simpl;
    try (destruct (precondition_passes s1 t)); try (destruct (since_is_modified s2 t));
    try (destruct (if_range_is_modified r _)); done.
Qed.

Lemma check_no_body `{HeadersLib} c last_modified r :
  Conditional.check c last_modified = Conditional.NoBody r → rs_body r = BodyEmpty.
Proof.
  rewrite conditional_precedence. cbv zeta. intros Hc.
  repeat match type of Hc with context [if ?b then _ else _] => destruct b end; by simplify_eq/=.
Qed.

(** * The in-memory cache *)

Lemma mem_drain_empty fuel plan bs key ct lm cap store :
  MemCache.drain (S fuel)
    (MemCache.mkMemStream (Stream.mkReader "" plan) bs key ct lm None cap) store
  = Some ([], store).
Proof.
  cbn [MemCache.drain]. unfold MemCache.poll_next, Stream.read.
  pose proof (read_len_le (Stream.mkReader "" plan) (Z.to_nat bs)) as [_ Hn]. simpl in Hn.
  cbn [MemCache.ms_reader MemCache.ms_buf_size].
  replace (Stream.read_len (Stream.mkReader "" plan) (Z.to_nat bs)) with 0 by lia. done.
Qed.

Lemma mem_drain_spec fuel data plan bs key ct lm buf cap store :
  (0 < bs)%Z → String.length data < fuel →
  (Z.of_nat (String.length buf) + Z.of_nat (String.length data) ≤ cap)%Z →
  ∃ chunks,
    MemCache.drain fuel (MemCache.mkMemStream (Stream.mkReader data plan) bs key ct lm (Some buf) cap)
      store =
      Some (chunks,
            if ((0 <? String.length data)%nat &&
                (Z.of_nat (String.length buf) + Z.of_nat (String.length data) =? cap)%Z)
            then (<[ key := mkMemFile (buf +:+ data) bs ct lm ]> store) else store) ∧
    Str.join "" chunks = data.
Proof.
  intros Hbs. revert data plan buf store.
  induction fuel as [|fuel IH]; intros data plan buf store Hfuel Hcap; [lia|].
  cbn [MemCache.drain]. unfold MemCache.poll_next, Stream.read.
  cbn [MemCache.ms_reader MemCache.ms_buf_size MemCache.ms_buf MemCache.ms_capacity MemCache.ms_key
       MemCache.ms_content_type MemCache.ms_last_modified].
  set (r := Stream.mkReader data plan). set (n := Stream.read_len r (Z.to_nat bs)).
  pose proof (read_len_le r (Z.to_nat bs)) as [Hn1 Hn2]. fold n in Hn1, Hn2. simpl in Hn2.
  rewrite str_take_length by (simpl; lia).
  destruct (Nat.eqb_spec n 0) as [Hz|Hnz].
  - destruct data as [|c data].
    + exists []. simpl. done.
    + pose proof (read_len_pos r (Z.to_nat bs)). simpl in *. unfold n in Hz. lia.
  - assert ((0 <? String.length data) = true)%nat as -> by (apply Nat.ltb_lt; lia).
    pose proof (str_take_drop n data) as Htd. cbn [Stream.rd_data r Stream.rd_plan].
    set (hd := Stream.str_take n data) in *. set (tl := Stream.str_drop n data) in *.
    assert (String.length hd = n) as Hhd by (apply str_take_length; lia).
    assert (String.length tl = String.length data - n) as Htl.
    { apply (f_equal String.length) in Htd. rewrite length_string_app in Htd. lia. }
    assert (buf +:+ data = (buf +:+ hd) +:+ tl) as ->.
    { rewrite <- Htd. clear. induction buf as [|c buf IH]; [reflexivity|].
      change (String c (buf +:+ hd +:+ tl) = String c ((buf +:+ hd) +:+ tl)). by rewrite IH. }
    rewrite length_string_app, Hhd. cbn [andb].
    destruct (Z.eqb_spec (Z.of_nat (String.length buf + n)) cap) as [Hfull|Hnot].
    + (* the buffer is full: nothing is left *)
      assert (tl = "") as Htl0 by (destruct tl; [done | simpl in *; lia]).
      destruct (Z.eqb_spec (Z.of_nat (String.length buf) + Z.of_nat (String.length data)) cap)
        as [_|]; [|lia].
      assert (∀ st, MemCache.drain fuel
                (MemCache.mkMemStream (Stream.mkReader tl (tail plan)) bs key ct lm None cap) st
              = Some ([], st)) as Hend.
      { intros st. destruct fuel as [|fuel']; [lia|]. rewrite Htl0.
        apply mem_drain_empty. }
      rewrite Hend. exists [hd]. split; [by rewrite Htl0, string_app_nil_r|].
      simpl. rewrite <- Htd, Htl0. by rewrite string_app_nil_r.
    + destruct (IH tl (tail plan) (buf +:+ hd)
                  store) as (chunks & Hd & Hj); [lia|rewrite length_string_app; lia|].
      rewrite Hd. exists (hd :: chunks). rewrite length_string_app, Hhd, Htl.
      replace (Z.of_nat (String.length buf + n) + Z.of_nat (String.length data - n))%Z
        with (Z.of_nat (String.length buf) + Z.of_nat (String.length data))%Z by lia.
      split; [|by rewrite join_cons, Hj].
      destruct (Z.eqb_spec (Z.of_nat (String.length buf) + Z.of_nat (String.length data)) cap);
        [|by rewrite andb_false_r].
      destruct (Nat.ltb_spec 0 (String.length data - n)); [done|]. lia.
Qed.

(** Streaming through the cache is transparent and caches only whole files: for any split of
    the reads the client gets exactly the data, and the store gains the entry (the full data
    under the file's key) exactly when the stream covered all of the announced length. *)
Theorem mem_stream_caches_whole_files (data key ct : string) (plan : list nat) (bs cap : Z)
    (lm : option Z) (store : gmap string MemFile)
    (Hbs : (0 < bs)%Z) (Hcap : (Z.of_nat (String.length data) ≤ cap)%Z) :
  ∃ chunks store',
    MemCache.drain (S (String.length data))
      (MemCache.mkMemStream (Stream.mkReader data plan) bs key ct lm (Some "") cap) store
      = Some (chunks, store') ∧
    Str.join "" chunks = data ∧
    store' = (if (0 <? cap)%Z && (Z.of_nat (String.length data) =? cap)%Z
              then (<[ key := mkMemFile data bs ct lm ]> store) else store).
Proof.
  destruct (mem_drain_spec (S (String.length data)) data plan bs key ct lm "" cap store)
    as (chunks & Hd & Hj); [done|lia|simpl; lia|].
  eexists chunks, _. split; [exact Hd|]. split; [done|].
  change (Z.of_nat (String.length "")) with 0%Z. rewrite Z.add_0_l.
  change ("" +:+ data) with data.
  destruct (Z.eqb_spec (Z.of_nat (String.length data)) cap) as [<-|Hne]; [|by rewrite !andb_false_r].
  rewrite !andb_true_r.
  destruct (Nat.ltb_spec 0 (String.length data)), (Z.ltb_spec 0 (Z.of_nat (String.length data)));
    lia || done.
Qed.

Lemma mem_stream_caches_whole_files_witness :
  ∃ chunks store',
    MemCache.drain 6 (MemCache.mkMemStream (Stream.mkReader "hello" [2]) 4 "/srv/a.txt" "text/plain"
                        None (Some "") 5) ∅ = Some (chunks, store') ∧
    store' = {[ "/srv/a.txt" := mkMemFile "hello" 4 "text/plain" None ]}.
Proof.
  destruct (mem_stream_caches_whole_files "hello" "/srv/a.txt" "text/plain" [2] 4 5 None ∅)
    as (chunks & store' & Hd & _ & Hs); [lia | simpl; lia |].
  exists chunks, store'. split; [exact Hd | exact Hs].
Defined.

(** The entry of a file and the file itself give the same answer. *)
Lemma cache_hit_alike `{HeadersLib} (data : string) (path : Path.t) (meta : Metadata)
    (bs : Z) (headers : HeaderMap) (memory_cache : option MemCacheOpts) :
  md_len meta = Z.of_nat (String.length data) →
  let cached := mkMemFile data bs (Respond.content_type_of path) (Respond.modified_of meta) in
  ∃ r1 r2,
    Respond.mem_response_body cached headers = Ok r1 ∧
    Respond.response_body (mkFile (Some data)) path meta (Conditional.new headers) memory_cache = Ok r2 ∧
    rs_status r1 = rs_status r2 ∧ rs_headers r1 = rs_headers r2 ∧
    body_bytes (rs_body r1) = body_bytes (rs_body r2).
Proof.
  intros Hlen cached. unfold Respond.mem_response_body, Respond.response_body. simpl. rewrite Hlen.
  destruct (Conditional.check (Conditional.new headers) (Respond.modified_of meta)) as [r|range];
    [by exists r, r|].
  destruct (Bytes.bytes_range range (Z.of_nat (String.length data))) as [[s e]|err];
    [|by eexists _, _].
  eexists _, _. split; [done|]. split; [done|].
  set (body := Respond.file_body _ _ _ _ _ _ _).
  assert (body_bytes body = Some (slice data s (wrap64 (e - s)))) as Hbody.
  { unfold body, Respond.file_body. simpl. by repeat case_match. }
  unfold Respond.finish, Respond.insert_last_modified.
  destruct (negb (wrap64 (e - s) =? Z.of_nat (String.length data))%Z);
    [destruct (enc_content_range s e (Z.of_nat (String.length data)))|];
    destruct (Respond.modified_of meta); done.
Qed.

(** A cache hit answers like the file it was read from: for every request, the response built
    from the cached entry has the status, the headers and the body bytes of the response built
    from the unchanged file (conditions, ranges and errors included). *)
Theorem cache_hit_equivalent `{HeadersLib} (data : string) (path : Path.t) (meta : Metadata)
    (bs : Z) (headers : HeaderMap)
    (Hlen : md_len meta = Z.of_nat (String.length data)) :
  let cached := mkMemFile data bs (Respond.content_type_of path) (Respond.modified_of meta) in
  ∃ r1 r2,
    Respond.mem_response_body cached headers = Ok r1 ∧
    Respond.response_body (mkFile (Some data)) path meta (Conditional.new headers) None = Ok r2 ∧
    rs_status r1 = rs_status r2 ∧ rs_headers r1 = rs_headers r2 ∧
    body_bytes (rs_body r1) = body_bytes (rs_body r2).
Proof. by apply cache_hit_alike. Qed.

Lemma cache_hit_equivalent_witness :
  let meta := mkMetadata 5 false true false None 4096 in
  let h := ref_headers [("range", "bytes=-2")] in
  ∃ r1 r2,
    Respond.mem_response_body (mkMemFile "hello" 4096 (Respond.content_type_of (Path.parse "a.txt"))
                                 (Respond.modified_of meta)) h = Ok r1 ∧
    Respond.response_body (mkFile (Some "hello")) (Path.parse "a.txt") meta (Conditional.new h) None
      = Ok r2 ∧ body_bytes (rs_body r1) = body_bytes (rs_body r2).
Proof.
  intros meta h.
  destruct (cache_hit_equivalent "hello" (Path.parse "a.txt") meta 4096 h ltac:(reflexivity))
    as (r1 & r2 & H1 & H2 & _ & _ & H3).
  exists r1, r2. split; [exact H1|]. split; [exact H2 | exact H3].
Defined.
