(* ===== verification/DirListing.v ===== *)
(** Directory listings: [directory_listing/] ([dir.rs], [file.rs], [sort.rs], [style.rs],
    [autoindex/]) and the archive download of [directory_listing_download.rs].

    The markup of [html!] is a tree, its text is [maud]'s; the JSON value is a tree, its text is
    [serde_json]'s.  The archive is the sequence of entries given to the tar builder. *)
From Stdlib Require Import ZArith Lia Ascii String Sorted Permutation.
From stdpp Require Import base list strings gmap.
From coqutil Require Import Datatypes.RecordSetters.
Import DoubleBraceUpdate.
From S2P Require Import Prelude Http Libs RefLibs Path Fs Opts Pages.
Local Open Scope string_scope.
Local Open Scope list_scope.
Local Open Scope nat_scope.

Module DirListing.

(** [directory_listing::init]. *)
Definition init `{HttpLib, GlobLib, RegexLib} (enabled : bool) (order : Z) (format : DirListFmt)
    (o : RequestHandlerOpts) : RequestHandlerOpts :=
  o {{ dir_listing := enabled; dir_listing_order := order; dir_listing_format := format }}.

(** ** [file.rs] *)

Definition DATETIME_FORMAT_UTC : string := "%FT%TZ".
Definition DATETIME_FORMAT_LOCAL : string := "%F %T".

Inductive FileType := Directory | RegularFile.

#[global] Instance FileType_eq_dec : EqDecision FileType.
Proof. solve_decision. Defined.

(** [FileEntry]; [mtime] in nanoseconds. *)
Record FileEntry := mkEntry {
  name : string;
  mtime : option Z;
  size : option Z;
  type : FileType;
  uri : string;
}.

Definition is_dir (e : FileEntry) : bool := bool_decide (type e = Directory).

Section Json.
Context `{CodecLib}.

(** [serialize_name], [serialize_mtime] and the derived [Serialize]. *)
Definition serialize_name (n : string) : Libs.Json := JStr (Utf8.lossy n).
Definition serialize_mtime (m : option Z) : Libs.Json :=
  match m with
  | Some dt => JStr (format_utc DATETIME_FORMAT_UTC dt)
  | None => JStr ""
  end.
Definition serialize_entry (e : FileEntry) : Libs.Json :=
  JObj ([("name", serialize_name (name e)); ("mtime", serialize_mtime (mtime e))]
        ++ match size e with Some n => [("size", JNum n)] | None => [] end
        ++ [("type", JStr (match type e with Directory => "directory" | RegularFile => "file" end))]).
End Json.

(** ** [sort.rs] *)

Record SortingAttr := mkSortingAttr { sa_name : string; sa_last_modified : string; sa_size : string }.

Section Sort.
Context `{CodecLib}.

Definition by_name (a b : FileEntry) : comparison :=
  String.compare (str_to_lowercase (Utf8.lossy (name a))) (str_to_lowercase (Utf8.lossy (name b))).
Definition by_mtime (a b : FileEntry) : comparison := opt_compare Z.compare (mtime a) (mtime b).
Definition by_size (a b : FileEntry) : comparison := opt_compare Z.compare (size a) (size b).

(** [sort_file_entries]. *)
Definition sort_file_entries (files : list FileEntry) (order_code : Z)
    : list FileEntry * SortingAttr :=
  match order_code with
  | 0 => (Sort.sort_by by_name files, mkSortingAttr "1" "2" "4")
  | 1 => (rev (Sort.sort_by by_name files), mkSortingAttr "0" "2" "4")
  | 2 => (Sort.sort_by by_mtime files, mkSortingAttr "0" "3" "4")
  | 3 => (rev (Sort.sort_by by_mtime files), mkSortingAttr "0" "2" "4")
  | 4 => (Sort.sort_by by_size files, mkSortingAttr "0" "2" "5")
  | 5 => (rev (Sort.sort_by by_size files), mkSortingAttr "0" "2" "4")
  | _ => (files, mkSortingAttr "0" "2" "4")
  end%Z.
End Sort.

(** ** [style.rs] *)

Definition STYLES : string := "
:after, :before { box-sizing: border-box; }
html {
    color-scheme: light dark;
    -moz-osx-font-smoothing: grayscale;
    -webkit-font-smoothing: antialiased;
    min-width: 20rem;
    text-rendering: optimizeLegibility;
    -webkit-text-size-adjust: 100%;
    -moz-text-size-adjust: 100%;
    text-size-adjust: 100%
}
body {
    padding: 1rem;
    font-family: Consolas, 'Liberation Mono', Menlo, monospace;
    font-size: .75rem;
    max-width: 70rem;
    margin: 0 auto;
    font-weight: 400;
    line-height: 1.5
}
h1 {
    margin: 0;
    padding: 0;
    font-size: 1rem;
    line-height: 1.25;
    margin-bottom: 0.5rem;
}
table {
    width: 100%;
    table-layout: fixed;
    border-spacing: 0;
}
hr { border-style: none; border-bottom: solid 1px gray; }
table th, table td {
    padding: .15rem 0;
    white-space: nowrap;
    vertical-align: top
}
table th a, table td a {
    display: inline-block;
    white-space: nowrap;
    overflow: hidden;
    text-overflow: ellipsis;
    max-width: 95%;
    vertical-align: top;
}
table tr:hover td { background-color: rgba(200, 200, 200, 0.2); }
footer { padding-top: 0.5rem; }
table tr th { text-align: left; }

@media (max-width:30rem) {
    table th:first-child { width: 20rem; }
}
@media (prefers-color-scheme: dark) {
    table tr:hover td { background-color: rgba(0, 0, 0, 0.2); }
}
@media (prefers-color-scheme: light) {
    table tr:hover td { background-color: rgba(200, 200, 200, 0.2); }
}
".

(** ** [autoindex/html.rs] *)

(** [{:.2}] of [n as f64 / 1024.0] for [n < 2^53]: the quotient is exact, the printed decimal is
    the nearest one, ties to even. *)
Definition hundredths (n : Z) : Z :=
  let q := (n * 100 / 1024)%Z in
  let r := ((n * 100) mod 1024)%Z in
  (if (512 <? r) || ((r =? 512) && Z.odd q) then q + 1 else q)%Z.
Definition two_digits (n : Z) : string :=
  if (n <? 10)%Z then "0" +:+ Str.of_uint n else Str.of_uint n.
Definition show_kilo (n : Z) : string :=
  let h := hundredths n in Str.of_uint (h / 100)%Z +:+ "." +:+ two_digits (h mod 100)%Z.

Definition UNITS : list string := ["B"; "KiB"; "MiB"; "GiB"; "TiB"; "PiB"].

(** The loop over [UNITS[1..UNITS.len() - 1]]. *)
Fixpoint format_units (size_tmp : Z) (units : list string) : string :=
  match units with
  | [] => show_kilo size_tmp +:+ " " +:+ default "" (last UNITS)
  | unit :: units' =>
      if (size_tmp <? 1024 * 1024)%Z then show_kilo size_tmp +:+ " " +:+ unit
      else format_units (Z.shiftr size_tmp 10) units'
  end.

(** [format_file_size]. *)
Definition format_file_size (size : Z) : string :=
  if (size <? 1024)%Z then Str.of_uint size +:+ " " +:+ default "" (head UNITS)
  else format_units size (removelast (tail UNITS)).

(** [DOWNLOAD_PARAM_KEY]. *)
Definition DOWNLOAD_PARAM_KEY : string := "download".

Section Index.
Context `{CodecLib}.

(** A table row of the page. *)
Definition html_row (entry : FileEntry) : Markup :=
  MElem "tr" []
    [MElem "td" []
       [MElem "a" [("href", uri entry)]
          ([MText (Utf8.lossy (name entry))] ++ if is_dir entry then [MText "/"] else [])];
     MElem "td" []
       [MText (match mtime entry with
               | Some local_dt => format_local DATETIME_FORMAT_LOCAL local_dt
               | None => "-"
               end)];
     MElem "td" [("align", "right")]
       [MText (match size entry with Some n => format_file_size n | None => "-" end)]].

(** The page of [html_auto_index]. *)
Definition html_page (base_path current_path styles : string) (dirs_count files_count : Z)
    (download_directory_elem : list Markup) (sort_attrs : SortingAttr) (entries : list FileEntry)
    : list Markup :=
  let th attrs key label := MElem "th" attrs [MElem "a" [("href", "?sort=" +:+ key)] [MText label]] in
  [MDoctype;
   MElem "html" []
     [MElem "head" []
        [MVoid "meta" [("charset", "utf-8")];
         MVoid "meta" [("name", "viewport");
                       ("content", "width=device-width,minimum-scale=1,initial-scale=1")];
         MElem "title" [] [MText "Index of "; MText current_path];
         MElem "style" [] [MText styles]];
      MElem "body" []
        [MElem "h1" [] [MText "Index of "; MText current_path];
         MElem "p" []
           [MElem "small" []
              ([MText "directories: "; MText (Str.of_uint dirs_count); MText ", files: ";
                MText (Str.of_uint files_count)] ++ download_directory_elem)];
         MVoid "hr" [];
         MElem "div" [("style", "overflow-x: auto;")]
           [MElem "table" []
              ([MElem "thead" []
                  [MElem "tr" []
                     [th [] (sa_name sort_attrs) "Name";
                      th [("style", "width:10rem;")] (sa_last_modified sort_attrs) "Last modified";
                      th [("style", "width:6rem;text-align:right;")] (sa_size sort_attrs) "Size"]]]
               ++ (if negb (String.eqb base_path "/")
                   then [MElem "tr" []
                           [MElem "td" [("colspan", "3")] [MElem "a" [("href", "../")] [MText "../"]]]]
                   else [])
               ++ map html_row entries)];
         MVoid "hr" [];
         MElem "footer" []
           [MElem "small" [] [MText "Powered by WeaveGate (SWS) / weavegate"]]]]].

(** [html_auto_index]. *)
Definition html_auto_index (base_path : string) (dirs_count files_count : Z)
    (entries : list FileEntry) (order_code : Z) (download : list DirDownloadFmt) : string :=
  let '(entries, sort_attrs) := sort_file_entries entries order_code in
  let current_path := Utf8.lossy (percent_decode base_path) in
  let download_directory_elem :=
    match download with
    | [] => []
    | _ => [MText ", "; MElem "a" [("href", "?" +:+ DOWNLOAD_PARAM_KEY)] [MText "download tar.gz"]]
    end in
  let nl := Str.bytes [10] in
  let styles := Str.replace "  " "" (Str.replace nl "" STYLES) in
  maud_render (html_page base_path current_path styles dirs_count files_count
                 download_directory_elem sort_attrs entries).

(** [json_auto_index]. *)
Definition json_auto_index (entries : list FileEntry) (order_code : Z) : result error string :=
  let '(entries, _) := sort_file_entries entries order_code in
  json_to_string (JArr (map serialize_entry entries)).
End Index.

(** ** [dir.rs] *)

(** The characters [PERCENT_ENCODE_SET] leaves alone besides the alphanumeric ones. *)
Definition PERCENT_ENCODE_SET : list ascii := ["_"; "-"; "."; "~"]%char.

Record DirListOpts := mkDirListOpts {
  root_path : Path.t;
  method : string;
  current_path : string;
  uri_query : option string;
  filepath : Path.t;
  dir_listing_order : Z;
  dir_listing_format : DirListFmt;
  dir_listing_download : list DirDownloadFmt;
  ignore_hidden_files : bool;
  disable_symlinks : bool;
}.

(** [DirEntryOpts]; the directory reader is the directory and the names it yields. *)
Record DirEntryOpts := mkDirEntryOpts {
  de_root_path : Path.t;
  dir_reader : Path.t * list string;
  base_path : string;
  de_uri_query : option string;
  is_head : bool;
  order_code : Z;
  content_format : DirListFmt;
  de_ignore_hidden_files : bool;
  de_disable_symlinks : bool;
  download : list DirDownloadFmt;
}.

Section Entries.
Context (fs : Fs.t).

(** The type and the size of an entry; [None] is a [continue]. *)
Definition entry_type (root_path_abs entry_path : Path.t) (meta : Metadata)
    (disable_symlinks : bool) : option (FileType * option Z) :=
  if md_is_dir meta then Some (Directory, None)
  else if md_is_file meta then Some (RegularFile, Some (md_len meta))
  else if negb disable_symlinks && md_is_symlink meta then
    match Fs.canonicalize fs entry_path with
    | Err _ => None
    | Ok symlink_path =>
        if negb (Path.starts_with symlink_path root_path_abs) then None
        else match Fs.symlink_metadata fs symlink_path with
             | Err _ => None
             | Ok symlink_meta =>
                 if md_is_dir symlink_meta then Some (Directory, None)
                 else Some (RegularFile, Some (md_len symlink_meta))
             end
    end
  else None.

Section Codec.
Context `{CodecLib}.

(** The link of an entry. *)
Definition entry_uri (base_path name : string) (ty : FileType) : string :=
  let name_encoded := percent_encode PERCENT_ENCODE_SET name in
  let uri :=
    if negb (Str.ends_with_char "/" base_path) && negb (Str.is_empty base_path)
    then match Str.rsplit_once "/" base_path with
         | Some (_, parent) => parent
         | None => base_path
         end +:+ "/" +:+ name_encoded
    else name_encoded in
  match ty with Directory => uri +:+ "/" | RegularFile => uri end.

(** One iteration of the loop of [read_dir_entries]. *)
Definition read_entry (opt : DirEntryOpts) (root_path_abs : Path.t) (name : string)
    : option FileEntry :=
  let path := Path.push (fst (dir_reader opt)) [Normal name] in
  match Fs.symlink_metadata fs path with
  | Err _ => None
  | Ok meta =>
      if de_ignore_hidden_files opt && Str.starts_with_char "." name then None
      else match entry_type root_path_abs path meta (de_disable_symlinks opt) with
           | None => None
           | Some (ty, size) =>
               Some (mkEntry name (md_modified meta) size ty (entry_uri (base_path opt) name ty))
           end
  end.

(** The loop: the two counters and the entries in reading order. *)
Fixpoint read_entries (opt : DirEntryOpts) (root_path_abs : Path.t) (names : list string)
    (dirs_count files_count : Z) : Z * Z * list FileEntry :=
  match names with
  | [] => (dirs_count, files_count, [])
  | name :: names' =>
      match read_entry opt root_path_abs name with
      | None => read_entries opt root_path_abs names' dirs_count files_count
      | Some e =>
          let '(dirs_count, files_count) :=
            match type e with
            | Directory => (dirs_count + 1, files_count)
            | RegularFile => (dirs_count, files_count + 1)
            end%Z in
          let '(d, f, es) := read_entries opt root_path_abs names' dirs_count files_count in
          (d, f, e :: es)
      end
  end.

(** The sorting code asked by the query: the first [sort] pair, if it is a [u8]. *)
Definition query_order (uri_query : option string) (order_code : Z) : Z :=
  match uri_query with
  | None => order_code
  | Some q =>
      let parts := form_parse q in
      if (0 <? length parts)%nat
      then match List.find (λ kv, String.eqb kv.1 "sort" && negb (Str.is_empty kv.1)) parts with
           | Some (_, value) => default order_code (Str.parse_uint u8_max (Str.trim value))
           | None => order_code
           end
      else order_code
  end.
End Codec.

Section Reply.
Context `{HeadersLib, CodecLib}.

(** [read_dir_entries]. *)
Definition read_dir_entries (opt : DirEntryOpts) : result error Response :=
  let? root_path_abs :=
    Res.of_option ["unable to canonicalize"] (Res.ok (Fs.canonicalize fs (de_root_path opt))) in
  let '(dirs_count, files_count, file_entries) :=
    read_entries opt root_path_abs (snd (dir_reader opt)) 0 0 in
  let order_code := query_order (de_uri_query opt) (order_code opt) in
  let resp := resp_new BodyEmpty in
  let? rc :=
    match content_format opt with
    | Json =>
        let resp := insert_content_type "application/json" resp in
        let? content := json_auto_index file_entries order_code in Ok (resp, content)
    | Html =>
        Ok (insert_content_type TEXT_HTML_UTF_8 resp,
            html_auto_index (base_path opt) dirs_count files_count file_entries order_code
              (download opt))
    end in
  let '(resp, content) := rc in
  let resp := insert_content_length (Z.of_nat (String.length content)) resp in
  if is_head opt then Ok resp else Ok (set_body (BodyBytes content) resp).

(** ** [autoindex/mod.rs]: [auto_index] *)

(** The [DirEntryOpts] built for a directory that could be read. *)
Definition dir_entry_opts (opts : DirListOpts) (parent : Path.t) (names : list string)
    : DirEntryOpts := {|
  de_root_path := root_path opts;
  dir_reader := (parent, names);
  base_path := current_path opts;
  de_uri_query := uri_query opts;
  is_head := Http.is_head (method opts);
  order_code := dir_listing_order opts;
  content_format := dir_listing_format opts;
  de_ignore_hidden_files := ignore_hidden_files opts;
  de_disable_symlinks := disable_symlinks opts;
  download := dir_listing_download opts;
|}.

Definition auto_index (opts : DirListOpts) : result Z Response :=
  let filepath := filepath opts in
  let parent := default filepath (Path.parent filepath) in
  match Fs.read_dir fs parent with
  | Ok names =>
      let dir_opts := dir_entry_opts opts parent names in
      match read_dir_entries dir_opts with
      | Ok resp => Ok resp
      | Err _ => Err 500%Z
      end
  | Err NotFound => Err 404%Z
  | Err PermissionDenied => Err 403%Z
  | Err OtherError => Err 500%Z
  end.
End Reply.
End Entries.
End DirListing.

(** * [directory_listing_download.rs] *)

Module Download.

Record DirDownloadOpts := mkDirDownloadOpts {
  method : string;
  disable_symlinks : bool;
  ignore_hidden_files : bool;
}.

(** [init]. *)
Definition init `{HttpLib, GlobLib, RegexLib} (formats : list DirDownloadFmt)
    (o : RequestHandlerOpts) : RequestHandlerOpts :=
  fold_left
    (λ o fmt,
       if negb (bool_decide (fmt ∈ dir_listing_download o))
       then o {{ dir_listing_download := dir_listing_download o ++ [fmt] }} else o)
    formats o.

(** What the archive task hands to the tar builder. *)
Inductive TarEntry :=
| TarDir (dest src : Path.t)
| TarPath (dest src : Path.t).

Section Archive.
(** [Builder::append_dir] and [Builder::append_path_with_name] succeed (third-party). *)
Context (append_dir append_path_with_name : Path.t → Path.t → bool).
Context (fs : Fs.t).

(** An element of the stack: a path, whether it is a directory, whether it is a link. *)
Abbreviation item := (Path.t * bool * bool)%type.

(** The loop over the entries of a directory; [None] is a failing [file_type]. *)
Fixpoint push_entries (src : Path.t) (ignore_hidden : bool) (names : list string)
    (stack : list item) : option (list item) :=
  match names with
  | [] => Some stack
  | name :: names' =>
      if ignore_hidden && Str.starts_with_char "." name
      then push_entries src ignore_hidden names' stack
      else
        let path := Path.push src [Normal name] in
        match Fs.symlink_metadata fs path with
        | Err _ => None
        | Ok m => push_entries src ignore_hidden names' ((path, md_is_dir m, md_is_symlink m) :: stack)
        end
  end.

(** One round of the [while let]: the entry written, and the new stack; [None] stops writing. *)
Definition archive_step (path src_path : Path.t) (follow_symlinks ignore_hidden : bool)
    (it : item) (stack : list item) : option (list TarEntry * list item) :=
  let '(src, is_dir, is_symlink) := it in
  match Path.strip_prefix src src_path with
  | None => None
  | Some rel =>
      let dest := Path.push path rel in
      if is_dir || (is_symlink && follow_symlinks && Fs.is_dir fs src)
      then match Fs.read_dir fs src with
           | Err _ => None
           | Ok names =>
               match push_entries src ignore_hidden names stack with
               | None => None
               | Some stack =>
                   if bool_decide (dest ≠ [])
                   then if append_dir dest src then Some ([TarDir dest src], stack) else None
                   else Some ([], stack)
               end
           end
      else if append_path_with_name src dest then Some ([TarPath dest src], stack) else None
  end.

Fixpoint archive_loop (fuel : nat) (path src_path : Path.t)
    (follow_symlinks ignore_hidden : bool) (stack : list item) : list TarEntry :=
  match fuel, stack with
  | S f, it :: stack =>
      match archive_step path src_path follow_symlinks ignore_hidden it stack with
      | Some (out, stack) =>
          out ++ archive_loop f path src_path follow_symlinks ignore_hidden stack
      | None => []
      end
  | _, _ => []
  end.

(** [archive]: the entries written in the first [fuel] rounds. *)
Definition archive (fuel : nat) (path src_path : Path.t) (follow_symlinks ignore_hidden : bool)
    : list TarEntry :=
  archive_loop fuel path src_path follow_symlinks ignore_hidden [(src_path, true, false)].
End Archive.

(** [archive_reply]; the spawned task is the [BodyArchive] of the response. *)
Definition archive_reply `{HeadersLib} (path src_path : Path.t) (opts : DirDownloadOpts)
    : Response :=
  let archive_name := Path.with_extension "tar.gz" path in
  let resp := insert_content_type "application/gzip" (resp_new BodyEmpty) in
  let hvals := "attachment; filename=" +:+ Str.bytes [34]
                 +:+ Utf8.lossy (Path.text archive_name) +:+ Str.bytes [34] in
  let resp := match hv_from_str hvals with
              | Some hval => set_header "content-disposition" hval resp
              | None => resp
              end in
  if is_head (method opts) then resp
  else set_body (BodyArchive (Path.text path) (Path.text src_path)
                   (negb (disable_symlinks opts)) (ignore_hidden_files opts)) resp.
End Download.

(** * Listings *)

Section ListingLemmas.
Context `{CodecLib}.

Definition count_type (ty : DirListing.FileType) (es : list DirListing.FileEntry) : Z :=
  Z.of_nat (length (filter (λ e, DirListing.type e = ty) es)).

Lemma read_entries_acc fs opt root names d f :
  DirListing.read_entries fs opt root names d f =
    let es := omap (DirListing.read_entry fs opt root) names in
    ((d + count_type DirListing.Directory es)%Z, (f + count_type DirListing.RegularFile es)%Z, es).
Proof.
  revert d f. induction names as [|n names IH]; intros d f; cbn [DirListing.read_entries].
  { cbn. by rewrite !Z.add_0_r. }
  set (g := DirListing.read_entry fs opt root) in *.
  change (omap g (n :: names)) with
    (match g n with Some y => y :: omap g names | None => omap g names end).
  destruct (g n) as [e|]; [|apply IH].
  unfold count_type. destruct (DirListing.type e) eqn:Et; rewrite IH;
    rewrite !filter_cons, Et; repeat case_decide; try done; cbn zeta; cbn [length]; unfold count_type;
    f_equal; f_equal; lia.
Qed.
End ListingLemmas.

(** What a directory listing shows: every listed entry is a name of the directory; a hidden
    one never appears when hidden files are ignored; an entry that is a symbolic link appears
    only when links are allowed and the link resolves inside the (resolved) root; and the two
    counters of the page are the numbers of listed directories and files. *)
Theorem listing_entries (fs : Fs.t) `{CodecLib} (opt : DirListing.DirEntryOpts) (root : Path.t)
    (names : list string) (d f : Z) (es : list DirListing.FileEntry)
    (Hes : DirListing.read_entries fs opt root names 0 0 = (d, f, es)) :
  d = count_type DirListing.Directory es ∧ f = count_type DirListing.RegularFile es ∧
  (d + f)%Z = Z.of_nat (length es) ∧
  ∀ e, e ∈ es →
    DirListing.name e ∈ names ∧
    (DirListing.de_ignore_hidden_files opt = true →
       Str.starts_with_char "." (DirListing.name e) = false) ∧
    ∃ meta, Fs.symlink_metadata fs
              (Path.push (DirListing.dir_reader opt).1 [Normal (DirListing.name e)]) = Ok meta ∧
      (md_is_symlink meta = true →
         DirListing.de_disable_symlinks opt = false ∧
         ∃ p, Fs.canonicalize fs
                (Path.push (DirListing.dir_reader opt).1 [Normal (DirListing.name e)]) = Ok p ∧
              Path.starts_with p root = true).
Proof.
  rewrite read_entries_acc in Hes. cbv zeta in Hes. injection Hes as <- <- <-.
  split; [done|]. split; [done|]. split.
  { unfold count_type. generalize (omap (DirListing.read_entry fs opt root) names).
    intros es. induction es as [|e es IH]; [done|].
    rewrite !filter_cons. destruct (DirListing.type e); repeat case_decide; simpl in *;
      done || lia. }
  intros e (n & Hn & He)%list_elem_of_omap.
  unfold DirListing.read_entry in He.
  destruct (Fs.symlink_metadata fs _) as [meta|] eqn:Emeta; [|done].
  destruct (DirListing.de_ignore_hidden_files opt && Str.starts_with_char "." n) eqn:Eh; [done|].
  destruct (DirListing.entry_type _ _ _ _ _) as [[ty sz]|] eqn:Et; [|done].
  injection He as <-. cbn [DirListing.name].
  split; [done|]. split.
  { intros Hi. rewrite Hi in Eh. done. }
  exists meta. split; [done|]. intros Hsym. unfold DirListing.entry_type in Et.
  unfold Fs.symlink_metadata in Emeta. apply map_Ok in Emeta as (nd & _ & ->).
  destruct nd; simpl in *; try done. rewrite andb_true_r in Et.
  destruct (DirListing.de_disable_symlinks opt); [done|]. split; [done|]. simpl in Et.
  destruct (Fs.canonicalize fs _) as [p|]; [|done].
  exists p. split; [done|]. by destruct (Path.starts_with p root).
Qed.

Lemma listing_entries_witness :
  let opt := DirListing.mkDirEntryOpts (Path.parse "/srv/www")
               (Path.parse "/srv/www", ["a.txt"; "out"; "docs"; ".env"]) "/" None false 6 Json
               true false [] in
  let '(d, f, es) := DirListing.read_entries FsRef.fs opt (Path.parse "/srv/www")
                       ["a.txt"; "out"; "docs"; ".env"] 0 0 in
  DirListing.name <$> es = ["a.txt"; "docs"] ∧ d = 1%Z ∧ (d + f)%Z = 2%Z.
Proof.
  intros opt.
  destruct (DirListing.read_entries _ opt _ _ 0 0) as [[d f] es] eqn:E.
  destruct (listing_entries FsRef.fs opt (Path.parse "/srv/www") _ d f es E) as (Hd & _ & Hs & _).
  vm_compute in E. injection E as <- <- <-. by split_and!.
Defined.

(** Sorting a listing: for every code the rows are the same entries; codes 0, 2 and 4 order
    them by name (lower-cased), modification time and size, stably, codes 1, 3 and 5 reverse
    that order, any other code keeps the directory's order; and the link of the column that is
    sorted upwards asks for the downward order next. *)
Theorem sort_file_entries_spec `{CodecLib} (files : list DirListing.FileEntry) (code : Z) :
  let '(l, attr) := DirListing.sort_file_entries files code in
  l ≡ₚ files ∧
  (code = 0%Z → StronglySorted (Sort.le DirListing.by_name) l ∧ DirListing.sa_name attr = "1") ∧
  (code = 1%Z → StronglySorted (Sort.le DirListing.by_name) (rev l) ∧ DirListing.sa_name attr = "0") ∧
  (code = 2%Z → StronglySorted (Sort.le DirListing.by_mtime) l ∧
                DirListing.sa_last_modified attr = "3") ∧
  (code = 3%Z → StronglySorted (Sort.le DirListing.by_mtime) (rev l) ∧
                DirListing.sa_last_modified attr = "2") ∧
  (code = 4%Z → StronglySorted (Sort.le DirListing.by_size) l ∧ DirListing.sa_size attr = "5") ∧
  (code = 5%Z → StronglySorted (Sort.le DirListing.by_size) (rev l) ∧ DirListing.sa_size attr = "4") ∧
  ((code < 0 ∨ 5 < code)%Z → l = files).
Proof.
  assert (Sort.Laws DirListing.by_name) as Hn
    by exact (key_compare_laws (λ f, str_to_lowercase (Utf8.lossy (DirListing.name f))) String.compare).
  assert (Sort.Laws DirListing.by_mtime) as Hm
    by exact (key_compare_laws DirListing.mtime (opt_compare Z.compare)).
  assert (Sort.Laws DirListing.by_size) as Hs
    by exact (key_compare_laws DirListing.size (opt_compare Z.compare)).
  destruct (DirListing.sort_file_entries files code) as [l attr] eqn:E.
  assert (code = 0 ∨ code = 1 ∨ code = 2 ∨ code = 3 ∨ code = 4 ∨ code = 5 ∨ (code < 0 ∨ 5 < code))%Z
    as [->|[->|[->|[->|[->|[->|Hc]]]]]] by lia.
  7: { assert (l = files) as ->.
       { destruct code as [|p|p]; [lia| |by simplify_eq/=].
         do 3 (destruct p as [p|p|]; try (by simplify_eq/=); try lia). }
       split_and!; [done|..]; intros; lia || done. }
  all: simpl in E; injection E as <- <-; rewrite ?rev_involutive;
    split_and!; try (intros; lia);
    try (intros _; split; [by apply Sort.sort_sorted | done]);
    try (rewrite <- Permutation_rev); apply Sort.sort_perm.
Qed.

Lemma hundredths_accurate n :
  (0 ≤ n)%Z → (Z.abs (DirListing.hundredths n * 1024 - n * 100) ≤ 512)%Z.
Proof.
  intros Hn. unfold DirListing.hundredths.
  pose proof (Z.div_mod (n * 100) 1024 ltac:(lia)).
  pose proof (Z.mod_pos_bound (n * 100) 1024 ltac:(lia)).
  destruct (Z.ltb_spec 512 ((n * 100) mod 1024)); simpl; [lia|].
  destruct (Z.eqb_spec ((n * 100) mod 1024) 512); simpl; [|lia].
  destruct (Z.odd _); lia.
Qed.

Lemma format_units_spec units n :
  (1024 ≤ n)%Z →
  ∃ j, j ≤ length units ∧
    DirListing.format_units n units =
      DirListing.show_kilo (Z.shiftr n (10 * Z.of_nat j)) +:+ " "
        +:+ default (default "" (last DirListing.UNITS)) (units !! j) ∧
    (1024 ≤ Z.shiftr n (10 * Z.of_nat j))%Z ∧
    (j < length units → (Z.shiftr n (10 * Z.of_nat j) < 1024 * 1024)%Z).
Proof.
  revert n. induction units as [|u units IH]; intros n Hn; simpl.
  - exists 0. rewrite Z.shiftr_0_r. split_and!; [lia|done|done|lia].
  - destruct (Z.ltb_spec n (1024 * 1024)).
    + exists 0. change (10 * Z.of_nat 0)%Z with 0%Z. rewrite Z.shiftr_0_r. split_and!; done || lia.
    + destruct (IH (Z.shiftr n 10)) as (j & Hj & -> & Hlo & Hhi).
      { rewrite Z.shiftr_div_pow2 by lia. change (2 ^ 10)%Z with 1024%Z.
        apply Z.div_le_lower_bound; lia. }
      exists (S j). rewrite Z.shiftr_shiftr in * by lia.
      replace (10 + 10 * Z.of_nat j)%Z with (10 * Z.of_nat (S j))%Z in * by lia.
      split_and!; [lia|done|done|]. intros. apply Hhi. lia.
Qed.

(** The human-readable size: below 1024 the exact number of bytes; above, a two-decimal
    number of the unit the loop stops at, at least 1.00, at most 1024.00 except in PiB, and
    within half a hundredth of the truncated size in that unit. *)
Theorem format_file_size_spec (size : Z) (Hsize : (0 ≤ size ≤ u64_max)%Z) :
  (size < 1024 → DirListing.format_file_size size = Str.of_uint size +:+ " B")%Z ∧
  (1024 ≤ size →
   ∃ j unit, let n := Z.shiftr size (10 * Z.of_nat j) in
     DirListing.UNITS !! S j = Some unit ∧
     DirListing.format_file_size size = DirListing.show_kilo n +:+ " " +:+ unit ∧
     100 ≤ DirListing.hundredths n ∧ ((j < 4)%nat → DirListing.hundredths n ≤ 102400) ∧
     Z.abs (DirListing.hundredths n * 1024 - n * 100) ≤ 512)%Z.
Proof.
  unfold DirListing.format_file_size. split.
  { intros Hlt. apply Z.ltb_lt in Hlt. by rewrite Hlt. }
  intros Hge. assert ((size <? 1024)%Z = false) as -> by (apply Z.ltb_ge; lia).
  destruct (format_units_spec (removelast (tail DirListing.UNITS)) size Hge)
    as (j & Hj & -> & Hlo & Hhi). simpl in Hj, Hhi.
  set (n := Z.shiftr size (10 * Z.of_nat j)) in *.
  pose proof (hundredths_accurate n ltac:(lia)) as Hacc.
  exists j, (default "PiB" (["KiB"; "MiB"; "GiB"; "TiB"] !! j)). simpl. fold n.
  split; [do 5 (destruct j as [|j]; [done|]); lia|].
  split; [done|]. split; [lia|]. split; [|done].
  intros Hj4. specialize (Hhi Hj4). lia.
Qed.

Lemma format_file_size_spec_witness :
  DirListing.format_file_size 1152 = "1.12 KiB" ∧
  DirListing.format_file_size u64_max = "16384.00 PiB" ∧
  DirListing.format_file_size 128 = "128 B".
Proof.
  split; [by vm_compute|]. split; [by vm_compute|].
  destruct (format_file_size_spec 128) as [H _]; [by unfold u64_max|].
  rewrite H; [by vm_compute | done].
Defined.

(** * The archive *)

Section ArchiveLemmas.
Context (append_dir append_path : Path.t → Path.t → bool) (fs : Fs.t).
Context (path src_path : Path.t) (follow hidden : bool).

(** A path of the archived tree, and what its stack flags were read from. *)
Definition visible (names : list string) : Prop :=
  hidden = true → Forall (λ n, Str.starts_with_char "." n = false) names.
Definition item_ok (it : Path.t * bool * bool) : Prop :=
  let '(src, is_dir, is_symlink) := it in
  ∃ names, src = src_path ++ normals names ∧ visible names ∧
    (names ≠ [] → ∃ m, Fs.symlink_metadata fs src = Ok m ∧ md_is_dir m = is_dir).
Definition entry_ok (e : Download.TarEntry) : Prop :=
  match e with
  | Download.TarDir dest src =>
      ∃ names, src = src_path ++ normals names ∧ dest = Path.push path (normals names) ∧
        visible names ∧
        (follow = false → names ≠ [] →
           ∃ m, Fs.symlink_metadata fs src = Ok m ∧ md_is_dir m = true)
  | Download.TarPath dest src =>
      ∃ names, src = src_path ++ normals names ∧ dest = Path.push path (normals names) ∧
        visible names
  end.

Lemma push_entries_ok src names rel stack stack' :
  src = src_path ++ normals rel → visible rel → Forall item_ok stack →
  Download.push_entries fs src hidden names stack = Some stack' → Forall item_ok stack'.
Proof.
  intros Hsrc Hrel. revert stack. induction names as [|n names IH]; intros stack Hall; simpl.
  { by intros [= <-]. }
  destruct (hidden && Str.starts_with_char "." n) eqn:Eh; [by apply IH|].
  destruct (Fs.symlink_metadata fs (Path.push src [Normal n])) as [m|] eqn:Em; [|done].
  apply IH. constructor; [|done]. exists (rel ++ [n]). split_and!.
  - rewrite push_Normal, Hsrc. unfold normals. by rewrite fmap_app, app_assoc.
  - intros Hh. apply Forall_app. split; [by apply Hrel|]. constructor; [|done].
    by rewrite Hh in Eh.
  - intros _. by exists m.
Qed.

Lemma archive_loop_ok fuel stack :
  Forall item_ok stack →
  Forall entry_ok (Download.archive_loop append_dir append_path fs fuel path src_path follow hidden
                     stack).
Proof.
  revert stack. induction fuel as [|fuel IH]; intros [|[[src is_dir] is_symlink] stack] Hall;
    simpl; try constructor.
  apply Forall_cons in Hall as [(rel & Hsrc & Hvis & Hmeta) Hall].
  rewrite Hsrc, strip_prefix_app, <- Hsrc.
  destruct (is_dir || (is_symlink && follow && Fs.is_dir fs src)) eqn:Ed.
  - destruct (Fs.read_dir fs src) as [names|]; [|constructor].
    destruct (Download.push_entries fs src hidden names stack) as [stack'|] eqn:Ep; [|constructor].
    assert (Forall item_ok stack') as Hall' by (eapply push_entries_ok; eauto).
    case_bool_decide; [|by apply IH].
    destruct (append_dir _ _); [|constructor]. apply Forall_app. split; [|by apply IH].
    constructor; [|done]. exists rel. split_and!; [done..|].
    intros -> Hne. rewrite andb_false_r, orb_false_r in Ed. destruct (Hmeta Hne) as (m & ? & ?).
    exists m. split; congruence.
  - destruct (append_path _ _); [|constructor]. apply Forall_app. split; [|by apply IH].
    constructor; [|done]. by exists rel.
Qed.
End ArchiveLemmas.

(** What an archive download contains: every entry written is a path at or below the
    requested directory, stored under the archive's name with the same relative path; with
    hidden files ignored no component of that relative path starts with a dot; and without
    following links only real directories are descended into. *)
Theorem archive_contents (append_dir append_path : Path.t → Path.t → bool) (fs : Fs.t)
    (fuel : nat) (path src_path : Path.t) (follow hidden : bool) (e : Download.TarEntry)
    (He : e ∈ Download.archive append_dir append_path fs fuel path src_path follow hidden) :
  entry_ok fs path src_path follow hidden e.
Proof.
  revert e He. apply Forall_forall, archive_loop_ok. constructor; [|done].
  exists []. split_and!; [by rewrite app_nil_r | by constructor | done].
Qed.

Lemma archive_contents_witness :
  entry_ok FsRef.fs (Path.parse "docs") (Path.parse "/srv/www/docs") false true
    (Download.TarPath (Path.parse "docs/x") (Path.parse "/srv/www/docs/x")).
Proof.
  apply (archive_contents (λ _ _, true) (λ _ _, true) FsRef.fs 5).
  vm_compute. right. left.
Defined.

(** With links followed the archive writes the target of a link that leaves the root, which
    neither the listing nor the file handler would serve. *)
Example archive_follows_links_out :
  let fs := Fs.mkFs (list_to_map
              [(["srv"], NDir ["www"; "etc"] None true);
               (["srv"; "etc"], NDir ["key"] None true);
               (["srv"; "etc"; "key"], NFile "k" None true);
               (["srv"; "www"], NDir ["d"] None true);
               (["srv"; "www"; "d"], NDir ["out"] None true);
               (["srv"; "www"; "d"; "out"], NLink "/srv/etc" None)]) [] 4096 in
  Download.TarPath (Path.parse "d/out/key") (Path.parse "/srv/www/d/out/key")
    ∈ Download.archive (λ _ _, true) (λ _ _, true) fs 5 (Path.parse "d") (Path.parse "/srv/www/d")
        true true ∧
  Fs.canonicalize fs (Path.parse "/srv/www/d/out/key") = Ok (Path.parse "/srv/etc/key").
Proof. split; vm_compute; [right; right; left | reflexivity]. Qed.
