(* ===== verification/StaticFiles.v ===== *)
(** The static file handler: [static_files.rs].

    The handler reads the file system and the in-memory store; it changes neither (the store is
    filled by the body it returns, [Ranges.MemCache]). *)
From Stdlib Require Import ZArith Lia Ascii String.
From stdpp Require Import base list strings gmap.
From S2P Require Import Prelude Http Libs RefLibs Path Fs Quality Opts Pages Compression Ranges DirListing.
Local Open Scope string_scope.
Local Open Scope list_scope.
Local Open Scope nat_scope.

Module StaticFiles.

Definition DEFAULT_INDEX_FILES : list string := ["index.html"].

(** [FileMetadata] of [fs/meta.rs]. *)
Record FileMetadata := mkFileMetadata {
  fm_file_path : Path.t;
  fm_metadata : Metadata;
  fm_is_dir : bool;
  precompressed_variant : option (Path.t * ContentCoding);
}.

Section Handle.
Context `{HeadersLib, CodecLib}.

Record HandleOpts := mkHandleOpts {
  method : string;
  memory_cache : option MemCacheOpts;
  headers : HeaderMap;
  base_path : Path.t;
  uri_path : string;
  index_files : list string;
  uri_query : option string;
  dir_listing : bool;
  dir_listing_order : Z;
  dir_listing_format : DirListFmt;
  dir_listing_download : list DirDownloadFmt;
  redirect_trailing_slash : bool;
  compression_static : bool;
  ignore_hidden_files : bool;
  disable_symlinks : bool;
}.

Record StaticFileResponse := mkSfr { sf_resp : Response; sf_file_path : Path.t }.

Section WithFs.
Context (fs : Fs.t).

(** [compression_static.then(|| precompressed_variant(..)).flatten()]. *)
Definition variant_of (compression_static : bool) (file_path : Path.t) (headers : HeaderMap)
    : option CompressionStatic.CompressedFileVariant :=
  if compression_static then CompressionStatic.precompressed_variant fs file_path headers else None.

(** The answer built from a precompressed variant found before the file itself. *)
Definition variant_metadata (file_path : Path.t) (p : CompressionStatic.CompressedFileVariant)
    : FileMetadata :=
  mkFileMetadata file_path (CompressionStatic.cv_metadata p) false
    (Some (CompressionStatic.cv_file_path p, CompressionStatic.cv_encoding p)).

(** The loop over the index files: an early return, or the path and metadata it leaves and
    whether an index was found. *)
Fixpoint index_loop (file_path : Path.t) (headers : HeaderMap) (compression_static : bool)
    (metadata : Metadata) (index_files : list string)
    : FileMetadata + (Path.t * Metadata * bool) :=
  match index_files with
  | [] => inr (file_path, metadata, false)
  | index :: index_files' =>
      let file_path := Path.push file_path (Path.parse index) in
      match variant_of compression_static file_path headers with
      | Some p => inl (variant_metadata file_path p)
      | None =>
          match Meta.try_metadata fs file_path with
          | Ok (metadata, _) => inr (file_path, metadata, true)
          | Err _ =>
              let file_path := Path.pop file_path in
              let '(file_path, new_meta) := Meta.try_metadata_with_html_suffix fs file_path in
              match new_meta with
              | Some new_meta => inr (file_path, new_meta, true)
              | None => index_loop file_path headers compression_static metadata index_files'
              end
          end
      end
  end.

(** [get_composed_file_metadata]. *)
Definition get_composed_file_metadata (file_path : Path.t) (headers : HeaderMap)
    (compression_static : bool) (index_files : list string) : result Z FileMetadata :=
  match Meta.try_metadata fs file_path with
  | Ok (metadata, is_dir) =>
      let composed file_path metadata :=
        let precompressed_variant :=
          (λ p, (CompressionStatic.cv_file_path p, CompressionStatic.cv_encoding p))
            <$> variant_of compression_static file_path headers in
        Ok (mkFileMetadata file_path metadata is_dir precompressed_variant) in
      if is_dir then
        let index_files := match index_files with [] => DEFAULT_INDEX_FILES | _ => index_files end in
        match index_loop file_path headers compression_static metadata index_files with
        | inl early => Ok early
        | inr (file_path, metadata, index_found) =>
            let file_path :=
              if negb index_found
              then match last index_files with
                   | Some index => Path.push file_path (Path.parse index)
                   | None => file_path
                   end
              else file_path in
            composed file_path metadata
        end
      else composed file_path metadata
  | Err err =>
      match variant_of compression_static file_path headers with
      | Some p => Ok (variant_metadata file_path p)
      | None =>
          let '(file_path, new_meta) := Meta.try_metadata_with_html_suffix fs file_path in
          match new_meta with
          | Some new_meta => Ok (mkFileMetadata file_path new_meta false None)
          | None =>
              match variant_of compression_static file_path headers with
              | Some p => Ok (variant_metadata file_path p)
              | None => Err err
              end
          end
      end
  end.

(** [file_reply]. *)
Definition file_reply (headers : HeaderMap) (path : Path.t) (meta : Metadata)
    (path_precompressed : option Path.t) (memory_cache : option MemCacheOpts)
    : result Z Response :=
  let conditionals := Conditional.new headers in
  let file_path := default path path_precompressed in
  match Fs.open fs file_path with
  | Ok file => Respond.response_body file path meta conditionals memory_cache
  | Err NotFound => Err 404%Z
  | Err PermissionDenied => Err 403%Z
  | Err OtherError => Err 500%Z
  end.

(** The checks of [handle] between the lookup and the response. *)
Definition check_access (opts : HandleOpts) (file_path_temp : Path.t) : result Z unit :=
  let? file_path_relative :=
    Res.of_option 404%Z (Path.strip_prefix file_path_temp (base_path opts)) in
  let? file_path_resolved :=
    Res.of_option 404%Z (Res.ok (Fs.canonicalize fs file_path_temp)) in
  let? base :=
    Res.of_option 404%Z (Res.ok (Fs.canonicalize fs (base_path opts))) in
  if negb (Path.starts_with file_path_resolved base) then Err 404%Z
  else
    let? has_symlink :=
      if disable_symlinks opts
      then Res.of_option 404%Z
             (Res.ok (PathExt.contains_symlink fs file_path_relative (base_path opts)))
      else Ok false in
    if has_symlink : bool then Err 403%Z
    else if ignore_hidden_files opts && PathExt.is_hidden file_path_relative then Err 404%Z
    else Ok ().

(** The permanent redirect to the path with a slash. *)
Definition slash_redirect (opts : HandleOpts) : result Z Response :=
  let query := match uri_query opts with Some s => "?" +:+ s | None => "" end in
  let uri := uri_path opts +:+ "/" +:+ query in
  match hv_from_str uri with
  | Some loc => Ok (set_status 308 (set_header "location" loc (resp_new BodyEmpty)))
  | None => Err 500%Z
  end.

(** The answer to [OPTIONS]. *)
Definition options_reply : Response :=
  insert_accept_ranges
    (set_header "allow" (enc_allow HTTP_SUPPORTED_METHODS)
       (set_status 204 (resp_new BodyEmpty))).

(** The [DirListOpts] of a listing. *)
Definition dir_list_opts (opts : HandleOpts) (file_path : Path.t) : DirListing.DirListOpts := {|
  DirListing.root_path := base_path opts;
  DirListing.method := method opts;
  DirListing.current_path := uri_path opts;
  DirListing.uri_query := uri_query opts;
  DirListing.filepath := file_path;
  DirListing.dir_listing_order := dir_listing_order opts;
  DirListing.dir_listing_format := dir_listing_format opts;
  DirListing.ignore_hidden_files := ignore_hidden_files opts;
  DirListing.disable_symlinks := disable_symlinks opts;
  DirListing.dir_listing_download := dir_listing_download opts;
|}.

(** The listing (or the archive) of a directory without index. *)
Definition listing_reply (opts : HandleOpts) (file_path : Path.t) : result Z Response :=
  let wants_download :=
    match dir_listing_download opts with
    | [] => false
    | _ => match List.find (λ kv, String.eqb kv.1 DirListing.DOWNLOAD_PARAM_KEY)
                   (form_parse (default "" (uri_query opts))) with
           | Some _ => true
           | None => false
           end
    end in
  if wants_download : bool then
    let fp := Path.pop file_path in
    match Path.file_name fp with
    | Some filename =>
        Ok (Download.archive_reply (Path.parse filename) fp
              (Download.mkDirDownloadOpts (method opts) (disable_symlinks opts)
                 (ignore_hidden_files opts)))
    | None => Err 500%Z
    end
  else
    DirListing.auto_index fs (dir_list_opts opts file_path).

(** The answer made of a pre-compressed variant: that file's reply under its coding, without the
    length. *)
Definition precompressed_reply (opts : HandleOpts) (fm : FileMetadata)
    (variant : Path.t * ContentCoding) : result Z Response :=
  let '(precomp_path, precomp_encoding) := variant in
  let? resp := file_reply (headers opts) (fm_file_path fm) (fm_metadata fm) (Some precomp_path)
                 (memory_cache opts) in
  let resp := del_header "content-length" resp in
  match hv_from_str (Coding.as_str precomp_encoding) with
  | Some encoding => Ok (set_header "content-encoding" encoding resp)
  | None => Err 500%Z
  end.

(** [handle] from the metadata on. *)
Definition handle_file (opts : HandleOpts) (fm : FileMetadata) : result Z StaticFileResponse :=
  let file_path := fm_file_path fm in
  let is_dir := fm_is_dir fm in
  let reply r := let? resp := r in Ok (mkSfr resp file_path) in
  let file_path_temp := if is_dir then Path.pop file_path else file_path in
  let? _ := check_access opts file_path_temp in
  if is_dir && redirect_trailing_slash opts && negb (Str.ends_with_char "/" (uri_path opts))
  then reply (slash_redirect opts)
  else if is_options (method opts) then reply (Ok options_reply)
  else if is_dir && dir_listing opts && negb (Fs.exists_ fs file_path)
  then reply (listing_reply opts file_path)
  else
    match precompressed_variant fm with
    | Some variant => reply (precompressed_reply opts fm variant)
    | None =>
        reply (file_reply (headers opts) file_path (fm_metadata fm) None (memory_cache opts))
    end.

(** The path [handle] looks up: with the memory cache, a directory request means its
    [index.html]. *)
Definition lookup_path (opts : HandleOpts) : result Z Path.t :=
  let? file_path := PathExt.sanitize_path (base_path opts) (uri_path opts) in
  Ok (match memory_cache opts with
      | Some _ => if redirect_trailing_slash opts && Str.ends_with_char "/" (uri_path opts)
                  then Path.push file_path (Path.parse "index.html") else file_path
      | None => file_path
      end).

(** [handle]. *)
Definition handle (store : gmap string MemFile) (opts : HandleOpts)
    : result Z StaticFileResponse :=
  if negb (is_allowed (method opts)) then Err 405%Z
  else
    let? file_path := lookup_path opts in
    match match memory_cache opts with
          | Some _ => Respond.get_or_acquire store file_path (headers opts)
          | None => None
          end with
    | Some result => let? resp := result in Ok (mkSfr resp file_path)
    | None =>
        let? fm := get_composed_file_metadata file_path (headers opts)
                     (compression_static opts) (index_files opts) in
        handle_file opts fm
    end.
End WithFs.
End Handle.
End StaticFiles.

(** * Where the served path lies *)

Section StaticLemmas.
Context `{HeadersLib, CodecLib}.
Context (fs : Fs.t).

(** The paths below a base. *)
Definition below (base p : Path.t) : Prop := ∃ names, p = base ++ normals names ∧
  Forall Path.proper_name names.

Lemma normals_snoc names n : normals (names ++ [n]) = normals names ++ [Normal n].
Proof. unfold normals. by rewrite fmap_app. Qed.

Lemma pop_below base names :
  names ≠ [] → Path.pop (base ++ normals names) = base ++ normals (removelast names).
Proof.
  intros Hne. destruct names as [|n names _] using rev_ind; [done|].
  by rewrite normals_snoc, app_assoc, pop_snoc, removelast_last.
Qed.

Lemma html_proper n : Path.proper_name n → Path.proper_name (n +:+ ".html").
Proof.
  intros Hn. apply name_suffix_proper; [done..|]. rewrite length_string_app. simpl. lia.
Qed.

(** The html fallback of a path ending in a proper name: below the same directory when it
    succeeds, the same path when it fails. *)
Lemma html_suffix_snoc p n q m :
  Path.proper_name n → Meta.try_metadata_with_html_suffix fs (p ++ [Normal n]) = (q, m) →
  (m = None ∧ q = p ++ [Normal n]) ∨ (q = p ++ [Normal (n +:+ ".html")] ∧ m ≠ None).
Proof.
  intros Hn. unfold Meta.try_metadata_with_html_suffix. rewrite file_name_snoc.
  pose proof (html_proper n Hn) as Hh. rewrite set_file_name_snoc by done. unfold Meta.try_metadata.
  destruct (Fs.metadata fs _) as [md|]; [intros [= <- <-]; by right|].
  rewrite set_file_name_snoc by done. intros [= <- <-]. by left.
Qed.

Lemma html_suffix_nofile p q m :
  Path.file_name p = None → Meta.try_metadata_with_html_suffix fs p = (q, m) → m = None ∧ q = p.
Proof. intros Hn. unfold Meta.try_metadata_with_html_suffix. rewrite Hn. by intros [= <- <-]. Qed.

(** [names] is the page beside [requested]: the same path with [.html] at its end. *)
Definition page_of (requested names : list string) : Prop :=
  ∃ d n, requested = d ++ [n] ∧ names = d ++ [n +:+ ".html"].

(** The html fallback below a base, or on the base itself. *)
Lemma html_suffix_below base names q m :
  (∀ n, Normal n ∈ base → Path.proper_name n) → Forall Path.proper_name names →
  Meta.try_metadata_with_html_suffix fs (base ++ normals names) = (q, m) →
  (m = None ∧ q = base ++ normals names) ∨
  (m ≠ None ∧ names ≠ [] ∧ ∃ names', q = base ++ normals names' ∧
     Forall Path.proper_name names' ∧ page_of names names') ∨
  (m ≠ None ∧ names = [] ∧ Path.strip_prefix (Path.pop q) base = None ∧
   Path.strip_prefix q base = None).
Proof.
  intros Hbase Hn Hq. destruct names as [|n names _] using rev_ind.
  - change (normals []) with (@nil component) in *. rewrite app_nil_r in *. destruct base as [|c base _] using rev_ind.
    { apply html_suffix_nofile in Hq as [-> ->]; [by left|done]. }
    destruct (Path.file_name (base ++ [c])) as [n|] eqn:Ef.
    + unfold Path.file_name in Ef. rewrite last_snoc in Ef. destruct c as [| | |n']; try done.
      injection Ef as ->.
      assert (Path.proper_name n) as Hpn by (apply Hbase, elem_of_app; right; by left).
      apply html_suffix_snoc in Hq as [[-> ->]|[-> Hm]]; [by left| |done]. right. right.
      split_and!; [done|done| |].
      * rewrite pop_snoc. destruct (Path.strip_prefix base (base ++ [Normal n])) as [r|] eqn:Es; [|done].
        apply strip_prefix_Some in Es. apply (f_equal length) in Es.
        rewrite !length_app in Es. simpl in Es. lia.
      * destruct (Path.strip_prefix (base ++ [Normal (n +:+ ".html")]) _) as [r|] eqn:Es; [|done].
        apply strip_prefix_Some in Es.
        rewrite <- app_assoc in Es. apply app_inv_head in Es. injection Es as Hs _.
        apply (f_equal String.length) in Hs. rewrite length_string_app in Hs. simpl in Hs. lia.
    + apply html_suffix_nofile in Hq as [-> ->]; [by left|done].
  - apply Forall_app in Hn as [Hns Hn0]. pose proof (Forall_inv Hn0) as Hn.
    rewrite normals_snoc, app_assoc in Hq |- *.
    apply html_suffix_snoc in Hq as [[-> ->]|[-> Hm]]; [by left| |done]. right. left.
    split_and!; [done|by destruct names|]. exists (names ++ [n +:+ ".html"]).
    rewrite normals_snoc, app_assoc. split; [done|]. split; [|by exists names, n].
    apply Forall_app. split; [done|]. constructor; [by apply html_proper|done].
Qed.

(** [names] may answer for the directory [requested]: an index in it, or its page. *)
Definition index_of (indexes requested names : list string) : Prop :=
  (∃ i, i ∈ indexes ∧ names = requested ++ [i]) ∨ page_of requested names.

(** What the lookup returns: a path below the base with the property [P], except for the [.html]
    sibling of the base itself, which the later check refuses. *)
Definition composed_ok (P : list string → Prop) (base p : Path.t) (is_dir : bool) : Prop :=
  (∃ names, p = base ++ normals names ∧ Forall Path.proper_name names ∧
            (is_dir = true → names ≠ []) ∧ P names) ∨
  Path.strip_prefix (if is_dir then Path.pop p else p) base = None.

Lemma composed_ok_weaken (P Q : list string → Prop) base p d :
  (∀ names, P names → Q names) → composed_ok P base p d → composed_ok Q base p d.
Proof. intros HPQ [(names & ? & ? & ? & ?)|?]; [left; exists names; auto | by right]. Qed.

Lemma below_index base names index :
  Forall Path.proper_name names → Path.proper_name index →
  Path.push (base ++ normals names) (Path.parse index) = base ++ normals (names ++ [index]) ∧
  Forall Path.proper_name (names ++ [index]).
Proof.
  intros Hn Hi. rewrite parse_proper, push_Normal by done. rewrite normals_snoc, app_assoc.
  split; [done|]. apply Forall_app. split; [done|]. by constructor.
Qed.

Lemma index_loop_ok base names headers cs meta indexes :
  (∀ n, Normal n ∈ base → Path.proper_name n) → Forall Path.proper_name names →
  Forall Path.proper_name indexes →
  match StaticFiles.index_loop fs (base ++ normals names) headers cs meta indexes with
  | inl fm => StaticFiles.fm_is_dir fm = false ∧
              composed_ok (index_of indexes names) base (StaticFiles.fm_file_path fm) false
  | inr (p, _, true) => composed_ok (index_of indexes names) base p true
  | inr (p, _, false) => p = base ++ normals names
  end.
Proof.
  intros Hbase Hn. induction indexes as [|index indexes IH]; intros Hall; simpl; [done|].
  apply Forall_cons in Hall as [Hi Hall].
  destruct (below_index base names index Hn Hi) as (-> & Hn').
  assert (∀ d, composed_ok (index_of (index :: indexes) names) base
                 (base ++ normals (names ++ [index])) d) as Hfound.
  { intros d. left. exists (names ++ [index]). split_and!; [done..|by destruct names|].
    left. exists index. split; [left|done]. }
  destruct (StaticFiles.variant_of fs cs (base ++ normals (names ++ [index])) headers); [by simpl|].
  destruct (Meta.try_metadata fs (base ++ normals (names ++ [index]))) as [[md ?]|]; [done|].
  rewrite pop_below, removelast_last by (by destruct names).
  destruct (Meta.try_metadata_with_html_suffix fs (base ++ normals names)) as [q m] eqn:Eq.
  destruct (html_suffix_below base names q m Hbase Hn Eq)
    as [[-> ->]|[(Hm & Hne' & nm & -> & Hnm & Hpage)|(Hm & -> & Hs & _)]].
  - specialize (IH Hall). assert (∀ p d, composed_ok (index_of indexes names) base p d →
      composed_ok (index_of (index :: indexes) names) base p d) as Hweak.
    { intros p d. apply composed_ok_weaken. intros nm [(i & ? & ?)|?]; [left|by right].
      exists i. split; [by right|done]. }
    destruct (StaticFiles.index_loop _ _ _ _ _ _) as [fm'|[[p md'] []]]; [|by auto..].
    destruct IH. auto.
  - destruct m; [|done]. left. exists nm. split_and!; [done..| |by right].
    destruct Hpage as (d & n & _ & ->). by destruct d.
  - destruct m; [|done]. by right.
Qed.

Lemma composed_metadata_ok base names headers cs indexes fm :
  (∀ n, Normal n ∈ base → Path.proper_name n) → Forall Path.proper_name names →
  Forall Path.proper_name indexes →
  StaticFiles.get_composed_file_metadata fs (base ++ normals names) headers cs indexes = Ok fm →
  let dir := Fs.is_dir fs (base ++ normals names) in
  composed_ok (λ names', if dir then index_of (match indexes with [] => ["index.html"] | _ => indexes end)
                                       names names'
                         else names' = names ∨ page_of names names')
    base (StaticFiles.fm_file_path fm) (StaticFiles.fm_is_dir fm) ∧
  (StaticFiles.fm_is_dir fm = true → dir = true).
Proof.
  intros Hbase Hn Hidx. unfold StaticFiles.get_composed_file_metadata.
  assert (Fs.is_dir fs (base ++ normals names) =
            match Meta.try_metadata fs (base ++ normals names) with Ok (_, d) => d | Err _ => false end)
    as ->.
  { unfold Meta.try_metadata, Fs.is_dir. by destruct (Fs.metadata fs (base ++ normals names)). }
  destruct (Meta.try_metadata fs (base ++ normals names)) as [[md d]|err] eqn:Emd.
  - destruct d; [|intros [= <-]; simpl; split; [left; exists names; auto|done]].
    change StaticFiles.DEFAULT_INDEX_FILES with ["index.html"].
    set (idx := match indexes with [] => _ | _ => _ end).
    assert (Forall Path.proper_name idx) as Hall.
    { unfold idx. destruct indexes; [|done]. constructor; [by split_and!|done]. }
    pose proof (index_loop_ok base names headers cs md idx Hbase Hn Hall) as Hloop.
    destruct (StaticFiles.index_loop _ _ _ _ _ _) as [fm'|[[p md'] found]];
      intros [= <-]; simpl; [by destruct Hloop as [-> ?]|].
    split; [|done]. destruct found; simpl; [done|]. subst p.
    destruct (last idx) as [index|] eqn:El.
    2: { apply last_None in El. unfold idx in El. by destruct indexes. }
    apply last_Some in El as [l' El]. rewrite El in Hall |- *.
    apply Forall_app in Hall as [_ Hall].
    destruct (below_index base names index Hn (Forall_inv Hall)) as (-> & Hn').
    left. exists (names ++ [index]). split_and!; [done..|by destruct names|].
    left. exists index. split; [set_solver|done].
  - assert (∀ d : bool, d = false → composed_ok (λ names', names' = names ∨ page_of names names') base
                 (base ++ normals names) d) as Hplain.
    { intros d ->. left. exists names. auto. }
    destruct (StaticFiles.variant_of _ _ _ _); [intros [= <-]; simpl; auto|].
    destruct (Meta.try_metadata_with_html_suffix fs (base ++ normals names)) as [q m] eqn:Eq.
    destruct (html_suffix_below base names q m Hbase Hn Eq)
      as [[-> ->]|[(Hm & Hne' & nm & -> & Hnm & Hpage)|(Hm & -> & _ & Hs)]].
    + destruct (StaticFiles.variant_of _ _ _ _); [intros [= <-]; simpl; auto|done].
    + destruct m; [|done]. intros [= <-]. simpl. split; [left; exists nm; auto|done].
    + destruct m; [|done]. intros [= <-]. simpl. split; [by right|done].
Qed.

Lemma handle_file_path opts fm r :
  StaticFiles.handle_file fs opts fm = Ok r →
  StaticFiles.sf_file_path r = StaticFiles.fm_file_path fm ∧
  StaticFiles.check_access fs opts
    (if StaticFiles.fm_is_dir fm then Path.pop (StaticFiles.fm_file_path fm)
     else StaticFiles.fm_file_path fm) = Ok ().
Proof.
  unfold StaticFiles.handle_file. intros Hr. apply bind_Ok in Hr as ([] & Hc & Hr).
  split; [|done]. repeat case_match; by inv_res.
Qed.

Lemma check_access_ok opts p :
  StaticFiles.check_access fs opts p = Ok () →
  ∃ rel q base,
    p = StaticFiles.base_path opts ++ rel ∧ Fs.canonicalize fs p = Ok q ∧
    Fs.canonicalize fs (StaticFiles.base_path opts) = Ok base ∧ base `prefix_of` q ∧
    (StaticFiles.disable_symlinks opts = true →
       PathExt.contains_symlink fs rel (StaticFiles.base_path opts) = Ok false) ∧
    (StaticFiles.ignore_hidden_files opts = true → PathExt.is_hidden rel = false).
Proof.
  unfold StaticFiles.check_access. intros Hc.
  apply bind_Ok in Hc as (rel & Hrel%of_option_Ok & Hc). apply strip_prefix_Some in Hrel as ->.
  apply bind_Ok in Hc as (q & Hq%of_option_Ok & Hc).
  apply bind_Ok in Hc as (base & Hb%of_option_Ok & Hc). exists rel, q, base.
  destruct (Fs.canonicalize fs (_ ++ _)) as [q'|]; simplify_eq/=.
  destruct (Fs.canonicalize fs (StaticFiles.base_path opts)) as [base'|]; simplify_eq/=.
  destruct (Path.starts_with q base) eqn:Es; simplify_eq/=.
  apply starts_with_spec in Es. apply bind_Ok in Hc as (has & Hl & Hc). destruct has; [done|].
  split_and!; [done..| |].
  - intros Hd. rewrite Hd in Hl. apply of_option_Ok in Hl.
    by destruct (PathExt.contains_symlink fs rel _); simplify_eq/=.
  - intros Hi. rewrite Hi in Hc. simpl in Hc. by destruct (PathExt.is_hidden rel).
Qed.
(** The bytes of a file reply come from the one file it opens. *)
Lemma file_reply_opens headers p meta pre r :
  StaticFiles.file_reply fs headers p meta pre None = Ok r →
  match rs_body r with
  | BodyFile s _ => ∃ data start len,
      Fs.open fs (default p pre) = Ok (mkFile (Some data)) ∧ s = slice data start len
  | BodyArchive _ _ _ _ => False
  | _ => True
  end.
Proof.
  unfold StaticFiles.file_reply. destruct (Fs.open fs (default p pre)) as [[data]|[]]; try done.
  unfold Respond.response_body. destruct (Conditional.check _ _) as [r0|range] eqn:Ec.
  { intros [= <-]. by rewrite (check_no_body _ _ _ Ec). }
  destruct (Bytes.bytes_range range (md_len meta)) as [[a e]|]; intros [= <-]; [|done].
  assert (∀ body, let r := Respond.finish body a e (md_len meta) (Respond.content_type_of p)
                             (Respond.modified_of meta) in
            rs_body r = body ∨ rs_body r = BodyEmpty) as Hf.
  { intros body. unfold Respond.finish. destruct (negb _); [destruct (enc_content_range _ _ _)|];
      destruct (Respond.modified_of meta); simpl; auto. }
  destruct data as [data|]; (edestruct Hf as [->| ->]; [|done]); [|done].
  simpl. by exists data, a, (wrap64 (e - a)).
Qed.

(** A precompressed variant is named like the file, with the extension of a coding after it. *)
Lemma variant_beside cs p headers v :
  StaticFiles.variant_of fs cs p headers = Some v →
  cs = true ∧ ∃ n ext, Path.file_name p = Some n ∧ ext ∈ ["gz"; "br"; "zst"] ∧
    CompressionStatic.cv_file_path v = Path.set_file_name (n +:+ "." +:+ ext) p.
Proof.
  unfold StaticFiles.variant_of. destruct cs; [|done]. intros Hv. split; [done|]. revert Hv.
  unfold CompressionStatic.precompressed_variant. destruct (AcceptEncoding.get headers); [|done].
  induction (AcceptEncoding.sorted_encodings _) as [|c l IH]; [done|]. simpl.
  destruct (CompressionStatic.try_variant fs p c) eqn:E; [|exact IH]. intros [= ->].
  unfold CompressionStatic.try_variant in E.
  destruct (CompressionStatic.comp_ext c) as [ext|] eqn:Ex; [|done].
  destruct (Path.file_name p) as [n|]; [|done]. destruct (negb (Utf8.valid n)); [done|].
  destruct (Meta.try_metadata fs _) as [[md []]|]; simplify_eq.
  exists n, ext. split_and!; [done| |done]. destruct c; simplify_eq/=; set_solver.
Qed.

Lemma composed_variant p headers cs indexes fm q enc :
  StaticFiles.get_composed_file_metadata fs p headers cs indexes = Ok fm →
  StaticFiles.precompressed_variant fm = Some (q, enc) →
  ∃ v, StaticFiles.variant_of fs cs (StaticFiles.fm_file_path fm) headers = Some v ∧
       CompressionStatic.cv_file_path v = q.
Proof.
  assert (∀ l p md fm', StaticFiles.index_loop fs p headers cs md l = inl fm' →
            ∃ v, StaticFiles.variant_of fs cs (StaticFiles.fm_file_path fm') headers = Some v ∧
                 fm' = StaticFiles.variant_metadata (StaticFiles.fm_file_path fm') v) as Hloop.
  { induction l as [|i l IH]; intros p' md fm'; simpl; [done|].
    destruct (StaticFiles.variant_of fs cs _ headers) as [v|] eqn:Ev;
      [intros [= <-]; simpl; eauto|].
    destruct (Meta.try_metadata fs _) as [[]|]; [done|].
    destruct (Meta.try_metadata_with_html_suffix fs _) as [p2 [|]]; [done|]. apply IH. }
  unfold StaticFiles.get_composed_file_metadata.
  destruct (Meta.try_metadata fs p) as [[md d]|err].
  - destruct d.
    + destruct (StaticFiles.index_loop _ _ _ _ _ _) as [fm'|[[p' md'] found]] eqn:El.
      * intros [= <-]. apply Hloop in El as (v & Hv & ->). simpl in *. intros [= <- <-]. eauto.
      * intros [= <-]. simpl. intros Hq. apply fmap_Some in Hq as (v & Hv & [= -> ->]). eauto.
    + intros [= <-]. simpl. intros Hq. apply fmap_Some in Hq as (v & Hv & [= -> ->]). eauto.
  - destruct (StaticFiles.variant_of fs cs p headers) as [v|] eqn:Ev.
    { intros [= <-]. simpl. intros [= <- <-]. eauto. }
    destruct (Meta.try_metadata_with_html_suffix fs p) as [q' [m|]]; [by intros [= <-]|].
    destruct (StaticFiles.variant_of fs cs q' headers) as [v|] eqn:Ev'; [|done].
    intros [= <-]. simpl. intros [= <- <-]. eauto.
Qed.

Lemma auto_index_body o r :
  DirListing.auto_index fs o = Ok r → rs_body r = BodyEmpty ∨ ∃ s, rs_body r = BodyBytes s.
Proof.
  unfold DirListing.auto_index. destruct (Fs.read_dir fs _) as [names|[]]; [|done..].
  destruct (DirListing.read_dir_entries fs _) as [r'|] eqn:Er; [|done]. intros [= <-]. revert Er.
  unfold DirListing.read_dir_entries. intros Hr. apply bind_Ok in Hr as (root & _ & Hr).
  destruct (DirListing.read_entries fs _ _ _ _ _) as [[dirs files] entries].
  apply bind_Ok in Hr as ([resp content] & Hrc & Hr).
  assert (rs_body resp = BodyEmpty) as Hb
    by (destruct (DirListing.content_format _); inv_res; done).
  destruct (DirListing.is_head _); injection Hr as <-; simpl; eauto.
Qed.

(** What [handle_file] opens, and what it archives. *)
Lemma handle_file_opens opts fm r :
  StaticFiles.handle_file fs opts fm = Ok r → StaticFiles.memory_cache opts = None →
  match rs_body (StaticFiles.sf_resp r) with
  | BodyFile s n =>
      ∃ q data start len, Fs.open fs q = Ok (mkFile (Some data)) ∧ s = slice data start len ∧
        (q = StaticFiles.fm_file_path fm ∨
         ∃ enc, StaticFiles.precompressed_variant fm = Some (q, enc))
  | BodyArchive _ src _ _ =>
      StaticFiles.fm_is_dir fm = true ∧ src = Path.text (Path.pop (StaticFiles.fm_file_path fm))
  | _ => True
  end.
Proof.
  unfold StaticFiles.handle_file. intros Hr Hc. rewrite Hc in Hr.
  apply bind_Ok in Hr as ([] & _ & Hr). revert Hr.
  destruct (StaticFiles.fm_is_dir fm && _ && _).
  { unfold StaticFiles.slash_redirect. destruct (hv_from_str _); by intros [= <-]. }
  destruct (is_options _); [by intros [= <-]|].
  destruct (StaticFiles.fm_is_dir fm) eqn:Ed; cbn [andb].
  1: destruct (StaticFiles.dir_listing opts && _).
  { unfold StaticFiles.listing_reply. intros Hr. apply bind_Ok in Hr as (r' & Hr & [= <-]). simpl.
    destruct (match StaticFiles.dir_listing_download opts with [] => _ | _ => _ end).
    - destruct (Path.file_name _); [|done]. injection Hr as <-.
      unfold Download.archive_reply. repeat case_match; simplify_eq/=; done.
    - apply auto_index_body in Hr. destruct Hr as [->|[? ->]]; done. }
  all: destruct (StaticFiles.precompressed_variant fm) as [[q enc]|]; intros Hr;
    apply bind_Ok in Hr as (r' & Hr & [= <-]); simpl.
  all: try (apply file_reply_opens in Hr; simpl in Hr; destruct (rs_body r'); try done;
       destruct Hr as (d & a & l & ? & ?); exists (StaticFiles.fm_file_path fm), d, a, l; by auto).
  all: unfold StaticFiles.precompressed_reply in Hr; rewrite Hc in Hr; apply bind_Ok in Hr as (r0 & Hr & Hr');
    apply file_reply_opens in Hr; simpl in Hr; destruct (hv_from_str _); simplify_eq/=;
    destruct (rs_body r0); try done; destruct Hr as (d & a & l & ? & ?);
    exists q, d, a, l; eauto.
Qed.

(** With links refused, the path checked has none. *)
Lemma links_disabled base b names :
  Fs.canonicalize fs base = Ok (Fs.absolute b) → Fs.is_dir fs base = true →
  PathExt.contains_symlink fs (normals names) base = Ok false → no_link_below fs b names.
Proof.
  intros Hb Hdir Hlink.
  destruct (dir_resolved fs base Hdir) as (Hne' & b' & l & Hw & Hd' & Hc).
  rewrite Hb in Hc. assert (b' = b) as -> by (apply absolute_inj; congruence).
  apply (contains_symlink_false fs base b l _ []); [done..|].
  change (normals []) with (@nil component). by rewrite app_nil_r.
Qed.
End StaticLemmas.

(** No readable name of the path starts with a dot. *)
Definition visible (names : list string) : Prop :=
  Forall (λ n, Utf8.valid n = true → Str.starts_with_char "." n = false) names.

Lemma hidden_visible names : PathExt.is_hidden (normals names) = false → visible names.
Proof.
  unfold visible, PathExt.is_hidden, normals. induction names as [|n names IH]; [constructor|]. simpl.
  destruct (Utf8.valid n) eqn:Hv; simpl.
  - intros [Hn Hrest]%orb_false_iff. constructor; auto.
  - intros Hrest. constructor; [congruence|auto].
Qed.

(** C2. Whatever the request path, what the handler answers with, without the in-memory cache,
    lies under the root.  The path of the answer is the root followed by ordinary names: for a
    request that is not a directory the names requested, or their [.html] page; for a directory
    an index in it, or its page.  The policies hold for that path or, for a directory request
    only, for the directory that holds it: it resolves, links included, below the resolved root;
    with links disabled none of its components is a symbolic link; with hidden files ignored
    none of its names starts with a dot.  A body that streams a file carries bytes of the file
    at that path, or of the precompressed variant beside it; an archive is one of the checked
    directory.  So of a directory request the index itself is not checked
    ([index_link_is_followed]), and a variant never is ([variant_link_is_followed]). *)
Theorem handle_confined `{HeadersLib, CodecLib} (fs : Fs.t) (store : gmap string MemFile)
    (opts : StaticFiles.HandleOpts) (r : StaticFiles.StaticFileResponse)
    (Hbase : ∀ n, Normal n ∈ StaticFiles.base_path opts → Path.proper_name n)
    (Hidx : Forall Path.proper_name (StaticFiles.index_files opts))
    (Hcache : StaticFiles.memory_cache opts = None)
    (Hok : StaticFiles.handle fs store opts = Ok r) :
  let base := StaticFiles.base_path opts in
  let path := StaticFiles.sf_file_path r in
  let indexes := match StaticFiles.index_files opts with [] => ["index.html"] | _ => StaticFiles.index_files opts end in
  ∃ requested names checked b p,
    PathExt.sanitize_path base (StaticFiles.uri_path opts) = Ok (base ++ normals requested) ∧
    let dir := Fs.is_dir fs (base ++ normals requested) in
    path = base ++ normals names ∧ Forall Path.proper_name names ∧
    (if dir then index_of indexes requested names else names = requested ∨ page_of requested names) ∧
    (checked = names ∨ dir = true ∧ checked = removelast names) ∧
    Fs.canonicalize fs base = Ok (Fs.absolute b) ∧
    Fs.canonicalize fs (base ++ normals checked) = Ok p ∧ Fs.absolute b `prefix_of` p ∧
    (StaticFiles.disable_symlinks opts = true → Fs.is_dir fs base = true →
       no_link_below fs b checked) ∧
    (StaticFiles.ignore_hidden_files opts = true → visible checked) ∧
    match rs_body (StaticFiles.sf_resp r) with
    | BodyFile s _ =>
        ∃ q data start len, Fs.open fs q = Ok (mkFile (Some data)) ∧ s = slice data start len ∧
          (q = path ∨
           StaticFiles.compression_static opts = true ∧
           ∃ n ext, Path.file_name path = Some n ∧ ext ∈ ["gz"; "br"; "zst"] ∧
                    q = Path.set_file_name (n +:+ "." +:+ ext) path)
    | BodyArchive _ src _ _ => dir = true ∧ src = Path.text (base ++ normals checked)
    | _ => True
    end.
Proof.
  intros base path indexes. unfold StaticFiles.handle in Hok.
  destruct (is_allowed (StaticFiles.method opts)); [|done]. cbn [negb] in Hok.
  apply bind_Ok in Hok as (p0 & Hp0 & Hok). unfold StaticFiles.lookup_path in Hp0.
  rewrite Hcache in Hp0, Hok. apply bind_Ok in Hp0 as (p1 & Hp1 & [= <-]).
  destruct (sanitize_components_spec base (PathExt.decode_tail_path (StaticFiles.uri_path opts)))
    as (names0 & Hs & Hn0 & _); [intros n; apply parse_Normal|].
  fold base in Hp1. pose proof Hp1 as Hsan.
  unfold PathExt.sanitize_path in Hp1. injection Hp1 as <-. rewrite Hs in Hok, Hsan.
  apply bind_Ok in Hok as (fm & Hfm & Hok).
  destruct (composed_metadata_ok fs base names0 _ _ _ _ Hbase Hn0 Hidx Hfm) as [Hcomp Hdir].
  pose proof (handle_file_opens fs opts fm r Hok Hcache) as Hbody.
  apply handle_file_path in Hok as [Hpath Hacc]. fold path in Hpath. rewrite <- Hpath in *.
  apply check_access_ok in Hacc as (rel & q & bq & Hrel & Hq & Hb & Hpre & Hlink & Hhid).
  fold base in Hrel, Hb, Hlink.
  destruct Hcomp as [(names & Hnm & Hpn & Hne & Hserved)|Hs'].
  2: { rewrite Hrel in Hs'. rewrite strip_prefix_app in Hs'. done. }
  set (checked := if StaticFiles.fm_is_dir fm then removelast names else names).
  assert ((if StaticFiles.fm_is_dir fm then Path.pop path else path) = base ++ normals checked)
    as Hchecked.
  { unfold checked. destruct (StaticFiles.fm_is_dir fm); rewrite Hnm; [|done].
    by apply pop_below; auto. }
  rewrite Hchecked in Hrel, Hq. apply app_inv_head in Hrel as <-.
  assert (∃ b, bq = Fs.absolute b) as [b ->].
  { unfold Fs.canonicalize in Hb. apply map_Ok in Hb as (b & _ & ->). by exists b. }
  assert (checked = names ∨
            Fs.is_dir fs (base ++ normals names0) = true ∧ checked = removelast names) as Hch
    by (unfold checked; destruct (StaticFiles.fm_is_dir fm); auto).
  clearbody checked. exists names0, names, checked, b, q. cbv zeta. split_and!; try done.
  - intros Hd Hdb. by apply (links_disabled fs base b checked); [|done|apply Hlink].
  - intros Hi. by apply hidden_visible, Hhid.
  - destruct (rs_body (StaticFiles.sf_resp r)); try done.
    + destruct Hbody as (q' & d & a & l & Ho & -> & Hcase). exists q', d, a, l. split_and!; [done..|].
      destruct Hcase as [->|[enc Henc]]; [by left|right].
      destruct (composed_variant _ _ _ _ _ _ _ _ Hfm Henc) as (v & Hv & <-).
      apply variant_beside in Hv as (Hcs & n & ext & ?). rewrite <- Hpath in *. split; [done|]. by exists n, ext.
    + destruct Hbody as [Hd ->]. rewrite Hd in Hchecked. rewrite Hchecked. auto.
Qed.

(** * The index of a directory *)

(** The first index, in order, for which the directory [d] holds a precompressed variant (when
    they are enabled) or the file itself. *)
Fixpoint first_index `{HttpLib} (fs : Fs.t) (static : bool) (headers : HeaderMap) (d : Path.t)
    (indexes : list string)
    : option (string * (CompressionStatic.CompressedFileVariant + Metadata)) :=
  match indexes with
  | [] => None
  | i :: indexes' =>
      let variant := if static
                     then CompressionStatic.precompressed_variant fs (d ++ [Normal i]) headers
                     else None in
      match variant, Fs.metadata fs (d ++ [Normal i]) with
      | Some v, _ => Some (i, inl v)
      | None, Ok m => Some (i, inr m)
      | None, Err _ => first_index fs static headers d indexes'
      end
  end.

Lemma index_loop_first `{HeadersLib, CodecLib} fs d n headers static md indexes :
  Path.proper_name n → Forall Path.proper_name indexes →
  Fs.metadata fs (d ++ [Normal (n +:+ ".html")]) = Err NotFound →
  let dir := d ++ [Normal n] in
  StaticFiles.index_loop fs dir headers static md indexes =
    match first_index fs static headers dir indexes with
    | Some (i, inl v) => inl (StaticFiles.variant_metadata (dir ++ [Normal i]) v)
    | Some (i, inr m) => inr (dir ++ [Normal i], m, true)
    | None => inr (dir, md, false)
    end.
Proof.
  intros Hn Hall Hpage dir. induction indexes as [|i indexes IH]; [done|].
  apply Forall_cons in Hall as [Hi Hall]. cbn [StaticFiles.index_loop first_index].
  rewrite parse_proper, push_Normal by done.
  unfold StaticFiles.variant_of at 1.
  destruct (if static then _ else _); [done|].
  unfold Meta.try_metadata at 1. destruct (Fs.metadata fs (dir ++ [Normal i])) as [m|]; [done|].
  rewrite pop_snoc. unfold dir at 1. unfold Meta.try_metadata_with_html_suffix.
  rewrite file_name_snoc, set_file_name_snoc by (by apply html_proper).
  unfold Meta.try_metadata at 1. rewrite Hpage, set_file_name_snoc by done. by apply IH.
Qed.

(** No variant was found where the loop went on or took the file itself. *)
Lemma first_index_no_variant `{HttpLib} fs static headers d indexes :
  match first_index fs static headers d indexes with
  | Some (i, inr _) => StaticFiles.variant_of fs static (d ++ [Normal i]) headers = None
  | None => ∀ i, i ∈ indexes → StaticFiles.variant_of fs static (d ++ [Normal i]) headers = None
  | _ => True
  end.
Proof.
  induction indexes as [|i indexes IH]; [by intros i ?%elem_of_nil|]. cbn [first_index].
  destruct (if static then _ else _) as [v|] eqn:Ev; [done|].
  destruct (Fs.metadata fs (d ++ [Normal i])) as [m|]; [done|].
  destruct (first_index fs static headers d indexes) as [[j [v|m]]|]; [done|done|].
  intros j [->|Hj]%elem_of_cons; auto.
Qed.

(** C31. Which file stands for a directory that has no page of its name beside it.  The index
    files of the configuration ([index.html] when none is) are checked from left to right: the
    first one that exists in the directory, or of which a precompressed variant that the request
    accepts exists when these are enabled, is the answer.  A variant found so is served in place
    of the index and the answer no longer counts as one of a directory; an index found as a file
    keeps the request a directory request.  When there is none, the answer is the path of the
    last index, with the metadata of the directory.  Left open: a directory [x] with a page
    [x.html] beside it, which the code puts before the second index. *)
Theorem directory_index `{HeadersLib, CodecLib} (fs : Fs.t) (d : Path.t) (n : string)
    (headers : HeaderMap) (static : bool) (indexes : list string) (md : Metadata)
    (Hn : Path.proper_name n) (Hidx : Forall Path.proper_name indexes)
    (Hmd : Fs.metadata fs (d ++ [Normal n]) = Ok md) (Hdir : md_is_dir md = true)
    (Hpage : Fs.metadata fs (d ++ [Normal (n +:+ ".html")]) = Err NotFound) :
  let dir := d ++ [Normal n] in
  let indexes' := match indexes with [] => ["index.html"] | _ => indexes end in
  ∃ fm, StaticFiles.get_composed_file_metadata fs dir headers static indexes = Ok fm ∧
    match first_index fs static headers dir indexes' with
    | Some (i, inl v) =>
        StaticFiles.fm_file_path fm = dir ++ [Normal i] ∧
        StaticFiles.fm_metadata fm = CompressionStatic.cv_metadata v ∧
        StaticFiles.fm_is_dir fm = false ∧
        StaticFiles.precompressed_variant fm =
          Some (CompressionStatic.cv_file_path v, CompressionStatic.cv_encoding v)
    | Some (i, inr m) =>
        StaticFiles.fm_file_path fm = dir ++ [Normal i] ∧ StaticFiles.fm_metadata fm = m ∧
        StaticFiles.fm_is_dir fm = true ∧ StaticFiles.precompressed_variant fm = None
    | None =>
        StaticFiles.fm_file_path fm = dir ++ [Normal (List.last indexes' "")] ∧
        StaticFiles.fm_metadata fm = md ∧ StaticFiles.fm_is_dir fm = true ∧
        StaticFiles.precompressed_variant fm = None
    end.
Proof.
  intros dir indexes'. unfold StaticFiles.get_composed_file_metadata, Meta.try_metadata.
  fold dir in Hmd. rewrite Hmd, Hdir. change StaticFiles.DEFAULT_INDEX_FILES with ["index.html"].
  fold indexes'.
  assert (Forall Path.proper_name indexes') as Hall.
  { unfold indexes'. destruct indexes; [constructor; [by split_and!|done] | done]. }
  unfold dir at 1. rewrite index_loop_first by done. fold dir.
  pose proof (first_index_no_variant fs static headers dir indexes') as Hnone.
  destruct (first_index fs static headers dir indexes') as [[i [v|m]]|]; [by eexists|..].
  - cbn [negb]. rewrite Hnone. by eexists.
  - cbn [negb]. destruct (last indexes') as [i|] eqn:El.
    2: { apply last_None in El. unfold indexes' in El. by destruct indexes. }
    apply last_Some in El as [l El]. rewrite El in Hall, Hnone |- *.
    apply Forall_app in Hall as [_ Hi]. rewrite parse_proper, push_Normal by exact (Forall_inv Hi).
    rewrite Hnone by set_solver. rewrite List.last_last. by eexists.
Qed.

(** The first index is missing, the second is there. *)
Lemma directory_index_witness :
  ∃ fm, StaticFiles.get_composed_file_metadata FsRef.fs (Path.parse "www/docs") (ref_headers [])
          true ["index.html"; "x"] = Ok fm ∧
        StaticFiles.fm_file_path fm = Path.parse "www/docs/x" ∧ StaticFiles.fm_is_dir fm = true.
Proof.
  change (Path.parse "www/docs") with ([Normal "www"] ++ [Normal "docs"]).
  destruct (directory_index FsRef.fs [Normal "www"] "docs" (ref_headers []) true ["index.html"; "x"]
             (mkMetadata 4096 true false false (Some 1000000000%Z) 4096)) as (fm & Hfm & Hrest).
  - by split_and!.
  - constructor; [by split_and!|]. constructor; [by split_and!|done].
  - reflexivity.
  - reflexivity.
  - reflexivity.
  - exists fm. split; [exact Hfm|]. destruct Hrest as (Hp & _ & Hd & _). by split.
Defined.

(** A directory asked without its slash: once the access checks pass, every allowed method
    gets the permanent redirect to the path with a slash, the query kept, whatever else is
    enabled (listing, download, static compression, [OPTIONS]); only a query that is not a
    header value turns it into a 500. *)
Theorem directory_redirect `{HttpLaws} `{!MimeLib, !HeadersLib, !CodecLib} (fs : Fs.t)
    (opts : StaticFiles.HandleOpts) (fm : StaticFiles.FileMetadata)
    (Hdir : StaticFiles.fm_is_dir fm = true)
    (Hacc : StaticFiles.check_access fs opts (Path.pop (StaticFiles.fm_file_path fm)) = Ok ())
    (Hflag : StaticFiles.redirect_trailing_slash opts = true)
    (Hslash : Str.ends_with_char "/" (StaticFiles.uri_path opts) = false) :
  let location := StaticFiles.uri_path opts +:+ "/"
                    +:+ match StaticFiles.uri_query opts with Some q => "?" +:+ q | None => "" end in
  if hv_valid location
  then ∃ r, StaticFiles.handle_file fs opts fm = Ok (StaticFiles.mkSfr r (StaticFiles.fm_file_path fm)) ∧
            rs_status r = 308%Z ∧ rs_get "location" r = Some location ∧ rs_body r = BodyEmpty
  else StaticFiles.handle_file fs opts fm = Err 500%Z.
Proof.
  intros location. unfold StaticFiles.handle_file. rewrite Hdir, Hacc, Hflag, Hslash. simpl.
  unfold StaticFiles.slash_redirect, hv_from_str. fold location.
  destruct (hv_valid location); [|done]. simpl. eexists. split; [done|]. split; [done|].
  split; [|done]. unfold rs_get. simpl. rewrite get_insert. by rewrite decide_True.
Qed.

(** Options for the witnesses: the sample tree, everything but the checks off. *)
Module StaticRef.
Definition opts (method uri_path : string) (headers : list (string * string)) (static : bool)
  : @StaticFiles.HandleOpts ref_http := {|
  StaticFiles.method := method;
  StaticFiles.memory_cache := None;
  StaticFiles.headers := ref_headers headers;
  StaticFiles.base_path := Path.parse "/srv/www";
  StaticFiles.uri_path := uri_path;
  StaticFiles.index_files := ["index.html"];
  StaticFiles.uri_query := None;
  StaticFiles.dir_listing := false;
  StaticFiles.dir_listing_order := 6;
  StaticFiles.dir_listing_format := Html;
  StaticFiles.dir_listing_download := [];
  StaticFiles.redirect_trailing_slash := true;
  StaticFiles.compression_static := static;
  StaticFiles.ignore_hidden_files := true;
  StaticFiles.disable_symlinks := true;
|}.
End StaticRef.

(** A path that tries to climb out: the file is found below the root, and is the one checked. *)
Lemma handle_confined_witness :
  let o := StaticRef.opts "GET" "/..%2f../a.txt" [] false in
  ∃ r p, StaticFiles.handle FsRef.fs ∅ o = Ok r ∧
    StaticFiles.sf_file_path r = Path.parse "/srv/www" ++ normals ["a.txt"] ∧
    Fs.canonicalize FsRef.fs (Path.parse "/srv/www/a.txt") = Ok p ∧
    Path.parse "/srv/www" `prefix_of` p.
Proof.
  intros o. destruct (StaticFiles.handle FsRef.fs ∅ o) as [r|e] eqn:E; [|discriminate E].
  destruct (handle_confined FsRef.fs ∅ o r)
    as (requested & names & checked & b & p & Hr & Hp & _ & Hnames & Hch & Hb & Hc & Hpre & _).
  - intros n Hn. by apply (parse_Normal "/srv/www").
  - constructor; [by split_and!|done].
  - reflexivity.
  - exact E.
  - assert (requested = ["a.txt"]) as ->.
    { injection Hr as Hr. destruct requested as [|n1 [|n2 l]]; try discriminate Hr.
      by injection Hr as <-. }
    assert (Fs.is_dir FsRef.fs (Path.parse "/srv/www" ++ normals ["a.txt"]) = false) as Hd
      by reflexivity.
    change (StaticFiles.base_path o) with (Path.parse "/srv/www") in *.
    rewrite Hd in Hnames, Hch. destruct Hch as [->|[[=] _]].
    destruct Hnames as [->|(d & n & Hn & ->)].
    + exists r, p. split; [done|]. split; [exact Hp|]. split; [exact Hc|].
      assert (Fs.canonicalize FsRef.fs (Path.parse "/srv/www") = Ok (Path.parse "/srv/www")) as Hb'
        by reflexivity.
      assert (Path.parse "/srv/www" = Fs.absolute b) as -> by congruence. exact Hpre.
    + destruct d as [|? [|? ?]]; [|discriminate Hn..]. injection Hn as <-. discriminate Hc.
Defined.

Lemma directory_redirect_witness :
  let o := StaticRef.opts "GET" "/docs" [] false in
  let fm := StaticFiles.mkFileMetadata (Path.parse "/srv/www/docs/index.html")
              (mkMetadata 4096 true false false None 4096) true None in
  ∃ r, StaticFiles.handle_file FsRef.fs o fm =
         Ok (StaticFiles.mkSfr r (Path.parse "/srv/www/docs/index.html")) ∧
       rs_status r = 308%Z ∧ rs_get "location" r = Some "/docs/".
Proof.
  intros o fm.
  pose proof (directory_redirect FsRef.fs o fm eq_refl eq_refl eq_refl eq_refl) as H.
  destruct H as (r & Hr & Hs & Hl & _). exists r. split; [exact Hr|]. split; [exact Hs | exact Hl].
Defined.

(** * Behaviours worth knowing *)

Module StaticExamples.
(** A root whose [index.html] is a link out of it, next to a file with a larger variant. *)
Definition fs : Fs.t := Fs.mkFs
  (list_to_map
     [(["srv"], NDir ["www"; "secret"] None true);
      (["srv"; "secret"], NFile "top secret" None true);
      (["srv"; "www"], NDir ["index.html"; "a.txt"; "a.txt.gz"] None true);
      (["srv"; "www"; "index.html"], NLink "/srv/secret" None);
      (["srv"; "www"; "a.txt"], NFile "hello" None true);
      (["srv"; "www"; "a.txt.gz"], NFile "GZIPPED-HELLO" None true)])
  [] 4096.
Definition outcome (r : result Z StaticFiles.StaticFileResponse) : result Z (Z * Body) :=
  Res.map (λ r, (rs_status (StaticFiles.sf_resp r), rs_body (StaticFiles.sf_resp r))) r.
End StaticExamples.

(** For a directory request only the directory is checked: with links disabled, an index file
    that is a link out of the root is served; asked by its own name it is refused. *)
Example index_link_is_followed :
  StaticExamples.outcome (StaticFiles.handle StaticExamples.fs ∅ (StaticRef.opts "GET" "/" [] false))
    = Ok (200%Z, BodyFile "top secret" 10) ∧
  StaticExamples.outcome
    (StaticFiles.handle StaticExamples.fs ∅ (StaticRef.opts "GET" "/index.html" [] false))
    = Err 404%Z.
Proof. split; reflexivity. Qed.

(** The access checks are made for the file, not for the variant sent in its place: with links
    disabled, a variant that is a link out of the root is followed. *)
Example variant_link_is_followed :
  let fs := Fs.mkFs (<[["srv"; "www"; "a.txt.gz"] := NLink "/srv/secret" None]>
                       (Fs.nodes StaticExamples.fs)) [] 4096 in
  StaticExamples.outcome
    (StaticFiles.handle fs ∅ (StaticRef.opts "GET" "/a.txt" [("accept-encoding", "gzip")] true))
    = Ok (200%Z, BodyFile "top s" 5) ∧
  StaticExamples.outcome (StaticFiles.handle fs ∅ (StaticRef.opts "GET" "/a.txt.gz" [] true))
    = Err 404%Z.
Proof. split; reflexivity. Qed.

(** The page named like a directory goes before its second index. *)
Example page_before_second_index :
  let fs := Fs.mkFs (<[["srv"; "www"; "docs.html"] := NFile "page" (Some 1000000000%Z) true]>
                       (Fs.nodes FsRef.fs)) [] 4096 in
  StaticFiles.fm_file_path <$>
    Res.ok (StaticFiles.get_composed_file_metadata fs (Path.parse "/srv/www/docs") (ref_headers [])
              false ["index.html"; "x"])
  = Some (Path.parse "/srv/www/docs.html").
Proof. reflexivity. Qed.

(** A precompressed variant of an existing file is sent with the length of the original: here
    5 of its 13 bytes. *)
Example precompressed_variant_truncated :
  StaticExamples.outcome
    (StaticFiles.handle StaticExamples.fs ∅
       (StaticRef.opts "GET" "/a.txt" [("accept-encoding", "gzip")] true))
    = Ok (200%Z, BodyFile "GZIPP" 5).
Proof. reflexivity. Qed.
