(* ===== verification/Cors.v ===== *)
(** Cross-origin requests: [cors.rs].

    A [HashSet] is a finite set; the order in which it iterates is the parameter [order].  A
    panic of the configuration step is an [Err]. *)
From Stdlib Require Import ZArith Lia Ascii String.
From stdpp Require Import base list strings gmap.
From coqutil Require Import Datatypes.RecordSetters.
Import DoubleBraceUpdate.
From S2P Require Import Prelude Http Libs RefLibs Path Fs Opts Pages.
Local Open Scope string_scope.
Local Open Scope list_scope.
Local Open Scope nat_scope.

Inductive Validated := Preflight (origin : string) | Simple (origin : string) | NotCors.
Inductive Forbidden := FOrigin | FMethod | FHeader.

Module CorsConfig.
Section Config.
Context `{HeadersLib}.
Context (order : gset string → list string).

(** [Cors::new]. *)
Definition empty : Cors := mkCors ∅ ∅ None ∅ None.

(** [collect] of fallible conversions whose failure panics. *)
Definition try_all {A} (f : string → option A) (panic : string) (l : list string)
    : result error (list A) := Res.mapM (λ s, Res.of_option [panic] (f s)) l.

(** [allow_methods], [allow_any_origin], [allow_headers], [expose_headers]. *)
Definition allow_methods (methods : list string) (c : Cors) : result error Cors :=
  let? ms := try_all (λ m, if method_valid m then Some m else None) "cors: illegal method" methods in
  Ok (mkCors (allowed_headers c) (exposed_headers c) (max_age c)
        (allowed_methods c ∪ list_to_set ms) (origins c)).
Definition allow_any_origin (c : Cors) : Cors :=
  mkCors (allowed_headers c) (exposed_headers c) (max_age c) (allowed_methods c) None.
Definition allow_headers (headers : list string) (c : Cors) : result error Cors :=
  let? hs := try_all hname_from_bytes "cors: illegal Header" headers in
  Ok (mkCors (allowed_headers c ∪ list_to_set hs) (exposed_headers c) (max_age c)
        (allowed_methods c) (origins c)).
Definition expose_headers (headers : list string) (c : Cors) : result error Cors :=
  let? hs := try_all hname_from_bytes "cors: illegal Header" headers in
  Ok (mkCors (allowed_headers c) (exposed_headers c ∪ list_to_set hs) (max_age c)
        (allowed_methods c) (origins c)).

(** [IntoOrigin for &str], the origin printed. *)
Definition into_origin (s : string) : option string :=
  match Str.split_once_str "://" s with
  | Some (scheme, rest) => origin_try_from_parts scheme rest
  | None => None
  end.

(** [allow_origins]. *)
Definition allow_origins (hosts : list string) (c : Cors) : result error Cors :=
  let? os := try_all (λ h, into_origin h ≫= hv_from_str) "cors::into_origin: invalid Origin" hosts in
  Ok (mkCors (allowed_headers c) (exposed_headers c) (max_age c) (allowed_methods c)
        (Some (default ∅ (origins c) ∪ list_to_set os))).

(** [Cors::build]. *)
Definition build (cors : option Cors) : option Configured :=
  match cors with
  | None => None
  | Some cors =>
      Some (mkConfigured cors (enc_comma_list (order (allowed_headers cors)))
              (enc_comma_list (order (exposed_headers cors)))
              (enc_comma_list (order (allowed_methods cors))))
  end.

(** The header lists of [new]. *)
Definition header_list (s : string) : list string :=
  if Str.is_empty s then ["origin"; "content-type"] else map Str.trim (Str.split "," s).

(** [new]; [split] yields at least one host, so the list is never empty. *)
Definition new (origins_str allow_headers_str expose_headers_str : string)
    : result error (option Configured) :=
  if Str.is_empty origins_str then Ok (build None)
  else
    let allow_headers_vec := header_list allow_headers_str in
    let expose_headers_vec := header_list expose_headers_str in
    let finish c :=
      let? c := allow_headers allow_headers_vec c in
      let? c := expose_headers expose_headers_vec c in
      let? c := allow_methods ["GET"; "HEAD"; "OPTIONS"] c in
      Ok (Some c) in
    let? cors_res :=
      if String.eqb origins_str "*" then finish (allow_any_origin empty)
      else
        let hosts := map Str.trim (Str.split "," origins_str) in
        match hosts with
        | [] => Ok None
        | _ => let? c := allow_origins hosts empty in finish c
        end in
    Ok (build cors_res).

(** [init]. *)
Definition init `{GlobLib, RegexLib} (cors_allow_origins cors_allow_headers
    cors_expose_headers : string) (o : RequestHandlerOpts) : result error RequestHandlerOpts :=
  let? c := new (Str.trim cors_allow_origins) (Str.trim cors_allow_headers)
              (Str.trim cors_expose_headers) in
  Ok (o {{ cors := c }}).
End Config.
End CorsConfig.

Module CorsCheck.
Section Check.
Context `{HeadersLib}.

(** [is_method_allowed], [is_header_allowed], [is_origin_allowed]. *)
Definition is_method_allowed (c : Configured) (header : string) : bool :=
  method_valid header && bool_decide (header ∈ allowed_methods (cors_ c)).
Definition is_header_allowed (c : Configured) (header : string) : bool :=
  if Str.is_empty header then false
  else match hname_from_bytes header with
       | Some header => bool_decide (header ∈ allowed_headers (cors_ c))
       | None => false
       end.
Definition is_origin_allowed (c : Configured) (origin : string) : bool :=
  if Str.is_empty origin then false
  else match origins (cors_ c) with
       | Some allowed => bool_decide (origin ∈ allowed)
       | None => true
       end.

(** [append_preflight_headers]. *)
Definition append_preflight_headers (c : Configured) (headers : HeaderMap) : HeaderMap :=
  let headers := hm_insert "access-control-allow-headers" (cf_allowed_headers c) headers in
  let headers := hm_insert "access-control-expose-headers" (cf_exposed_headers c) headers in
  let headers := hm_insert "access-control-allow-methods" (cf_methods_header c) headers in
  match max_age (cors_ c) with
  | Some max_age => hm_insert "access-control-max-age" (Str.of_uint max_age) headers
  | None => headers
  end.

(** The loop over the requested headers. *)
Fixpoint check_headers (c : Configured) (l : list string) : result Forbidden unit :=
  match l with
  | [] => Ok ()
  | header :: l' =>
      if negb (is_header_allowed c (Str.trim header)) then Err FHeader else check_headers c l'
  end.

(** [check_request]. *)
Definition check_request (c : Configured) (method : string) (headers : HeaderMap)
    : result Forbidden (HeaderMap * Validated) :=
  match hm_get "origin" headers with
  | Some origin =>
      let granted v :=
        Ok (hm_insert "access-control-allow-origin" origin
              (append_preflight_headers c hm_empty), v) in
      if is_options method then
        if negb (is_origin_allowed c origin) then Err FOrigin
        else
          match hm_get "access-control-request-method" headers with
          | None => Err FMethod
          | Some req_method =>
              if negb (is_method_allowed c req_method) then Err FMethod
              else
                let? _ :=
                  match hm_get "access-control-request-headers" headers with
                  | None => Ok ()
                  | Some req_headers =>
                      match hv_to_str req_headers with
                      | None => Err FHeader
                      | Some headers => check_headers c (Str.split "," headers)
                      end
                  end in
                granted (Preflight origin)
          end
      else if is_origin_allowed c origin then granted (Simple origin)
      else Err FOrigin
  | None => Ok (hm_empty, NotCors)
  end.

Section Process.
Context `{CodecLib, GlobLib, RegexLib}.

(** [pre_process]. *)
Definition pre_process (fs : Fs.t) (o : RequestHandlerOpts) (req : Request)
    : option (result error Response) :=
  match cors o with
  | None => None
  | Some c =>
      match check_request c (rq_method req) (rq_headers req) with
      | Ok _ => None
      | Err _ => Some (ErrorPage.error_response fs (rq_uri req) (rq_method req) 403
                         (page404 o) (page50x o))
      end
  end.

(** [post_process]. *)
Definition post_process (o : RequestHandlerOpts) (req : Request) (resp : Response)
    : result error Response :=
  match cors o with
  | None => Ok resp
  | Some c =>
      match check_request c (rq_method req) (rq_headers req) with
      | Err _ => Ok resp
      | Ok (headers, _) =>
          if hm_is_empty headers then Ok resp
          else
            let h := hm_insert_all (hm_iter headers) (rs_headers resp) in
            let h := hm_insert "vary" "origin" h in
            Ok (set_headers (hm_remove "allow" h) resp)
      end
  end.
End Process.
End Check.
End CorsCheck.

(** * What the configuration allows *)

Section CorsLemmas.
Context `{HeadersLib}.
Context (order : gset string → list string).

Lemma try_all_elem {A} (f : string → option A) p l l' :
  CorsConfig.try_all f p l = Ok l' → ∀ a, a ∈ l' ↔ ∃ s, s ∈ l ∧ f s = Some a.
Proof.
  unfold CorsConfig.try_all. rewrite mapM_Ok. intros Hall a.
  induction Hall as [|s b l l' Hs Hall IH].
  - split; [by intros ?%elem_of_nil|]. intros (s & Hs & _). by apply elem_of_nil in Hs.
  - apply of_option_Ok in Hs. rewrite elem_of_cons, IH. split.
    + intros [->|(s' & ? & ?)]; [exists s; split; [by left|done]|].
      exists s'. split; [by right|done].
    + intros (s' & [->|Hs']%elem_of_cons & Hf); [left; congruence|]. right. by exists s'.
Qed.

(** The three builders at the end of [new], as one step. *)
Lemma finish_spec ah eh c c' :
  (let? c := CorsConfig.allow_headers ah c in
   let? c := CorsConfig.expose_headers eh c in
   let? c := CorsConfig.allow_methods ["GET"; "HEAD"; "OPTIONS"] c in Ok (Some c)) = Ok (Some c') →
  origins c' = origins c ∧ max_age c' = max_age c ∧
  (∀ h, h ∈ allowed_headers c' ↔
     h ∈ allowed_headers c ∨ ∃ s, s ∈ ah ∧ hname_from_bytes s = Some h) ∧
  (∀ m, m ∈ allowed_methods c' ↔
     m ∈ allowed_methods c ∨ m ∈ ["GET"; "HEAD"; "OPTIONS"] ∧ method_valid m = true).
Proof.
  intros Hf.
  apply bind_Ok in Hf as (c1 & Hc1 & Hf). apply bind_Ok in Hf as (c2 & Hc2 & Hf).
  apply bind_Ok in Hf as (c3 & Hc3 & [= ->]).
  apply bind_Ok in Hc1 as (hs & Hhs & [= <-]). apply bind_Ok in Hc2 as (es & _ & [= <-]).
  apply bind_Ok in Hc3 as (ms & Hms & [= <-]). simpl.
  split; [done|]. split; [done|]. split.
  - intros h. rewrite elem_of_union, elem_of_list_to_set, (try_all_elem _ _ _ _ Hhs). done.
  - intros m. rewrite elem_of_union, elem_of_list_to_set, (try_all_elem _ _ _ _ Hms). split.
    + intros [?|(s & Hs & Hm)]; [by left|]. right. destruct (method_valid s) eqn:E; by simplify_eq.
    + intros [?|[Hs Hm]]; [by left|]. right. exists m. by rewrite Hm.
Qed.
End CorsLemmas.

(** What a CORS configuration allows: with the single star every non-empty origin, otherwise
    exactly the origins the configured hosts print to; as preflight methods exactly [GET],
    [HEAD] and [OPTIONS]; as preflight headers exactly the configured names (the two default
    ones when none is given), compared without case. *)
Theorem cors_policy `{HeadersLib} (order : gset string → list string)
    (origins_str allow_headers_str expose_headers_str : string) (c : Configured)
    (Hnew : CorsConfig.new order origins_str allow_headers_str expose_headers_str = Ok (Some c)) :
  (∀ o, CorsCheck.is_origin_allowed c o = true ↔
     o ≠ "" ∧ (origins_str = "*" ∨
               ∃ h, h ∈ map Str.trim (Str.split "," origins_str) ∧
                    CorsConfig.into_origin h = Some o ∧ hv_valid o = true)) ∧
  (∀ m, CorsCheck.is_method_allowed c m = true ↔
     method_valid m = true ∧ m ∈ ["GET"; "HEAD"; "OPTIONS"]) ∧
  (∀ h, CorsCheck.is_header_allowed c h = true ↔
     h ≠ "" ∧ ∃ s n, s ∈ CorsConfig.header_list allow_headers_str ∧
       hname_from_bytes s = Some n ∧ hname_from_bytes h = Some n).
Proof.
  unfold CorsConfig.new in Hnew. destruct (Str.is_empty origins_str); [done|].
  apply bind_Ok in Hnew as (cors_res & Hres & [= Hbuild]).
  assert (∃ c0, cors_res = Some c0 ∧ cors_ c = c0) as (c0 & -> & Hc0).
  { destruct cors_res as [c0|]; [|done]. exists c0. split; [done|]. by injection Hbuild as <-. }
  assert (∃ c1, origins c0 = origins c1 ∧ allowed_headers c1 = ∅ ∧ allowed_methods c1 = ∅ ∧
    (∀ h, h ∈ allowed_headers c0 ↔ h ∈ allowed_headers c1 ∨ ∃ s, s ∈ CorsConfig.header_list allow_headers_str ∧
            hname_from_bytes s = Some h) ∧
    (∀ m, m ∈ allowed_methods c0 ↔
       m ∈ allowed_methods c1 ∨ m ∈ ["GET"; "HEAD"; "OPTIONS"] ∧ method_valid m = true) ∧
    match origins c1 with
    | None => origins_str = "*"
    | Some os => origins_str ≠ "*" ∧
        ∀ o, o ∈ os ↔ ∃ h, h ∈ map Str.trim (Str.split "," origins_str) ∧
                           CorsConfig.into_origin h = Some o ∧ hv_valid o = true
    end) as (c1 & Ho & Hah & Ham & Hh & Hm & Hos).
  { destruct (String.eqb_spec origins_str "*") as [->|Hne].
    - apply finish_spec in Hres as (Ho & _ & Hh & Hm). eexists. by split_and!.
    - destruct (map Str.trim (Str.split "," origins_str)) as [|h0 hosts] eqn:Eh; [done|].
      rewrite <- Eh in *. apply bind_Ok in Hres as (c1 & Hc1 & Hres).
      apply finish_spec in Hres as (Ho & _ & Hh & Hm). exists c1.
      apply bind_Ok in Hc1 as (os & Hos & [= <-]). simpl in *.
      split_and!; [done..|]. intros o.
      rewrite elem_of_union, elem_of_list_to_set, (try_all_elem _ _ _ _ Hos).
      split.
      + intros [?|(h & Hh' & Hf)]; [set_solver|]. exists h. split; [congruence|].
        apply bind_Some in Hf as (o' & ? & Hf). unfold hv_from_str in Hf.
        destruct (hv_valid o') eqn:Ev; by simplify_eq.
      + intros (h & Hh' & Hf & Hv). right. exists h. split; [congruence|].
        rewrite Hf. simpl. unfold hv_from_str. by rewrite Hv. }
  unfold CorsCheck.is_origin_allowed, CorsCheck.is_method_allowed, CorsCheck.is_header_allowed.
  rewrite Hc0. split_and!.
  - intros o. rewrite Ho. destruct o as [|a o]; [by split; [|intros [? _]]|]. simpl.
    destruct (origins c1) as [os|].
    + destruct Hos as [Hne Hos]. rewrite bool_decide_eq_true, Hos. naive_solver.
    + split; [|done]. intros _. split; [done|]. by left.
  - intros m. rewrite andb_true_iff, bool_decide_eq_true, Hm, Ham. set_solver.
  - intros h. destruct h as [|a h]; [by split; [|intros [? _]]|].
    cbn [Str.is_empty]. destruct (hname_from_bytes (String a h)) as [n|].
    + rewrite bool_decide_eq_true, Hh, Hah. set_solver.
    + split; [done|]. intros (_ & s & n & _ & _ & ?). done.
Qed.

Lemma cors_policy_witness :
  ∃ c, CorsConfig.new elements "https://a.org, https://b.org" "X-Key" "" = Ok (Some c) ∧
    CorsCheck.is_origin_allowed c "https://b.org" = true ∧
    CorsCheck.is_header_allowed c "x-key" = true.
Proof.
  destruct (CorsConfig.new elements "https://a.org, https://b.org" "X-Key" "") as [[c|]|] eqn:E;
    [|discriminate E..].
  exists c. destruct (cors_policy elements _ _ _ c E) as (Ho & _ & Hh).
  split; [reflexivity|]. split.
  - apply Ho. split; [done|]. right. exists "https://b.org".
    split; [right; left|]. split; reflexivity.
  - apply Hh. split; [done|]. exists "X-Key", "x-key". split; [left|]. split; reflexivity.
Defined.

(** * What a request gets *)

(** The requested headers of a preflight are readable and all allowed. *)
Definition headers_granted `{HttpLib} (c : Configured) (headers : HeaderMap) : Prop :=
  match hm_get "access-control-request-headers" headers with
  | None => True
  | Some v => hv_visible v = true ∧
      ∀ h, h ∈ Str.split "," v → CorsCheck.is_header_allowed c (Str.trim h) = true
  end.
Definition method_granted `{HttpLib} (c : Configured) (headers : HeaderMap) : Prop :=
  ∃ m, hm_get "access-control-request-method" headers = Some m ∧
       CorsCheck.is_method_allowed c m = true.

Lemma check_headers_spec `{HttpLib} c l :
  match CorsCheck.check_headers c l with
  | Ok _ => ∀ h, h ∈ l → CorsCheck.is_header_allowed c (Str.trim h) = true
  | Err e => e = FHeader ∧ ∃ h, h ∈ l ∧ CorsCheck.is_header_allowed c (Str.trim h) = false
  end.
Proof.
  induction l as [|h l IH]; simpl; [by intros h ?%elem_of_nil|].
  destruct (CorsCheck.is_header_allowed c (Str.trim h)) eqn:E; simpl.
  - destruct (CorsCheck.check_headers c l).
    + intros h' [->|Hh']%elem_of_cons; auto.
    + destruct IH as (-> & h' & ? & ?). split; [done|]. exists h'. split; [by right|done].
  - split; [done|]. exists h. split; [by left|done].
Qed.

(** C32. The CORS decision: without an [Origin] header the request is not a CORS request; with
    one, a non-[OPTIONS] request is granted exactly when the origin is allowed, and an [OPTIONS]
    request exactly when the origin, the announced method (which must be present) and every
    announced header are allowed; a refusal names the first of the three that failed. *)
Theorem cors_decision `{HttpLib} (c : Configured) (method : string) (headers : HeaderMap) :
  match CorsCheck.check_request c method headers with
  | Ok (_, NotCors) => hm_get "origin" headers = None
  | Ok (_, Simple o) =>
      hm_get "origin" headers = Some o ∧ method ≠ "OPTIONS" ∧
      CorsCheck.is_origin_allowed c o = true
  | Ok (_, Preflight o) =>
      hm_get "origin" headers = Some o ∧ method = "OPTIONS" ∧
      CorsCheck.is_origin_allowed c o = true ∧ method_granted c headers ∧ headers_granted c headers
  | Err FOrigin =>
      ∃ o, hm_get "origin" headers = Some o ∧ CorsCheck.is_origin_allowed c o = false
  | Err FMethod =>
      method = "OPTIONS" ∧ ¬ method_granted c headers ∧
      ∃ o, hm_get "origin" headers = Some o ∧ CorsCheck.is_origin_allowed c o = true
  | Err FHeader =>
      method = "OPTIONS" ∧ method_granted c headers ∧ ¬ headers_granted c headers ∧
      ∃ o, hm_get "origin" headers = Some o ∧ CorsCheck.is_origin_allowed c o = true
  end.
Proof.
  unfold CorsCheck.check_request, method_granted, headers_granted.
  destruct (hm_get "origin" headers) as [o|]; [|done].
  unfold is_options. destruct (String.eqb_spec method "OPTIONS") as [->|Hm].
  2: { destruct (CorsCheck.is_origin_allowed c o) eqn:Eo; [done|]. by exists o. }
  destruct (CorsCheck.is_origin_allowed c o) eqn:Eo; simpl; [|by exists o].
  destruct (hm_get "access-control-request-method" headers) as [m|].
  2: { split; [done|]. split; [|by exists o]. by intros (? & ? & _). }
  destruct (CorsCheck.is_method_allowed c m) eqn:Em; simpl.
  2: { split; [done|]. split; [|by exists o]. intros (m' & [= <-] & ?). congruence. }
  destruct (hm_get "access-control-request-headers" headers) as [v|]; simpl.
  2: { split_and!; [done..| |done]. by exists m. }
  unfold hv_to_str. destruct (hv_visible v); simpl.
  2: { split; [done|]. split; [by exists m|]. split; [by intros [? _]|]. by exists o. }
  pose proof (check_headers_spec c (Str.split "," v)) as Hs.
  destruct (CorsCheck.check_headers c (Str.split "," v)) as [u|e]; simpl.
  - split_and!; [done..|by exists m|done|done].
  - destruct Hs as (-> & h & Hh & Hf). split; [done|]. split; [by exists m|]. split; [|by exists o].
    intros [_ Hall]. rewrite (Hall h Hh) in Hf. done.
Qed.

Lemma grant_headers `{HttpLaws} c origin n :
  hm_get_all n (hm_insert "access-control-allow-origin" origin
                  (CorsCheck.append_preflight_headers c hm_empty)) =
  if decide (n = "access-control-allow-origin") then [origin]
  else if decide (n = "access-control-allow-methods") then [cf_methods_header c]
  else if decide (n = "access-control-expose-headers") then [cf_exposed_headers c]
  else if decide (n = "access-control-allow-headers") then [cf_allowed_headers c]
  else if decide (n = "access-control-max-age")
       then match max_age (cors_ c) with Some a => [Str.of_uint a] | None => [] end
  else [].
Proof.
  unfold CorsCheck.append_preflight_headers.
  destruct (max_age (cors_ c)); rewrite ?get_all_insert, get_all_empty;
    repeat case_decide; simplify_eq; done.
Qed.

(** What CORS adds to an answer: a granted request gets exactly its own origin back, the
    allowed methods and headers, [Vary: origin] in place of any other [Vary], and no [Allow];
    every other header, the status and the body are those of the handler.  A request that is
    not CORS, or is refused, is answered unchanged. *)
Theorem cors_response `{HttpLaws, GlobLib, RegexLib} (o : RequestHandlerOpts) (c : Configured)
    (req : Request) (resp : Response) (Hcors : cors o = Some c) :
  match CorsCheck.check_request c (rq_method req) (rq_headers req) with
  | Ok (_, Simple origin) | Ok (_, Preflight origin) =>
      ∃ r, CorsCheck.post_process o req resp = Ok r ∧
        rs_status r = rs_status resp ∧ rs_body r = rs_body resp ∧
        rs_get "access-control-allow-origin" r = Some origin ∧
        rs_get "access-control-allow-methods" r = Some (cf_methods_header c) ∧
        rs_get "access-control-allow-headers" r = Some (cf_allowed_headers c) ∧
        rs_get "vary" r = Some "origin" ∧ rs_get "allow" r = None ∧
        (∀ n, n ∉ ["access-control-allow-origin"; "access-control-allow-methods";
                   "access-control-allow-headers"; "access-control-expose-headers";
                   "access-control-max-age"; "vary"; "allow"] →
              hm_get_all n (rs_headers r) = hm_get_all n (rs_headers resp))
  | _ => CorsCheck.post_process o req resp = Ok resp
  end.
Proof.
  unfold CorsCheck.post_process. rewrite Hcors.
  destruct (CorsCheck.check_request c (rq_method req) (rq_headers req)) as [[h v]|e] eqn:E; [|done].
  assert (match v with
          | NotCors => h = hm_empty
          | Simple origin | Preflight origin =>
              h = hm_insert "access-control-allow-origin" origin
                    (CorsCheck.append_preflight_headers c hm_empty)
          end) as Hh.
  { unfold CorsCheck.check_request in E. repeat case_match; inv_res; done. }
  assert (∀ origin, h = hm_insert "access-control-allow-origin" origin
                          (CorsCheck.append_preflight_headers c hm_empty) →
    ∃ r, (if hm_is_empty h then Ok resp
          else Ok (set_headers (hm_remove "allow" (hm_insert "vary" "origin"
                     (hm_insert_all (hm_iter h) (rs_headers resp)))) resp)) =@{result error _} Ok r ∧
        rs_status r = rs_status resp ∧ rs_body r = rs_body resp ∧
        rs_get "access-control-allow-origin" r = Some origin ∧
        rs_get "access-control-allow-methods" r = Some (cf_methods_header c) ∧
        rs_get "access-control-allow-headers" r = Some (cf_allowed_headers c) ∧
        rs_get "vary" r = Some "origin" ∧ rs_get "allow" r = None ∧
        (∀ n, n ∉ ["access-control-allow-origin"; "access-control-allow-methods";
                   "access-control-allow-headers"; "access-control-expose-headers";
                   "access-control-max-age"; "vary"; "allow"] →
              hm_get_all n (rs_headers r) = hm_get_all n (rs_headers resp))) as Hgrant.
  { intros origin ->. destruct (hm_is_empty _) eqn:Ee.
    { rewrite is_empty_get_all in Ee. specialize (Ee "access-control-allow-origin").
      rewrite get_all_insert_eq in Ee. done. }
    eexists. split; [done|]. split; [done|]. split; [done|].
    unfold rs_get, hm_get. cbn [rs_headers set_headers].
    split_and!; rewrite ?get_all_remove, ?get_all_insert; try done;
      rewrite ?decide_False by done; rewrite ?get_all_insert_all, ?iter_get_all, ?grant_headers;
      try done.
    intros n Hn. rewrite !not_elem_of_cons in Hn. destruct_and! Hn.
    rewrite get_all_remove, decide_False, get_all_insert, decide_False by done.
    rewrite get_all_insert_all, iter_get_all, grant_headers. by rewrite !decide_False by done. }
  destruct v; [by apply Hgrant..|]. subst h.
  assert (hm_is_empty hm_empty = true) as -> by (apply is_empty_get_all; intros; apply get_all_empty).
  done.
Qed.

Module CorsRef.
Definition conf : Configured :=
  mkConfigured (mkCors {["x-key"]} ∅ None {["GET"]} (Some {["https://a.org"]})) "x-key" "" "GET".
Definition opts : @RequestHandlerOpts ref_http ref_glob ref_regex :=
  RequestHandlerOpts_default {{ cors := Some conf }}.
Definition req : @Request ref_http :=
  mkRequest "GET" (RefUri.mk None None (Some "/a")) (ref_headers [("origin", "https://a.org")])
    BodyEmpty.
End CorsRef.

Lemma cors_response_witness :
  ∃ r, CorsCheck.post_process CorsRef.opts CorsRef.req
         (set_header "vary" "accept-encoding" (resp_new BodyEmpty)) = Ok r ∧
       rs_get "vary" r = Some "origin".
Proof.
  pose proof (cors_response CorsRef.opts CorsRef.conf CorsRef.req
    (set_header "vary" "accept-encoding" (resp_new BodyEmpty)) eq_refl) as H.
  destruct H as (r & Hr & _ & _ & _ & _ & _ & Hv & _). exists r. split; [exact Hr | exact Hv].
Defined.
