(* ===== verification/Routing.v ===== *)
(** Rules on request addresses: [redirects.rs], [rewrites.rs], [virtual_hosts.rs] and
    [https_redirect.rs]. *)
From Stdlib Require Import ZArith Lia Ascii String.
From stdpp Require Import base list strings gmap.
From coqutil Require Import Datatypes.RecordSetters.
Import DoubleBraceUpdate.
From S2P Require Import Prelude Http Libs RefLibs Path Fs Opts Pages.
Local Open Scope string_scope.
Local Open Scope list_scope.
Local Open Scope nat_scope.

Module Redirects.
Section Redirects.
Context `{HeadersLib, CodecLib, GlobLib, RegexLib}.

(** [replace_placeholders]: [$i] stands for the [i]-th group, an absent group for nothing. *)
Definition replace_placeholders (orig_uri : string) (regex : Regex) (dest_uri : string)
    : result error string :=
  match regex_captures regex orig_uri with
  | None => Err ["regex didn't match, extracting captures failed"]
  | Some regex_caps =>
      let caps := map (default "") regex_caps in
      let patterns := map (λ i, "$" +:+ Str.of_uint (Z.of_nat i)) (seq 0 (length regex_caps)) in
      if negb (ac_new patterns) then Err ["failed creating Aho-Corasick matcher"]
      else match ac_replace_all patterns caps dest_uri with
           | Some dest => Ok dest
           | None => Err ["failed replacing captures"]
           end
  end.

(** [handle_error]: the error itself is only logged. *)
Definition handle_error (fs : Fs.t) (o : RequestHandlerOpts) (req : Request)
    : option (result error Response) :=
  Some (ErrorPage.error_response fs (rq_uri req) (rq_method req) 500 (page404 o) (page50x o)).

(** The loop of [get_redirection]. *)
Fixpoint first_redirect (uri_host uri_path : string) (l : list Redirects) : option Redirects :=
  match l with
  | [] => None
  | redirect_entry :: l' =>
      if match rd_host redirect_entry with
         | Some host => negb (String.eqb host uri_host)
         | None => false
         end
      then first_redirect uri_host uri_path l'
      else if regex_is_match (rd_source redirect_entry) uri_path then Some redirect_entry
      else first_redirect uri_host uri_path l'
  end.

(** [get_redirection]. *)
Definition get_redirection (uri_host uri_path : string) (redirects_opts : option (list Redirects))
    : option Redirects :=
  match redirects_opts with
  | Some redirects_vec => first_redirect uri_host uri_path redirects_vec
  | None => None
  end.

(** The host redirects are matched against: the URI's, or the [Host] header, then the port of
    the URI. *)
Definition request_host (req : Request) : string :=
  let host := default "" (rq_get "host" req ≫= hv_to_str) in
  let uri_host := default host (uri_host (rq_uri req)) in
  match uri_port_u16 (rq_uri req) with
  | Some uri_port => uri_host +:+ ":" +:+ Str.of_uint uri_port
  | None => uri_host
  end.

(** [pre_process]. *)
Definition pre_process (fs : Fs.t) (o : RequestHandlerOpts) (req : Request)
    : option (result error Response) :=
  match advanced_opts o ≫= redirects with
  | None => None
  | Some redirects =>
      match get_redirection (request_host req) (rq_path req) (Some redirects) with
      | None => None
      | Some matched =>
          match replace_placeholders (rq_path req) (rd_source matched) (rd_destination matched) with
          | Err _ => handle_error fs o req
          | Ok dest =>
              match hv_from_str dest with
              | Some loc =>
                  Some (Ok (set_status (rd_kind matched)
                              (set_header "location" loc (resp_new BodyEmpty))))
              | None => handle_error fs o req
              end
          end
      end
  end.
End Redirects.
End Redirects.

Module Rewrites.
Section Rewrites.
Context `{HeadersLib, CodecLib, GlobLib, RegexLib}.

(** [rewrite_uri_path]. *)
Definition rewrite_uri_path (uri_path : string) (rewrites_opts : option (list Rewrites))
    : option Rewrites :=
  match rewrites_opts with
  | Some rewrites_vec => List.find (λ e, regex_is_match (rw_source e) uri_path) rewrites_vec
  | None => None
  end.

(** [if part.is_none() { part = orig }]. *)
Definition or_part {A} (part orig : option A) : option A :=
  match part with Some p => Some p | None => orig end.

(** [merge_uris]: the missing parts come from the original URI, the query too. *)
Definition merge_uris (orig_uri : Uri) (new_uri : string) : result error Uri :=
  let? parsed := Res.of_option ["invalid uri"] (uri_parse new_uri) in
  let scheme := or_part (uri_scheme parsed) (uri_scheme orig_uri) in
  let authority := or_part (uri_authority parsed) (uri_authority orig_uri) in
  let path_and_query := or_part (uri_path_and_query parsed) (uri_path_and_query orig_uri) in
  let? path_and_query :=
    match path_and_query with
    | Some pq =>
        match pq_query pq, uri_query orig_uri with
        | None, Some query =>
            let pq := pq +:+ "?" +:+ query in
            if pq_valid pq then Ok (Some pq) else Err ["invalid uri character"]
        | _, _ => Ok (Some pq)
        end
    | None => Ok None
    end in
  Res.of_option ["invalid uri parts"] (uri_from_parts scheme authority path_and_query).

(** The [Host] header after an internal rewrite. *)
Definition adjust_host (req : Request) : Request :=
  match uri_host (rq_uri req) with
  | Some host =>
      let host := match uri_port_u16 (rq_uri req) with
                  | Some port => host +:+ ":" +:+ Str.of_uint port
                  | None => host
                  end in
      match hv_from_str host with
      | Some host => mkRequest (rq_method req) (rq_uri req) (hm_insert "host" host (rq_headers req))
                       (rq_body req)
      | None => req
      end
  | None => req
  end.

(** [pre_process]: the answer, if any, and the request as it is left. *)
Definition pre_process (fs : Fs.t) (o : RequestHandlerOpts) (req : Request)
    : option (result error Response) * Request :=
  match advanced_opts o ≫= rewrites with
  | None => (None, req)
  | Some rewrites =>
      match rewrite_uri_path (rq_path req) (Some rewrites) with
      | None => (None, req)
      | Some matched =>
          match Redirects.replace_placeholders (rq_path req) (rw_source matched)
                  (rw_destination matched) with
          | Err _ => (Redirects.handle_error fs o req, req)
          | Ok dest =>
              match rw_redirect matched with
              | Some redirect_type =>
                  match hv_from_str dest with
                  | None => (Redirects.handle_error fs o req, req)
                  | Some loc =>
                      (Some (Ok (set_status
                                   match redirect_type with Permanent => 301 | Temporary => 302 end
                                   (set_header "location" loc (resp_new BodyEmpty)))), req)
                  end
              | None =>
                  match merge_uris (rq_uri req) dest with
                  | Err _ => (Redirects.handle_error fs o req, req)
                  | Ok uri =>
                      (None, adjust_host (mkRequest (rq_method req) uri (rq_headers req) (rq_body req)))
                  end
              end
          end
      end
  end.
End Rewrites.
End Rewrites.

Module VirtualHost.
Section VirtualHost.
Context `{HttpLib, GlobLib, RegexLib}.

(** The host of the request: of the authority, or of the [Host] header without its port. *)
Definition request_host_str (req : Request) : option string :=
  match uri_authority (rq_uri req) with
  | Some authority => Some (authority_host authority)
  | None =>
      match rq_get "host" req ≫= hv_to_str with
      | None => None
      | Some host_header =>
          Some (default host_header
                  match Str.rsplit_once ":" host_header with
                  | Some (potential_host, potential_port) =>
                      match Str.parse_uint u16_max potential_port with
                      | Some _ => Some potential_host
                      | None => None
                      end
                  | None => None
                  end)
      end
  end.

(** [get_real_root]. *)
Definition get_real_root (req : Request) (vhosts_opts : option (list VirtualHosts))
    : option Path.t :=
  match vhosts_opts with
  | None => None
  | Some [] => None
  | Some vhosts =>
      match request_host_str req with
      | None => None
      | Some host => vh_root <$> List.find (λ v, String.eqb (vh_host v) host) vhosts
      end
  end.
End VirtualHost.
End VirtualHost.

Module HttpsRedirect.
Section HttpsRedirect.
Context `{HeadersLib}.

Record RedirectOpts := mkRedirectOpts {
  https_hostname : string;
  https_port : Z;
  allowed_hosts : list string;
}.

(** [redirect_to_https]; the text is a header value unless the configured host name is not. *)
Definition redirect_to_https (req : Request) (opts : RedirectOpts) : result Z Response :=
  match get_host_hostname (rq_headers req) with
  | Some from_hostname =>
      if negb (existsb (String.eqb from_hostname) (allowed_hosts opts)) then Err 400%Z
      else
        let url := "https://" +:+ https_hostname opts +:+ ":" +:+ Str.of_uint (https_port opts)
                     +:+ uri_display (rq_uri req) in
        Ok (set_header "location" url (set_status 301 (resp_new BodyEmpty)))
  | None => Err 400%Z
  end.
End HttpsRedirect.
End HttpsRedirect.

(** * Redirects *)

Section RoutingLemmas.
Context `{HeadersLib, CodecLib, GlobLib, RegexLib}.

(** A redirect rule applies to a host and a path. *)
Definition redirect_matches (uri_host uri_path : string) (r : Redirects) : Prop :=
  (rd_host r = None ∨ rd_host r = Some uri_host) ∧ regex_is_match (rd_source r) uri_path = true.

Lemma first_redirect_spec h p l :
  match Redirects.first_redirect h p l with
  | Some r => ∃ l1 l2, l = l1 ++ r :: l2 ∧ redirect_matches h p r ∧
                       Forall (λ x, ¬ redirect_matches h p x) l1
  | None => Forall (λ x, ¬ redirect_matches h p x) l
  end.
Proof.
  induction l as [|x l IH]; simpl; [done|].
  assert (∀ P, P → match Redirects.first_redirect h p l with
          | Some r => ∃ l1 l2, l = l1 ++ r :: l2 ∧ redirect_matches h p r ∧
                               Forall (λ x, ¬ redirect_matches h p x) l1
          | None => Forall (λ x, ¬ redirect_matches h p x) l
          end → ¬ redirect_matches h p x →
          match Redirects.first_redirect h p l with
          | Some r => ∃ l1 l2, x :: l = l1 ++ r :: l2 ∧ redirect_matches h p r ∧
                               Forall (λ x, ¬ redirect_matches h p x) l1
          | None => Forall (λ x, ¬ redirect_matches h p x) (x :: l)
          end) as Hskip.
  { intros P _ IH' Hx. destruct (Redirects.first_redirect h p l) as [r|].
    - destruct IH' as (l1 & l2 & -> & ? & ?). exists (x :: l1), l2.
      split; [done|]. split; [done|]. by constructor.
    - by constructor. }
  destruct (rd_host x) as [h'|] eqn:Eh.
  - destruct (String.eqb_spec h' h) as [->|Hne]; simpl.
    + destruct (regex_is_match (rd_source x) p) eqn:Em.
      * exists [], l. split; [done|]. split; [|done]. split; [by right|done].
      * apply (Hskip True); [done..|]. intros [_ ?]. congruence.
    + apply (Hskip True); [done..|]. intros [[?|?] _]; congruence.
  - destruct (regex_is_match (rd_source x) p) eqn:Em.
    + exists [], l. split; [done|]. split; [|done]. split; [by left|done].
    + apply (Hskip True); [done..|]. intros [_ ?]. congruence.
Qed.
End RoutingLemmas.

(** Redirects: the request is answered exactly when some rule matches its host and path, and
    then by the first matching rule of the list: its status and the destination with the
    captures filled in as [Location], or a 500 page when that cannot be built. *)
Theorem redirect_decision `{HttpLaws} `{!MimeLib, !HeadersLib, !CodecLib, !GlobLib, !RegexLib}
    (fs : Fs.t) (o : RequestHandlerOpts) (req : Request) (rules : list Redirects)
    (Hrules : advanced_opts o ≫= redirects = Some rules) :
  let matching := redirect_matches (Redirects.request_host req) (rq_path req) in
  match Redirects.pre_process fs o req with
  | None => Forall (λ r, ¬ matching r) rules
  | Some (Err _) => False
  | Some (Ok resp) =>
      ∃ l1 r l2, rules = l1 ++ r :: l2 ∧ matching r ∧ Forall (λ x, ¬ matching x) l1 ∧
        match Redirects.replace_placeholders (rq_path req) (rd_source r) (rd_destination r) with
        | Ok dest => if hv_valid dest
                     then rs_status resp = rd_kind r ∧ rs_get "location" resp = Some dest ∧
                          rs_body resp = BodyEmpty
                     else rs_status resp = 500%Z
        | Err _ => rs_status resp = 500%Z
        end
  end.
Proof.
  intros matching. unfold Redirects.pre_process, Redirects.handle_error. rewrite Hrules. simpl.
  pose proof (first_redirect_spec (Redirects.request_host req) (rq_path req) rules) as Hf.
  destruct (Redirects.first_redirect _ _ rules) as [r|]; [|done].
  destruct Hf as (l1 & l2 & -> & Hm & Hn).
  destruct (error_response_shape fs (rq_uri req) (rq_method req) 500 (page404 o) (page50x o))
    as (er & _ & Her & Hst & _).
  destruct (Redirects.replace_placeholders _ _ _) as [dest|e] eqn:Ed.
  - unfold hv_from_str. destruct (hv_valid dest) eqn:Ev.
    + exists l1, r, l2. rewrite Ed, Ev. split_and!; [done..| |done].
      unfold rs_get. simpl. rewrite get_insert. by rewrite decide_True.
    + rewrite Her. exists l1, r, l2. rewrite Ed, Ev. by split_and!.
  - rewrite Her. exists l1, r, l2. rewrite Ed. by split_and!.
Qed.

(** * Rewrites *)

Module RewriteSpec.
Section Spec.
Context `{HttpLib}.

(** [uri] is [dest] completed from the original URI: each part [dest] lacks (scheme, authority,
    path) is the original one, and so is the query when the path chosen has none. *)
Definition completes (orig : Uri) (dest : string) (uri : Uri) : Prop :=
  ∃ parsed path,
    uri_parse dest = Some parsed ∧
    uri_from_parts (Rewrites.or_part (uri_scheme parsed) (uri_scheme orig))
      (Rewrites.or_part (uri_authority parsed) (uri_authority orig)) path = Some uri ∧
    match Rewrites.or_part (uri_path_and_query parsed) (uri_path_and_query orig) with
    | None => path = None
    | Some pq =>
        match pq_query pq, uri_query orig with
        | None, Some q => pq_valid (pq +:+ "?" +:+ q) = true ∧ path = Some (pq +:+ "?" +:+ q)
        | _, _ => path = Some pq
        end
    end.

(** The [Host] values of a request rewritten to [uri]: its host and port, when it has a host that
    fits a header. *)
Definition host_values (uri : Uri) (old : list string) : list string :=
  match uri_host uri with
  | Some host =>
      let h := match uri_port_u16 uri with
               | Some port => host +:+ ":" +:+ Str.of_uint port
               | None => host
               end in
      if hv_valid h then [h] else old
  | None => old
  end.
End Spec.
End RewriteSpec.

(** [find]: the first element the test accepts. *)
Lemma find_first {A} (f : A → bool) l :
  match List.find f l with
  | Some x => ∃ l1 l2, l = l1 ++ x :: l2 ∧ f x = true ∧ Forall (λ y, f y = false) l1
  | None => Forall (λ y, f y = false) l
  end.
Proof.
  induction l as [|y l IH]; simpl; [constructor|]. destruct (f y) eqn:E.
  { exists [], l. by split_and!. }
  destruct (List.find f l) as [x|]; [|by constructor].
  destruct IH as (l1 & l2 & -> & ? & ?). exists (y :: l1), l2. split_and!; [done..|by constructor].
Qed.

Lemma merge_uris_spec `{HttpLib} orig dest :
  match Rewrites.merge_uris orig dest with
  | Ok uri => RewriteSpec.completes orig dest uri
  | Err _ => ∀ uri, ¬ RewriteSpec.completes orig dest uri
  end.
Proof.
  unfold Rewrites.merge_uris, RewriteSpec.completes.
  destruct (uri_parse dest) as [parsed|]; simpl; [|by intros uri (? & ? & ? & _)].
  destruct (Rewrites.or_part (uri_path_and_query parsed) _) as [pq|] eqn:Ep; simpl.
  2: { destruct (uri_from_parts _ _ None) as [uri|] eqn:Eu; simpl; [by exists parsed, None; rewrite Ep|].
       intros uri (parsed' & path & [= <-] & Hu & Hp). rewrite Ep in Hp. congruence. }
  destruct (pq_query pq) eqn:Eq, (uri_query orig) as [q|] eqn:Eo; simpl.
  3: destruct (pq_valid (pq +:+ "?" +:+ q)) eqn:Ev; simpl.
  4: { intros uri (parsed' & path & [= <-] & _ & Hp). rewrite Ep, Eq in Hp. destruct Hp. congruence. }
  all: destruct (uri_from_parts _ _ _) as [uri|] eqn:Eu; simpl;
    [by exists parsed; eexists; rewrite Ep, Eq
    |intros uri (parsed' & path & [= <-] & Hu & Hp); rewrite Ep, Eq in Hp; destruct_and?; congruence].
Qed.

Lemma adjust_host_spec `{HttpLaws} (req : Request) :
  let req' := Rewrites.adjust_host req in
  rq_uri req' = rq_uri req ∧ rq_method req' = rq_method req ∧ rq_body req' = rq_body req ∧
  ∀ n, hm_get_all n (rq_headers req') =
         if decide (n = "host")
         then RewriteSpec.host_values (rq_uri req) (hm_get_all "host" (rq_headers req))
         else hm_get_all n (rq_headers req).
Proof.
  unfold Rewrites.adjust_host, RewriteSpec.host_values.
  destruct (uri_host (rq_uri req)) as [host|].
  2: { simpl. split_and!; [done..|]. intros n. by case_decide; subst. }
  cbv zeta. set (h := match uri_port_u16 (rq_uri req) with Some _ => _ | None => _ end).
  unfold hv_from_str. destruct (hv_valid h); simpl; split_and!; try done; intros n.
  - rewrite get_all_insert. by repeat case_decide; subst.
  - by case_decide; subst.
Qed.

(** C40. Rewrites.  The first rule of the list whose source matches the path decides; when none
    does, the request goes on as it came.  A rule with a redirect answers with its status (301
    or 302) and the destination, the captures filled in, as [Location], without a body, and
    leaves the request alone.  A rule without one answers nothing: the request goes on with the
    destination completed from the original URI, and with that URI's host in [Host]; its method,
    body and other headers are kept.  When the destination, the header value or the new URI
    cannot be made, the answer is a 500 page. *)
Theorem rewrite_effect `{HttpLaws} `{!MimeLib, !HeadersLib, !CodecLib, !GlobLib, !RegexLib}
    (fs : Fs.t) (o : RequestHandlerOpts) (req : Request) :
  let '(answer, req') := Rewrites.pre_process fs o req in
  let rules := default [] (advanced_opts o ≫= rewrites) in
  let matching r := regex_is_match (rw_source r) (rq_path req) = true in
  let fails := req' = req ∧ ∃ resp, answer = Some (Ok resp) ∧ rs_status resp = 500%Z in
  (Forall (λ r, ¬ matching r) rules ∧ answer = None ∧ req' = req) ∨
  ∃ l1 r l2, rules = l1 ++ r :: l2 ∧ matching r ∧ Forall (λ x, ¬ matching x) l1 ∧
    match Redirects.replace_placeholders (rq_path req) (rw_source r) (rw_destination r) with
    | Err _ => fails
    | Ok dest =>
        match rw_redirect r with
        | Some kind =>
            if hv_valid dest
            then req' = req ∧ ∃ resp, answer = Some (Ok resp) ∧
                 rs_status resp = match kind with Permanent => 301%Z | Temporary => 302%Z end ∧
                 rs_get "location" resp = Some dest ∧ rs_body resp = BodyEmpty
            else fails
        | None =>
            (fails ∧ ∀ uri, ¬ RewriteSpec.completes (rq_uri req) dest uri) ∨
            answer = None ∧ RewriteSpec.completes (rq_uri req) dest (rq_uri req') ∧
            rq_method req' = rq_method req ∧ rq_body req' = rq_body req ∧
            ∀ n, hm_get_all n (rq_headers req') =
                   if decide (n = "host")
                   then RewriteSpec.host_values (rq_uri req') (hm_get_all "host" (rq_headers req))
                   else hm_get_all n (rq_headers req)
        end
    end.
Proof.
  unfold Rewrites.pre_process.
  destruct (error_response_shape fs (rq_uri req) (rq_method req) 500 (page404 o) (page50x o))
    as (er & _ & Her & Hst & _).
  assert (∃ resp, Redirects.handle_error fs o req = Some (Ok resp) ∧ rs_status resp = 500%Z) as Hfail
    by (unfold Redirects.handle_error; rewrite Her; eauto).
  destruct (advanced_opts o ≫= rewrites) as [rules|]; [|by left]. simpl.
  pose proof (find_first (λ e, regex_is_match (rw_source e) (rq_path req)) rules) as Hf.
  destruct (List.find _ rules) as [r|]; [|left; split_and!; [|done..]].
  2: { eapply Forall_impl; [exact Hf|]. simpl. congruence. }
  destruct Hf as (l1 & l2 & -> & Hm & Hl1).
  assert (Forall (λ x, ¬ regex_is_match (rw_source x) (rq_path req) = true) l1) as Hl1'
    by (eapply Forall_impl; [exact Hl1|]; simpl; congruence).
  destruct (Redirects.replace_placeholders _ _ _) as [dest|e] eqn:Ed.
  2: { right. exists l1, r, l2. rewrite Ed. split_and!; try done. }
  destruct (rw_redirect r) as [kind|] eqn:Ek.
  - unfold hv_from_str. destruct (hv_valid dest) eqn:Ev;
      right; exists l1, r, l2; rewrite Ed, Ek, Ev; split_and!; try done.
    eexists. split; [done|]. split; [done|]. split; [|done].
    unfold rs_get. simpl. rewrite get_insert. by rewrite decide_True.
  - pose proof (merge_uris_spec (rq_uri req) dest) as Hu.
    destruct (Rewrites.merge_uris (rq_uri req) dest) as [uri|e].
    + right. exists l1, r, l2. rewrite Ed, Ek. split_and!; [done..|]. right.
      destruct (adjust_host_spec (mkRequest (rq_method req) uri (rq_headers req) (rq_body req)))
        as (-> & -> & -> & Hh). by split_and!.
    + right. exists l1, r, l2. rewrite Ed, Ek. split_and!; [done..|]. by left.
Qed.

(** * Virtual hosts *)

Lemma digits_no_colon acc s n : Str.digits acc s = Some n → Str.mem ":" s = false.
Proof.
  revert acc. induction s as [|x s IH]; intros acc; [done|]. simpl.
  destruct (Ascii.eqb_spec x ":") as [->|]; [done|]. destruct (Str.digit x); [|done]. apply IH.
Qed.

Lemma parse_uint_no_colon max s n : Str.parse_uint max s = Some n → Str.mem ":" s = false.
Proof.
  unfold Str.parse_uint. intros Hp.
  assert (∀ t, match t with "" => None | _ => match Str.digits 0 t with
                 | Some n => if (n <=? max)%Z then Some n else None | None => None end end = Some n →
               Str.mem ":" t = false) as Ht.
  { intros [|x t]; [done|]. destruct (Str.digits 0 (String x t)) eqn:E; [|done].
    intros _. by apply digits_no_colon in E. }
  destruct s as [|x s]; [done|].
  destruct (Ascii.eqb_spec x "+") as [->|Hne]; [by apply Ht in Hp|].
  apply Ht. rewrite <- Hp. destruct x as [[] [] [] [] [] [] [] []]; done.
Qed.

Lemma rsplit_once_last c a b : Str.mem c b = false →
  Str.rsplit_once c (a +:+ String c b) = Some (a, b).
Proof.
  intros Hb. assert (Str.rsplit_once c b = None) as Hn.
  { induction b as [|x b IH]; [done|]. simpl in *. apply orb_false_iff in Hb as [-> Hb].
    by rewrite IH. }
  induction a as [|x a IH]; simpl.
  - by rewrite Hn, Ascii.eqb_refl.
  - rewrite IH. done.
Qed.

(** Virtual hosts do not depend on the port of the [Host] header: without an authority, a
    header with a numeric port selects the first virtual host with that name, like the header
    without it (when the bare name has no colon). *)
Theorem vhost_port_irrelevant `{HttpLib, GlobLib, RegexLib} (req : Request)
    (vhosts : list VirtualHosts) (name port : string)
    (Hauth : uri_authority (rq_uri req) = None)
    (Hhost : rq_get "host" req = Some (name +:+ ":" +:+ port))
    (Hvis : hv_visible (name +:+ ":" +:+ port) = true)
    (Hport : is_Some (Str.parse_uint u16_max port)) :
  VirtualHost.get_real_root req (Some vhosts) =
    vh_root <$> List.find (λ v, String.eqb (vh_host v) name) vhosts.
Proof.
  destruct Hport as [n Hn]. unfold VirtualHost.get_real_root, VirtualHost.request_host_str.
  destruct vhosts as [|v vhosts]; [done|]. rewrite Hauth, Hhost. simpl. unfold hv_to_str.
  rewrite Hvis. change (name +:+ ":" +:+ port) with (name +:+ String ":" port).
  rewrite rsplit_once_last by (by eapply parse_uint_no_colon). by rewrite Hn.
Qed.

(** * HTTPS redirect *)

(** The HTTP listener answers only with a permanent redirect to the configured HTTPS host and
    port followed by the request's URI as written, and only to requests whose [Host] is listed;
    any other request gets a 400. *)
Theorem https_redirect_decision `{HttpLaws} `{!MimeLib, !HeadersLib} (req : Request)
    (opts : HttpsRedirect.RedirectOpts) :
  match HttpsRedirect.redirect_to_https req opts with
  | Ok r => ∃ h, get_host_hostname (rq_headers req) = Some h ∧
      h ∈ HttpsRedirect.allowed_hosts opts ∧ rs_status r = 301%Z ∧ rs_body r = BodyEmpty ∧
      rs_get "location" r = Some ("https://" +:+ HttpsRedirect.https_hostname opts +:+ ":" +:+
        Str.of_uint (HttpsRedirect.https_port opts) +:+ uri_display (rq_uri req))
  | Err s => s = 400%Z ∧
      ∀ h, get_host_hostname (rq_headers req) = Some h → h ∉ HttpsRedirect.allowed_hosts opts
  end.
Proof.
  unfold HttpsRedirect.redirect_to_https.
  destruct (get_host_hostname (rq_headers req)) as [h|]; [|done].
  destruct (existsb (String.eqb h) (HttpsRedirect.allowed_hosts opts)) eqn:E; simpl.
  - exists h. split; [done|]. split.
    { apply existsb_exists in E as (x & Hx & ->%String.eqb_eq). by apply list_elem_of_In. }
    split_and!; [done..|]. unfold rs_get. simpl. rewrite get_insert. by rewrite decide_True.
  - split; [done|]. intros h' [= <-] Hin. apply list_elem_of_In in Hin.
    assert (existsb (String.eqb h) (HttpsRedirect.allowed_hosts opts) = true); [|congruence].
    apply existsb_exists. exists h. split; [done|]. apply String.eqb_refl.
Qed.

(** An absolute-form request target is appended whole: the location is not a valid URL. *)
Example https_redirect_absolute_form :
  let req : @Request ref_http :=
    mkRequest "GET" (RefUri.mk (Some "http") (Some "a.org") (Some "/x"))
      (ref_headers [("host", "a.org")]) BodyEmpty in
  Res.map (rs_get "location")
    (HttpsRedirect.redirect_to_https req (HttpsRedirect.mkRedirectOpts "a.org" 443 ["a.org"]))
  = Ok (Some "https://a.org:443http://a.org/x").
Proof. reflexivity. Qed.

Module RoutingRef.
Definition redirect (source destination : string) : @Redirects ref_regex :=
  mkRedirects None source destination 301.
Definition opts : @RequestHandlerOpts ref_http ref_glob ref_regex :=
  RequestHandlerOpts_default {{ advanced_opts := Some
    (mkAdvanced None None (Some [redirect "/b" "/x"; redirect "/a" "/y"; redirect "/a" "/z"])
       None None None None ProxySettings_default None) }}.
Definition req : @Request ref_http :=
  mkRequest "GET" (RefUri.mk None None (Some "/a")) (ref_headers [("host", "www.org:8080")])
    BodyEmpty.
End RoutingRef.

Lemma redirect_decision_witness :
  ∃ resp, Redirects.pre_process FsRef.fs RoutingRef.opts RoutingRef.req = Some (Ok resp) ∧
          rs_get "location" resp = Some "/y" ∧ rs_status resp = 301%Z.
Proof.
  pose proof (redirect_decision FsRef.fs RoutingRef.opts RoutingRef.req
    [RoutingRef.redirect "/b" "/x"; RoutingRef.redirect "/a" "/y"; RoutingRef.redirect "/a" "/z"]
    eq_refl) as H.
  destruct (Redirects.pre_process FsRef.fs RoutingRef.opts RoutingRef.req) as [[resp|e]|] eqn:E.
  - exists resp. injection E as <-. split; [reflexivity|]. split; reflexivity.
  - destruct H.
  - discriminate E.
Defined.

Lemma vhost_port_irrelevant_witness :
  VirtualHost.get_real_root RoutingRef.req
    (Some [mkVirtualHosts "a.org" (Path.parse "/a"); mkVirtualHosts "www.org" (Path.parse "/w")])
  = Some (Path.parse "/w").
Proof.
  rewrite (vhost_port_irrelevant RoutingRef.req _ "www.org" "8080");
    [reflexivity | reflexivity | reflexivity | reflexivity | by eexists].
Defined.

(** The first of two matching rules rewrites the request. *)
Lemma rewrite_effect_witness :
  let o : @RequestHandlerOpts ref_http ref_glob ref_regex :=
    RequestHandlerOpts_default {{ advanced_opts := Some
      (mkAdvanced None (Some [mkRewrites "/b" "/x" None; mkRewrites "/a" "http://in.org/index.html" None;
                              mkRewrites "/a" "/y" None]) None
         None None None None ProxySettings_default None) }} in
  ∃ req', Rewrites.pre_process FsRef.fs o RoutingRef.req = (None, req') ∧
    RewriteSpec.completes (rq_uri RoutingRef.req) "http://in.org/index.html" (rq_uri req') ∧
    rq_method req' = "GET".
Proof.
  intros o. pose proof (rewrite_effect FsRef.fs o RoutingRef.req) as H.
  destruct (Rewrites.pre_process FsRef.fs o RoutingRef.req) as [answer req'] eqn:E.
  assert (answer = None) as -> by (change answer with (answer, req').1; rewrite <- E; reflexivity).
  exists req'. split; [done|].
  destruct H as [[Hf _]|(l1 & r & l2 & Hrules & Hm & Hl1 & Hd)].
  { apply Forall_cons in Hf as [_ Hf]. apply Forall_cons in Hf as [Hf _]. by destruct Hf. }
  destruct l1 as [|r1 l1]; [injection Hrules as <- _; discriminate Hm|].
  injection Hrules as <- Hrules.
  destruct l1 as [|r2 l1].
  - injection Hrules as <- _. destruct Hd as [[[_ (? & [=] & _)] _]|(_ & Hu & Hmeth & _)]. by split.
  - injection Hrules as <- _. apply Forall_cons in Hl1 as [_ Hl1].
    apply Forall_cons in Hl1 as [Hl1 _]. by destruct Hl1.
Defined.
