(* ===== verification/Policies.v ===== *)
(** Policies on headers and clients: [custom_headers.rs], [security_headers.rs],
    [control_headers.rs], [basic_auth.rs] and [log_addr.rs]. *)
From Stdlib Require Import ZArith Lia Ascii String Sorted.
From stdpp Require Import base list strings gmap.
From coqutil Require Import Datatypes.RecordSetters.
Import DoubleBraceUpdate.
From S2P Require Import Prelude Http Libs RefLibs Path Fs Opts Pages.
Local Open Scope string_scope.
Local Open Scope list_scope.
Local Open Scope nat_scope.

Module CustomHeaders.
Section CustomHeaders.
Context `{HttpLib, GlobLib, RegexLib}.

(** The path the sources are matched against. *)
Definition match_path (uri_path : string) (file_path : option Path.t)
    (redirect_trailing_slash : bool) : string :=
  let uri_path_auto_index :=
    match file_path with
    | Some p =>
        if Str.ends_with_char "/" uri_path || negb redirect_trailing_slash
        then match Path.file_name p with
             | Some name =>
                 if Utf8.valid name
                 then Some (if String.eqb uri_path "/" then "/" +:+ name
                            else uri_path +:+ "/" +:+ name)
                 else None
             | None => None
             end
        else None
    | None => None
    end in
  default uri_path uri_path_auto_index.

(** [append_headers]. *)
Definition append_headers (uri_path : string) (headers_opts : option (list Headers))
    (resp : Response) (file_path : option Path.t) (redirect_trailing_slash : bool) : Response :=
  match headers_opts with
  | None => resp
  | Some headers_vec =>
      let uri_path := match_path uri_path file_path redirect_trailing_slash in
      fold_left
        (λ resp headers_entry,
           if glob_is_match (hd_source headers_entry) uri_path
           then set_headers (hm_insert_all (hm_iter (hd_headers headers_entry)) (rs_headers resp)) resp
           else resp)
        headers_vec resp
  end.

(** [post_process]. *)
Definition post_process (o : RequestHandlerOpts) (req : Request) (resp : Response)
    (file_path : option Path.t) : result error Response :=
  Ok (match advanced_opts o with
      | Some advanced =>
          append_headers (rq_path req) (headers advanced) resp file_path (redirect_trailing_slash o)
      | None => resp
      end).
End CustomHeaders.
End CustomHeaders.

Module SecurityHeaders.
Section SecurityHeaders.
Context `{HttpLib, GlobLib, RegexLib}.

(** [init]. *)
Definition init (enabled : bool) (o : RequestHandlerOpts) : RequestHandlerOpts :=
  o {{ security_headers := enabled }}.

(** [append_headers]. *)
Definition append_headers (resp : Response) : Response :=
  set_header "content-security-policy" "frame-ancestors 'self'"
    (set_header "x-content-type-options" "nosniff"
       (set_header "x-frame-options" "DENY"
          (set_header "strict-transport-security" "max-age=63072000; includeSubDomains; preload"
             resp))).

(** [post_process]. *)
Definition post_process (o : RequestHandlerOpts) (req : Request) (resp : Response)
    : result error Response :=
  Ok (if security_headers o then append_headers resp else resp).
End SecurityHeaders.
End SecurityHeaders.

(** [slice::binary_search] on strings, as the standard library implements it. *)
Module BinarySearch.

(** The loop; [fuel] bounds the rounds. *)
Fixpoint narrow (fuel : nat) (l : list string) (x : string) (base size : nat) : nat :=
  match fuel with
  | O => base
  | S f =>
      if (1 <? size)%nat then
        let half := size / 2 in
        let mid := base + half in
        let base := match String.compare (List.nth mid l "") x with Gt => base | _ => mid end in
        narrow f l x base (size - half)
      else base
  end.

(** [binary_search(x).is_ok()]. *)
Definition found (l : list string) (x : string) : bool :=
  match l with
  | [] => false
  | _ =>
      let base := narrow (length l) l x 0 (length l) in
      match String.compare (List.nth base l "") x with Eq => true | _ => false end
  end.
End BinarySearch.

Module ControlHeaders.

Definition MAX_AGE_ONE_HOUR : Z := 60 * 60.
Definition MAX_AGE_ONE_DAY : Z := 60 * 60 * 24.
Definition MAX_AGE_ONE_YEAR : Z := 60 * 60 * 24 * 365.

Definition CACHE_EXT_ONE_HOUR : list string := ["atom"; "json"; "rss"; "xml"].
Definition CACHE_EXT_ONE_YEAR : list string :=
  ["avif"; "bmp"; "bz2"; "css"; "doc"; "gif"; "gz"; "htc"; "ico"; "jpeg"; "jpg"; "js"; "jxl";
   "map"; "mjs"; "mp3"; "mp4"; "ogg"; "ogv"; "pdf"; "png"; "rar"; "rtf"; "tar"; "tgz"; "wav";
   "weba"; "webm"; "webp"; "woff"; "woff2"; "zip"].

(** [get_file_extension], [get_max_age]. *)
Definition get_file_extension (uri : string) : option string := snd <$> Str.rsplit_once "." uri.
Definition get_max_age (uri : string) : Z :=
  match get_file_extension uri with
  | Some extension =>
      if BinarySearch.found CACHE_EXT_ONE_HOUR extension then MAX_AGE_ONE_HOUR
      else if BinarySearch.found CACHE_EXT_ONE_YEAR extension then MAX_AGE_ONE_YEAR
      else MAX_AGE_ONE_DAY
  | None => MAX_AGE_ONE_DAY
  end.

Section ControlHeaders.
Context `{HttpLib, GlobLib, RegexLib}.

(** [init]. *)
Definition init (enabled : bool) (o : RequestHandlerOpts) : RequestHandlerOpts :=
  o {{ cache_control_headers := enabled }}.

(** [append_headers]. *)
Definition append_headers (uri : string) (resp : Response) : Response :=
  let max_age := get_max_age uri in
  set_header "cache-control" ("max-age=" +:+ Str.of_uint (Z.min max_age u32_max)) resp.

(** [post_process]. *)
Definition post_process (o : RequestHandlerOpts) (req : Request) (resp : Response)
    : result error Response :=
  Ok (if cache_control_headers o then append_headers (rq_path req) resp else resp).
End ControlHeaders.
End ControlHeaders.

Module BasicAuth.
Section BasicAuth.
Context `{HeadersLib, CodecLib, GlobLib, RegexLib}.

(** [init]. *)
Definition init (credentials : string) (o : RequestHandlerOpts) : RequestHandlerOpts :=
  o {{ basic_auth := Str.trim credentials }}.

(** [check_request]. *)
Definition check_request (headers : HeaderMap) (userid password : string) : result Z unit :=
  let? credentials := Res.of_option 401%Z (get_authorization_basic headers) in
  let user_match := String.eqb (fst credentials) userid in
  let password_match := match bcrypt_verify (snd credentials) password with
                        | Ok b => b | Err _ => false end in
  let valid := user_match && password_match in
  if valid then Ok () else Err 401%Z.

(** The [WWW-Authenticate] value. *)
Definition challenge : string :=
  let q := Str.bytes [34] in
  "Basic realm=" +:+ q +:+ "WeaveGate" +:+ q +:+ ", charset=" +:+ q +:+ "UTF-8" +:+ q.

(** [pre_process]. *)
Definition pre_process (fs : Fs.t) (o : RequestHandlerOpts) (req : Request)
    : option (result error Response) :=
  if Str.is_empty (basic_auth o) then None
  else if is_options (rq_method req) then None
  else
    let error_response status :=
      ErrorPage.error_response fs (rq_uri req) (rq_method req) status (page404 o) (page50x o) in
    match Str.split_once ":" (basic_auth o) with
    | Some (user_id, password) =>
        match check_request (rq_headers req) user_id password with
        | Ok _ => None
        | Err _ =>
            Some (Res.map (set_header "www-authenticate" challenge) (error_response 401%Z))
        end
    | None => Some (error_response 500%Z)
    end.
End BasicAuth.
End BasicAuth.

Module LogAddr.
Section LogAddr.
Context `{HttpLib, GlobLib, RegexLib}.
(** [str::parse::<IpAddr>], to the canonical text. *)
Context (ip_parse : string → option IpAddr).

(** [init] only sets the flag; the rest is log text. *)
Definition init (enabled : bool) (o : RequestHandlerOpts) : RequestHandlerOpts :=
  o {{ log_remote_address := enabled }}.

(** [SocketAddr]'s [Display]. *)
Definition addr_text (a : SocketAddr) : string :=
  (if Str.mem ":" (sa_ip a) then "[" +:+ sa_ip a +:+ "]" else sa_ip a)
    +:+ ":" +:+ Str.of_uint (sa_port a).

(** The peer may be believed about forwarding headers. *)
Definition trusted (o : RequestHandlerOpts) (remote_addr : option SocketAddr) : bool :=
  match trusted_proxies o with
  | [] => true
  | _ => match remote_addr with
         | Some addr => bool_decide (sa_ip addr ∈ trusted_proxies o)
         | None => false
         end
  end.

(** The addresses [pre_process] logs. *)
Definition remote_addrs (o : RequestHandlerOpts) (req : Request)
    (remote_addr : option SocketAddr) : string :=
  let s1 :=
    match remote_addr with
    | Some addr => if log_remote_address o then " remote_addr=" +:+ addr_text addr else ""
    | None => ""
    end in
  let s2 :=
    if log_x_real_ip o && trusted o remote_addr
    then match (rq_get "x-real-ip" req ≫= hv_to_str) ≫= (λ s, ip_parse (Str.trim s)) with
         | Some real_ip => " x_real_ip=" +:+ real_ip
         | None => ""
         end
    else "" in
  let s3 :=
    if log_forwarded_for o && trusted o remote_addr
    then match ((rq_get "x-forwarded-for" req ≫= hv_to_str) ≫= (λ s, head (Str.split "," s)))
               ≫= (λ s, ip_parse (Str.trim s)) with
         | Some forwarded_for => " real_remote_ip=" +:+ forwarded_for
         | None => ""
         end
    else "" in
  s1 +:+ s2 +:+ s3.

(** [pre_process]: the level and the line it logs. *)
Definition pre_process (o : RequestHandlerOpts) (req : Request)
    (remote_addr : option SocketAddr) : LogLevel * string :=
  let line := "incoming request: method=" +:+ rq_method req +:+ " uri=" +:+ uri_display (rq_uri req)
                +:+ remote_addrs o req remote_addr in
  if health o && Health.is_health_endpoint req then (LvlDebug, line) else (LvlInfo, line).
End LogAddr.
End LogAddr.

(** * Binary search *)

Definition slt (a b : string) : Prop := String.compare a b = Lt.

#[global] Instance slt_trans : Transitive slt.
Proof.
  intros a b c Hab Hbc. unfold slt in *.
  destruct (String.compare a c) eqn:E; [| done |].
  - apply String.compare_eq_iff in E as <-. rewrite String.compare_antisym, Hab in Hbc. done.
  - exfalso. apply (Sort.cmp_trans String.compare a b c); unfold Sort.le; congruence.
Qed.

Lemma compare_refl s : String.compare s s = Eq.
Proof.
  pose proof (String.compare_antisym s s) as H. by destruct (String.compare s s).
Qed.

Lemma sorted_before l i j x y :
  StronglySorted slt l → l !! i = Some x → l !! j = Some y →
  match String.compare x y with Lt => i < j | Eq => i = j | Gt => j < i end.
Proof.
  intros Hs Hi Hj.
  assert (∀ i j x y, i < j → l !! i = Some x → l !! j = Some y → slt x y) as Hlt
    by (intros; by eapply (sorted_lookup_le slt l)).
  destruct (lt_eq_lt_dec i j) as [[Hij| ->]|Hij].
  - by rewrite (Hlt i j x y).
  - simplify_eq. by rewrite compare_refl.
  - pose proof (Hlt j i y x Hij Hj Hi) as Hyx. unfold slt in Hyx.
    rewrite String.compare_antisym, Hyx. done.
Qed.

(** The loop keeps the position of a present element in its window. *)
Lemma narrow_finds fuel l x i base size :
  StronglySorted slt l → l !! i = Some x → size ≤ fuel →
  base ≤ i < base + size → base + size ≤ length l →
  BinarySearch.narrow fuel l x base size = i.
Proof.
  intros Hs Hi. revert base size. induction fuel as [|fuel IH]; intros base size Hf Hw Hl; [cbn; lia|].
  cbn [BinarySearch.narrow]. destruct (Nat.ltb_spec 1 size) as [H1|H1]; [|lia].
  pose proof (Nat.div_mod size 2 ltac:(lia)). pose proof (Nat.mod_upper_bound size 2 ltac:(lia)).
  set (half := size / 2) in *.
  destruct (lookup_lt_is_Some_2 l (base + half)) as [y Hy]; [lia|].
  rewrite (nth_lookup_Some _ _ "" _ Hy).
  pose proof (sorted_before l _ _ _ _ Hs Hy Hi) as Hc.
  destruct (String.compare y x); apply IH; lia.
Qed.

Lemma narrow_bound fuel l x base size :
  0 < size → base + size ≤ length l → BinarySearch.narrow fuel l x base size < length l.
Proof.
  revert base size. induction fuel as [|fuel IH]; intros base size Hp Hl; cbn [BinarySearch.narrow]; [lia|].
  destruct (Nat.ltb_spec 1 size); [|lia].
  pose proof (Nat.div_mod size 2 ltac:(lia)). pose proof (Nat.mod_upper_bound size 2 ltac:(lia)).
  set (half := size / 2) in *. destruct (String.compare _ _); apply IH; lia.
Qed.

Lemma binary_search_found l x :
  StronglySorted slt l → BinarySearch.found l x = true ↔ x ∈ l.
Proof.
  intros Hs. unfold BinarySearch.found. destruct l as [|a l0] eqn:El.
  { split; [done|]. by intros ?%elem_of_nil. }
  rewrite <- El in *. split.
  - assert (BinarySearch.narrow (length l) l x 0 (length l) < length l) as Hb.
    { apply narrow_bound; [|lia]. subst l. simpl. lia. }
    destruct (lookup_lt_is_Some_2 l _ Hb) as [y Hy]. rewrite (nth_lookup_Some _ _ "" _ Hy).
    destruct (String.compare y x) eqn:E; [|done..]. intros _.
    apply String.compare_eq_iff in E as ->. by eapply list_elem_of_lookup_2.
  - intros [i Hi]%list_elem_of_lookup_1. pose proof (lookup_lt_Some _ _ _ Hi).
    rewrite (narrow_finds _ l x i) by (done || lia).
    by rewrite (nth_lookup_Some _ _ "" _ Hi), compare_refl.
Qed.

(** A checker for the sortedness of the constant tables. *)
Fixpoint sorted_table (l : list string) : bool :=
  match l with
  | [] => true
  | x :: l' => forallb (λ y, match String.compare x y with Lt => true | _ => false end) l'
                 && sorted_table l'
  end.

Lemma sorted_table_spec l : sorted_table l = true → StronglySorted slt l.
Proof.
  induction l as [|x l IH]; simpl; [constructor|]. intros [Hx Hl]%andb_true_iff.
  constructor; [auto|]. apply Forall_forall. intros y Hy%list_elem_of_In.
  rewrite forallb_forall in Hx. specialize (Hx y Hy). unfold slt. by destruct (String.compare x y).
Qed.

(** The cache lifetime is decided by the text after the last dot of the path: one hour for the
    extensions of the first table, one year for those of the second, one day otherwise; the
    binary searches are exact on both tables, and the header carries that number. *)
Theorem cache_control_by_extension `{HttpLaws} (uri : string) (resp : Response) :
  rs_get "cache-control" (ControlHeaders.append_headers uri resp) =
    Some ("max-age=" +:+
      match Str.rsplit_once "." uri with
      | Some (_, e) =>
          if decide (e ∈ ControlHeaders.CACHE_EXT_ONE_HOUR) then "3600"
          else if decide (e ∈ ControlHeaders.CACHE_EXT_ONE_YEAR) then "31536000" else "86400"
      | None => "86400"
      end).
Proof.
  unfold ControlHeaders.append_headers, ControlHeaders.get_max_age, ControlHeaders.get_file_extension.
  unfold rs_get, set_header. cbn [rs_headers set_headers].
  rewrite get_insert, decide_True by done. do 2 f_equal.
  destruct (Str.rsplit_once "." uri) as [[b e]|]; [|done]. cbn [fmap option_fmap option_map snd].
  pose proof (binary_search_found ControlHeaders.CACHE_EXT_ONE_HOUR e
                (sorted_table_spec ControlHeaders.CACHE_EXT_ONE_HOUR eq_refl)) as Hh.
  pose proof (binary_search_found ControlHeaders.CACHE_EXT_ONE_YEAR e
                (sorted_table_spec ControlHeaders.CACHE_EXT_ONE_YEAR eq_refl)) as Hy.
  destruct (BinarySearch.found ControlHeaders.CACHE_EXT_ONE_HOUR e).
  - rewrite decide_True by (by apply Hh). done.
  - rewrite decide_False by (rewrite <- Hh; done).
    destruct (BinarySearch.found ControlHeaders.CACHE_EXT_ONE_YEAR e).
    + rewrite decide_True by (by apply Hy). done.
    + rewrite decide_False by (rewrite <- Hy; done). done.
Qed.

(** All pairs of the entries whose source matches a path, in order. *)
Definition matching_headers `{HttpLib, GlobLib} (uri_path : string) (l : list Headers)
    : list (string * string) :=
  flat_map (λ e, if glob_is_match (hd_source e) uri_path then hm_iter (hd_headers e) else []) l.

Lemma custom_fold `{HttpLaws, GlobLib} uri_path l resp n :
  let r := fold_left
    (λ resp e, if glob_is_match (hd_source e) uri_path
               then set_headers (hm_insert_all (hm_iter (hd_headers e)) (rs_headers resp)) resp
               else resp) l resp in
  rs_status r = rs_status resp ∧ rs_body r = rs_body resp ∧
  hm_get_all n (rs_headers r) =
    match last (vals n (matching_headers uri_path l)) with
    | Some v => [v]
    | None => hm_get_all n (rs_headers resp)
    end.
Proof.
  revert resp. induction l as [|e l IH]; intros resp; [done|]. cbn [fold_left].
  set (resp' := if glob_is_match _ _ then _ else _).
  destruct (IH resp') as (Hs & Hb & Hg). cbv zeta. rewrite Hs, Hb, Hg.
  unfold matching_headers. cbn [flat_map]. unfold resp'.
  destruct (glob_is_match (hd_source e) uri_path); [|by split_and!].
  split; [done|]. split; [done|]. cbn [rs_headers set_headers].
  rewrite get_all_insert_all. unfold vals. rewrite filter_app, fmap_app, last_app.
  by destruct (last _).
Qed.

(** Custom headers: every configured header of every matching entry ends up in the answer
    with its last configured value, replacing what the handler set; any other header, the
    status and the body are untouched. *)
Theorem custom_headers_last_wins `{HttpLaws, GlobLib, RegexLib} (uri_path : string)
    (entries : list Headers) (resp : Response) (file_path : option Path.t) (slash : bool)
    (n : string) :
  let r := CustomHeaders.append_headers uri_path (Some entries) resp file_path slash in
  rs_status r = rs_status resp ∧ rs_body r = rs_body resp ∧
  hm_get_all n (rs_headers r) =
    match last (vals n (matching_headers (CustomHeaders.match_path uri_path file_path slash) entries)) with
    | Some v => [v]
    | None => hm_get_all n (rs_headers resp)
    end.
Proof. apply custom_fold. Qed.

(** A directory request other than the root is matched with a doubled slash. *)
Example custom_headers_doubled_slash :
  CustomHeaders.match_path "/docs/" (Some (Path.parse "/srv/docs/index.html")) true
    = "/docs//index.html".
Proof. reflexivity. Qed.

(** * Authentication *)

(** The credentials of the request are the configured ones. *)
Definition authorized `{HeadersLib, CodecLib} (configured : string) (headers : HeaderMap) : Prop :=
  ∃ user_id password given, Str.split_once ":" configured = Some (user_id, password) ∧
    get_authorization_basic headers = Some (user_id, given) ∧
    bcrypt_verify given password = Ok true.

(** Passing the check. *)
Lemma basic_auth_passes `{HeadersLib, CodecLib, GlobLib, RegexLib} (fs : Fs.t)
    (o : RequestHandlerOpts) (req : Request) :
  BasicAuth.pre_process fs o req = None →
  Str.is_empty (basic_auth o) = true ∨ is_options (rq_method req) = true ∨
  authorized (basic_auth o) (rq_headers req).
Proof.
  unfold BasicAuth.pre_process, authorized.
  destruct (Str.is_empty (basic_auth o)); [by left|].
  destruct (is_options (rq_method req)); [by right; left|]. intros Hp. right. right.
  destruct (Str.split_once ":" (basic_auth o)) as [[u p]|]; [|done].
  destruct (BasicAuth.check_request (rq_headers req) u p) as [[]|] eqn:Ec; [|done].
  unfold BasicAuth.check_request in Ec. apply bind_Ok in Ec as ([gu gp] & Hg%of_option_Ok & Ec).
  cbn [fst snd] in Ec. destruct (String.eqb_spec gu u) as [->|]; [|done].
  destruct (bcrypt_verify gp p) as [[]|] eqn:Ev; try done. by exists u, p, gp.
Qed.

(** C33. Basic authentication: with credentials configured, a request other than [OPTIONS] passes
    exactly when its user name is the configured one and the password verifies against the
    configured hash; any other gets a 401 with the challenge, or a 500 when the configured text
    has no colon.  Without credentials, or for [OPTIONS], nothing is asked. *)
Theorem basic_auth_decision `{HttpLaws} `{!MimeLib, !HeadersLib, !CodecLib, !GlobLib, !RegexLib}
    (fs : Fs.t) (o : RequestHandlerOpts) (req : Request) :
  if Str.is_empty (basic_auth o) || is_options (rq_method req)
  then BasicAuth.pre_process fs o req = None
  else match BasicAuth.pre_process fs o req with
       | None => authorized (basic_auth o) (rq_headers req)
       | Some (Ok r) =>
           ¬ authorized (basic_auth o) (rq_headers req) ∧
           (rs_status r = 401%Z ∧ rs_get "www-authenticate" r = Some BasicAuth.challenge ∨
            rs_status r = 500%Z ∧ Str.split_once ":" (basic_auth o) = None)
       | Some (Err _) => False
       end.
Proof.
  unfold BasicAuth.pre_process, authorized.
  destruct (Str.is_empty (basic_auth o)); cbn [orb]; [done|].
  destruct (is_options (rq_method req)); [done|].
  destruct (Str.split_once ":" (basic_auth o)) as [[u p]|] eqn:Es.
  - destruct (error_response_shape fs (rq_uri req) (rq_method req) 401 (page404 o) (page50x o))
      as (er & _ & Her & Hst & _). cbv beta zeta. rewrite Her. clear Her.
    assert (rs_status (set_header "www-authenticate" BasicAuth.challenge er) = 401%Z ∧
            rs_get "www-authenticate" (set_header "www-authenticate" BasicAuth.challenge er)
              = Some BasicAuth.challenge) as Hr.
    { split; [done|]. unfold rs_get. simpl. rewrite get_insert. by rewrite decide_True. }
    unfold BasicAuth.check_request.
    destruct (get_authorization_basic (rq_headers req)) as [[gu gp]|]; cbn [Res.of_option Res.bind fst snd].
    + destruct (String.eqb_spec gu u) as [->|Hne]; cbn [andb].
      * destruct (bcrypt_verify gp p) as [[|]|e] eqn:Ev; cbn [Res.map]; [by exists u, p, gp|..];
          (split; [intros (? & ? & ? & ? & ? & ?); congruence | by left]).
      * cbn [Res.map]. split; [intros (? & ? & ? & ? & ? & ?); congruence | by left].
    + cbn [Res.map]. split; [intros (? & ? & ? & ? & ? & ?); congruence | by left].
  - destruct (error_response_shape fs (rq_uri req) (rq_method req) 500 (page404 o) (page50x o))
      as (er & _ & Her & Hst & _). cbv beta zeta.
    rewrite Her. split; [intros (? & ? & ? & ? & ? & ?); congruence|]. by right.
Qed.

(** * Logging *)

(** Forwarding headers cannot be spoofed into the log: with trusted proxies configured, the
    addresses logged for a peer outside the list do not depend on the request at all. *)
Theorem log_ignores_untrusted `{HttpLib, GlobLib, RegexLib} (ip_parse : string → option string)
    (o : RequestHandlerOpts) (req req' : Request) (addr : SocketAddr)
    (Hsome : trusted_proxies o ≠ []) (Hout : sa_ip addr ∉ trusted_proxies o) :
  LogAddr.remote_addrs ip_parse o req (Some addr) = LogAddr.remote_addrs ip_parse o req' (Some addr) ∧
  LogAddr.remote_addrs ip_parse o req (Some addr) =
    (if log_remote_address o then " remote_addr=" +:+ LogAddr.addr_text addr else "").
Proof.
  assert (LogAddr.trusted o (Some addr) = false) as Ht.
  { unfold LogAddr.trusted. destruct (trusted_proxies o) eqn:Et; [done|]. rewrite <- Et in *.
    by apply bool_decide_eq_false. }
  unfold LogAddr.remote_addrs. rewrite Ht, !andb_false_r. rewrite !string_app_nil_r. done.
Qed.

Lemma log_ignores_untrusted_witness :
  let o : @RequestHandlerOpts ref_http ref_glob ref_regex :=
    RequestHandlerOpts_default {{ trusted_proxies := ["10.0.0.1"]; log_x_real_ip := true;
                                  log_forwarded_for := true }} in
  let req : @Request ref_http :=
    mkRequest "GET" (RefUri.mk None None (Some "/")) (ref_headers [("x-real-ip", "1.2.3.4")]) BodyEmpty in
  LogAddr.remote_addrs Some o req (Some (mkSocketAddr "6.6.6.6" 80)) = "".
Proof.
  intros o req.
  rewrite (proj2 (log_ignores_untrusted Some o req req (mkSocketAddr "6.6.6.6" 80)
    ltac:(done) ltac:(by intros [?|[]%elem_of_nil]%elem_of_cons))).
  reflexivity.
Defined.

Lemma basic_auth_decision_witness :
  let o : @RequestHandlerOpts ref_http ref_glob ref_regex :=
    RequestHandlerOpts_default {{ basic_auth := "user:hash" }} in
  let req : @Request ref_http :=
    mkRequest "GET" (RefUri.mk None None (Some "/")) (ref_headers []) BodyEmpty in
  ∃ r, BasicAuth.pre_process FsRef.fs o req = Some (Ok r) ∧
       ¬ authorized (basic_auth o) (rq_headers req).
Proof.
  intros o req. pose proof (basic_auth_decision FsRef.fs o req) as H.
  destruct (BasicAuth.pre_process FsRef.fs o req) as [[r|e]|] eqn:E; [|discriminate E..].
  exists r. split; [reflexivity|]. exact (proj1 H).
Defined.
