(* ===== verification/Metrics.v ===== *)
(** Instrumentation: [metrics.rs], and the connection counting of [service.rs].

    The collectors are the process-wide state [MetricsState]; the histogram is the list of
    observations per label triple. *)
From Stdlib Require Import ZArith Lia Ascii String.
From stdpp Require Import base list strings gmap.
From coqutil Require Import Datatypes.RecordSetters.
Import DoubleBraceUpdate.
From S2P Require Import Prelude Http Libs RefLibs Path Opts Pages.
Local Open Scope string_scope.
Local Open Scope list_scope.
Local Open Scope nat_scope.

(** The label values [method], [status], [host]. *)
Abbreviation Labels := (string * string * string)%type (only parsing).

Record MetricsState := mkMetrics {
  requests_total : gmap Labels Z;
  request_duration : gmap Labels (list Z);
  response_bytes_total : gmap Labels Z;
  requests_inflight : Z;
  connections_active : Z;
}.

Module Metrics.

Definition empty : MetricsState := mkMetrics ∅ ∅ ∅ 0 0.

(** The collectors [init] registers, with all features on. *)
Definition collectors : list string :=
  ["tokio_runtime"; "sws_http_requests_total"; "sws_http_request_duration_seconds";
   "sws_http_response_bytes_total"; "sws_http_requests_inflight"; "sws_http_connections_active"].

(** [registry.register(..).unwrap()]: a second registration panics. *)
Fixpoint register_all (names : list string) (registry : gset string) : result error (gset string) :=
  match names with
  | [] => Ok registry
  | n :: names' =>
      if decide (n ∈ registry) then Err ["duplicate metrics collector registration attempted"]
      else register_all names' ({[n]} ∪ registry)
  end.

Section Metrics.
Context `{HeadersLib, GlobLib, RegexLib}.
(** [TextEncoder::encode] of everything gathered. *)
Context (encode_text : MetricsState → string).

(** [init]. *)
Definition init (enabled : bool) (o : RequestHandlerOpts) (registry : gset string)
    : result error (RequestHandlerOpts * gset string) :=
  let o := o {{ metrics_enabled := enabled }} in
  if enabled then Res.map (pair o) (register_all collectors registry) else Ok (o, registry).

(** [pre_process]. *)
Definition pre_process (o : RequestHandlerOpts) (req : Request) (m : MetricsState)
    : option (result error Response) :=
  if negb (metrics_enabled o) then None
  else if negb (String.eqb (rq_path req) "/metrics") then None
  else if negb (is_get (rq_method req)) && negb (is_head (rq_method req)) then None
  else
    let body := if is_get (rq_method req) then BodyBytes (encode_text m) else BodyEmpty in
    Some (Ok (insert_content_type "text/plain; charset=utf-8" (resp_new body))).

(** [status_class]. *)
Definition status_class (code : Z) : string :=
  match code / 100 with
  | 1 => "1xx" | 2 => "2xx" | 3 => "3xx" | 4 => "4xx" | _ => "5xx"
  end%Z.

Definition labels (req : Request) (status : Z) : Labels :=
  (rq_method req, status_class status, default "" (rq_get "host" req ≫= hv_to_str)).

(** [IntCounter::inc_by], modulo 2^64. *)
Definition inc_by (l : Labels) (n : Z) (c : gmap Labels Z) : gmap Labels Z :=
  <[l := wrap64 (default 0%Z (c !! l) + n)]> c.

(** [record_request]; [elapsed] in nanoseconds. *)
Definition record_request (req : Request) (status bytes elapsed : Z) (m : MetricsState)
    : MetricsState :=
  if String.eqb (rq_path req) "/metrics" then m
  else
    let l := labels req status in
    let m := m {{ requests_total ::= inc_by l 1;
                  request_duration ::= (λ h, <[l := default [] (h !! l) ++ [elapsed]]> h) }} in
    if (0 <? bytes)%Z then m {{ response_bytes_total ::= inc_by l bytes }} else m.
End Metrics.

(** The gauges. *)
Definition inc_requests_inflight (m : MetricsState) : MetricsState :=
  m {{ requests_inflight ::= Z.add 1 }}.
Definition dec_requests_inflight (m : MetricsState) : MetricsState :=
  m {{ requests_inflight ::= Z.add (-1) }}.
Definition inc_connections (m : MetricsState) : MetricsState :=
  m {{ connections_active ::= Z.add 1 }}.
Definition dec_connections (m : MetricsState) : MetricsState :=
  m {{ connections_active ::= Z.add (-1) }}.
End Metrics.

(** * [service.rs] as a system

    A connection gets a [RequestService] ([RequestServiceBuilder::build]), which counts itself
    until it is dropped; each request of a connection is a future that hyper runs to its end or
    drops when the connection goes away. *)
Module Service.

Record Config := mkConfig {
  c_metrics : MetricsState;
  c_conns : list nat;       (* the live connections *)
  c_running : list nat;     (* the connections of the requests being handled *)
  c_dropped : nat;          (* the futures dropped before their end *)
}.

Definition start : Config := mkConfig Metrics.empty [] [] 0.

(** [enabled] is [metrics_enabled]; handling itself touches the two gauges only at its ends. *)
Inductive step (enabled : bool) : Config → Config → Prop :=
| st_connect c m cs rs d :
    step enabled (mkConfig m cs rs d) (mkConfig (Metrics.inc_connections m) (c :: cs) rs d)
| st_request c m cs rs d :
    c ∈ cs →
    step enabled (mkConfig m cs rs d)
      (mkConfig (if enabled then Metrics.inc_requests_inflight m else m) cs (c :: rs) d)
| st_finish c m m' cs rs1 rs2 d :
    requests_inflight m' = requests_inflight m → connections_active m' = connections_active m →
    step enabled (mkConfig m cs (rs1 ++ c :: rs2) d)
      (mkConfig (if enabled then Metrics.dec_requests_inflight m' else m') cs (rs1 ++ rs2) d)
| st_drop c m cs rs1 rs2 d :
    step enabled (mkConfig m cs (rs1 ++ c :: rs2) d) (mkConfig m cs (rs1 ++ rs2) (S d))
| st_disconnect c m cs1 cs2 rs d :
    c ∉ rs →
    step enabled (mkConfig m (cs1 ++ c :: cs2) rs d)
      (mkConfig (Metrics.dec_connections m) (cs1 ++ cs2) rs d).
End Service.

(** The gauges: in every reachable state the connection gauge is the number of live
    connections, but the in-flight gauge is the number of running requests plus the number of
    requests ever dropped before their end: a client that goes away leaks one unit for good. *)
Theorem gauges_count (enabled : bool) (c : Service.Config)
    (Hreach : rtc (Service.step enabled) Service.start c) :
  connections_active (Service.c_metrics c) = Z.of_nat (length (Service.c_conns c)) ∧
  requests_inflight (Service.c_metrics c) =
    if enabled then Z.of_nat (length (Service.c_running c) + Service.c_dropped c) else 0%Z.
Proof.
  remember Service.start as c0 eqn:E0.
  assert (connections_active (Service.c_metrics c0) = Z.of_nat (length (Service.c_conns c0)) ∧
    requests_inflight (Service.c_metrics c0) =
      if enabled then Z.of_nat (length (Service.c_running c0) + Service.c_dropped c0) else 0%Z)
    as Hinv by (subst; by destruct enabled).
  clear E0. induction Hreach as [|c0 c1 c2 Hstep _ IH]; [done|]. apply IH. clear IH.
  destruct Hinv as [Hc Hr].
  destruct Hstep as [c [] cs rs d|c [] cs rs d Hin|c [] [] cs rs1 rs2 d Hm1 Hm2|c [] cs rs1 rs2 d
                    |c [] cs1 cs2 rs d Hn];
    cbn [Service.c_metrics Service.c_conns Service.c_running Service.c_dropped] in *;
    rewrite ?length_app in *; cbn [length] in *; destruct enabled; cbn in *; split; lia.
Qed.

Lemma gauges_count_witness :
  ∃ c, rtc (Service.step true) Service.start c ∧ Service.c_running c = [] ∧
       requests_inflight (Service.c_metrics c) = 1%Z.
Proof.
  set (m1 := Metrics.inc_requests_inflight (Metrics.inc_connections Metrics.empty)).
  assert (rtc (Service.step true) Service.start (Service.mkConfig m1 [7] ([] ++ []) 1)) as Hr.
  { eapply rtc_l; [apply (Service.st_connect true 7)|].
    eapply rtc_l; [apply (Service.st_request true 7); left|].
    eapply rtc_l; [apply (Service.st_drop true 7 _ _ [] [])|]. apply rtc_refl. }
  exists (Service.mkConfig m1 [7] ([] ++ []) 1). split; [exact Hr|]. split; [reflexivity|].
  exact (proj2 (gauges_count true _ Hr)).
Defined.
