(* ===== verification/Balancer.v ===== *)
(** Reverse-proxy rules: from TOML/API definitions to compiled rules.

    [Module Balancer]: the round-robin [ProxyBalancer] of [settings/mod.rs].
    [Module Template]: [upstream_uri_template] and [build_upstream_uri_from_template].
    [Module Compile]: [proxy_compile.rs].  [Module Specificity]: [proxy_sort.rs]. *)
From Stdlib Require Import ZArith Lia Ascii String Sorted.
From stdpp Require Import base list strings gmap.
From coqutil Require Import Datatypes.RecordSetters.
Import DoubleBraceUpdate.
From S2P Require Import Prelude Http Libs RefLibs Path Opts.
Local Open Scope string_scope.
Local Open Scope list_scope.
Local Open Scope nat_scope.

(** * Definitions *)

Module Balancer.
Section Balancer.
Context `{HttpLib}.

(** [ProxyBalancer::new]. *)
Definition new (name : option string) (targets : list Uri) : result error ProxyBalancer :=
  match targets with
  | [] => Err ["proxy service must have at least one upstream target"]
  | _ => Ok (mkProxyBalancer name targets 0)
  end.

Definition len (b : ProxyBalancer) : nat := length (pb_targets b).

(** [next_index]: [fetch_add] wraps; [new] excludes the remainder by zero. *)
Definition next_index (b : ProxyBalancer) : nat * ProxyBalancer :=
  (Z.to_nat (next b `mod` Z.of_nat (len b)),
   b {{ next := wrap64 (next b + 1) }}).

(** [next]: [None] is the indexing panic. *)
Definition next_target (b : ProxyBalancer) : option Uri * ProxyBalancer :=
  let '(index, b') := next_index b in (pb_targets b !! index, b').

Definition targets_display (b : ProxyBalancer) : string :=
  Str.join ", " (uri_display <$> pb_targets b).

(** [n] consecutive calls. *)
Fixpoint run (n : nat) (b : ProxyBalancer) : list nat * ProxyBalancer :=
  match n with
  | O => ([], b)
  | S n' =>
      let '(i, b1) := next_index b in
      let '(l, b2) := run n' b1 in
      (i :: l, b2)
  end.

(** What [new] establishes and every call keeps. *)
Definition wf (b : ProxyBalancer) : Prop :=
  pb_targets b ≠ [] ∧ (0 ≤ next b ≤ u64_max)%Z.
End Balancer.
End Balancer.

Module Template.
Section Template.
Context `{HttpLib, GlobLib}.

(** [upstream_uri_template] of [settings/mod.rs]. *)
Definition upstream_uri_template (u : Uri) (strip_prefix : option string)
    : result error UpstreamUriTemplate :=
  let? authority := Res.of_option ["upstream URI has no authority"] (uri_authority u) in
  let? scheme := Res.of_option ["upstream URI has no scheme"] (uri_scheme u) in
  let base_path := if Str.is_empty (uri_path u) then "/" else uri_path u in
  Ok (mkUpstreamUriTemplate (scheme +:+ "://" +:+ authority) base_path strip_prefix).

(** The path and query after the strip-prefix step. *)
Definition strip_path (template : UpstreamUriTemplate) (req_uri : Uri) : string :=
  let path_and_query := default "/" (uri_path_and_query req_uri) in
  match t_strip_prefix template with
  | Some prefix => default path_and_query (Str.strip_prefix prefix path_and_query)
  | None => path_and_query
  end.

(** The base path of the upstream in front of it. *)
Definition merge_path (base_path path_and_query : string) : string :=
  if Str.is_empty base_path || String.eqb base_path "/" then path_and_query
  else Str.trim_end_char "/" base_path +:+ path_and_query.

(** [build_upstream_uri_from_template], which is [UpstreamUriTemplate::build]. *)
Definition build_upstream_uri_from_template
    (template : UpstreamUriTemplate) (req_uri : Uri) : result error Uri :=
  let path_and_query := strip_path template req_uri in
  let? path_and_query :=
    if Str.is_empty path_and_query then Ok "/"
    else if negb (Str.starts_with_char "/" path_and_query)
    then Err ["invalid path after strip-prefix: " +:+ path_and_query]
    else Ok path_and_query in
  let full := origin template +:+ merge_path (base_path template) path_and_query in
  Res.of_option ["invalid upstream URI: " +:+ full] (uri_parse full).

(** [upstream_uri_for_rule] of [proxy.rs]; the rule comes back with its counter moved. *)
Definition upstream_uri_for_rule (rule : ProxyRule) (req_uri : Uri)
    : result error Uri * ProxyRule :=
  let '(index, b) := Balancer.next_index (balancer rule) in
  let rule' := rule {{ balancer := b }} in
  (let? template :=
     Res.of_option ["proxy URI template index out of range"] (uri_templates rule !! index) in
   build_upstream_uri_from_template template req_uri, rule').
End Template.
End Template.

Module Compile.
Section Compile.
Context `{HttpLib, GlobLib}.

(** [parse_proxy_target_url]. *)
Definition parse_proxy_target_url (url context : string) : result error Uri :=
  let? target := Res.of_option ["invalid proxy target URL (" +:+ context +:+ "): " +:+ url]
                   (uri_parse (Str.trim url)) in
  match uri_scheme target with
  | None => Err ["proxy target must include a scheme (http:// or https://) ("
                   +:+ context +:+ "): " +:+ url]
  | Some _ =>
      match uri_authority target with
      | None => Err ["proxy target must include a host (" +:+ context +:+ "): " +:+ url]
      | Some _ => Ok target
      end
  end.

(** [iter().enumerate().map(..).collect()]. *)
Fixpoint parse_targets_from (i : nat) (source : string) (urls : list string)
    : result error (list Uri) :=
  match urls with
  | [] => Ok []
  | url :: urls' =>
      let? u := parse_proxy_target_url url (source +:+ "#" +:+ Str.of_uint (Z.of_nat i)) in
      let? us := parse_targets_from (S i) source urls' in
      Ok (u :: us)
  end.

Definition has_target (e : File.Proxy) : bool :=
  match File.target e with Some t => negb (Str.is_empty (Str.trim t)) | None => false end.
Definition has_targets (e : File.Proxy) : bool :=
  match File.targets e with Some (_ :: _) => true | _ => false end.

(** [compile_proxy_targets]; the [expect]s hold by the case split. *)
Definition compile_proxy_targets (e : File.Proxy) : result error (list Uri) :=
  match has_target e, has_targets e with
  | true, true =>
      Err ["proxy rule '" +:+ File.source e
             +:+ "' must use either `target` or `targets`, not both"]
  | false, false =>
      Err ["proxy rule '" +:+ File.source e +:+ "' must define `target` or `targets`"]
  | true, false =>
      let? u := parse_proxy_target_url (default "" (File.target e)) (File.source e) in
      Ok [u]
  | false, true => parse_targets_from 0 (File.source e) (default [] (File.targets e))
  end.

(** One iteration of the loop of [compile_proxy_rules]. *)
Definition compile_proxy_entry (e : File.Proxy) : result error ProxyRule :=
  let? source :=
    Res.of_option ["can not compile glob pattern for proxy source: " +:+ File.source e]
      (glob_new (File.source e)) in
  let? _ := match File.strip_prefix e with
            | Some prefix =>
                if negb (Str.starts_with_char "/" prefix)
                then Err ["proxy strip-prefix must start with '/': " +:+ prefix]
                else Ok ()
            | None => Ok ()
            end in
  let? upstreams := compile_proxy_targets e in
  let? uri_templates :=
    Res.mapM (λ u, Template.upstream_uri_template u (File.strip_prefix e)) upstreams in
  let? b := Balancer.new (File.name e) upstreams in
  Ok (mkProxyRule (File.host e) source b (File.strip_prefix e) uri_templates).

(** [compile_proxy_rules]: the loop pushes one rule per entry, the first error wins. *)
Definition compile_proxy_rules (entries : list File.Proxy) : result error (list ProxyRule) :=
  Res.mapM compile_proxy_entry entries.

(** A rule whose balancer and template list are aligned. *)
Definition rule_wf (r : ProxyRule) : Prop :=
  Balancer.wf (balancer r) ∧ length (uri_templates r) = length (pb_targets (balancer r)).

(** What a compiled rule has in common with the entry it comes from. *)
Definition rule_of (e : File.Proxy) (r : ProxyRule) : Prop :=
  pr_host r = File.host e ∧
  glob_new (File.source e) = Some (pr_source r) ∧
  pr_strip_prefix r = File.strip_prefix e ∧
  compile_proxy_targets e = Ok (pb_targets (balancer r)) ∧
  Forall2 (λ u t, Template.upstream_uri_template u (File.strip_prefix e) = Ok t)
    (pb_targets (balancer r)) (uri_templates r).

(** The entries the compiler accepts, stated on the entry alone. *)
Definition valid_url (url : string) : Prop :=
  ∃ u s a, uri_parse (Str.trim url) = Some u ∧ uri_scheme u = Some s ∧ uri_authority u = Some a.
Definition valid_entry (e : File.Proxy) : Prop :=
  (∃ g, glob_new (File.source e) = Some g) ∧
  (∀ p, File.strip_prefix e = Some p → Str.starts_with_char "/" p = true) ∧
  ((has_targets e = false ∧ has_target e = true ∧ valid_url (default "" (File.target e))) ∨
   (has_target e = false ∧ has_targets e = true ∧
    Forall valid_url (default [] (File.targets e)))).
End Compile.
End Compile.

Module Specificity.
(** [specificity_key]: the length in bytes and the number of wildcards. *)
Definition specificity_key (source : string) : nat * nat :=
  (String.length source, Str.count "*" source).

(** [key_b.cmp(&key_a)]: tuples compare lexicographically. *)
Definition cmp (a b : File.Proxy) : comparison :=
  let '(la, wa) := specificity_key (File.source a) in
  let '(lb, wb) := specificity_key (File.source b) in
  lex_compare (Nat.compare lb la) (Nat.compare wb wa).

Definition sort_proxy_defs_by_specificity (defs : list File.Proxy) : list File.Proxy :=
  Sort.sort_by cmp defs.

(** The source of [a] is at least as long as that of [b]. *)
Definition at_least_as_long (a b : File.Proxy) : Prop :=
  String.length (File.source b) ≤ String.length (File.source a).

(** The two sources have the same length and as many wildcards. *)
Definition same_key (a b : File.Proxy) : Prop :=
  specificity_key (File.source a) = specificity_key (File.source b).
End Specificity.

(** * Round robin *)

Section BalancerLemmas.
Context `{HttpLib}.
Implicit Types b : ProxyBalancer.

Lemma next_index_next b : next (Balancer.next_index b).2 = wrap64 (next b + 1).
Proof. by destruct b. Qed.
Lemma next_index_targets b : pb_targets (Balancer.next_index b).2 = pb_targets b.
Proof. by destruct b. Qed.

Lemma new_wf name targets b : Balancer.new name targets = Ok b → Balancer.wf b.
Proof.
  unfold Balancer.new. destruct targets; intros; simplify_eq. unfold Balancer.wf, u64_max. simpl.
  split; [done | lia].
Qed.

Lemma next_index_wf b : Balancer.wf b → Balancer.wf (Balancer.next_index b).2.
Proof.
  unfold Balancer.wf. rewrite next_index_next, next_index_targets. intros [? _].
  split; [done | apply wrap64_range].
Qed.

Lemma next_index_lt b :
  pb_targets b ≠ [] → (Balancer.next_index b).1 < length (pb_targets b).
Proof.
  intros Hne. unfold Balancer.next_index, Balancer.len. simpl.
  assert (length (pb_targets b) ≠ 0) by (by destruct (pb_targets b)).
  pose proof (Z.mod_pos_bound (next b) (Z.of_nat (length (pb_targets b)))). lia.
Qed.

(** As long as the counter does not wrap, the indices are consecutive residues. *)
Lemma run_spec n b :
  (0 ≤ next b)%Z → (next b + Z.of_nat n ≤ u64_max)%Z →
  (Balancer.run n b).1 = residues (next b) (Balancer.len b) n ∧
  next (Balancer.run n b).2 = (next b + Z.of_nat n)%Z ∧
  pb_targets (Balancer.run n b).2 = pb_targets b.
Proof.
  revert b. induction n as [|n IH]; intros b H0 Hn.
  - simpl. split_and!; [done | lia | done].
  - cbn [Balancer.run]. destruct (Balancer.next_index b) as [i b1] eqn:E.
    assert (b1 = (Balancer.next_index b).2) as Hb1 by by rewrite E.
    assert (next b1 = next b + 1)%Z as Hnx.
    { rewrite Hb1, next_index_next. apply wrap64_small. lia. }
    assert (pb_targets b1 = pb_targets b) as Htg by by rewrite Hb1, next_index_targets.
    destruct (IH b1) as (Hl & Hnext & Ht); [lia..|].
    destruct (Balancer.run n b1) as [l b2]. simpl in *. rewrite Hnext, Ht, Hl.
    split_and!; [|lia|congruence]. unfold residues. cbn [seq]. rewrite <- (fmap_S_seq 0 n).
    cbn [fmap list_fmap]. f_equal.
    + unfold Balancer.next_index in E. simplify_eq. unfold Balancer.len. do 2 f_equal. lia.
    + rewrite <- list_fmap_compose. apply list_fmap_ext. intros k x _. simpl.
      unfold Balancer.len. rewrite Htg, Hnx. do 2 f_equal. lia.
Qed.

Lemma residues_app c n m1 m2 :
  residues c n (m1 + m2) = residues c n m1 ++ residues (c + Z.of_nat m1) n m2.
Proof.
  unfold residues. rewrite seq_app, fmap_app. f_equal. simpl.
  replace m1 with (m1 + 0) at 1 by lia. rewrite <- fmap_add_seq, <- list_fmap_compose.
  apply list_fmap_ext. intros k x _. simpl. do 2 f_equal. lia.
Qed.

Definition occurrences (j : nat) (l : list nat) : nat := length (filter (j =.) l).

Lemma residues_count c n k j :
  j < n → occurrences j (residues c n (k * n)) = k.
Proof.
  intros Hj. revert c. induction k as [|k IH]; intros c; [done|].
  cbn [Nat.mul]. rewrite residues_app. unfold occurrences in *.
  rewrite filter_app, length_app, IH.
  rewrite (residues_perm c n) by lia.
  replace (seq 0 n) with (seq 0 j ++ seq j (n - j)) by (rewrite <- seq_app; f_equal; lia).
  replace (n - j) with (S (n - j - 1)) by lia. cbn [seq].
  rewrite filter_app, filter_cons_True by done.
  rewrite !filter_none; [done|..].
  all: intros x Hx%elem_of_seq; lia.
Qed.
End BalancerLemmas.

(** C10. Round robin is fair: from any reachable counter, [k * n] consecutive selections on a
    balancer with [n] targets pick every target exactly [k] times (as long as the 64-bit
    counter does not wrap inside the run), and leave the balancer well formed. *)
Theorem round_robin_fair `{HttpLib} (b : ProxyBalancer) (k j : nat)
    (Hwf : Balancer.wf b)
    (Hcount : (next b + Z.of_nat (k * Balancer.len b) ≤ u64_max)%Z)
    (Hj : j < Balancer.len b) :
  occurrences j (Balancer.run (k * Balancer.len b) b).1 = k ∧
  Balancer.wf (Balancer.run (k * Balancer.len b) b).2.
Proof.
  destruct Hwf as [Hne Hnext].
  destruct (run_spec (k * Balancer.len b) b) as (-> & Hn & Ht); [lia..|].
  split; [by apply residues_count|].
  split; [by rewrite Ht | rewrite Hn; lia].
Qed.

Lemma round_robin_fair_witness :
  let b := mkProxyBalancer None [RefUri.mk None None None; RefUri.mk None None None] 7 in
  occurrences 1 (Balancer.run 4 b).1 = 2.
Proof.
  intros b. apply (round_robin_fair b 2 1).
  - split; [done | by vm_compute].
  - by vm_compute.
  - vm_compute. lia.
Defined.

(** * Compilation *)

Section CompileLemmas.
Context `{HttpLib, GlobLib}.

Lemma parse_target_Ok url ctx u :
  Compile.parse_proxy_target_url url ctx = Ok u ↔
  uri_parse (Str.trim url) = Some u ∧ is_Some (uri_scheme u) ∧ is_Some (uri_authority u).
Proof.
  unfold Compile.parse_proxy_target_url. rewrite bind_Ok. setoid_rewrite of_option_Ok. split.
  - intros (v & Hv & Hk). destruct (uri_scheme v) eqn:?, (uri_authority v) eqn:?; simplify_eq.
    repeat split; eauto.
  - intros (Hv & [s Hs] & [a Ha]). exists u. by rewrite Hs, Ha.
Qed.

Lemma valid_url_parse url ctx :
  Compile.valid_url url ↔ ∃ u, Compile.parse_proxy_target_url url ctx = Ok u.
Proof.
  setoid_rewrite parse_target_Ok. unfold Compile.valid_url, is_Some. naive_solver.
Qed.

Lemma parse_targets_length i src urls us :
  Compile.parse_targets_from i src urls = Ok us → length us = length urls.
Proof.
  revert i us. induction urls as [|url urls IH]; intros i us; simpl; intros Hp; inv_res; [done|].
  simpl. eauto.
Qed.

Lemma parse_targets_valid i src urls :
  Forall Compile.valid_url urls ↔ ∃ us, Compile.parse_targets_from i src urls = Ok us.
Proof.
  revert i. induction urls as [|url urls IH]; intros i; simpl.
  - split; [eauto | constructor].
  - rewrite Forall_cons, (IH (S i)).
    rewrite (valid_url_parse url (src +:+ "#" +:+ Str.of_uint (Z.of_nat i))). split.
    + intros [[u Hu] [us Hus]]. exists (u :: us). by rewrite Hu, Hus.
    + intros [us Hus]. inv_res. eauto.
Qed.

(** Every target the compiler accepts has a scheme and an authority. *)
Lemma targets_parsed e us :
  Compile.compile_proxy_targets e = Ok us →
  us ≠ [] ∧ Forall (λ u, is_Some (uri_scheme u) ∧ is_Some (uri_authority u)) us.
Proof.
  unfold Compile.compile_proxy_targets.
  destruct (Compile.has_target e), (Compile.has_targets e) eqn:Hts; try done.
  - intros Hp. inv_res. apply parse_target_Ok in Ha as (_ & ?). split; [done|]. by constructor.
  - unfold Compile.has_targets in Hts. destruct (File.targets e) as [[|url urls]|]; try done.
    simpl. intros Hp. split.
    + apply (parse_targets_length 0 (File.source e) (url :: urls)) in Hp. by destruct us.
    + change (Compile.parse_targets_from 0 (File.source e) (url :: urls) = Ok us) in Hp.
      clear Hts. revert Hp. generalize 0 as i. generalize (url :: urls) as l. intros l.
      revert us. induction l as [|x l IH]; intros us i; simpl; intros Hp; inv_res; [done|].
      constructor; [by apply parse_target_Ok in Ha as (_ & ?) | eauto].
Qed.

Lemma template_total u p :
  is_Some (uri_scheme u) → is_Some (uri_authority u) →
  ∃ t, Template.upstream_uri_template u p = Ok t.
Proof. intros [s Hs] [a Ha]. unfold Template.upstream_uri_template. rewrite Hs, Ha. by eexists. Qed.

Lemma compile_entry_rule_of e r :
  Compile.compile_proxy_entry e = Ok r →
  Compile.rule_of e r ∧ Compile.rule_wf r ∧ next (balancer r) = 0%Z.
Proof.
  unfold Compile.compile_proxy_entry. intros Hc. inv_res.
  match goal with Hm : Res.mapM _ _ = Ok _, Hn : Balancer.new _ _ = Ok _ |- _ =>
    apply mapM_Ok in Hm; rename Hm into Hmap; rename Hn into Hnew end.
  pose proof (new_wf _ _ _ Hnew) as Hwf.
  unfold Balancer.new in Hnew. destruct a1 as [|u us]; [done|]. simplify_eq.
  split; [by repeat split|]. split; [|done]. split; [done|]. simpl.
  by apply Forall2_length in Hmap.
Qed.

Lemma compile_entry_total e :
  Compile.valid_entry e ↔ ∃ r, Compile.compile_proxy_entry e = Ok r.
Proof.
  unfold Compile.valid_entry, Compile.compile_proxy_entry. split.
  - intros ([g Hg] & Hpre & Hts). rewrite Hg. simpl.
    assert (∃ us, Compile.compile_proxy_targets e = Ok us) as [us Hus].
    { unfold Compile.compile_proxy_targets. destruct Hts as [(-> & -> & Hv)|(-> & -> & Hv)].
      - apply (valid_url_parse _ (File.source e)) in Hv as [u ->]. by eexists.
      - by apply (parse_targets_valid 0 (File.source e)). }
    destruct (targets_parsed e us Hus) as [Hne Hall].
    assert (∃ ts, Res.mapM (λ u, Template.upstream_uri_template u (File.strip_prefix e)) us = Ok ts)
      as [ts Hts'].
    { clear -Hall. induction Hall as [|u us [Hs Ha] _ [ts IH]]; simpl; [by eexists|].
      destruct (template_total u (File.strip_prefix e) Hs Ha) as [t ->]. rewrite IH. by eexists. }
    destruct us as [|u us]; [done|].
    destruct (File.strip_prefix e) as [p|] eqn:Hp.
    + rewrite (Hpre p) by done. simpl. rewrite Hus. simpl in *. rewrite Hts'. by eexists.
    + simpl. rewrite Hus. simpl in *. rewrite Hts'. by eexists.
  - intros [r Hc]. inv_res. split; [eauto|]. split.
    + intros p Hp. rewrite Hp in *. by destruct (Str.starts_with_char "/" p).
    + match goal with Ht : Compile.compile_proxy_targets e = _ |- _ => revert Ht end.
      unfold Compile.compile_proxy_targets.
      destruct (Compile.has_target e), (Compile.has_targets e); intros Ht; try done.
      * left. inv_res. split_and!; [done..|]. by apply (valid_url_parse _ (File.source e)); eauto.
      * right. split_and!; [done..|]. apply (parse_targets_valid 0 (File.source e)). eauto.
Qed.

Lemma compile_rules_of entries rules :
  Compile.compile_proxy_rules entries = Ok rules →
  Forall2 Compile.rule_of entries rules ∧
  Forall (λ r, Compile.rule_wf r ∧ next (balancer r) = 0%Z) rules.
Proof.
  intros Hok. apply mapM_Ok in Hok. split.
  - eapply Forall2_impl; [exact Hok|]. intros e r Hr. by apply compile_entry_rule_of.
  - induction Hok as [|e r es rs Hr _ IH]; constructor; [|done].
    by apply (compile_entry_rule_of e).
Qed.
End CompileLemmas.

(** C35. The compiler of proxy rules: it succeeds exactly on lists of valid entries (the glob
    compiles, the strip-prefix starts with a slash, exactly one of [target]/[targets] is given
    and every URL has a scheme and a host); each rule then carries its entry's host, glob and
    prefix, a fresh balancer over the parsed targets, and one URI template per target. *)
Theorem compile_proxy_rules_spec `{HttpLib, GlobLib} (entries : list File.Proxy) :
  (Res.is_ok (Compile.compile_proxy_rules entries) = true ↔ Forall Compile.valid_entry entries) ∧
  ∀ rules, Compile.compile_proxy_rules entries = Ok rules →
    Forall2 Compile.rule_of entries rules ∧
    Forall (λ r, Compile.rule_wf r ∧ next (balancer r) = 0%Z) rules.
Proof.
  split; [|apply compile_rules_of].
  unfold Compile.compile_proxy_rules. induction entries as [|e entries IH]; simpl.
  - by split; constructor.
  - rewrite Forall_cons, compile_entry_total, <- IH.
    destruct (Compile.compile_proxy_entry e); simpl; [|naive_solver].
    destruct (Res.mapM _ entries); simpl; naive_solver.
Qed.

(** * Selecting an upstream URI *)

Lemma upstream_uri_for_rule_snd `{HttpLib, GlobLib} (rule : ProxyRule) req_uri :
  (Template.upstream_uri_for_rule rule req_uri).2 =
    rule {{ balancer := (Balancer.next_index (balancer rule)).2 }}.
Proof. done. Qed.

Lemma upstream_uri_for_rule_wf `{HttpLib, GlobLib} (rule : ProxyRule) req_uri :
  Compile.rule_wf rule → Compile.rule_wf (Template.upstream_uri_for_rule rule req_uri).2.
Proof.
  intros [Hb Hlen]. rewrite upstream_uri_for_rule_snd. destruct rule as [h g b s ts].
  split; simpl in *; [by apply next_index_wf | by rewrite Hlen].
Qed.

(** A compiled rule always finds the template of the target its balancer selects: the
    "template index out of range" error of [upstream_uri_for_rule] is unreachable at every
    counter value (the wrap-around included), and the rule stays aligned for the next request. *)
Theorem upstream_uri_for_rule_in_range `{HttpLib, GlobLib} (rule : ProxyRule) (req_uri : Uri)
    (Hwf : Compile.rule_wf rule) :
  ∃ i u t,
    pb_targets (balancer rule) !! i = Some u ∧ uri_templates rule !! i = Some t ∧
    Template.upstream_uri_for_rule rule req_uri =
      (Template.build_upstream_uri_from_template t req_uri,
       rule {{ balancer := (balancer rule) {{ next := wrap64 (next (balancer rule) + 1) }} }}) ∧
    Compile.rule_wf (Template.upstream_uri_for_rule rule req_uri).2.
Proof.
  pose proof Hwf as [Hb Hlen].
  pose proof (next_index_lt (balancer rule) (proj1 Hb)) as Hlt.
  set (i := (Balancer.next_index (balancer rule)).1) in *.
  destruct (lookup_lt_is_Some_2 (pb_targets (balancer rule)) i) as [u Hu]; [done|].
  destruct (lookup_lt_is_Some_2 (uri_templates rule) i) as [t Ht]; [lia|].
  exists i, u, t. split_and!; [done..| |].
  - unfold Template.upstream_uri_for_rule. unfold i, Balancer.next_index in *. simpl in *.
    by rewrite Ht.
  - by apply upstream_uri_for_rule_wf.
Qed.

Lemma strip_prefix_append p s : Str.strip_prefix p (p +:+ s) = Some s.
Proof. induction p as [|c p IH]; simpl; [done|]. by rewrite Ascii.eqb_refl. Qed.

(** Strip-prefix is textual, on path and query: what is left after the prefix must be empty
    (the upstream then gets the base path and a slash) or start with a slash; anything else (the
    rest of a longer segment, or a query right after the prefix) is an error, whatever the
    upstream. *)
Theorem strip_prefix_cases `{HttpLib} (t : UpstreamUriTemplate) (req_uri : Uri) (prefix rest : string)
    (Ht : t_strip_prefix t = Some prefix)
    (Hpq : uri_path_and_query req_uri = Some (prefix +:+ rest)) :
  Template.build_upstream_uri_from_template t req_uri =
    if Str.is_empty rest || Str.starts_with_char "/" rest
    then let full := origin t +:+
                     Template.merge_path (base_path t) (if Str.is_empty rest then "/" else rest) in
         Res.of_option ["invalid upstream URI: " +:+ full] (uri_parse full)
    else Err ["invalid path after strip-prefix: " +:+ rest].
Proof.
  unfold Template.build_upstream_uri_from_template, Template.strip_path.
  rewrite Ht, Hpq. simpl. rewrite strip_prefix_append. simpl.
  destruct rest as [|c rest]; simpl; [done|]. by destruct (Ascii.eqb c "/").
Qed.

Lemma strip_prefix_cases_witness :
  Template.build_upstream_uri_from_template
    (mkUpstreamUriTemplate "http://127.0.0.1:3000" "/v1/" (Some "/api"))
    (RefUri.mk None None (Some "/api?x=1")) = Err ["invalid path after strip-prefix: ?x=1"].
Proof.
  rewrite (strip_prefix_cases _ _ "/api" "?x=1"); [reflexivity..].
Defined.

(** * Specificity *)

#[export] Instance specificity_laws : Sort.Laws Specificity.cmp.
Proof.
  unfold Specificity.cmp, Specificity.specificity_key. split.
  - intros x y. unfold lex_compare.
    destruct (Nat.compare_spec (String.length (File.source y)) (String.length (File.source x)));
    destruct (Nat.compare_spec (String.length (File.source x)) (String.length (File.source y)));
      try lia; try done.
    rewrite Nat.compare_gt_iff, Nat.compare_lt_iff. lia.
  - intros x y z. unfold Sort.le, lex_compare. 
    destruct (Nat.compare_spec (String.length (File.source y)) (String.length (File.source x)));
    destruct (Nat.compare_spec (String.length (File.source z)) (String.length (File.source y)));
    destruct (Nat.compare_spec (String.length (File.source z)) (String.length (File.source x)));
      rewrite ?Nat.compare_le_iff; try done; lia.
Qed.

Lemma specificity_le a b : Sort.le Specificity.cmp a b → Specificity.at_least_as_long a b.
Proof.
  unfold Sort.le, Specificity.cmp, Specificity.specificity_key, lex_compare,
    Specificity.at_least_as_long.
  destruct (Nat.compare_spec (String.length (File.source b)) (String.length (File.source a)));
    try lia; done.
Qed.

Lemma sort_defs_perm defs : Specificity.sort_proxy_defs_by_specificity defs ≡ₚ defs.
Proof. apply Sort.sort_perm. Qed.

Lemma sort_defs_sorted defs :
  StronglySorted Specificity.at_least_as_long (Specificity.sort_proxy_defs_by_specificity defs).
Proof.
  pose proof (Sort.sort_sorted Specificity.cmp defs) as Hs.
  unfold Specificity.sort_proxy_defs_by_specificity.
  induction Hs as [|x l Hs IH Hall]; constructor; [done|].
  eapply Forall_impl; [exact Hall|]. intros y. apply specificity_le.
Qed.

Lemma sort_defs_stable defs key :
  filter (λ d, Specificity.specificity_key (File.source d) = key)
    (Specificity.sort_proxy_defs_by_specificity defs) =
  filter (λ d, Specificity.specificity_key (File.source d) = key) defs.
Proof.
  apply Sort.sort_stable. intros y z Hy Hz. unfold Specificity.cmp.
  rewrite Hy, Hz. destruct key. unfold lex_compare. by rewrite !Nat.compare_refl.
Qed.

(** The first element of a filtered list that satisfies [Q] is, in the list itself, the first of
    those the filter keeps. *)
Lemma first_filtered {A} (K Q : A → Prop) `{!∀ x, Decision (K x)} l a d b :
  filter K l = a ++ d :: b → (∀ x, x ∈ a → ¬ Q x) →
  ∃ k, l !! k = Some d ∧ ∀ k' x, k' < k → l !! k' = Some x → K x → ¬ Q x.
Proof.
  revert a. induction l as [|y l IH]; intros a Hf Ha; [by destruct a|].
  destruct (decide (K y)) as [Hy|Hy].
  - rewrite filter_cons_True in Hf by done. destruct a as [|z a]; simplify_eq/=.
    { exists 0. split; [done|lia]. }
    destruct (IH a) as (k & Hk & Hlt); [done|set_solver|]. exists (S k). split; [done|].
    intros [|k'] x Hlt' Hx Hkx; simplify_eq/=; [set_solver|]. apply (Hlt k' x); [lia|done..].
  - rewrite filter_cons_False in Hf by done.
    destruct (IH a Hf Ha) as (k & Hk & Hlt). exists (S k). split; [done|].
    intros [|k'] x Hlt' Hx Hkx; simplify_eq/=; [done|]. apply (Hlt k' x); [lia|done..].
Qed.

(** The first entry of the sorted definitions with a property is the first of the configuration
    among the entries of its key with that property. *)
Lemma sort_defs_first (Q : File.Proxy → Prop) defs k d :
  Specificity.sort_proxy_defs_by_specificity defs !! k = Some d →
  (∀ k' d', k' < k → Specificity.sort_proxy_defs_by_specificity defs !! k' = Some d' → ¬ Q d') →
  ∃ n, defs !! n = Some d ∧
       ∀ n' d', n' < n → defs !! n' = Some d' → Specificity.same_key d' d → ¬ Q d'.
Proof.
  intros Hk Hfirst. set (sorted := Specificity.sort_proxy_defs_by_specificity defs) in *.
  apply (first_filtered
           (λ x, Specificity.specificity_key (File.source x) =
                 Specificity.specificity_key (File.source d)) Q defs
           (filter (λ x, Specificity.specificity_key (File.source x) =
                         Specificity.specificity_key (File.source d)) (take k sorted)) d
           (filter (λ x, Specificity.specificity_key (File.source x) =
                         Specificity.specificity_key (File.source d)) (drop (S k) sorted))).
  - rewrite <- sort_defs_stable. fold sorted. rewrite <- (take_drop_middle sorted k d) at 1 by done.
    by rewrite filter_app, filter_cons_True.
  - intros x [_ Hx]%list_elem_of_filter. apply list_elem_of_lookup in Hx as [k' Hk'].
    apply lookup_take_Some in Hk' as [Hk' Hlt]. by apply (Hfirst k').
Qed.

(** C36. [sort_proxy_defs_by_specificity] is a stable sort by length: a permutation of the
    definitions in which longer sources come first, and in which entries whose sources agree in
    length and in the number of their wildcards keep their configuration order.  The theorem
    leaves open the order of entries of one length with different numbers of wildcards: there the
    code and its comment disagree ([more_wildcards_first]). *)
Theorem sort_proxy_defs_spec (defs : list File.Proxy) :
  Specificity.sort_proxy_defs_by_specificity defs ≡ₚ defs ∧
  StronglySorted Specificity.at_least_as_long
    (Specificity.sort_proxy_defs_by_specificity defs) ∧
  ∀ key, filter (λ d, Specificity.specificity_key (File.source d) = key)
           (Specificity.sort_proxy_defs_by_specificity defs) =
         filter (λ d, Specificity.specificity_key (File.source d) = key) defs.
Proof. split_and!; [apply sort_defs_perm | apply sort_defs_sorted | apply sort_defs_stable]. Qed.

(** The tie break of the code: at equal length the source with more wildcards goes first; the
    comment of the function and [docs/routes-bootstrap-v1.md] say fewer. *)
Example more_wildcards_first :
  File.source <$> Specificity.sort_proxy_defs_by_specificity
    [File.mkProxy None None "/api/v1" None None None; File.mkProxy None None "/api/**" None None None]
  = ["/api/**"; "/api/v1"].
Proof. reflexivity. Qed.
