(* ===== verification/Routes.v ===== *)
(** Where proxy rules come from: [routes/document.rs], [routes/bootstrap.rs], the client of
    [proxy_client.rs], the TLS settings of [settings/mod.rs], and [resolve_rules] and [init] of
    [proxy.rs].

    The environment, the network and the JSON codec are parameters.  Writing the snapshot is the
    sequence of file operations it performs. *)
From Stdlib Require Import ZArith Lia Ascii String.
From stdpp Require Import base list strings gmap.
From coqutil Require Import Datatypes.RecordSetters.
Import DoubleBraceUpdate.
From S2P Require Import Prelude Http Libs RefLibs Path Fs Opts Balancer.
Local Open Scope string_scope.
Local Open Scope list_scope.
Local Open Scope nat_scope.

(** * [routes/document.rs] *)

Module Document.

Record RouteEntry := mkRouteEntry {
  name : option string;
  host : option string;
  source : string;
  target : option string;
  targets : option (list string);
  strip_prefix : option string;
}.
Record AppRoutes := mkAppRoutes { id : string; routes : list RouteEntry }.
Record RoutesDocument := mkRoutesDocument { version : Z; apps : list AppRoutes }.

(** [validate_route_source]. *)
Definition validate_route_source (source app_id : string) : result error unit :=
  if negb (Str.starts_with_char "/" source)
  then Err ["routes bootstrap: source must start with '/' (app=" +:+ app_id +:+ "): " +:+ source]
  else if Str.contains ".." source
  then Err ["routes bootstrap: source must not contain '..' (app=" +:+ app_id +:+ "): " +:+ source]
  else Ok ().

(** One iteration of the inner loop. *)
Definition convert_route (app_id : string) (route : RouteEntry) : result error File.Proxy :=
  let? _ := validate_route_source (source route) app_id in
  let? _ := match strip_prefix route with
            | Some prefix =>
                if negb (Str.starts_with_char "/" prefix)
                then Err ["routes bootstrap: strip-prefix must start with '/' (app=" +:+ app_id
                            +:+ ", source=" +:+ source route +:+ ")"]
                else Ok ()
            | None => Ok ()
            end in
  Ok (File.mkProxy (name route) (host route) (source route) (target route) (targets route)
        (strip_prefix route)).

(** The two loops. *)
Fixpoint convert_apps (apps : list AppRoutes) : result error (list File.Proxy) :=
  match apps with
  | [] => Ok []
  | app :: apps' =>
      let? ds := Res.mapM (convert_route (id app)) (routes app) in
      let? rest := convert_apps apps' in
      Ok (ds ++ rest)
  end.

(** [RoutesDocument::into_proxy_defs]. *)
Definition into_proxy_defs (d : RoutesDocument) : result error (list File.Proxy) :=
  if negb (version d =? 1)%Z
  then Err ["routes bootstrap: unsupported document version " +:+ Str.of_uint (version d)
              +:+ " (expected 1)"]
  else convert_apps (apps d).

(** What is accepted, and what comes out, stated on the document. *)
Definition valid_route (r : RouteEntry) : Prop :=
  Str.starts_with_char "/" (source r) = true ∧ Str.contains ".." (source r) = false ∧
  ∀ p, strip_prefix r = Some p → Str.starts_with_char "/" p = true.
Definition proxy_of (r : RouteEntry) : File.Proxy :=
  File.mkProxy (name r) (host r) (source r) (target r) (targets r) (strip_prefix r).
Definition all_routes (d : RoutesDocument) : list RouteEntry := flat_map routes (apps d).
End Document.

(** * [proxy_client.rs] and the TLS settings *)

Module Client.
Section Client.
Context (fs : Fs.t) (env : string → option string).
(** [rustls_pemfile::certs], and [RootCertStore::add] accepting a certificate. *)
Context (pem_certs : string → option (list string)) (root_add : string → bool).

(** [load_pem_ca_file]: the certificates it adds. *)
Definition load_pem_ca_file (path : Path.t) (roots : bool * list string)
    : result error (bool * list string) :=
  let? data := Res.of_option ["proxy-tls: cannot open CA file " +:+ Path.text path]
                 (Res.ok (Fs.read fs path)) in
  let? der_certs := Res.of_option ["proxy-tls: cannot read PEM from CA file " +:+ Path.text path]
                      (pem_certs data) in
  match der_certs with
  | [] => Err ["proxy-tls: no certificates found in CA file " +:+ Path.text path]
  | _ =>
      if forallb root_add der_certs then Ok (fst roots, snd roots ++ der_certs)
      else Err ["invalid certificate"]
  end.

Fixpoint load_files (paths : list Path.t) (roots : bool * list string)
    : result error (bool * list string) :=
  match paths with
  | [] => Ok roots
  | path :: paths' => let? roots := load_pem_ca_file path roots in load_files paths' roots
  end.

(** [load_root_cert_store]: whether the public roots are in, and the added certificates. *)
Definition load_root_cert_store (tls : ProxyTlsSettings) : result error (bool * list string) :=
  let? roots := load_files (tls_ca_files tls) (use_webpki_roots tls, []) in
  if negb (fst roots) && (length (snd roots) =? 0)%nat
  then Err ["proxy-tls: no trust anchors loaded"] else Ok roots.

(** [build_https_connector]: [None] for the bundled roots alone. *)
Definition build_https_connector (tls : ProxyTlsSettings)
    : result error (option (bool * list string)) :=
  match tls_ca_files tls with
  | [] => Ok None
  | _ => Res.map Some (load_root_cert_store tls)
  end.

(** [build_proxy_client] and [build_bootstrap_client]. *)
Definition build_proxy_client (settings : ProxySettings) : result error ProxyHttpClient :=
  let? https := build_https_connector (tls settings) in
  Ok (mkProxyHttpClient (Some (pool_idle_timeout_secs settings)) true
        (Some (pool_max_idle_per_host settings)) (Some (pool_idle_timeout_secs settings)) https).
Definition build_bootstrap_client (tls : ProxyTlsSettings) : result error ProxyHttpClient :=
  let? https := build_https_connector tls in
  Ok (mkProxyHttpClient None false None None https).

(** [expand_tls_path]. *)
Definition expand_tls_path (path : Path.t) : result error Path.t :=
  let s := Utf8.lossy (Path.text path) in
  match Str.strip_prefix "~/" s with
  | Some rest =>
      let? home := Res.of_option ["proxy-tls: cannot expand '~/' (HOME not set)"] (env "HOME") in
      Ok (Path.push (Path.parse home) (Path.parse rest))
  | None =>
      if String.eqb s "~"
      then Res.map Path.parse
             (Res.of_option ["proxy-tls: cannot expand '~' (HOME not set)"] (env "HOME"))
      else Ok path
  end.

(** [ProxyTlsSettings::from_file]. *)
Definition from_file (file : File.ProxyTls) : result error ProxyTlsSettings :=
  let? one := match File.ca_file file with
              | Some path => Res.map (λ p, [p]) (expand_tls_path path)
              | None => Ok []
              end in
  let? more := match File.ca_files file with
               | Some paths => Res.mapM expand_tls_path paths
               | None => Ok []
               end in
  let ca_files := one ++ more in
  let use_webpki_roots := negb (default false (File.disable_webpki_roots file)) in
  if negb use_webpki_roots && (length ca_files =? 0)%nat
  then Err ["proxy-tls: disable-webpki-roots requires ca-file or ca-files (e.g. mkcert rootCA.pem)"]
  else match List.find (λ p, negb (Fs.is_file fs p)) ca_files with
       | Some path => Err ["proxy-tls: CA file not found or not a regular file: " +:+ Path.text path]
       | None => Ok (mkProxyTlsSettings ca_files use_webpki_roots)
       end.
End Client.
End Client.

(** * [routes/bootstrap.rs] *)

(** The operations of [write_cache]. *)
Inductive FsOp :=
| CreateDirAll (dir : Path.t)
| WriteFile (path : Path.t) (data : string)
| Rename (src dest : Path.t).

Module Bootstrap.
Section Bootstrap.
Context `{HttpLib, CodecLib}.
Context (fs : Fs.t) (env : string → option string).
Context (pem_certs : string → option (list string)) (root_add : string → bool).
(** [serde_json] for a document, and which file operations succeed. *)
Context (json_encode : Document.RoutesDocument → string)
        (json_decode : string → option Document.RoutesDocument) (op_ok : FsOp → bool).
(** What the control plane answers to a request; [None] when the timeout comes first. *)
Context (control_plane : ProxyHttpClient → Request → option (result error Response)).

(** [build_bootstrap_uri]. *)
Definition build_bootstrap_uri (base : string) (client_id : option string)
    (weavegate_version : string) : result error Uri :=
  let sep := if Str.mem "?" base then "&" else "?" in
  let url := base +:+ sep +:+ "weavegate=" +:+ form_byte_serialize weavegate_version in
  let url := match client_id with
             | Some client => if Str.is_empty client then url
                              else url +:+ "&" +:+ "client=" +:+ form_byte_serialize client
             | None => url
             end in
  Res.of_option ["routes bootstrap: invalid URL: " +:+ url] (uri_parse url).

(** The request of [http_fetch_document]. *)
Definition bootstrap_request (config : File.RoutesBootstrap) (weavegate_version : string)
    : result error Request :=
  let? uri := build_bootstrap_uri (File.url config) (File.client_id config) weavegate_version in
  let headers := hm_insert "user-agent" ("weavegate/" +:+ weavegate_version)
                   (hm_insert "accept" "application/json" hm_empty) in
  let? headers :=
    match File.token_env config with
    | None => Ok headers
    | Some env_name =>
        let? token := Res.of_option
                        ["routes bootstrap: environment variable '" +:+ env_name +:+ "' is not set"]
                        (env env_name) in
        if Str.is_empty token then Ok headers
        else let v := "Bearer " +:+ token in
             if hv_valid v then Ok (hm_insert "authorization" v headers)
             else Err ["failed to parse header value"]
    end in
  Ok (mkRequest "GET" uri headers BodyEmpty).

(** [http_fetch_document]: [None] when the timeout comes first. *)
Definition http_fetch_document (config : File.RoutesBootstrap) (weavegate_version : string)
    (tls : ProxyTlsSettings) : option (result error Document.RoutesDocument) :=
  match
    (let? _ := build_bootstrap_uri (File.url config) (File.client_id config) weavegate_version in
     let? client := Client.build_bootstrap_client fs pem_certs root_add tls in
     let? req := bootstrap_request config weavegate_version in Ok (client, req))
  with
  | Err e => Some (Err e)
  | Ok (client, req) =>
      match control_plane client req with
      | None => None
      | Some answer =>
          Some
            (let? resp := Res.context "routes bootstrap HTTP request failed" answer in
             if negb ((200 <=? rs_status resp) && (rs_status resp <? 300))%Z
             then Err ["routes bootstrap: control plane returned HTTP "
                         +:+ status_display (rs_status resp)]
             else
               let? body := Res.of_option ["routes bootstrap: failed to read response body"]
                              (body_bytes (rs_body resp)) in
               Res.of_option ["routes bootstrap: invalid JSON response"] (json_decode body))
      end
  end.

(** Operations run until the first failure: those attempted, and whether all succeeded. *)
Fixpoint run_ops (ops : list FsOp) : list FsOp * bool :=
  match ops with
  | [] => ([], true)
  | op :: ops' =>
      if op_ok op then let '(done_, ok) := run_ops ops' in (op :: done_, ok) else ([op], false)
  end.

(** [write_cache]. *)
Definition write_cache (path : Path.t) (doc : Document.RoutesDocument) : list FsOp * bool :=
  let json := json_encode doc in
  let parent := match Path.parent path with
                | Some [] | None => []
                | Some dir => [CreateDirAll dir]
                end in
  let tmp := Path.with_extension "tmp" path in
  run_ops (parent ++ [WriteFile tmp json; Rename tmp path]).

(** [read_cache]. *)
Definition read_cache (path : Path.t) : result error Document.RoutesDocument :=
  let? data := Res.of_option ["routes bootstrap: cannot read cache " +:+ Path.text path]
                 (Res.ok (Fs.read fs path)) in
  Res.of_option ["routes bootstrap: invalid cache JSON"] (json_decode data).

Definition on_failure (config : File.RoutesBootstrap) : RoutesBootstrapOnFailure :=
  default RoutesBootstrapOnFailure_default (File.on_failure config).

(** [handle_fetch_failure]; a cache that reads but does not convert is an error. *)
Definition handle_fetch_failure (config : File.RoutesBootstrap) (err : error)
    : result error (option (list File.Proxy)) :=
  let fallback :=
    match on_failure config with
    | Fail => Err ["routes bootstrap: fetch failed and no cache available: " +:+ Str.join ": " err]
    | CacheThenFile | FileOnly => Ok None
    end in
  match File.cache_path config with
  | Some cache_path =>
      match read_cache cache_path with
      | Ok doc => let? defs := Document.into_proxy_defs doc in Ok (Some defs)
      | Err _ => fallback
      end
  | None => fallback
  end.

(** [fetch_routes_defs]: the result and the file operations performed. *)
Definition fetch_routes_defs (config : File.RoutesBootstrap) (weavegate_version : string)
    (tls : ProxyTlsSettings) : result error (option (list File.Proxy)) * list FsOp :=
  match on_failure config with
  | FileOnly => (Ok None, [])
  | _ =>
      match http_fetch_document config weavegate_version tls with
      | Some (Ok doc) =>
          let ops := match File.cache_path config with
                     | Some cache_path => fst (write_cache cache_path doc)
                     | None => []
                     end in
          (let? defs := Document.into_proxy_defs doc in Ok (Some defs), ops)
      | Some (Err err) => (handle_fetch_failure config err, [])
      | None => (handle_fetch_failure config ["routes bootstrap request timed out"], [])
      end
  end.

(** * [proxy.rs]: [resolve_rules] and [init] *)

Section Rules.
Context `{GlobLib, RegexLib}.
Context (weavegate_version : string).

(** [resolve_rules]. *)
Definition resolve_rules (advanced : option Advanced)
    : result error (option Advanced) * list FsOp :=
  match advanced with
  | None => (Ok None, [])
  | Some adv =>
      match proxies adv with
      | Some _ => (Ok (Some adv), [])
      | None =>
          let defs := default [] (proxy_defs adv) in
          let '(remote, ops) :=
            match routes_bootstrap adv with
            | Some bootstrap =>
                fetch_routes_defs bootstrap weavegate_version (tls (adv_proxy_settings adv))
            | None => (Ok None, [])
            end in
          (let? remote := remote in
           let defs := defs ++ default [] remote in
           match defs with
           | [] => Ok (Some adv)
           | _ =>
               let defs := Specificity.sort_proxy_defs_by_specificity defs in
               let? rules := Compile.compile_proxy_rules defs in
               Ok (Some (set_proxies (Some rules) adv))
           end, ops)
      end
  end.

(** [init]; the semaphore starts with [max_upgrade_tunnels] permits. *)
Definition init (o : RequestHandlerOpts) : result error RequestHandlerOpts :=
  match advanced_opts o ≫= proxies with
  | Some (_ :: _) =>
      let settings := match advanced_opts o with
                      | Some a => adv_proxy_settings a
                      | None => ProxySettings_default
                      end in
      let? client := Client.build_proxy_client fs pem_certs root_add settings in
      Ok (o {{ proxy_client := Some client; proxy_settings := Some settings;
               proxy_first := ps_proxy_first settings;
               upgrade_tunnel_semaphore := max_upgrade_tunnels settings }})
  | _ => Ok o
  end.
End Rules.
End Bootstrap.
End Bootstrap.

(** * Documents *)

Lemma convert_route_spec app_id r :
  (Document.valid_route r ∧ Document.convert_route app_id r = Ok (Document.proxy_of r)) ∨
  (¬ Document.valid_route r ∧ ∃ e, Document.convert_route app_id r = Err e).
Proof.
  unfold Document.convert_route, Document.valid_route, Document.validate_route_source.
  destruct (Str.starts_with_char "/" (Document.source r)) eqn:E1; simpl.
  2: { right. split; [by intros [? _]|]. eauto. }
  destruct (Str.contains ".." (Document.source r)) eqn:E2; simpl.
  { right. split; [by intros (_ & ? & _)|]. eauto. }
  destruct (Document.strip_prefix r) as [p|] eqn:E3; simpl.
  - destruct (Str.starts_with_char "/" p) eqn:E4; simpl.
    + left. split; [split_and!; try done; intros ? [= <-]; done|].
      unfold Document.proxy_of. by rewrite E3.
    + right. split; [intros (_ & _ & Hp); by rewrite (Hp p eq_refl) in E4|]. eauto.
  - left. split; [done|]. unfold Document.proxy_of. by rewrite E3.
Qed.

Lemma convert_routes_spec app_id l :
  (Forall Document.valid_route l ∧
   Res.mapM (Document.convert_route app_id) l = Ok (map Document.proxy_of l)) ∨
  (¬ Forall Document.valid_route l ∧ ∃ e, Res.mapM (Document.convert_route app_id) l = Err e).
Proof.
  induction l as [|r l IH]; [by left|]. simpl.
  destruct (convert_route_spec app_id r) as [[Hr ->]|[Hr [e ->]]]; simpl.
  - destruct IH as [[Hl ->]|[Hl [e ->]]]; simpl.
    + left. split; [by constructor|done].
    + right. split; [by intros [_ ?]%Forall_cons|eauto].
  - right. split; [by intros [? _]%Forall_cons|eauto].
Qed.

Lemma convert_apps_spec apps :
  (Forall Document.valid_route (flat_map Document.routes apps) ∧
   Document.convert_apps apps = Ok (map Document.proxy_of (flat_map Document.routes apps))) ∨
  (¬ Forall Document.valid_route (flat_map Document.routes apps) ∧
   ∃ e, Document.convert_apps apps = Err e).
Proof.
  induction apps as [|app apps IH]; [by left|]. simpl.
  destruct (convert_routes_spec (Document.id app) (Document.routes app)) as [[Hr ->]|[Hr [e ->]]]; simpl.
  - destruct IH as [[Hl ->]|[Hl [e ->]]]; simpl.
    + left. split; [by apply Forall_app|]. by rewrite map_app.
    + right. split; [by intros [_ ?]%Forall_app|eauto].
  - right. split; [by intros [? _]%Forall_app|eauto].
Qed.

(** A routes document is accepted exactly when its version is 1 and every route has a source
    that is absolute and without [..] and, if any, an absolute prefix; it then yields one
    definition per route, field by field, in document order. *)
Theorem into_proxy_defs_spec (d : Document.RoutesDocument) (defs : list File.Proxy) :
  Document.into_proxy_defs d = Ok defs ↔
    Document.version d = 1%Z ∧ Forall Document.valid_route (Document.all_routes d) ∧
    defs = map Document.proxy_of (Document.all_routes d).
Proof.
  unfold Document.into_proxy_defs, Document.all_routes.
  destruct (Z.eqb_spec (Document.version d) 1) as [->|Hv]; simpl; [|split; [done|by intros [? _]]].
  destruct (convert_apps_spec (Document.apps d)) as [[Hl ->]|[Hl [e ->]]].
  - split; [intros [= <-]; done|]. by intros (_ & _ & ->).
  - split; [done|]. by intros (_ & ? & _).
Qed.

(** * Bootstrap *)

Section BootstrapProps.
Context `{HttpLib, CodecLib}.
Context (fs : Fs.t) (env : string → option string).
Context (pem_certs : string → option (list string)) (root_add : string → bool).
Context (json_encode : Document.RoutesDocument → string)
        (json_decode : string → option Document.RoutesDocument) (op_ok : FsOp → bool).
Context (control_plane : ProxyHttpClient → Request → option (result error Response)).

Abbreviation fetch config version tls :=
  (Bootstrap.http_fetch_document fs env pem_certs root_add json_decode control_plane config version tls).
Abbreviation fetch_defs config version tls :=
  (Bootstrap.fetch_routes_defs fs env pem_certs root_add json_encode json_decode op_ok control_plane
     config version tls).

(** What the cache holds. *)
Definition cached (config : File.RoutesBootstrap) : option Document.RoutesDocument :=
  File.cache_path config ≫= λ p, Res.ok (Bootstrap.read_cache fs json_decode p).

Lemma handle_fetch_failure_spec config err :
  Bootstrap.handle_fetch_failure fs json_decode config err =
    match cached config with
    | Some doc => Res.map Some (Document.into_proxy_defs doc)
    | None => match Bootstrap.on_failure config with
              | Fail => Err ["routes bootstrap: fetch failed and no cache available: "
                               +:+ Str.join ": " err]
              | _ => Ok None
              end
    end.
Proof.
  unfold Bootstrap.handle_fetch_failure, cached.
  destruct (File.cache_path config) as [p|]; simpl; [|by destruct (Bootstrap.on_failure config)].
  destruct (Bootstrap.read_cache fs json_decode p); simpl; [|by destruct (Bootstrap.on_failure config)].
  by destruct (Document.into_proxy_defs a).
Qed.

(** What [write_cache] does when nothing fails. *)
Lemma write_cache_ops path doc :
  (∀ op, op_ok op = true) →
  fst (Bootstrap.write_cache json_encode op_ok path doc) =
    match Path.parent path with
    | Some [] | None => []
    | Some dir => [CreateDirAll dir]
    end ++ [WriteFile (Path.with_extension "tmp" path) (json_encode doc);
            Rename (Path.with_extension "tmp" path) path].
Proof.
  intros Hok. unfold Bootstrap.write_cache.
  assert (∀ ops, Bootstrap.run_ops op_ok ops = (ops, true)) as Hrun.
  { induction ops as [|op ops IH]; [done|]. cbn [Bootstrap.run_ops]. by rewrite Hok, IH. }
  by rewrite Hrun.
Qed.
End BootstrapProps.

(** A document the start-up accepts. *)
Definition valid_document (d : Document.RoutesDocument) : Prop :=
  Document.version d = 1%Z ∧ Forall Document.valid_route (Document.all_routes d).

Lemma valid_document_defs d :
  valid_document d →
  Document.into_proxy_defs d = Ok (map Document.proxy_of (Document.all_routes d)).
Proof. intros [Hv Hr]. by apply into_proxy_defs_spec. Qed.

Lemma invalid_document_defs d :
  ¬ valid_document d → ∃ e, Document.into_proxy_defs d = Err e.
Proof.
  intros Hn. destruct (Document.into_proxy_defs d) as [defs|e] eqn:E; [|eauto].
  apply into_proxy_defs_spec in E as (? & ? & _). by destruct Hn.
Qed.

(** C34. Snapshots come back.  A start-up fetched a document and took its rules; every file
    operation succeeded, and of what it wrote to a file and renamed to the cache path a later
    read of that path gives the contents.  Then a later start-up with the same configuration for
    which no document can be fetched uses the very same rules, and writes nothing (given that
    the JSON codec round-trips on the document).  The two start-ups may differ in version,
    environment, TLS settings and file operations. *)
Theorem cache_roundtrip `{HttpLib, CodecLib} (fs fs' : Fs.t) (env env' : string → option string)
    (pem_certs : string → option (list string)) (root_add : string → bool)
    (json_encode : Document.RoutesDocument → string)
    (json_decode : string → option Document.RoutesDocument) (op_ok op_ok' : FsOp → bool)
    (control_plane control_plane' : ProxyHttpClient → Request → option (result error Response))
    (config : File.RoutesBootstrap) (version version' : string) (tls tls' : ProxyTlsSettings)
    (path : Path.t) (doc : Document.RoutesDocument) (defs : list File.Proxy) (ops : list FsOp)
    (Hfetched : Bootstrap.http_fetch_document fs env pem_certs root_add json_decode control_plane
                  config version tls = Some (Ok doc))
    (Hfirst : Bootstrap.fetch_routes_defs fs env pem_certs root_add json_encode json_decode op_ok
                control_plane config version tls = (Ok (Some defs), ops))
    (Hok : ∀ op, op_ok op = true) (Hpath : File.cache_path config = Some path)
    (Hdisk : ∀ tmp data, WriteFile tmp data ∈ ops → Rename tmp path ∈ ops →
               Fs.read fs' path = Ok data)
    (Hcodec : json_decode (json_encode doc) = Some doc)
    (Hdown : ∀ d, Bootstrap.http_fetch_document fs' env' pem_certs root_add json_decode
                    control_plane' config version' tls' ≠ Some (Ok d)) :
  Bootstrap.fetch_routes_defs fs' env' pem_certs root_add json_encode json_decode op_ok'
    control_plane' config version' tls' = (Ok (Some defs), []).
Proof.
  unfold Bootstrap.fetch_routes_defs in Hfirst.
  rewrite Hfetched, Hpath in Hfirst.
  assert (Bootstrap.on_failure config ≠ FileOnly ∧ Document.into_proxy_defs doc = Ok defs ∧
          fst (Bootstrap.write_cache json_encode op_ok path doc) = ops) as (Hpolicy & Hdefs & Hops).
  { destruct (Bootstrap.on_failure config); [..|done]; injection Hfirst as Hr Ho;
      apply bind_Ok in Hr as (? & ? & [= <-]); done. }
  rewrite write_cache_ops in Hops by done.
  assert (Fs.read fs' path = Ok (json_encode doc)) as Hread.
  { apply (Hdisk (Path.with_extension "tmp" path)); subst ops; apply elem_of_app; right; set_solver. }
  assert (cached fs' json_decode config = Some doc) as Hc.
  { unfold cached. rewrite Hpath. simpl. unfold Bootstrap.read_cache. rewrite Hread. simpl.
    by rewrite Hcodec. }
  clear Hfetched.
  unfold Bootstrap.fetch_routes_defs.
  destruct (Bootstrap.on_failure config) eqn:Ep; [| |done].
  all: destruct (Bootstrap.http_fetch_document _ _ _ _ _ _ _ _ _) as [[d|e]|] eqn:Ef;
    [by destruct (Hdown d)|..];
    rewrite handle_fetch_failure_spec, Hc, Hdefs; done.
Qed.

(** * Rules *)

Section ResolveLemmas.
Context `{HttpLib, CodecLib, GlobLib, RegexLib}.
Context (fs : Fs.t) (env : string → option string).
Context (pem_certs : string → option (list string)) (root_add : string → bool).
Context (json_encode : Document.RoutesDocument → string)
        (json_decode : string → option Document.RoutesDocument) (op_ok : FsOp → bool).
Context (control_plane : ProxyHttpClient → Request → option (result error Response)).
Context (version : string).

Lemma resolve_compiled adv rules :
  proxies adv = Some rules →
  Bootstrap.resolve_rules fs env pem_certs root_add json_encode json_decode op_ok control_plane
    version (Some adv) = (Ok (Some adv), []).
Proof. intros Hp. unfold Bootstrap.resolve_rules. by rewrite Hp. Qed.
End ResolveLemmas.

Lemma resolve_rules_Ok `{HttpLib, CodecLib, GlobLib, RegexLib} (fs : Fs.t)
    (env : string → option string) (pem_certs : string → option (list string))
    (root_add : string → bool) (json_encode : Document.RoutesDocument → string)
    (json_decode : string → option Document.RoutesDocument) (op_ok : FsOp → bool)
    (control_plane : ProxyHttpClient → Request → option (result error Response))
    (version : string) (adv adv' : Advanced) (ops : list FsOp)
    (Hnew : proxies adv = None)
    (Hres : Bootstrap.resolve_rules fs env pem_certs root_add json_encode json_decode op_ok
              control_plane version (Some adv) = (Ok (Some adv'), ops)) :
  ∃ remote,
    match routes_bootstrap adv with
    | None => remote = None
    | Some b =>
        (Bootstrap.fetch_routes_defs fs env pem_certs root_add json_encode json_decode op_ok
           control_plane b version (tls (adv_proxy_settings adv))).1 = Ok remote
    end ∧
    let defs := default [] (proxy_defs adv) ++ default [] remote in
    (defs = [] ∧ adv' = adv ∨
     ∃ rules, defs ≠ [] ∧ adv' = set_proxies (Some rules) adv ∧
       Forall2 Compile.rule_of (Specificity.sort_proxy_defs_by_specificity defs) rules ∧
       Forall Compile.rule_wf rules ∧
       Bootstrap.resolve_rules fs env pem_certs root_add json_encode json_decode op_ok control_plane
         version (Some adv') = (Ok (Some adv'), [])).
Proof.
  unfold Bootstrap.resolve_rules in Hres. rewrite Hnew in Hres.
  destruct (match routes_bootstrap adv with Some b => _ | None => _ end) as [remote ops'] eqn:Er.
  injection Hres as Hres <-. apply bind_Ok in Hres as (rem & -> & Hres). exists rem. split.
  { destruct (routes_bootstrap adv); [by rewrite Er | by injection Er]. }
  cbv zeta in Hres |- *. set (defs := default [] (proxy_defs adv) ++ default [] rem) in *.
  destruct defs as [|d ds] eqn:Ed; [left; by simplify_eq|]. right.
  rewrite <- Ed in *. apply bind_Ok in Hres as (rules & Hc & [= <-]).
  apply compile_rules_of in Hc as [Hf Hwf]. exists rules. split; [by rewrite Ed|].
  split; [done|]. split; [done|]. split.
  { eapply Forall_impl; [exact Hwf|]. by intros ? [? _]. }
  by eapply resolve_compiled.
Qed.

(** C26. Start-up rule resolution: the definitions of the manifest come first, those of the control
    plane after them, the whole list is sorted by specificity and compiled, one rule per
    definition; everything else in the options is kept; an empty list leaves the proxy off; and
    resolving again is a no-op that asks nobody. *)
Theorem resolve_rules_spec `{HttpLib, CodecLib, GlobLib, RegexLib} (fs : Fs.t)
    (env : string → option string) (pem_certs : string → option (list string))
    (root_add : string → bool) (json_encode : Document.RoutesDocument → string)
    (json_decode : string → option Document.RoutesDocument) (op_ok : FsOp → bool)
    (control_plane : ProxyHttpClient → Request → option (result error Response))
    (version : string) (adv adv' : Advanced) (ops : list FsOp)
    (Hnew : proxies adv = None)
    (Hres : Bootstrap.resolve_rules fs env pem_certs root_add json_encode json_decode op_ok
              control_plane version (Some adv) = (Ok (Some adv'), ops)) :
  ∃ remote,
    match routes_bootstrap adv with
    | None => remote = None
    | Some b =>
        (Bootstrap.fetch_routes_defs fs env pem_certs root_add json_encode json_decode op_ok
           control_plane b version (tls (adv_proxy_settings adv))).1 = Ok remote
    end ∧
    let defs := default [] (proxy_defs adv) ++ default [] remote in
    (defs = [] ∧ adv' = adv ∨
     ∃ rules, defs ≠ [] ∧ adv' = set_proxies (Some rules) adv ∧
       Forall2 Compile.rule_of (Specificity.sort_proxy_defs_by_specificity defs) rules ∧
       Forall Compile.rule_wf rules ∧
       Bootstrap.resolve_rules fs env pem_certs root_add json_encode json_decode op_ok control_plane
         version (Some adv') = (Ok (Some adv'), [])).
Proof. by eapply resolve_rules_Ok. Qed.

(** The options of a start-up whose rules come from these definitions; none leave the proxy off. *)
Definition with_rules `{HttpLib, GlobLib, RegexLib} (adv : Advanced) (defs : list File.Proxy)
    : result error (option Advanced) :=
  match defs with
  | [] => Ok (Some adv)
  | _ => let? rules := Compile.compile_proxy_rules
                         (Specificity.sort_proxy_defs_by_specificity defs) in
         Ok (Some (set_proxies (Some rules) adv))
  end.


Lemma proxy_init_cases `{HttpLib, GlobLib, RegexLib} (fs : Fs.t)
    (pem_certs : string → option (list string)) (root_add : string → bool)
    (o : RequestHandlerOpts) :
  match Bootstrap.init fs pem_certs root_add o with
  | Ok o' =>
      match advanced_opts o with
      | Some adv =>
          match proxies adv with
          | Some (_ :: _) =>
              let s := adv_proxy_settings adv in
              ∃ c, Client.build_proxy_client fs pem_certs root_add s = Ok c ∧
                proxy_client o' = Some c ∧ proxy_first o' = ps_proxy_first s ∧
                upgrade_tunnel_semaphore o' = max_upgrade_tunnels s ∧
                advanced_opts o' = advanced_opts o ∧
                pc_pool_max_idle c = Some (pool_max_idle_per_host s) ∧
                (pc_roots c = None ↔ tls_ca_files (tls s) = [])
          | _ => o' = o
          end
      | None => o' = o
      end
  | Err _ =>
      ∃ adv, advanced_opts o = Some adv ∧ proxies adv ≠ None ∧
        Res.is_ok (Client.build_proxy_client fs pem_certs root_add (adv_proxy_settings adv)) = false
  end.
Proof.
  unfold Bootstrap.init. destruct (advanced_opts o) as [adv|] eqn:Ea; simpl; [|done].
  destruct (proxies adv) as [[|r rules]|] eqn:Ep; [done| |done].
  destruct (Client.build_proxy_client fs pem_certs root_add (adv_proxy_settings adv)) as [c|e] eqn:Ec;
    simpl; [|exists adv; rewrite Ec; split_and!; [done|congruence|done]].
  exists c. split; [done|]. destruct o. simpl in *. subst. split; [done|]. split; [done|]. split; [done|].
  split; [done|].
  unfold Client.build_proxy_client in Ec. apply bind_Ok in Ec as (https & Hh & [= <-]).
  split; [done|]. simpl. unfold Client.build_https_connector in Hh.
  destruct (tls_ca_files (tls (adv_proxy_settings adv))); [by simplify_eq|].
  apply map_Ok in Hh as (x & _ & ->). by split.
Qed.

(** Proxy start-up: without rules nothing is set up; with rules, either the client cannot be
    built and start-up fails, or the options get the client, the ordering flag, and a tunnel
    semaphore with exactly the configured number of permits (none when unlimited). *)
Theorem proxy_init_spec `{HttpLib, GlobLib, RegexLib} (fs : Fs.t)
    (pem_certs : string → option (list string)) (root_add : string → bool)
    (o : RequestHandlerOpts) :
  match Bootstrap.init fs pem_certs root_add o with
  | Ok o' =>
      match advanced_opts o with
      | Some adv =>
          match proxies adv with
          | Some (_ :: _) =>
              let s := adv_proxy_settings adv in
              ∃ c, Client.build_proxy_client fs pem_certs root_add s = Ok c ∧
                proxy_client o' = Some c ∧ proxy_first o' = ps_proxy_first s ∧
                upgrade_tunnel_semaphore o' = max_upgrade_tunnels s ∧
                advanced_opts o' = advanced_opts o ∧
                pc_pool_max_idle c = Some (pool_max_idle_per_host s) ∧
                (pc_roots c = None ↔ tls_ca_files (tls s) = [])
          | _ => o' = o
          end
      | None => o' = o
      end
  | Err _ =>
      ∃ adv, advanced_opts o = Some adv ∧ proxies adv ≠ None ∧
        Res.is_ok (Client.build_proxy_client fs pem_certs root_add (adv_proxy_settings adv)) = false
  end.
Proof. apply proxy_init_cases. Qed.

Module RoutesRef.
Definition doc : Document.RoutesDocument :=
  Document.mkRoutesDocument 1
    [Document.mkAppRoutes "shop"
       [Document.mkRouteEntry None None "/shop/**" (Some "http://127.0.0.1:9000") None (Some "/shop")]].
Definition bad : Document.RoutesDocument := Document.mkRoutesDocument 2 [].
Definition encode (d : Document.RoutesDocument) : string :=
  if (Document.version d =? 1)%Z then "doc" else "bad".
Definition decode (s : string) : option Document.RoutesDocument :=
  if String.eqb s "doc" then Some doc else if String.eqb s "bad" then Some bad else None.
Definition fs : Fs.t := Fs.mkFs
  (list_to_map [(["var"], NDir ["routes.json"] None true);
                (["var"; "routes.json"], NFile "doc" None true)]) [] 4096.
Definition config : File.RoutesBootstrap :=
  File.mkRoutesBootstrap "http://cp:8000/routes" None None (Some (Path.parse "/var/routes.json"))
    None None.
Definition answer (body : string) (_ : ProxyHttpClient) (_ : Request)
  : option (result error Response) := Some (Ok (mkResponse 200 hm_empty (BodyBytes body))).
Definition toml : File.Proxy :=
  File.mkProxy None None "/api/**" (Some "http://127.0.0.1:3000") None None.
Definition adv : Advanced :=
  Advanced_default {{ proxy_defs := Some [toml]; routes_bootstrap := Some config }}.
End RoutesRef.

(** A first start-up on an empty disk, and one after it without the control plane. *)
Lemma cache_roundtrip_witness :
  ∃ defs, (Bootstrap.fetch_routes_defs RoutesRef.fs (λ _, None) (λ _, None) (λ _, true)
     RoutesRef.encode RoutesRef.decode (λ _, true) (λ _ _, None) RoutesRef.config "1.1"
     ProxyTlsSettings_default) = (Ok (Some defs), []) ∧ length defs = 1.
Proof.
  eexists. split.
  - apply (cache_roundtrip (Fs.mkFs ∅ [] 4096) RoutesRef.fs (λ _, None) (λ _, None) (λ _, None)
      (λ _, true) RoutesRef.encode RoutesRef.decode (λ _, true) (λ _, true)
      (RoutesRef.answer "doc") (λ _ _, None) RoutesRef.config "1.0" "1.1"
      ProxyTlsSettings_default ProxyTlsSettings_default (Path.parse "/var/routes.json")
      RoutesRef.doc
      [File.mkProxy None None "/shop/**" (Some "http://127.0.0.1:9000") None (Some "/shop")]
      [CreateDirAll (Path.parse "/var"); WriteFile (Path.parse "/var/routes.tmp") "doc";
       Rename (Path.parse "/var/routes.tmp") (Path.parse "/var/routes.json")]);
      [reflexivity|reflexivity|done|reflexivity| |reflexivity|done].
    intros tmp data Hw _. apply elem_of_cons in Hw as [[=]|Hw].
    apply elem_of_cons in Hw as [[= _ ->]|Hw]; [reflexivity|].
    apply elem_of_cons in Hw as [[=]|Hw]. by apply elem_of_nil in Hw.
  - reflexivity.
Defined.


Lemma resolve_rules_spec_witness :
  ∃ adv' ops,
    Bootstrap.resolve_rules RoutesRef.fs (λ _, None) (λ _, None) (λ _, true) RoutesRef.encode
      RoutesRef.decode (λ _, true) (RoutesRef.answer "doc") "1.0" (Some RoutesRef.adv)
    = (Ok (Some adv'), ops) ∧ length ops = 3 ∧
    ∃ rules, proxies adv' = Some rules ∧ Forall Compile.rule_wf rules ∧ length rules = 2.
Proof.
  destruct (Bootstrap.resolve_rules RoutesRef.fs (λ _, None) (λ _, None) (λ _, true) RoutesRef.encode
      RoutesRef.decode (λ _, true) (RoutesRef.answer "doc") "1.0" (Some RoutesRef.adv))
    as [[[adv'|]|e] ops] eqn:E; [|discriminate E..].
  exists adv', ops. split; [reflexivity|].
  split; [change ops with (@Ok error _ (Some adv'), ops).2; rewrite <- E; reflexivity|].
  destruct (resolve_rules_spec _ _ _ _ _ _ _ _ _ RoutesRef.adv adv' ops eq_refl E)
    as (remote & Hr & [(Hn & _)|(rules & _ & -> & Hf & Hwf & _)]); [discriminate Hn|].
  exists rules. split; [reflexivity|]. split; [exact Hwf|].
  apply Forall2_length in Hf. rewrite <- Hf.
  assert (remote = Some [Document.proxy_of (Document.mkRouteEntry None None "/shop/**"
    (Some "http://127.0.0.1:9000") None (Some "/shop"))]) as ->.
  { assert (Ok remote = @Ok error _ (Some [Document.proxy_of (Document.mkRouteEntry None None "/shop/**"
      (Some "http://127.0.0.1:9000") None (Some "/shop"))])) as Heq by (rewrite <- Hr; reflexivity).
    by injection Heq. }
  reflexivity.
Defined.

(** A fetched document is stored before it is validated, and a document that does not validate
    stops the start-up even when the policy is to go on with the TOML rules: the next start
    without control plane then fails on the stored copy too. *)
Example invalid_document_is_cached :
  let r := Bootstrap.resolve_rules RoutesRef.fs (λ _, None) (λ _, None) (λ _, true) RoutesRef.encode
             RoutesRef.decode (λ _, true) (RoutesRef.answer "bad") "1.0" (Some RoutesRef.adv) in
  Res.is_ok r.1 = false ∧
  r.2 = [CreateDirAll (Path.parse "/var"); WriteFile (Path.parse "/var/routes.tmp") "bad";
         Rename (Path.parse "/var/routes.tmp") (Path.parse "/var/routes.json")].
Proof. split; reflexivity. Qed.

(** Under [fail] the start-up stops when there is neither document nor snapshot, whatever the
    manifest holds; the documentation counts its rules as a way out. *)
Example fail_ignores_manifest_rules :
  let config := File.mkRoutesBootstrap "http://cp:8000/routes" None None None (Some Fail) None in
  let adv := RoutesRef.adv {{ routes_bootstrap := Some config }} in
  proxy_defs adv = Some [RoutesRef.toml] ∧
  Res.is_ok (Bootstrap.resolve_rules RoutesRef.fs (λ _, None) (λ _, None) (λ _, true)
    RoutesRef.encode RoutesRef.decode (λ _, true) (λ _ _, None) "1.0" (Some adv)).1 = false.
Proof. split; reflexivity. Qed.
