(* ===== verification/Settings.v ===== *)
(** Configuration: [Settings::parse_from] of [settings/mod.rs] and the manifest reader of
    [settings/file.rs].

    The command line is a parsed [Cli.General] ([clap] is third-party, [Cli.General_default] is
    what it yields for an empty line); TOML parsing and deserialization are parameters. *)
From Stdlib Require Import ZArith Lia Ascii String.
From stdpp Require Import base list strings gmap.
From coqutil Require Import Datatypes.RecordSetters.
Import DoubleBraceUpdate.
From S2P Require Import Prelude Http Libs RefLibs Path Fs Opts Balancer Routes.
Local Open Scope string_scope.
Local Open Scope list_scope.
Local Open Scope nat_scope.

Module Settings.
Section Settings.
Context `{HttpLib, GlobLib, RegexLib}.
Context (fs : Fs.t) (env : string → option string).
(** [toml::from_str], and [serde_ignored::deserialize] with the unused keys it reports. *)
Context (Toml : Type) (toml_from_str : string → option Toml)
        (deserialize : Toml → option (File.Settings * list serde_path)).
(** [logger::init]. *)
Context (logger_init : string → bool → result error unit).

(** ** [settings/file.rs] *)

(** [read_toml_file]. *)
Definition read_toml_file (path : Path.t) : result error Toml :=
  let? toml_str :=
    Res.context ("error trying to deserialize toml configuration file at " +:+ Path.text path)
      (Helpers.read_file fs path) in
  Res.of_option ["could not parse input as TOML"] (toml_from_str toml_str).

(** [Settings::read]: the settings and the keys warned about, in the order of the [BTreeSet]. *)
Definition read (config_file : Path.t) : result error (File.Settings * list string) :=
  let ext := default "" (Path.extension config_file) in
  if negb (String.eqb ext "toml")
  then Err ["configuration file should be in toml format. E.g `weavegate.toml`"]
  else
    let? toml := Res.context "error reading toml configuration file" (read_toml_file config_file) in
    let? mu := Res.of_option ["error during toml configuration file deserialization"]
                 (deserialize toml) in
    let '(manifest, paths) := mu in
    let unused := Sort.sort_by String.compare (remove_dups (map (stringify "") paths)) in
    Ok (manifest, unused).

(** ** [settings/mod.rs] *)

(** [read_file_settings]. *)
Definition read_file_settings (config_file : Path.t)
    : result error (option (File.Settings * Path.t)) :=
  if Fs.is_file fs config_file then
    let? file_path_resolved :=
      Res.of_option ["unable to resolve toml config file path"]
        (Res.ok (Fs.canonicalize fs config_file)) in
    let? settings :=
      Res.context "unable to read toml config file because has invalid format or unsupported options"
        (read file_path_resolved) in
    Ok (Some (fst settings, file_path_resolved))
  else Ok None.

(** The well-known files that win over the option. *)
Definition to_use_config_file (config_file : Path.t) : Path.t :=
  if Fs.is_file fs (Path.parse "./weavegate.toml") then Path.parse "./weavegate.toml"
  else if Fs.is_file fs (Path.parse "./sws.toml") then Path.parse "./sws.toml"
  else if Fs.is_file fs (Path.parse "./edgegate.toml") then Path.parse "./edgegate.toml"
  else if Fs.is_file fs (Path.parse "./config.toml") then Path.parse "./config.toml"
  else config_file.

(** [if let Some(v) = general.x { x = Some(v) }]. *)
Definition or_keep {A} (v x : option A) : option A := match v with Some v => Some v | None => x end.

(** The file's [general] section over the command line. *)
Definition merge_general (o : Cli.General) (g : File.General) : result error Cli.General :=
  let http2 := default (Cli.http2 o) (File.g_http2 g) in
  let? status :=
    match File.g_maintenance_mode_status g with
    | Some v => if status_valid v then Ok v else Err ["invalid HTTP status code"]
    | None => Ok (Cli.maintenance_mode_status o)
    end in
  Ok {|
    Cli.version := Cli.version o;
    Cli.host := default (Cli.host o) (File.g_host g);
    Cli.port := default (Cli.port o) (File.g_port g);
    Cli.root := default (Cli.root o) (File.g_root g);
    Cli.log_level := match File.g_log_level g with
                     | Some v => LogLevel_name v
                     | None => Cli.log_level o
                     end;
    Cli.log_with_ansi := default (Cli.log_with_ansi o) (File.g_log_with_ansi g);
    Cli.config_file := Cli.config_file o;
    Cli.cache_control_headers := default (Cli.cache_control_headers o) (File.g_cache_control_headers g);
    Cli.compression := default (Cli.compression o) (File.g_compression g);
    Cli.compression_level := default (Cli.compression_level o) (File.g_compression_level g);
    Cli.compression_static := default (Cli.compression_static o) (File.g_compression_static g);
    Cli.page404 := default (Cli.page404 o) (File.g_page404 g);
    Cli.page50x := default (Cli.page50x o) (File.g_page50x g);
    Cli.http2 := http2;
    Cli.http2_tls_cert := or_keep (File.g_http2_tls_cert g) (Cli.http2_tls_cert o);
    Cli.http2_tls_key := or_keep (File.g_http2_tls_key g) (Cli.http2_tls_key o);
    Cli.https_redirect := default (Cli.https_redirect o) (File.g_https_redirect g);
    Cli.https_redirect_host := default (Cli.https_redirect_host o) (File.g_https_redirect_host g);
    Cli.https_redirect_from_port :=
      default (Cli.https_redirect_from_port o) (File.g_https_redirect_from_port g);
    Cli.https_redirect_from_hosts :=
      default (Cli.https_redirect_from_hosts o) (File.g_https_redirect_from_hosts g);
    Cli.security_headers := match File.g_security_headers g with
                            | Some v => v
                            | None => if http2 : bool then true else Cli.security_headers o
                            end;
    Cli.cors_allow_origins := default (Cli.cors_allow_origins o) (File.g_cors_allow_origins g);
    Cli.cors_allow_headers := default (Cli.cors_allow_headers o) (File.g_cors_allow_headers g);
    Cli.cors_expose_headers := default (Cli.cors_expose_headers o) (File.g_cors_expose_headers g);
    Cli.directory_listing := default (Cli.directory_listing o) (File.g_directory_listing g);
    Cli.directory_listing_order :=
      default (Cli.directory_listing_order o) (File.g_directory_listing_order g);
    Cli.directory_listing_format :=
      default (Cli.directory_listing_format o) (File.g_directory_listing_format g);
    Cli.directory_listing_download :=
      default (Cli.directory_listing_download o) (File.g_directory_listing_download g);
    Cli.basic_auth := default (Cli.basic_auth o) (File.g_basic_auth g);
    Cli.fd := or_keep (File.g_fd g) (Cli.fd o);
    Cli.threads_multiplier := default (Cli.threads_multiplier o) (File.g_threads_multiplier g);
    Cli.max_blocking_threads := default (Cli.max_blocking_threads o) (File.g_max_blocking_threads g);
    Cli.grace_period := default (Cli.grace_period o) (File.g_grace_period g);
    Cli.page_fallback := default (Cli.page_fallback o) (File.g_page_fallback g);
    Cli.log_remote_address := default (Cli.log_remote_address o) (File.g_log_remote_address g);
    Cli.log_x_real_ip := default (Cli.log_x_real_ip o) (File.g_log_x_real_ip g);
    Cli.log_forwarded_for := default (Cli.log_forwarded_for o) (File.g_log_forwarded_for g);
    Cli.trusted_proxies := default (Cli.trusted_proxies o) (File.g_trusted_proxies g);
    Cli.redirect_trailing_slash :=
      default (Cli.redirect_trailing_slash o) (File.g_redirect_trailing_slash g);
    Cli.ignore_hidden_files := default (Cli.ignore_hidden_files o) (File.g_ignore_hidden_files g);
    Cli.disable_symlinks := default (Cli.disable_symlinks o) (File.g_disable_symlinks g);
    Cli.health := default (Cli.health o) (File.g_health g);
    Cli.accept_markdown := default (Cli.accept_markdown o) (File.g_accept_markdown g);
    Cli.text_charset := default (Cli.text_charset o) (File.g_text_charset g);
    Cli.metrics := default (Cli.metrics o) (File.g_metrics g);
    Cli.index_files := default (Cli.index_files o) (File.g_index_files g);
    Cli.maintenance_mode := default (Cli.maintenance_mode o) (File.g_maintenance_mode g);
    Cli.maintenance_mode_status := status;
    Cli.maintenance_mode_file := default (Cli.maintenance_mode_file o) (File.g_maintenance_mode_file g);
    Cli.commands := Cli.commands o;
  |}.

(** 1. Custom headers. *)
Definition compile_headers (e : File.Headers) : result error Headers :=
  let? source := Res.of_option
                   ["can not compile glob pattern for header source: " +:+ File.hd_source e]
                   (glob_new (File.hd_source e)) in
  Ok (mkHeaders source (File.hd_headers e)).

(** [str::trim_start_matches(pat)]. *)
Fixpoint trim_start_matches (fuel : nat) (pat s : string) : string :=
  match fuel with
  | O => s
  | S f => match Str.strip_prefix pat s with
           | Some r => trim_start_matches f pat r
           | None => s
           end
  end.

(** The regular expression of a glob, its groups made capturing. *)
Definition capture_pattern (regex : string) : string :=
  let s := trim_start_matches (String.length regex) "(?-u)" regex in
  Str.replace ".*.*" ".*" (Str.replace "?:" "" (Str.replace "?:.*" ".*" s)).

Definition compile_source (what source : string) : result error Regex :=
  let? glob := Res.of_option
                 ["can not compile glob pattern for " +:+ what +:+ " source: " +:+ source]
                 (glob_new_literal source) in
  let pattern := capture_pattern (glob_regex glob) in
  Res.of_option
    ["can not compile regex pattern equivalent for " +:+ what +:+ " source: " +:+ pattern]
    (regex_new pattern).

(** 2. Rewrites. *)
Definition compile_rewrite (e : File.Rewrites) : result error Rewrites :=
  let? source := compile_source "rewrite" (File.rw_source e) in
  Ok (mkRewrites source (File.rw_destination e) (File.rw_redirect e)).

(** 3. Redirects. *)
Definition compile_redirect (e : File.Redirects) : result error Redirects :=
  let? source := compile_source "redirect" (File.rd_source e) in
  let status_code := RedirectsKind_u16 (File.rd_kind e) in
  if status_valid status_code
  then Ok (mkRedirects (File.rd_host e) source (File.rd_destination e) status_code)
  else Err ["invalid redirect status code: " +:+ Str.of_uint status_code].

(** The proxy client settings; zero tunnels mean no limit. *)
Definition proxy_settings_of (a : File.Advanced) (proxy_tls : ProxyTlsSettings) : ProxySettings := {|
  pool_max_idle_per_host := default 32%Z (File.proxy_pool_max_idle_per_host a);
  pool_idle_timeout_secs := default 90%Z (File.proxy_pool_idle_timeout_secs a);
  ps_proxy_first := default false (File.proxy_first a);
  max_upgrade_tunnels :=
    match File.max_upgrade_tunnels a with
    | Some n => if (n =? 0)%Z then None else Some n
    | None => None
    end;
  tls := proxy_tls;
|}.

(** 4. Virtual hosts: an entry without a root is skipped. *)
Fixpoint compile_vhosts (l : list File.VirtualHosts) : result error (list VirtualHosts) :=
  match l with
  | [] => Ok []
  | e :: l' =>
      match File.vh_root e with
      | None => compile_vhosts l'
      | Some root =>
          let? root_dir :=
            Res.context "root directory for virtual host was not found or inaccessible"
              (Helpers.get_valid_dirpath fs root) in
          let? vs := compile_vhosts l' in
          Ok (mkVirtualHosts (File.vh_host e) root_dir :: vs)
      end
  end.

(** [Some(entries) => Some(compiled)]. *)
Definition compile_opt {A B} (f : list A → result error B) (o : option (list A))
    : result error (option B) :=
  match o with Some l => Res.map Some (f l) | None => Ok None end.

(** The [advanced] section. *)
Definition compile_advanced (a : File.Advanced) : result error Advanced :=
  let? headers_entries := compile_opt (Res.mapM compile_headers) (File.headers a) in
  let? rewrites_entries := compile_opt (Res.mapM compile_rewrite) (File.rewrites a) in
  let? redirects_entries := compile_opt (Res.mapM compile_redirect) (File.redirects a) in
  let? proxy_tls := match File.proxy_tls a with
                    | Some tls => Client.from_file fs env tls
                    | None => Ok ProxyTlsSettings_default
                    end in
  let proxy_settings := proxy_settings_of a proxy_tls in
  let? vhosts_entries := compile_opt compile_vhosts (File.virtual_hosts a) in
  Ok {|
    headers := headers_entries;
    rewrites := rewrites_entries;
    redirects := redirects_entries;
    virtual_hosts := vhosts_entries;
    proxies := None;
    proxy_defs := File.proxies a;
    routes_bootstrap := File.routes_bootstrap a;
    adv_proxy_settings := proxy_settings;
    adv_memory_cache := File.memory_cache a;
  |}.

(** The settings with the path of the file they were read from. *)
Definition set_config_file (p : Path.t) (g : Cli.General) : Cli.General :=
  g {{ Cli.config_file := p }}.

(** [parse_from] after the command line is parsed. *)
Definition parse_from (log_init : bool) (opts : Cli.General) : result error Settings :=
  let? file := read_file_settings (to_use_config_file (Cli.config_file opts)) in
  match file with
  | Some (settings, config_file_resolved) =>
      let opts := set_config_file config_file_resolved opts in
      let? general := match File.general settings with
                      | Some g => merge_general opts g
                      | None => Ok opts
                      end in
      let? _ := if log_init then logger_init (Cli.log_level general) (Cli.log_with_ansi general)
                else Ok () in
      let? settings_advanced := match File.advanced settings with
                                | Some a => Res.map Some (compile_advanced a)
                                | None => Ok None
                                end in
      Ok (mkSettings general settings_advanced)
  | None =>
      let? _ := if log_init then logger_init (Cli.log_level opts) (Cli.log_with_ansi opts)
                else Ok () in
      Ok (mkSettings opts None)
  end.
End Settings.
End Settings.

(** * Correctness *)

(** The names tried before the option, in order. *)
Definition well_known : list Path.t :=
  Path.parse <$> ["./weavegate.toml"; "./sws.toml"; "./edgegate.toml"; "./config.toml"].

Section Choice.
Context (fs : Fs.t).

Lemma to_use_config_file_find config_file :
  Settings.to_use_config_file fs config_file
  = default config_file (List.find (Fs.is_file fs) well_known).
Proof. unfold Settings.to_use_config_file, well_known. simpl. by repeat case_match. Qed.

Lemma well_known_found :
  (∃ q, q ∈ well_known ∧ Fs.is_file fs q = true) →
  ∃ q, List.find (Fs.is_file fs) well_known = Some q.
Proof.
  intros (q & Hq & Hf). destruct (List.find _ _) as [q'|] eqn:E; [by eexists|].
  apply list_elem_of_In in Hq.
  pose proof (List.find_none _ _ E q Hq) as Hn. simpl in Hn. congruence.
Qed.
End Choice.

Section Merge.

(** One option of the file over the command line, merged twice. *)
Lemma merge_twice {A} (v : option A) x : default (default x v) v = default x v.
Proof. by destruct v. Qed.

Lemma or_keep_twice {A} (v x : option A) :
  Settings.or_keep v (Settings.or_keep v x) = Settings.or_keep v x.
Proof. by destruct v. Qed.

Context `{HttpLib}.

Lemma merge_general_ok (o : Cli.General) g :
  Res.is_ok (Settings.merge_general o g) =
  match File.g_maintenance_mode_status g with Some v => status_valid v | None => true end.
Proof.
  unfold Settings.merge_general. cbv zeta. destruct (File.g_maintenance_mode_status g); [|done].
  by destruct (status_valid z).
Qed.

Lemma general_merge_config_file (o o' : Cli.General) g :
  Settings.merge_general o g = Ok o' → Cli.config_file o' = Cli.config_file o.
Proof.
  unfold Settings.merge_general. cbv zeta. intros Ho. by apply bind_Ok in Ho as (status & _ & [= <-]).
Qed.

(** The [general] section of a configuration file over the command line: merging fails
    exactly on a maintenance status that is no HTTP status; merging the same section again
    changes nothing (the file's choices are final, the rest is kept); the program's own options
    (the path of the file, the version flag and the subcommand) are never taken from the file;
    and the security headers are what the file says, else on as soon as the merged settings have
    HTTP/2, else what the command line says. *)
Theorem general_merge (o : Cli.General) (g : File.General) :
  Res.is_ok (Settings.merge_general o g) =
    match File.g_maintenance_mode_status g with Some v => status_valid v | None => true end ∧
  ∀ o', Settings.merge_general o g = Ok o' →
    Settings.merge_general o' g = Ok o' ∧
    (Cli.config_file o', Cli.version o', Cli.commands o')
      = (Cli.config_file o, Cli.version o, Cli.commands o) ∧
    Cli.http2 o' = default (Cli.http2 o) (File.g_http2 g) ∧
    Cli.security_headers o' =
      default (Cli.http2 o' || Cli.security_headers o) (File.g_security_headers g).
Proof.
  split; [apply merge_general_ok|].
  intros o' Ho. pose proof Ho as Ho2. unfold Settings.merge_general in Ho. cbv zeta in Ho.
  apply bind_Ok in Ho as (status & Hs & [= <-]). simpl.
  split_and!; [|done|done|destruct (File.g_security_headers g); [done|];
      by destruct (default (Cli.http2 o) (File.g_http2 g))].
  unfold Settings.merge_general; cbv zeta; cbn -[default Settings.or_keep].
  rewrite !merge_twice, !or_keep_twice.
  assert (match File.g_maintenance_mode_status g with
          | Some v => if status_valid v then Ok v else Err ["invalid HTTP status code"]
          | None => Ok status end = Ok status) as ->
    by (destruct (File.g_maintenance_mode_status g); [exact Hs | done]).
  cbn -[default Settings.or_keep]. f_equal. f_equal.
  - by destruct (File.g_log_level g).
  - destruct (File.g_security_headers g); [done|].
    by destruct (default (Cli.http2 o) (File.g_http2 g)).
Qed.
End Merge.

Section Parse.
Context `{HttpLib, GlobLib, RegexLib}.
Context (fs : Fs.t) (env : string → option string).
Context (Toml : Type) (toml_from_str : string → option Toml)
        (deserialize : Toml → option (File.Settings * list serde_path)).
Context (logger_init : string → bool → result error unit).
Abbreviation parse := (Settings.parse_from fs env Toml toml_from_str deserialize logger_init).

Lemma read_file_settings_path p s q :
  Settings.read_file_settings fs Toml toml_from_str deserialize p = Ok (Some (s, q)) →
  Fs.canonicalize fs p = Ok q.
Proof.
  unfold Settings.read_file_settings. destruct (Fs.is_file fs p); [|done].
  intros Hr. inv_res. by destruct (Fs.canonicalize fs p); simplify_eq/=.
Qed.

Lemma read_file_settings_some p r :
  Fs.is_file fs p = true →
  Settings.read_file_settings fs Toml toml_from_str deserialize p = Ok r → is_Some r.
Proof.
  unfold Settings.read_file_settings. intros ->. intros Hr. inv_res. by eexists.
Qed.

(** The configuration file that is used.  If one of the four well-known files of the working
    directory exists, the first of them is read and [--config-file] is ignored altogether: any
    two command lines that differ only there give the same outcome, and the settings report the
    resolved well-known file.  If none exists and the named file is not a file either, the
    settings are the command line's, with no advanced section. *)
Theorem config_file_choice (log_init : bool) (o : Cli.General) :
  let found := List.find (Fs.is_file fs) well_known in
  (∀ q, found = Some q →
     (∀ p, parse log_init (Settings.set_config_file p o) = parse log_init o) ∧
     (∀ s, parse log_init o = Ok s → Fs.canonicalize fs q = Ok (Cli.config_file (general s)))) ∧
  (found = None → Fs.is_file fs (Cli.config_file o) = false →
     parse log_init o =
       Res.map (λ _, mkSettings o None)
         (if log_init then logger_init (Cli.log_level o) (Cli.log_with_ansi o) else Ok ())).
Proof.
  intros found. subst found. split.
  - intros q Hq. pose proof (List.find_some _ _ Hq) as [_ Hfile].
    assert (Hu : ∀ p, Settings.to_use_config_file fs p = q).
    { intros p. by rewrite to_use_config_file_find, Hq. }
    split.
    + intros p. unfold Settings.parse_from. rewrite !Hu.
      destruct (Settings.read_file_settings _ _ _ _ q) as [[[s r]|]|e] eqn:E; [by destruct o| |done].
      apply read_file_settings_some in E as [? ?]; done.
    + intros s Hs. unfold Settings.parse_from in Hs. rewrite Hu in Hs. inv_res.
      pose proof (read_file_settings_some _ _ Hfile Ha) as [[fset r] ->].
      apply read_file_settings_path in Ha. rewrite Ha. inv_res. simpl. f_equal.
      destruct (File.general fset) as [g|]; [|by simplify_eq].
      apply general_merge_config_file in Ha0. by rewrite Ha0.
  - intros Hnone Hno. unfold Settings.parse_from, Settings.read_file_settings.
    rewrite to_use_config_file_find, Hnone. simpl. rewrite Hno. simpl.
    by destruct log_init; [destruct (logger_init _ _)|].
Qed.

Lemma parse_from_fresh log_init o s adv :
  parse log_init o = Ok s → advanced s = Some adv → proxies adv = None.
Proof.
  unfold Settings.parse_from. intros Hs Ha. apply bind_Ok in Hs as ([[fset r]|] & _ & Hs).
  - cbv zeta in Hs. apply bind_Ok in Hs as (g & _ & Hs). apply bind_Ok in Hs as (u & _ & Hs).
    apply bind_Ok in Hs as (oa & Hadv & [= <-]). simpl in Ha. subst oa.
    destruct (File.advanced fset) as [fa|]; [|done].
    apply map_Ok in Hadv as (a & Hc & [= ->]). unfold Settings.compile_advanced in Hc.
    cbv zeta in Hc. repeat (apply bind_Ok in Hc as (? & _ & Hc)). by injection Hc as <-.
  - apply bind_Ok in Hs as (u & _ & [= <-]). done.
Qed.
End Parse.

(** * What the advanced section compiles to *)

Section Compile.
Context `{HttpLib, GlobLib, RegexLib}.
Context (fs : Fs.t) (env : string → option string).

(** The entries that have a root, compiled. *)
Definition rooted_vhosts (l : list File.VirtualHosts) : list VirtualHosts :=
  omap (λ e : File.VirtualHosts,
          (λ root, mkVirtualHosts (File.vh_host e) root) <$> File.vh_root e) l.

(** The regular expression of a rewrite or redirect source: that of the glob, in which [*] does
    not cross a slash, with its groups made capturing. *)
Definition source_regex (source : string) (r : Regex) : Prop :=
  ∃ g, glob_new_literal source = Some g ∧
       regex_new (Settings.capture_pattern (glob_regex g)) = Some r.

(** The entries of the file and the compiled ones, in the same order. *)
Record Compiled (a : File.Advanced) (adv : Advanced) : Prop := {
  cp_headers : option_Forall2 (Forall2 (λ e h,
    glob_new (File.hd_source e) = Some (hd_source h) ∧ hd_headers h = File.hd_headers e))
    (File.headers a) (headers adv);
  cp_rewrites : option_Forall2 (Forall2 (λ e r,
    source_regex (File.rw_source e) (rw_source r) ∧
    rw_destination r = File.rw_destination e ∧ rw_redirect r = File.rw_redirect e))
    (File.rewrites a) (rewrites adv);
  cp_redirects : option_Forall2 (Forall2 (λ e r,
    source_regex (File.rd_source e) (rd_source r) ∧ rd_host r = File.rd_host e ∧
    rd_destination r = File.rd_destination e ∧
    rd_kind r = match File.rd_kind e with Permanent => 301%Z | Temporary => 302%Z end))
    (File.redirects a) (redirects adv);
  cp_tls : match File.proxy_tls a with
           | Some f => Client.from_file fs env f = Ok (tls (adv_proxy_settings adv))
           | None => tls_ca_files (tls (adv_proxy_settings adv)) = []
           end;
  cp_settings : adv_proxy_settings adv =
    mkProxySettings (default 32%Z (File.proxy_pool_max_idle_per_host a))
      (default 90%Z (File.proxy_pool_idle_timeout_secs a)) (default false (File.proxy_first a))
      (File.max_upgrade_tunnels a ≫= λ n, if (n =? 0)%Z then None else Some n) (tls (adv_proxy_settings adv));
  cp_vhosts : virtual_hosts adv = rooted_vhosts <$> File.virtual_hosts a;
  cp_roots : ∀ l v, virtual_hosts adv = Some l → v ∈ l → Fs.is_dir fs (vh_root v) = true;
  cp_rest : (proxies adv, proxy_defs adv, routes_bootstrap adv, adv_memory_cache adv)
    = (None, File.proxies a, File.routes_bootstrap a, File.memory_cache a);
}.

Lemma compile_opt_Ok {A B} (f : list A → result error B) o r :
  Settings.compile_opt f o = Ok r ↔ option_Forall2 (λ l b, f l = Ok b) o r.
Proof.
  destruct o as [l|]; simpl.
  - rewrite map_Ok. split.
    + intros (b & Hb & ->). by constructor.
    + inversion 1; subst; eauto.
  - split; [intros [= <-]; constructor | by inversion 1].
Qed.

Lemma compile_opt_mapM {A B} (f : A → result error B) (R : A → B → Prop) o r :
  (∀ a b, f a = Ok b ↔ R a b) →
  Settings.compile_opt (Res.mapM f) o = Ok r ↔ option_Forall2 (Forall2 R) o r.
Proof.
  intros HR. rewrite compile_opt_Ok.
  split; (destruct 1 as [l b Hl|]; constructor); [apply mapM_Ok in Hl | apply mapM_Ok];
    (eapply Forall2_impl; [exact Hl|]); intros; by apply HR.
Qed.

Lemma compile_headers_Ok e h :
  Settings.compile_headers e = Ok h ↔
  glob_new (File.hd_source e) = Some (hd_source h) ∧ hd_headers h = File.hd_headers e.
Proof.
  unfold Settings.compile_headers. rewrite bind_Ok. setoid_rewrite of_option_Ok. split.
  - intros (g & Hg & [= <-]). done.
  - intros [Hg Hh]. exists (hd_source h). split; [done|]. destruct h; simpl in *. by subst.
Qed.

Lemma compile_source_Ok what source r :
  Settings.compile_source what source = Ok r ↔ source_regex source r.
Proof.
  unfold Settings.compile_source, source_regex. rewrite bind_Ok. cbv zeta.
  by setoid_rewrite of_option_Ok.
Qed.

Lemma compile_rewrite_Ok e r :
  Settings.compile_rewrite e = Ok r ↔
  source_regex (File.rw_source e) (rw_source r) ∧
  rw_destination r = File.rw_destination e ∧ rw_redirect r = File.rw_redirect e.
Proof.
  unfold Settings.compile_rewrite. rewrite bind_Ok. setoid_rewrite compile_source_Ok. split.
  - intros (g & Hg & [= <-]). done.
  - intros (Hg & Hd & Hk). exists (rw_source r). split; [done|]. destruct r; simpl in *. by subst.
Qed.

Lemma compile_redirect_Ok e r :
  (∀ k, status_valid (RedirectsKind_u16 k) = true) →
  Settings.compile_redirect e = Ok r ↔
  source_regex (File.rd_source e) (rd_source r) ∧ rd_host r = File.rd_host e ∧
  rd_destination r = File.rd_destination e ∧
  rd_kind r = match File.rd_kind e with Permanent => 301%Z | Temporary => 302%Z end.
Proof.
  intros Hst. unfold Settings.compile_redirect. rewrite bind_Ok.
  setoid_rewrite compile_source_Ok. cbv zeta. setoid_rewrite Hst. split.
  - intros (g & Hg & [= <-]). done.
  - intros (Hg & Hh & Hd & Hk). exists (rd_source r). split; [done|].
    destruct r; simpl in *. by subst.
Qed.

Lemma get_valid_dirpath_Ok p q :
  Helpers.get_valid_dirpath fs p = Ok q ↔ q = p ∧ Fs.is_dir fs p = true.
Proof.
  unfold Helpers.get_valid_dirpath, Fs.exists_, Fs.is_dir.
  destruct (Fs.metadata fs p) as [m|e]; simpl; [|split; naive_solver].
  destruct (md_is_dir m); simpl; split; naive_solver.
Qed.

Lemma compile_vhosts_Ok l vs :
  Settings.compile_vhosts fs l = Ok vs ↔
  vs = rooted_vhosts l ∧
  ∀ v, v ∈ vs → Fs.is_dir fs (vh_root v) = true.
Proof.
  revert vs; induction l as [|e l IH]; intros vs; simpl.
  - split; [intros [= <-]; split; [done|by intros v ?%elem_of_nil] | by intros [-> _]].
  - destruct (File.vh_root e) as [root|]; simpl; [|apply IH].
    rewrite bind_Ok. setoid_rewrite bind_Ok. setoid_rewrite context_Ok.
    setoid_rewrite get_valid_dirpath_Ok. split.
    + intros (d & [-> Hd] & vs' & [-> Hroots]%IH & [= <-]). split; [done|].
      intros v [->|Hv]%elem_of_cons; auto.
    + intros [-> Hroots]. exists root. split; [split; [done|]|].
      { apply (Hroots (mkVirtualHosts (File.vh_host e) root)). apply elem_of_cons; by left. }
      eexists. split; [|done]. apply IH. split; [done|].
      intros v Hv. apply Hroots, elem_of_cons; by right.
Qed.

Lemma compile_opt_vhosts l vs :
  Settings.compile_opt (Settings.compile_vhosts fs) l = Ok vs ↔
  vs = rooted_vhosts <$> l ∧ ∀ l' v, vs = Some l' → v ∈ l' → Fs.is_dir fs (vh_root v) = true.
Proof.
  rewrite compile_opt_Ok. split.
  - destruct 1 as [l b [-> Hr]%compile_vhosts_Ok|]; split; [done| |done|done].
    intros l' v [= <-]. apply Hr.
  - intros [-> Hr]. destruct l as [l|]; simpl; constructor. apply compile_vhosts_Ok.
    split; [done|]. intros v. by apply Hr.
Qed.

(** The options a section compiles to when it has no [proxy-tls] of its own, and the flag the
    default leaves in them. *)
Definition with_default_tls (a : File.Advanced) (adv : Advanced) : Prop :=
  File.proxy_tls a = None → tls (adv_proxy_settings adv) = ProxyTlsSettings_default.

Lemma compile_advanced_iff (a : File.Advanced) (adv : Advanced)
    (Hst : ∀ k, status_valid (RedirectsKind_u16 k) = true) :
  Settings.compile_advanced fs env a = Ok adv ↔ Compiled a adv ∧ with_default_tls a adv.
Proof.
  unfold Settings.compile_advanced, with_default_tls. rewrite bind_Ok.
  setoid_rewrite (compile_opt_mapM _ _ _ _ compile_headers_Ok).
  setoid_rewrite bind_Ok. setoid_rewrite (compile_opt_mapM _ _ _ _ compile_rewrite_Ok).
  setoid_rewrite bind_Ok.
  setoid_rewrite (compile_opt_mapM _ _ _ _ (λ e r, compile_redirect_Ok e r Hst)).
  setoid_rewrite bind_Ok. cbv zeta.
  setoid_rewrite bind_Ok. setoid_rewrite compile_opt_vhosts. split.
  - intros (h & Hh & rw & Hrw & rd & Hrd & t & Ht & vs & [Hv Hroots] & [= <-]).
    split; [constructor; simpl; try done|]; destruct (File.proxy_tls a); by simplify_eq/=.
  - intros [[Hh Hrw Hrd Ht Hs Hv Hr Hrest] Hdef].
    eexists; split; [exact Hh|]. eexists; split; [exact Hrw|]. eexists; split; [exact Hrd|].
    exists (tls (adv_proxy_settings adv)).
    split; [destruct (File.proxy_tls a); [done|by rewrite Hdef]|].
    eexists; split; [split; [exact Hv | exact Hr]|].
    destruct adv; simpl in *. simplify_eq. f_equal. by rewrite Hs.
Qed.

(** C37. Compilation of the [advanced] section: the options it yields have, in the order of the
    file, one custom-header entry per glob that compiles, one rewrite and one redirect per source
    whose expression compiles (301 for a permanent redirect, 302 for a temporary one), the
    virtual hosts that have a root (each an existing directory), the proxy options with their
    defaults where zero tunnels means no limit, the proxy TLS settings read from [proxy-tls], and
    the proxy definitions left uncompiled; and it is refused only when there are no such options
    at all.  In particular no entry is reordered or lost without an error, save the virtual hosts
    without a root.  Left open: the [use_webpki_roots] of a section without [proxy-tls], for which
    code and documentation differ. *)
Theorem compile_advanced_spec (a : File.Advanced)
    (Hst : ∀ k, status_valid (RedirectsKind_u16 k) = true) :
  match Settings.compile_advanced fs env a with
  | Ok adv => Compiled a adv
  | Err _ => ∀ adv, ¬ Compiled a adv
  end.
Proof.
  destruct (Settings.compile_advanced fs env a) as [adv|e] eqn:E.
  - by apply compile_advanced_iff in E as [? _].
  - intros adv Hc. set (t := match File.proxy_tls a with
                             | Some _ => tls (adv_proxy_settings adv)
                             | None => ProxyTlsSettings_default
                             end).
    assert (Settings.compile_advanced fs env a =
              Ok (adv {{ adv_proxy_settings := ((adv_proxy_settings adv) {{ tls := t }}) }})) as Hok;
      [|congruence].
    apply compile_advanced_iff; [done|]. unfold with_default_tls, t. clear E t.
    destruct Hc as [Hh Hrw Hrd Ht Hs Hv Hr Hrest], adv as [? ? ? ? ? ? ? [] ?]; simpl in *.
    split; [|by intros ->]. constructor; simpl; try done; destruct (File.proxy_tls a); simplify_eq/=; done.
Qed.
End Compile.

(** * Witnesses *)

Module SettingsRef.
Definition advanced : File.Advanced := {|
  File.headers := None;
  File.rewrites := Some [File.mkRewrites "/old" "/new" None];
  File.redirects := Some [File.mkRedirects None "/a" "/b" Temporary];
  File.virtual_hosts := Some [File.mkVirtualHosts "x.org" None;
                              File.mkVirtualHosts "y.org" (Some (Path.parse "/srv/www"))];
  File.proxies := None;
  File.routes_bootstrap := None;
  File.proxy_tls := None;
  File.proxy_pool_max_idle_per_host := None;
  File.proxy_pool_idle_timeout_secs := None;
  File.proxy_first := None;
  File.max_upgrade_tunnels := Some 0%Z;
  File.memory_cache := None;
|}.
End SettingsRef.

Lemma compile_advanced_spec_witness :
  ∃ adv, Settings.compile_advanced FsRef.fs (λ _, None) SettingsRef.advanced = Ok adv ∧
    Compiled FsRef.fs (λ _, None) SettingsRef.advanced adv ∧
    virtual_hosts adv = Some [mkVirtualHosts "y.org" (Path.parse "/srv/www")].
Proof.
  destruct (Settings.compile_advanced FsRef.fs (λ _, None) SettingsRef.advanced) as [adv|e] eqn:E;
    [|discriminate E].
  exists adv. split; [reflexivity|].
  pose proof (compile_advanced_spec FsRef.fs (λ _, None) SettingsRef.advanced
    ltac:(intros []; reflexivity)) as Hc. rewrite E in Hc.
  split; [exact Hc|]. exact (cp_vhosts _ _ _ _ Hc).
Defined.
