(* ===== verification/Proxy.v ===== *)
(** The reverse proxy: [proxy.rs] and the client of [proxy_client.rs].

    The state the proxy works on is a [World]: the handler options (they hold the balancers'
    counters and the tunnel semaphore), the requests sent upstream, and the running upgrade
    tunnels.  The upstream side is a parameter: what the client returns for a request. *)
From Stdlib Require Import ZArith Lia Ascii String Sorted.
From stdpp Require Import base list strings gmap.
From coqutil Require Import Datatypes.RecordSetters.
Import DoubleBraceUpdate.
From S2P Require Import Prelude Http Libs RefLibs Path Opts Balancer.
Local Open Scope string_scope.
Local Open Scope list_scope.
Local Open Scope nat_scope.

(** * State *)

(** A task spawned by [forward_upgrade_inner]: its kind, and whether it owns a permit. *)
Record TunnelTask := mkTunnelTask { tt_kind : string; tt_permit : bool }.

Record World `{HttpLib, GlobLib, RegexLib} := mkWorld {
  w_opts : RequestHandlerOpts;
  w_sent : list Request;
  w_tunnels : list TunnelTask;
}.

Module Proxy.
Section Proxy.
Context `{HttpLib, GlobLib, RegexLib}.
(** [hyper::Client::request]. *)
Context (client_request : ProxyHttpClient → Request → result error Response).
Implicit Types (w : World) (req : Request).

(** ** Finding a rule *)

(** [request_host]: the authority of the URI, else the [Host] header without its port. *)
Definition request_host (req : Request) : option string :=
  match uri_authority (rq_uri req) with
  | Some authority => Some (authority_host authority)
  | None =>
      match rq_get "host" req with
      | None => None
      | Some v =>
          match hv_to_str v with
          | None => None
          | Some host_header =>
              Some match Str.rsplit_once ":" host_header with
                   | Some (potential_host, potential_port) =>
                       match Str.parse_uint u16_max potential_port with
                       | Some _ => potential_host
                       | None => host_header
                       end
                   | None => host_header
                   end
          end
      end
  end.

(** The test of the loop of [find_rule]. *)
Definition rule_matches (rule : ProxyRule) (request_host uri_path : string) : bool :=
  match pr_host rule with
  | Some host => if negb (String.eqb host request_host) then false
                 else glob_is_match (pr_source rule) uri_path
  | None => glob_is_match (pr_source rule) uri_path
  end.

Fixpoint find_rule_in (rules : list ProxyRule) (i : nat) (host uri_path : string)
    : option (nat * ProxyRule) :=
  match rules with
  | [] => None
  | rule :: rules' =>
      if rule_matches rule host uri_path then Some (i, rule)
      else find_rule_in rules' (S i) host uri_path
  end.

(** [find_rule]: the rule, with its position (the code returns a reference to it). *)
Definition find_rule (opts : RequestHandlerOpts) (req : Request) : option (nat * ProxyRule) :=
  match advanced_opts opts with
  | None => None
  | Some adv =>
      match proxies adv with
      | None => None
      | Some rules =>
          match request_host req with
          | None => None
          | Some host => find_rule_in rules 0 host (rq_path req)
          end
      end
  end.

(** ** Upgrades and streaming *)

Definition connection_header_has_token (headers : HeaderMap) (token : string) : bool :=
  match hm_get "connection" headers ≫= hv_to_str with
  | Some value =>
      existsb (λ part, Str.eq_ignore_ascii_case (Str.trim part) token) (Str.split "," value)
  | None => false
  end.

Definition is_protocol_upgrade (req : Request) : bool :=
  if negb (hm_contains "upgrade" (rq_headers req)) then false
  else connection_header_has_token (rq_headers req) "upgrade".

Definition is_streaming_request (req : Request) : bool :=
  match rq_get "accept" req ≫= hv_to_str with
  | Some accept => Str.contains "text/event-stream" (Str.to_ascii_lowercase accept)
  | None => false
  end.

(** ** Headers *)

Definition is_hop_by_hop_header (name : string) : bool :=
  existsb (String.eqb name)
    ["connection"; "keep-alive"; "proxy-authenticate"; "proxy-authorization"; "te";
     "trailers"; "transfer-encoding"; "upgrade"; "proxy-connection"].

Definition copy_forwardable_headers (src dst : HeaderMap) : HeaderMap :=
  fold_left (λ acc kv, if is_hop_by_hop_header kv.1 || String.eqb kv.1 "host" then acc
                       else hm_insert kv.1 kv.2 acc) (hm_iter src) dst.

Definition copy_upgrade_request_headers (src dst : HeaderMap) : HeaderMap :=
  fold_left (λ acc kv, if String.eqb kv.1 "host" then acc
                       else hm_insert kv.1 kv.2 acc) (hm_iter src) dst.

Definition set_upstream_host (headers : HeaderMap) (upstream_uri : Uri)
    : result error HeaderMap :=
  let? authority := Res.of_option ["upstream URI has no authority"]
                      (uri_authority upstream_uri) in
  let? host := Res.of_option ["invalid upstream Host header value: " +:+ authority]
                 (hv_from_str authority) in
  Ok (hm_insert "host" host headers).

Definition append_forwarded_headers (headers : HeaderMap) (req : Request)
    (remote_addr : option SocketAddr) : HeaderMap :=
  let headers :=
    match remote_addr with
    | Some addr => match hv_from_str (sa_ip addr) with
                   | Some value => hm_insert "x-forwarded-for" value headers
                   | None => headers
                   end
    | None => match rq_get "x-forwarded-for" req with
              | Some existing => hm_insert "x-forwarded-for" existing headers
              | None => headers
              end
    end in
  let proto :=
    match rq_get "x-forwarded-proto" req with
    | Some p => p
    | None => default "http" (uri_scheme (rq_uri req) ≫= hv_from_str)
    end in
  let headers := hm_insert "x-forwarded-proto" proto headers in
  match rq_get "host" req with
  | Some host => hm_insert "x-forwarded-host" host headers
  | None => headers
  end.

Definition remove_all (names : list string) (headers : HeaderMap) : HeaderMap :=
  fold_left (λ h n, hm_remove n h) names headers.

Definition hop_by_hop_request_headers : list string :=
  ["connection"; "proxy-authorization"; "te"; "trailer"; "transfer-encoding"; "upgrade";
   "keep-alive"; "proxy-authenticate"; "proxy-connection"].

Definition remove_hop_by_hop_request_headers (headers : HeaderMap) : HeaderMap :=
  remove_all hop_by_hop_request_headers headers.
Definition remove_hop_by_hop_response_headers (headers : HeaderMap) : HeaderMap :=
  remove_hop_by_hop_request_headers headers.
Definition preserve_upgrade_response_headers (headers : HeaderMap) : HeaderMap := headers.
Definition preserve_streaming_response_headers (headers : HeaderMap) : HeaderMap :=
  remove_all ["proxy-authorization"; "proxy-authenticate"; "proxy-connection"] headers.

(** ** Forwarding *)

(** Writes the rule back: its balancer is shared by all requests. *)
Definition put_rule (i : nat) (rule : ProxyRule) (w : World) : World :=
  w {{ w_opts -> advanced_opts ::=
         fmap (λ adv, adv {{ proxies ::= fmap (λ rs, <[ i := rule ]> rs) }}) }}.

Definition send (client : ProxyHttpClient) (r : Request) (w : World)
    : result error Response * World :=
  (client_request client r, w {{ w_sent ::= (λ l, l ++ [r]) }}).

(** [std::mem::replace(req.body_mut(), Body::empty())]. *)
Definition take_body (req : Request) : Request :=
  mkRequest (rq_method req) (rq_uri req) (rq_headers req) BodyEmpty.

(** [forward_http]; the request loses its body, the rule's counter moves. *)
Definition forward_http (client : ProxyHttpClient) (i : nat) (rule : ProxyRule) (req : Request)
    (remote_addr : option SocketAddr) (w : World)
    : result error Response * Request * World :=
  let '(upstream_uri, rule') := Template.upstream_uri_for_rule rule (rq_uri req) in
  let w := put_rule i rule' w in
  match upstream_uri with
  | Err e => (Err e, req, w)
  | Ok upstream_uri =>
      let body := rq_body req in
      let req := take_body req in
      let streaming := is_streaming_request req in
      let headers := copy_forwardable_headers (rq_headers req) hm_empty in
      match set_upstream_host headers upstream_uri with
      | Err e => (Err e, req, w)
      | Ok headers =>
          let headers := append_forwarded_headers headers req remote_addr in
          let headers := remove_hop_by_hop_request_headers headers in
          let '(r, w) := send client (mkRequest (rq_method req) upstream_uri headers body) w in
          match Res.context ("proxy request failed for upstream "
                               +:+ uri_display upstream_uri) r with
          | Err e => (Err e, req, w)
          | Ok resp =>
              (Ok (set_headers (if streaming
                                then preserve_streaming_response_headers (rs_headers resp)
                                else remove_hop_by_hop_response_headers (rs_headers resp))
                     resp), req, w)
          end
      end
  end.

(** ** Tunnel permits *)

Definition add_permits (d : Z) (w : World) : World :=
  w {{ w_opts -> upgrade_tunnel_semaphore ::= fmap (Z.add d) }}.

(** Dropping an [Option<OwnedSemaphorePermit>] gives the permit back. *)
Definition drop_permit (permit : bool) (w : World) : World :=
  if permit then add_permits 1 w else w.

(** The task spawned for a switched connection owns the permit from then on. *)
Definition spawn_tunnel (kind : string) (permit : bool) (w : World) : World :=
  w {{ w_tunnels ::= (λ l, l ++ [mkTunnelTask kind permit]) }}.

(** What [forward_upgrade_inner] does with the upstream's answer. *)
Definition finish_upgrade (upstream_uri : Uri) (r : result error Response) (permit : bool)
    (w : World) : result error Response * World :=
  match Res.context ("proxy upgrade request failed for upstream "
                       +:+ uri_display upstream_uri) r with
  | Err e => (Err e, drop_permit permit w)
  | Ok upstream_resp =>
      if negb (rs_status upstream_resp =? 101)%Z
      then (Ok upstream_resp, drop_permit permit w)
      else
        let resp := mkResponse (rs_status upstream_resp)
                      (preserve_upgrade_response_headers (rs_headers upstream_resp))
                      BodyEmpty in
        let upgrade_kind :=
          default "unknown" (hm_get "upgrade" (rs_headers resp) ≫= hv_to_str) in
        (Ok resp, spawn_tunnel upgrade_kind permit w)
  end.

(** [forward_upgrade_inner] up to the point where it awaits the upstream's answer: the
    upstream URI and the request to send. *)
Definition prepare_upgrade (i : nat) (rule : ProxyRule) (req : Request)
    (remote_addr : option SocketAddr) (w : World)
    : result error (Uri * Request) * Request * World :=
  let '(upstream_uri, rule') := Template.upstream_uri_for_rule rule (rq_uri req) in
  let w := put_rule i rule' w in
  match upstream_uri with
  | Err e => (Err e, req, w)
  | Ok upstream_uri =>
      let body := rq_body req in
      let req := take_body req in
      let headers := copy_upgrade_request_headers (rq_headers req) hm_empty in
      match set_upstream_host headers upstream_uri with
      | Err e => (Err e, req, w)
      | Ok headers =>
          let headers := append_forwarded_headers headers req remote_addr in
          (Ok (upstream_uri, mkRequest (rq_method req) upstream_uri headers body), req, w)
      end
  end.

(** [forward_upgrade_inner]; [permit] is dropped on every return that spawned no tunnel. *)
Definition forward_upgrade_inner (client : ProxyHttpClient) (i : nat) (rule : ProxyRule)
    (req : Request) (remote_addr : option SocketAddr) (permit : bool) (w : World)
    : result error Response * Request * World :=
  let '(p, req, w) := prepare_upgrade i rule req remote_addr w in
  match p with
  | Err e => (Err e, req, drop_permit permit w)
  | Ok (upstream_uri, upstream_req) =>
      let '(r, w) := send client upstream_req w in
      let '(r, w) := finish_upgrade upstream_uri r permit w in
      (r, req, w)
  end.

(** [sem.clone().try_acquire_owned()], when there is a semaphore: [None] is the refusal,
    else whether a permit was taken. *)
Definition try_acquire (w : World) : option (bool * World) :=
  match upgrade_tunnel_semaphore (w_opts w) with
  | Some n => if (n <=? 0)%Z then None else Some (true, add_permits (-1) w)
  | None => Some (false, w)
  end.

(** [forward_upgrade]: without a free permit the answer is 503 and nothing is sent. *)
Definition forward_upgrade (client : ProxyHttpClient) (i : nat) (rule : ProxyRule)
    (req : Request) (remote_addr : option SocketAddr) (w : World)
    : result error Response * Request * World :=
  match try_acquire w with
  | None => (Ok (mkResponse 503 hm_empty BodyEmpty), req, w)
  | Some (permit, w) => forward_upgrade_inner client i rule req remote_addr permit w
  end.

(** [pre_process]: [None] when no rule matches or there is no client. *)
Definition pre_process (req : Request) (remote_addr : option SocketAddr) (w : World)
    : option (result error Response) * Request * World :=
  match find_rule (w_opts w) req with
  | None => (None, req, w)
  | Some (i, rule) =>
      match proxy_client (w_opts w) with
      | None => (None, req, w)
      | Some client =>
          let '(r, req, w) :=
            if is_protocol_upgrade req
            then forward_upgrade client i rule req remote_addr w
            else forward_http client i rule req remote_addr w in
          (Some r, req, w)
      end
  end.

(** The end of a tunnel task (after [tunnel_upgrades] returned): its permit is dropped. *)
Definition tunnel_ended (k : nat) (w : World) : World :=
  match w_tunnels w !! k with
  | None => w
  | Some t => drop_permit (tt_permit t)
                (w {{ w_tunnels ::= (λ l, take k l ++ drop (S k) l) }})
  end.
End Proxy.
End Proxy.

(** * Specifications *)

Module ProxySpec.
Section Spec.
Context `{HttpLib, GlobLib, RegexLib}.

(** A definition applies to a request, stated on the configuration. *)
Definition entry_matches (e : File.Proxy) (host uri_path : string) : Prop :=
  (∀ h, File.host e = Some h → h = host) ∧
  ∃ g, glob_new (File.source e) = Some g ∧ glob_is_match g uri_path = true.

(** The value a header map built by inserting the copied headers of [src] has for [n]. *)
Definition copied (keep : string → bool) (src : HeaderMap) (n : string) : list string :=
  if keep n then match last (hm_get_all n src) with Some v => [v] | None => [] end else [].

(** The headers of a forwarded request, name by name, from those of the client's request:
    [base] is what was copied, [authority] the upstream's. *)
Definition forwarded (base : string → list string) (authority : string) (req : Request)
    (remote_addr : option SocketAddr) (n : string) : list string :=
  if decide (n = "x-forwarded-host") then
    match rq_get "host" req with Some h => [h] | None => base n end
  else if decide (n = "x-forwarded-proto") then
    [match rq_get n req with
     | Some p => p
     | None => default "http" (uri_scheme (rq_uri req) ≫= hv_from_str)
     end]
  else if decide (n = "x-forwarded-for") then
    match remote_addr with
    | Some addr => if hv_valid (sa_ip addr) then [sa_ip addr] else base n
    | None => match rq_get n req with Some v => [v] | None => base n end
    end
  else if decide (n = "host") then [authority]
  else base n.

Definition keep_http (n : string) : bool :=
  negb (Proxy.is_hop_by_hop_header n || String.eqb n "host").
Definition keep_upgrade (n : string) : bool := negb (String.eqb n "host").

(** A request forwarded over HTTP: end-to-end headers keep their last value, hop-by-hop
    headers are gone. *)
Definition http_headers (authority : string) (req : Request)
    (remote_addr : option SocketAddr) (n : string) : list string :=
  if decide (n ∈ Proxy.hop_by_hop_request_headers) then []
  else forwarded (copied keep_http (rq_headers req)) authority req remote_addr n.

Definition upgrade_headers (authority : string) (req : Request)
    (remote_addr : option SocketAddr) (n : string) : list string :=
  forwarded (copied keep_upgrade (rq_headers req)) authority req remote_addr n.

(** The names a response loses on its way back. *)
Definition dropped_from_response (streaming : bool) : list string :=
  if streaming then ["proxy-authorization"; "proxy-authenticate"; "proxy-connection"]
  else Proxy.hop_by_hop_request_headers.
End Spec.
End ProxySpec.

(** * Rule selection *)

Section FindRule.
Context `{HttpLib, GlobLib, RegexLib}.

Lemma rule_matches_entry e r host p :
  Compile.rule_of e r → Proxy.rule_matches r host p = true ↔ ProxySpec.entry_matches e host p.
Proof.
  intros (Hh & Hg & _). unfold Proxy.rule_matches, ProxySpec.entry_matches. rewrite Hh, Hg.
  destruct (File.host e) as [h|]; simpl.
  - destruct (String.eqb_spec h host) as [->|Hne]; simpl; split.
    + intros Hm. split; [congruence | eauto].
    + intros [_ (g & Hg' & Hm)]. by simplify_eq.
    + done.
    + intros [Heq _]. by destruct Hne; apply Heq.
  - split; [intros Hm; split; [done | eauto] | intros [_ (g & Hg' & Hm)]; by simplify_eq].
Qed.

Lemma find_rule_in_spec rules i host p :
  match Proxy.find_rule_in rules i host p with
  | Some (j, r) =>
      ∃ k, j = i + k ∧ rules !! k = Some r ∧ Proxy.rule_matches r host p = true ∧
           ∀ k' r', k' < k → rules !! k' = Some r' → Proxy.rule_matches r' host p = false
  | None => ∀ r, r ∈ rules → Proxy.rule_matches r host p = false
  end.
Proof.
  revert i. induction rules as [|r rules IH]; intros i; simpl; [by intros ? ?%elem_of_nil|].
  destruct (Proxy.rule_matches r host p) eqn:E.
  - exists 0. split_and!; [lia | done..|]. intros k' r' ?. lia.
  - specialize (IH (S i)). destruct (Proxy.find_rule_in rules (S i) host p) as [[j r1]|].
    + destruct IH as (k & -> & Hk & Hm & Hlt). exists (S k). split_and!; [lia | done..|].
      intros [|k'] r' ? Hr'; simpl in Hr'; [by simplify_eq|]. apply (Hlt k'); [lia | done].
    + intros r' [->|Hr']%elem_of_cons; auto.
Qed.
End FindRule.

(** C4. Requests go to the rule with the longest matching source.  With the rules compiled from
    a configuration (in the order [sort_proxy_defs_by_specificity] gives; the balancers' counters
    may have moved), [find_rule] returns a rule whose definition matches the request's host and
    path; no other matching definition has a longer source, and among the matching ones of the
    same length and number of wildcards it is the first of the configuration.  It returns nothing
    only when no definition matches.  The theorem says nothing on which of two matching sources
    of one length wins when their numbers of wildcards differ: the code and its comment disagree
    there ([Balancer.more_wildcards_first]). *)
Theorem find_rule_most_specific `{HttpLib, GlobLib, RegexLib}
    (opts : RequestHandlerOpts) (adv : Advanced) (defs : list File.Proxy) (rules : list ProxyRule)
    (req : Request) (host : string)
    (Hadv : advanced_opts opts = Some adv) (Hrules : proxies adv = Some rules)
    (Hcompiled : Forall2 Compile.rule_of (Specificity.sort_proxy_defs_by_specificity defs) rules)
    (Hhost : Proxy.request_host req = Some host) :
  match Proxy.find_rule opts req with
  | Some (i, r) =>
      ∃ n d, defs !! n = Some d ∧ rules !! i = Some r ∧ Compile.rule_of d r ∧
             ProxySpec.entry_matches d host (rq_path req) ∧
             ∀ n' d', defs !! n' = Some d' → ProxySpec.entry_matches d' host (rq_path req) →
                      Specificity.at_least_as_long d d' ∧
                      (Specificity.same_key d' d → n ≤ n')
  | None => ∀ d, d ∈ defs → ¬ ProxySpec.entry_matches d host (rq_path req)
  end.
Proof.
  unfold Proxy.find_rule. rewrite Hadv, Hrules, Hhost.
  pose proof (find_rule_in_spec rules 0 host (rq_path req)) as Hspec.
  pose proof (sort_defs_perm defs) as Hperm.
  destruct (Proxy.find_rule_in rules 0 host (rq_path req)) as [[i r]|].
  - destruct Hspec as (k & -> & Hk & Hm & Hfirst). simpl.
    destruct (Forall2_lookup_r _ _ _ _ _ Hcompiled Hk) as (d & Hd & Hof).
    assert (∀ k' d', k' < k → Specificity.sort_proxy_defs_by_specificity defs !! k' = Some d' →
              ¬ ProxySpec.entry_matches d' host (rq_path req)) as Hbefore.
    { intros k' d' Hlt Hk' Hm'.
      destruct (Forall2_lookup_l _ _ _ _ _ Hcompiled Hk') as (r' & Hr' & Hof').
      apply (rule_matches_entry d' r') in Hm'; [|done]. by rewrite (Hfirst k' r') in Hm'. }
    destruct (sort_defs_first (λ d', ProxySpec.entry_matches d' host (rq_path req)) defs k d)
      as (n & Hn & Hn'); [done..|].
    exists n, d. split_and!; [done..|by apply (rule_matches_entry d r)|].
    intros n' d' Hd' Hm'. split.
    + apply list_elem_of_lookup_2 in Hd'. rewrite <- Hperm in Hd'.
      apply list_elem_of_lookup in Hd' as [k' Hk'].
      destruct (lt_eq_lt_dec k' k) as [[Hlt| ->]|Hlt].
      * by destruct (Hbefore k' d').
      * simplify_eq. unfold Specificity.at_least_as_long. lia.
      * by apply (sorted_lookup_le _ _ k k' d d' (sort_defs_sorted defs)).
    + intros Hkey. destruct (decide (n' < n)) as [Hlt|]; [|lia]. by destruct (Hn' n' d').
  - intros d Hd Hm. rewrite <- Hperm in Hd. apply list_elem_of_lookup in Hd as [k Hk].
    destruct (Forall2_lookup_l _ _ _ _ _ Hcompiled Hk) as (r & Hr & Hof).
    apply (rule_matches_entry d r) in Hm; [|done].
    rewrite (Hspec r) in Hm; [done|]. by eapply list_elem_of_lookup_2.
Qed.

(** Three definitions match: the longest wins, and of its two copies the first. *)
Lemma find_rule_most_specific_witness :
  let short := File.mkProxy None None "/**" (Some "http://a:1") None None in
  let long t := File.mkProxy None (Some "h") "/api/**" (Some t) None None in
  let defs := [short; long "http://b:2"; long "http://c:3"] in
  let rules := default [] (Res.ok (Compile.compile_proxy_rules
                 (Specificity.sort_proxy_defs_by_specificity defs))) in
  let adv := Advanced_default {{ proxies := Some rules }} in
  let o := RequestHandlerOpts_default {{ advanced_opts := Some adv }} in
  let req := mkRequest "GET" (RefUri.mk None None (Some "/api/x")) [("host", "h:80")] BodyEmpty in
  match Proxy.find_rule o req with
  | Some (i, r) => Compile.rule_of (long "http://b:2") r
  | None => False
  end.
Proof.
  intros short long defs rules adv o req.
  assert (Compile.compile_proxy_rules (Specificity.sort_proxy_defs_by_specificity defs) = Ok rules)
    as Hrules by reflexivity.
  assert (∀ t, ProxySpec.entry_matches (long t) "h" "/api/x") as Hm
    by (intros t; split; [by intros ? [= <-] | exists "/api/**"; split; reflexivity]).
  pose proof (find_rule_most_specific o adv defs rules req "h" eq_refl eq_refl
                (proj1 (compile_rules_of _ _ Hrules)) eq_refl) as Hf.
  clearbody rules. destruct (Proxy.find_rule o req) as [[i r]|].
  - destruct Hf as (n & d & Hd & _ & Hof & _ & Hall).
    destruct (Hall 1 (long "http://b:2") eq_refl (Hm _)) as [Hlong Hfirst].
    destruct n as [|[|n]]; [|by injection Hd as <-|].
    + injection Hd as <-. vm_compute in Hlong. lia.
    + destruct n as [|n]; [|discriminate Hd]. injection Hd as <-. specialize (Hfirst eq_refl). lia.
  - eapply Hf; [right; left | apply Hm].
Defined.

(** * Forwarded headers *)

Section HeaderLemmas.
Context `{HttpLaws, GlobLib, RegexLib}.

Lemma vals_filter (keep : string → bool) n (l : list (string * string)) :
  vals n (filter (λ kv, keep kv.1 = true) l) = if keep n then vals n l else [].
Proof.
  unfold vals. induction l as [|[k v] l IH]; [by destruct (keep n)|].
  destruct (keep k) eqn:Hk.
  - rewrite filter_cons_True by done. destruct (decide (k = n)) as [->|].
    + rewrite !filter_cons_True by done. rewrite !fmap_cons, IH, Hk. done.
    + by rewrite !(filter_cons_False (λ kv : string * string, kv.1 = n)) by done.
  - rewrite filter_cons_False by (simpl; congruence). rewrite IH.
    destruct (decide (k = n)) as [->|]; [by rewrite Hk|].
    by rewrite filter_cons_False by done.
Qed.

Lemma fold_copy (drop : string → bool) (l : list (string * string)) (dst : HeaderMap) :
  fold_left (λ acc kv, if drop kv.1 then acc else hm_insert kv.1 kv.2 acc) l dst =
  hm_insert_all (filter (λ kv, negb (drop kv.1) = true) l) dst.
Proof.
  revert dst. induction l as [|[k v] l IH]; intros dst; [done|]. cbn [fold_left fst snd].
  rewrite IH. destruct (drop k) eqn:E; simpl in E.
  - rewrite filter_cons_False; [done | simpl; by rewrite E].
  - rewrite filter_cons_True; [done | simpl; by rewrite E].
Qed.

Lemma get_all_copy (keep : string → bool) (src : HeaderMap) n :
  hm_get_all n (fold_left (λ acc kv, if negb (keep kv.1) then acc
                                     else hm_insert kv.1 kv.2 acc) (hm_iter src) hm_empty) =
  ProxySpec.copied keep src n.
Proof.
  rewrite (fold_copy (λ k, negb (keep k))), get_all_insert_all.
  rewrite (vals_filter (λ k, negb (negb (keep k)))), iter_get_all, get_all_empty.
  unfold ProxySpec.copied. by destruct (keep n).
Qed.

Lemma get_all_remove_all ns n h :
  hm_get_all n (Proxy.remove_all ns h) = if decide (n ∈ ns) then [] else hm_get_all n h.
Proof.
  unfold Proxy.remove_all. revert h. induction ns as [|m ns IH]; intros h; [done|].
  cbn [fold_left]. rewrite IH, get_all_remove.
  destruct (decide (n ∈ ns)), (decide (m = n)), (decide (n ∈ m :: ns)); try done; set_solver.
Qed.

(** [append_forwarded_headers] on top of the copied headers and the upstream [Host]. *)
Lemma get_all_append headers base authority req remote n :
  (∀ m, hm_get_all m headers = base m) →
  hm_get_all n (Proxy.append_forwarded_headers (hm_insert "host" authority headers) req remote) =
  ProxySpec.forwarded base authority req remote n.
Proof.
  intros Hbase. unfold Proxy.append_forwarded_headers, ProxySpec.forwarded.
  set (proto := match rq_get "x-forwarded-proto" req with Some p => p | None => _ end).
  set (h1 := match remote with Some _ => _ | None => _ end).
  assert (Hh1 : ∀ m, hm_get_all m h1 =
    if decide (m = "x-forwarded-for") then
      match remote with
      | Some addr => if hv_valid (sa_ip addr) then [sa_ip addr]
                     else if decide (m = "host") then [authority] else base m
      | None => match rq_get "x-forwarded-for" req with
                | Some v => [v]
                | None => if decide (m = "host") then [authority] else base m
                end
      end
    else if decide (m = "host") then [authority] else base m).
  { intros m. unfold h1, hv_from_str.
    destruct remote as [addr|]; [destruct (hv_valid (sa_ip addr))|
                                 destruct (rq_get "x-forwarded-for" req)];
      rewrite !get_all_insert, Hbase; repeat case_decide; congruence. }
  destruct (rq_get "host" req) as [h|]; rewrite !get_all_insert, Hh1;
    repeat case_decide; simplify_eq; try done.
  all: destruct remote as [addr|]; [by destruct (hv_valid (sa_ip addr))|by destruct (rq_get _ req)].
Qed.

Lemma append_take_body headers req remote :
  Proxy.append_forwarded_headers headers (Proxy.take_body req) remote =
  Proxy.append_forwarded_headers headers req remote.
Proof. done. Qed.
End HeaderLemmas.

(** C8. The request [forward_http] sends: exactly one, to the selected upstream, with the client's
    method and body; hop-by-hop headers are removed, [Host] is the upstream's authority,
    [X-Forwarded-For] the peer's address, [X-Forwarded-Proto]/[-Host] are set, and every other
    header arrives with its last value. *)
Theorem forward_http_request `{HttpLaws, GlobLib, RegexLib}
    (client_request : ProxyHttpClient → Request → result error Response)
    (client : ProxyHttpClient) (i : nat) (rule : ProxyRule) (req : Request)
    (remote_addr : option SocketAddr) (w : World) (u : Uri) (authority : string)
    (Hu : (Template.upstream_uri_for_rule rule (rq_uri req)).1 = Ok u)
    (Ha : uri_authority u = Some authority) (Hv : hv_valid authority = true) :
  ∃ sent : Request,
    w_sent (Proxy.forward_http client_request client i rule req remote_addr w).2 =
      w_sent w ++ [sent] ∧
    rq_method sent = rq_method req ∧ rq_uri sent = u ∧ rq_body sent = rq_body req ∧
    ∀ n, hm_get_all n (rq_headers sent) = ProxySpec.http_headers authority req remote_addr n.
Proof.
  unfold Proxy.forward_http.
  destruct (Template.upstream_uri_for_rule rule (rq_uri req)) as [uri rule']. simpl in Hu. subst.
  unfold Proxy.set_upstream_host. rewrite Ha. simpl. unfold hv_from_str. rewrite Hv. simpl.
  set (hdrs := Proxy.remove_hop_by_hop_request_headers _).
  exists (mkRequest (rq_method req) u hdrs (rq_body req)).
  split; [by destruct (Res.context _ _)|]. split_and!; [done..|]. intros n. simpl. unfold hdrs.
  unfold Proxy.remove_hop_by_hop_request_headers, ProxySpec.http_headers.
  rewrite get_all_remove_all. case_decide; [done|].
  rewrite append_take_body. apply get_all_append. intros m.
  rewrite <- get_all_copy. f_equal. unfold Proxy.copy_forwardable_headers, ProxySpec.keep_http.
  generalize hm_empty. induction (hm_iter (rq_headers req)) as [|kv l IH]; intros h; [done|].
  cbn [fold_left]. by rewrite negb_involutive, IH.
Qed.

(** A rule, a request and an upstream for the witnesses. *)
Module ProxyRef.
Definition client : ProxyHttpClient := mkProxyHttpClient None true None None None.
Definition rule : ProxyRule :=
  mkProxyRule None "/api/**"
    (mkProxyBalancer None [RefUri.mk (Some "http") (Some "127.0.0.1:3000") (Some "/")] 0)
    (Some "/api") [mkUpstreamUriTemplate "http://127.0.0.1:3000" "/" (Some "/api")].
Definition req : Request :=
  mkRequest "GET" (RefUri.mk None None (Some "/api/users"))
    [("host", "example.com"); ("te", "trailers"); ("accept", "*/*")] BodyEmpty.
Definition answer (_ : ProxyHttpClient) (_ : Request) : result error Response :=
  Ok (mkResponse 200 [("te", "x"); ("etag", "1")] (BodyBytes "hi")).
Definition world : World :=
  mkWorld _ _ _ (RequestHandlerOpts_default {{ upgrade_tunnel_semaphore := Some 2%Z }}) [] [].
End ProxyRef.

Lemma forward_http_request_witness :
  ∃ sent : Request,
    w_sent (Proxy.forward_http ProxyRef.answer ProxyRef.client 0 ProxyRef.rule ProxyRef.req
              (Some (mkSocketAddr "10.0.0.7" 5555)) ProxyRef.world).2 = [sent] ∧
    hm_get_all "te" (rq_headers sent) = [] ∧
    hm_get_all "host" (rq_headers sent) = ["127.0.0.1:3000"] ∧
    hm_get_all "x-forwarded-for" (rq_headers sent) = ["10.0.0.7"].
Proof.
  edestruct (forward_http_request ProxyRef.answer ProxyRef.client 0 ProxyRef.rule ProxyRef.req
               (Some (mkSocketAddr "10.0.0.7" 5555)) ProxyRef.world)
    as (sent & Hs & _ & _ & _ & Hh); [by vm_compute..|].
  exists sent. split; [exact Hs|]. rewrite !Hh. by vm_compute.
Defined.

(** C22. What the client gets back from [forward_http]: an upstream failure becomes an error with
    its context; otherwise the upstream's status and body, and its headers without the hop-by-hop
    ones (for a streaming request only the proxy-specific ones are dropped). *)
Theorem forward_http_response `{HttpLaws, GlobLib, RegexLib}
    (client_request : ProxyHttpClient → Request → result error Response)
    (client : ProxyHttpClient) (i : nat) (rule : ProxyRule) (req : Request)
    (remote_addr : option SocketAddr) (w : World) (u : Uri) (authority : string)
    (Hu : (Template.upstream_uri_for_rule rule (rq_uri req)).1 = Ok u)
    (Ha : uri_authority u = Some authority) (Hv : hv_valid authority = true) :
  let out := Proxy.forward_http client_request client i rule req remote_addr w in
  ∃ sent : Request,
    w_sent out.2 = w_sent w ++ [sent] ∧
    match client_request client sent with
    | Err e => out.1.1 = Err (("proxy request failed for upstream " +:+ uri_display u) :: e)
    | Ok resp =>
        ∃ r, out.1.1 = Ok r ∧ rs_status r = rs_status resp ∧ rs_body r = rs_body resp ∧
          ∀ n, hm_get_all n (rs_headers r) =
            if decide (n ∈ ProxySpec.dropped_from_response (Proxy.is_streaming_request req))
            then [] else hm_get_all n (rs_headers resp)
    end.
Proof.
  unfold Proxy.forward_http.
  destruct (Template.upstream_uri_for_rule rule (rq_uri req)) as [uri rule']. simpl in Hu. subst.
  unfold Proxy.set_upstream_host. rewrite Ha. simpl. unfold hv_from_str. rewrite Hv. simpl.
  set (sent := mkRequest (rq_method req) u _ (rq_body req)). exists sent.
  split; [by destruct (Res.context _ _)|].
  destruct (client_request client sent) as [resp|e]; simpl; [|done].
  eexists. split_and!; [done..|]. intros n. simpl.
  change (Proxy.is_streaming_request (Proxy.take_body req)) with (Proxy.is_streaming_request req).
  by destruct (Proxy.is_streaming_request req); simpl;
    [unfold Proxy.preserve_streaming_response_headers
    |unfold Proxy.remove_hop_by_hop_response_headers, Proxy.remove_hop_by_hop_request_headers];
    rewrite get_all_remove_all.
Qed.

Lemma forward_http_response_witness :
  ∃ r, (Proxy.forward_http ProxyRef.answer ProxyRef.client 0 ProxyRef.rule ProxyRef.req None
          ProxyRef.world).1.1 = Ok r ∧
       rs_status r = 200%Z ∧ hm_get_all "te" (rs_headers r) = [] ∧
       hm_get_all "etag" (rs_headers r) = ["1"].
Proof.
  edestruct (forward_http_response ProxyRef.answer ProxyRef.client 0 ProxyRef.rule ProxyRef.req
               None ProxyRef.world) as (sent & _ & r & Hr & Hs & _ & Hh); [by vm_compute..|].
  exists r. rewrite !Hh, Hs. split_and!; [exact Hr | by vm_compute..].
Defined.

(** C25. The request sent for a protocol upgrade keeps every header of the client (the
    [Connection] and [Upgrade] headers included, each with its last value) except [Host], which
    is the upstream's; the forwarding headers are set as for plain HTTP.  Nothing is sent yet. *)
Theorem prepare_upgrade_request `{HttpLaws, GlobLib, RegexLib}
    (i : nat) (rule : ProxyRule) (req : Request)
    (remote_addr : option SocketAddr) (w : World) (u : Uri) (authority : string)
    (Hu : (Template.upstream_uri_for_rule rule (rq_uri req)).1 = Ok u)
    (Ha : uri_authority u = Some authority) (Hv : hv_valid authority = true) :
  ∃ r, (Proxy.prepare_upgrade i rule req remote_addr w).1.1 = Ok (u, r) ∧
    w_sent (Proxy.prepare_upgrade i rule req remote_addr w).2 = w_sent w ∧
    rq_method r = rq_method req ∧ rq_uri r = u ∧ rq_body r = rq_body req ∧
    ∀ n, hm_get_all n (rq_headers r) = ProxySpec.upgrade_headers authority req remote_addr n.
Proof.
  unfold Proxy.prepare_upgrade.
  destruct (Template.upstream_uri_for_rule rule (rq_uri req)) as [uri rule']. simpl in Hu. subst.
  unfold Proxy.set_upstream_host. rewrite Ha. simpl. unfold hv_from_str. rewrite Hv. simpl.
  eexists. split; [done|]. split_and!; [done..|]. intros n. simpl.
  rewrite append_take_body. apply get_all_append. intros m.
  rewrite <- get_all_copy. unfold Proxy.copy_upgrade_request_headers, ProxySpec.keep_upgrade.
  generalize hm_empty. induction (hm_iter (rq_headers req)) as [|kv l IH]; intros h; [done|].
  cbn [fold_left]. by rewrite negb_involutive, IH.
Qed.

Lemma prepare_upgrade_request_witness :
  ∃ r, hm_get_all "te" (rq_headers r) = ["trailers"] ∧
       (Proxy.prepare_upgrade 0 ProxyRef.rule ProxyRef.req None ProxyRef.world).1.1 =
         Ok (RefUri.mk (Some "http") (Some "127.0.0.1:3000") (Some "/users"), r).
Proof.
  edestruct (prepare_upgrade_request 0 ProxyRef.rule ProxyRef.req None ProxyRef.world)
    as (r & Hr & _ & _ & _ & _ & Hh); [by vm_compute..|].
  exists r. rewrite Hh. split; [by vm_compute | exact Hr].
Defined.

(** * Upgrade tunnels under concurrency *)

(** The handler futures interleave at their await points.  A configuration is the world and the
    upgrades waiting for their upstream (with the permit each holds). *)
Module Tunnels.
Section Tunnels.
Context `{HttpLib, GlobLib, RegexLib}.

Record Config := mkConfig { c_world : World; c_waiting : list (Uri * bool) }.

Definition remove_nth {A} (k : nat) (l : list A) : list A := take k l ++ drop (S k) l.

(** One step of some task, built from the functions of the code. *)
Inductive step : Config → Config → Prop :=
| step_begin i rule req remote w ws permit w1 u r req' w2 :
    Proxy.try_acquire w = Some (permit, w1) →
    Proxy.prepare_upgrade i rule req remote w1 = (Ok (u, r), req', w2) →
    step (mkConfig w ws)
      (mkConfig (w2 {{ w_sent ::= (λ l, l ++ [r]) }}) (ws ++ [(u, permit)]))
| step_refuse i rule req remote w ws permit w1 e req' w2 :
    Proxy.try_acquire w = Some (permit, w1) →
    Proxy.prepare_upgrade i rule req remote w1 = (Err e, req', w2) →
    step (mkConfig w ws) (mkConfig (Proxy.drop_permit permit w2) ws)
| step_answer k u permit (answer : result error Response) w ws :
    ws !! k = Some (u, permit) →
    step (mkConfig w ws)
      (mkConfig (Proxy.finish_upgrade u answer permit w).2 (remove_nth k ws))
| step_cancel k u permit w ws :
    ws !! k = Some (u, permit) →
    step (mkConfig w ws) (mkConfig (Proxy.drop_permit permit w) (remove_nth k ws))
| step_http client_request client i rule req remote w ws :
    step (mkConfig w ws)
      (mkConfig (Proxy.forward_http client_request client i rule req remote w).2 ws)
| step_end k w ws :
    step (mkConfig w ws) (mkConfig (Proxy.tunnel_ended k w) ws).

Definition held (l : list bool) : Z := Z.of_nat (length (filter (λ b, b = true) l)).

(** Free permits, permits of waiting upgrades and permits of tunnels add up to [max]. *)
Definition balanced (max : Z) (c : Config) : Prop :=
  ∃ n, upgrade_tunnel_semaphore (w_opts (c_world c)) = Some n ∧ (0 ≤ n)%Z ∧
       (n + held (c_waiting c).*2 + held (tt_permit <$> w_tunnels (c_world c)) = max)%Z ∧
       Forall (λ t, tt_permit t = true) (w_tunnels (c_world c)) ∧
       Forall (λ p, p.2 = true) (c_waiting c).

Definition start (max : Z) (opts : RequestHandlerOpts) : Config :=
  mkConfig (mkWorld _ _ _ (opts {{ upgrade_tunnel_semaphore := Some max }}) [] []) [].
End Tunnels.
End Tunnels.

Section TunnelLemmas.
Context `{HttpLib, GlobLib, RegexLib}.

Definition semaphore (w : World) : option Z := upgrade_tunnel_semaphore (w_opts w).

Lemma semaphore_put_rule i rule w : semaphore (Proxy.put_rule i rule w) = semaphore w.
Proof. by destruct w as [[] ? ?]. Qed.
Lemma tunnels_put_rule i rule w : w_tunnels (Proxy.put_rule i rule w) = w_tunnels w.
Proof. by destruct w. Qed.
Lemma semaphore_add d w : semaphore (Proxy.add_permits d w) = Z.add d <$> semaphore w.
Proof. by destruct w as [[] ? ?]. Qed.
Lemma tunnels_drop p w : w_tunnels (Proxy.drop_permit p w) = w_tunnels w.
Proof. by destruct p, w. Qed.
Lemma semaphore_drop p w :
  semaphore (Proxy.drop_permit p w) = (if p then Z.add 1 else id) <$> semaphore w.
Proof. destruct p; simpl; [apply semaphore_add | by destruct (semaphore w)]. Qed.

Lemma prepare_upgrade_frame i rule req remote w :
  semaphore (Proxy.prepare_upgrade i rule req remote w).2 = semaphore w ∧
  w_tunnels (Proxy.prepare_upgrade i rule req remote w).2 = w_tunnels w.
Proof.
  unfold Proxy.prepare_upgrade.
  destruct (Template.upstream_uri_for_rule rule (rq_uri req)) as [[u|e] rule'];
    [destruct (Proxy.set_upstream_host _ u)|]; cbn [fst snd];
    by rewrite semaphore_put_rule, tunnels_put_rule.
Qed.

Lemma forward_http_frame cr client i rule req remote w :
  semaphore (Proxy.forward_http cr client i rule req remote w).2 = semaphore w ∧
  w_tunnels (Proxy.forward_http cr client i rule req remote w).2 = w_tunnels w.
Proof.
  unfold Proxy.forward_http, Proxy.send.
  destruct (Template.upstream_uri_for_rule rule (rq_uri req)) as [[u|e] rule'];
    [destruct (Proxy.set_upstream_host _ u) as [hs|];
       [destruct (cr client _)|]|]; cbn [fst snd Res.context];
    by rewrite <- (semaphore_put_rule i rule' w), <- (tunnels_put_rule i rule' w).
Qed.

Lemma held_app l1 l2 : Tunnels.held (l1 ++ l2) = (Tunnels.held l1 + Tunnels.held l2)%Z.
Proof. unfold Tunnels.held. rewrite filter_app, length_app. lia. Qed.

Lemma held_nonneg l : (0 ≤ Tunnels.held l)%Z.
Proof. unfold Tunnels.held. lia. Qed.

Lemma held_all {A} (f : A → bool) l :
  Forall (λ x, f x = true) l → Tunnels.held (f <$> l) = Z.of_nat (length l).
Proof.
  unfold Tunnels.held. induction 1 as [|x l Hx _ IH]; [done|]. rewrite fmap_cons, Hx.
  rewrite filter_cons_True by done. simpl. lia.
Qed.

Lemma held_one {A} (f : A → bool) x : f x = true → Tunnels.held (f <$> [x]) = 1%Z.
Proof. intros Hx. apply (held_all f [x]). by constructor. Qed.

Lemma held_remove {A} (f : A → bool) k l x :
  l !! k = Some x → f x = true →
  Tunnels.held (f <$> Tunnels.remove_nth k l) = (Tunnels.held (f <$> l) - 1)%Z.
Proof.
  intros Hk Hx. rewrite <- (take_drop_middle l k x) at 2 by done. unfold Tunnels.remove_nth.
  rewrite !fmap_app, fmap_cons, !held_app, Hx. unfold Tunnels.held.
  rewrite filter_cons_True by done. simpl. lia.
Qed.

Lemma Forall_remove_nth {A} (P : A → Prop) k l : Forall P l → Forall P (Tunnels.remove_nth k l).
Proof. intros Hl. apply Forall_app. split; [by apply Forall_take | by apply Forall_drop]. Qed.

(** A waiting upgrade that ends without a tunnel gives its permit back. *)
Lemma balanced_release max w ws k u p :
  Tunnels.balanced max (Tunnels.mkConfig w ws) → ws !! k = Some (u, p) →
  Tunnels.balanced max (Tunnels.mkConfig (Proxy.drop_permit p w) (Tunnels.remove_nth k ws)).
Proof.
  intros (n & Hn & Hn0 & Hsum & Ht & Hw) Hk. simpl in *. fold (semaphore w) in Hn.
  pose proof (Forall_lookup_1 _ _ _ _ Hw Hk) as Hp. simpl in Hp. subst p.
  pose proof (held_remove snd k ws (u, true) Hk eq_refl) as Hrem.
  exists (1 + n)%Z. cbn [Tunnels.c_world Tunnels.c_waiting].
  fold (semaphore (Proxy.drop_permit true w)). rewrite semaphore_drop, tunnels_drop, Hn.
  split_and!; [done | lia | lia | done | by apply Forall_remove_nth].
Qed.

Lemma step_balanced max c c' :
  Tunnels.step c c' → Tunnels.balanced max c → Tunnels.balanced max c'.
Proof.
  intros Hstep Hbal. pose proof Hbal as (n & Hn & Hn0 & Hsum & Ht & Hw).
  fold (semaphore (Tunnels.c_world c)) in Hn. pose proof (held_nonneg (Tunnels.c_waiting c).*2).
  destruct Hstep as [i rule req remote w ws p w1 u r req' w2 Hacq Hprep
                    |i rule req remote w ws p w1 e req' w2 Hacq Hprep
                    |k u p answer w ws Hk|k u p w ws Hk|cr client i rule req remote w ws|k w ws];
    simpl in *; try (by eapply balanced_release); unfold Tunnels.balanced; simpl.
  1,2: unfold Proxy.try_acquire in Hacq; unfold semaphore in Hn; rewrite Hn in Hacq;
       destruct (Z.leb_spec n 0); simplify_eq;
       pose proof (prepare_upgrade_frame i rule req remote (Proxy.add_permits (-1) w)) as [Hs Htn];
       rewrite Hprep in Hs, Htn; cbn [snd] in Hs, Htn;
       rewrite semaphore_add in Hs; unfold semaphore in Hs at 2; rewrite Hn in Hs.
  - exists (-1 + n)%Z. destruct w2 as [o2 s2 t2]; simpl in *. split_and!; [done | lia | | |].
    + rewrite fmap_app, held_app, (held_one snd), Htn by done. destruct w. simpl in *. lia.
    + rewrite Htn. by destruct w.
    + apply Forall_app. split; [done|]. by constructor.
  - exists n. fold (semaphore (Proxy.drop_permit true w2)).
    rewrite semaphore_drop, tunnels_drop, Hs, Htn. simpl.
    split_and!; [f_equal; lia | done | by destruct w.. | done].
  - pose proof (Forall_lookup_1 _ _ _ _ Hw Hk) as Hp. simpl in Hp. subst p.
    pose proof (held_remove snd k ws (u, true) Hk eq_refl) as Hrem.
    unfold Proxy.finish_upgrade.
    destruct answer as [resp|e]; cbn [Res.context]; [destruct (negb _)|]; cbn [snd].
    1,3: exact (balanced_release max w ws k u true Hbal Hk).
    exists n. destruct w as [o s t]. simpl in *. split_and!; [done..| | |].
    + rewrite fmap_app, held_app, Hrem, (held_one tt_permit) by done. lia.
    + apply Forall_app. split; [done|]. by constructor.
    + by apply Forall_remove_nth.
  - pose proof (forward_http_frame cr client i rule req remote w) as [Hs Htn].
    exists n. fold (semaphore (Proxy.forward_http cr client i rule req remote w).2).
    rewrite Hs, Htn. done.
  - unfold Proxy.tunnel_ended. destruct (w_tunnels w !! k) as [t|] eqn:Hk.
    + pose proof (Forall_lookup_1 _ _ _ _ Ht Hk) as Hp. simpl in Hp. rewrite Hp.
      pose proof (held_remove tt_permit k (w_tunnels w) t Hk Hp) as Hrem.
      set (w' := apply_update _ w).
      assert (semaphore w' = Some n) as Hn' by (by destruct w).
      assert (w_tunnels w' = Tunnels.remove_nth k (w_tunnels w)) as Htn by (by destruct w).
      exists (1 + n)%Z. fold (semaphore (Proxy.drop_permit true w')).
      rewrite semaphore_drop, tunnels_drop, Hn', Htn.
      split_and!; [done | lia | lia | by apply Forall_remove_nth | done].
    + by exists n.
Qed.
End TunnelLemmas.

(** C7. [max-upgrade-tunnels] is never exceeded: in every configuration reachable by interleaved
    handler tasks (refused and failed upgrades, cancelled requests and ended tunnels included),
    the free permits are exactly [max] less the waiting upgrades and the running tunnels, so no
    permit leaks and at most [max] tunnels run at once. *)
Theorem tunnel_limit `{HttpLib, GlobLib, RegexLib} (max : Z) (opts : RequestHandlerOpts)
    (c : Tunnels.Config) (Hmax : (0 ≤ max)%Z)
    (Hreach : rtc Tunnels.step (Tunnels.start max opts) c) :
  (Z.of_nat (length (w_tunnels (Tunnels.c_world c))) ≤ max)%Z ∧
  upgrade_tunnel_semaphore (w_opts (Tunnels.c_world c)) =
    Some (max - Z.of_nat (length (Tunnels.c_waiting c))
              - Z.of_nat (length (w_tunnels (Tunnels.c_world c))))%Z.
Proof.
  assert (Tunnels.balanced max (Tunnels.start max opts)) as Hstart.
  { exists max. simpl. split_and!; try done. unfold Tunnels.held. simpl. lia. }
  assert (Tunnels.balanced max c) as (n & Hn & Hn0 & Hsum & Ht & Hw).
  { clear Hmax. induction Hreach; eauto using step_balanced. }
  rewrite (held_all tt_permit) in Hsum by done. rewrite (held_all snd) in Hsum by done.
  rewrite Hn. split; [lia | f_equal; lia].
Qed.

Lemma tunnel_limit_witness :
  upgrade_tunnel_semaphore (w_opts (Tunnels.c_world
    (Tunnels.start 2 (RequestHandlerOpts_default : RequestHandlerOpts)))) = Some 2%Z.
Proof.
  edestruct (tunnel_limit 2 RequestHandlerOpts_default
               (Tunnels.start 2 RequestHandlerOpts_default)) as [_ Hs]; [lia | apply rtc_refl|].
  exact Hs.
Defined.

(** * The whole stage *)

Section PreProcess.
Context `{HttpLib, GlobLib, RegexLib}.

Definition rules_of (o : RequestHandlerOpts) : list ProxyRule :=
  default [] (advanced_opts o ≫= proxies).

(** The compiled rules of a configuration, aligned, whatever their counters. *)
Definition serving (defs : list File.Proxy) (w : World) : Prop :=
  Forall2 Compile.rule_of defs (rules_of (w_opts w)) ∧
  Forall Compile.rule_wf (rules_of (w_opts w)).

Lemma find_rule_lookup o req i r :
  Proxy.find_rule o req = Some (i, r) → rules_of o !! i = Some r.
Proof.
  unfold Proxy.find_rule, rules_of.
  destruct (advanced_opts o) as [adv|]; [|done]. simpl.
  destruct (proxies adv) as [rules|]; [|done].
  destruct (Proxy.request_host req) as [h|]; [|done]. simpl. intros Hf.
  pose proof (find_rule_in_spec rules 0 h (rq_path req)) as Hs. rewrite Hf in Hs.
  by destruct Hs as (k & -> & ? & _).
Qed.

Lemma rules_put_rule i r w :
  rules_of (w_opts (Proxy.put_rule i r w)) = <[i := r]> (rules_of (w_opts w)).
Proof.
  destruct w as [o ? ?]. unfold Proxy.put_rule, rules_of. simpl.
  destruct o as []; simpl. match goal with |- context [fmap _ ?a] => destruct a as [adv|] end; simpl; [|done].
  destruct adv as [? ? ? ? [rules|] ? ? ? ?]; done.
Qed.
Lemma rules_add d w : rules_of (w_opts (Proxy.add_permits d w)) = rules_of (w_opts w).
Proof. by destruct w as [[] ? ?]. Qed.
Lemma rules_drop p w : rules_of (w_opts (Proxy.drop_permit p w)) = rules_of (w_opts w).
Proof. destruct p; [apply rules_add | done]. Qed.

(** A stage that only moves the counter of one rule keeps the rules of the configuration. *)
Lemma serving_put_rule defs i r w uri :
  serving defs w → rules_of (w_opts w) !! i = Some r →
  serving defs (Proxy.put_rule i (Template.upstream_uri_for_rule r uri).2 w).
Proof.
  intros [Hof Hwf] Hi. unfold serving. rewrite rules_put_rule. split.
  - destruct (Forall2_lookup_r _ _ _ _ _ Hof Hi) as (d & Hd & Hr).
    rewrite <- (list_insert_id defs i d) by done. apply Forall2_insert; [done|].
    rewrite upstream_uri_for_rule_snd. by destruct r.
  - apply Forall_insert; [done|]. apply upstream_uri_for_rule_wf.
    by eapply Forall_lookup_1.
Qed.

Lemma serving_equiv defs w w' :
  rules_of (w_opts w') = rules_of (w_opts w) → serving defs w → serving defs w'.
Proof. unfold serving. by intros ->. Qed.

Lemma finish_upgrade_rules u r p w :
  rules_of (w_opts (Proxy.finish_upgrade u r p w).2) = rules_of (w_opts w).
Proof.
  unfold Proxy.finish_upgrade.
  destruct r as [resp|e]; cbn [Res.context]; [destruct (negb _)|]; cbn [snd];
    auto using rules_drop.
Qed.

Lemma upgrade_inner_rules cr client i rule req remote p w :
  rules_of (w_opts (Proxy.forward_upgrade_inner cr client i rule req remote p w).2) =
  rules_of (w_opts
    (Proxy.put_rule i (Template.upstream_uri_for_rule rule (rq_uri req)).2 w)).
Proof.
  unfold Proxy.forward_upgrade_inner, Proxy.prepare_upgrade, Proxy.send.
  destruct (Template.upstream_uri_for_rule rule (rq_uri req)) as [[u|e] rule']; cbn [snd fst].
  - destruct (Proxy.set_upstream_host _ u) as [hs|e]; cbn [snd fst].
    + set (r := cr client _). set (w1 := apply_update _ _).
      pose proof (finish_upgrade_rules u r p w1) as Hf.
      destruct (Proxy.finish_upgrade u r p w1). exact Hf.
    + by rewrite rules_drop.
  - by rewrite rules_drop.
Qed.

Lemma forward_http_rules cr client i rule req remote w :
  rules_of (w_opts (Proxy.forward_http cr client i rule req remote w).2) =
  rules_of (w_opts
    (Proxy.put_rule i (Template.upstream_uri_for_rule rule (rq_uri req)).2 w)).
Proof.
  unfold Proxy.forward_http, Proxy.send.
  destruct (Template.upstream_uri_for_rule rule (rq_uri req)) as [[u|e] rule']; [|done].
  cbn [snd]. destruct (Proxy.set_upstream_host _ u); [|done].
  by destruct (cr client _).
Qed.
End PreProcess.

Lemma pre_process_rules `{HttpLib, GlobLib, RegexLib}
    (client_request : ProxyHttpClient → Request → result error Response)
    (defs : list File.Proxy) (req : Request) (remote_addr : option SocketAddr) (w : World)
    (Hserving : serving defs w) :
  let w' := (Proxy.pre_process client_request req remote_addr w).2 in
  serving defs w' ∧
  (rules_of (w_opts w') = rules_of (w_opts w) ∨
   ∃ i r, Proxy.find_rule (w_opts w) req = Some (i, r) ∧
     rules_of (w_opts w') =
       <[i := r {{ balancer -> next ::= (λ n, wrap64 (n + 1)) }}]> (rules_of (w_opts w))).
Proof.
  unfold Proxy.pre_process.
  destruct (Proxy.find_rule (w_opts w) req) as [[i r]|] eqn:Hf; [|by split; [|left]].
  destruct (proxy_client (w_opts w)) as [client|]; [|by split; [|left]].
  pose proof (find_rule_lookup _ _ _ _ Hf) as Hi.
  pose proof (serving_put_rule defs i r w (rq_uri req) Hserving Hi) as Hput.
  assert (∀ w', rules_of (w_opts w') = rules_of (w_opts
            (Proxy.put_rule i (Template.upstream_uri_for_rule r (rq_uri req)).2 w)) →
    serving defs w' ∧ (rules_of (w_opts w') = rules_of (w_opts w) ∨
      ∃ i0 r0, Some (i, r) = Some (i0, r0) ∧ rules_of (w_opts w') =
        <[i0 := r0 {{ balancer -> next ::= (λ n, wrap64 (n + 1)) }}]> (rules_of (w_opts w))))
    as Hgoal.
  { intros w' Heq. split; [by eapply serving_equiv|]. right. exists i, r. split; [done|].
    rewrite Heq, rules_put_rule, upstream_uri_for_rule_snd. done. }
  destruct (Proxy.is_protocol_upgrade req).
  - unfold Proxy.forward_upgrade, Proxy.try_acquire.
    destruct (upgrade_tunnel_semaphore (w_opts w)) as [n|].
    + destruct (n <=? 0)%Z; [by split; [|left]|].
      pose proof (upgrade_inner_rules client_request client i r req remote_addr true
                    (Proxy.add_permits (-1) w)) as Hu.
      rewrite rules_put_rule, rules_add, <- rules_put_rule in Hu.
      destruct (Proxy.forward_upgrade_inner _ _ _ _ _ _ _ _) as [[? ?] w']. by apply Hgoal.
    + pose proof (upgrade_inner_rules client_request client i r req remote_addr false w) as Hu.
      destruct (Proxy.forward_upgrade_inner _ _ _ _ _ _ _ _) as [[? ?] w']. by apply Hgoal.
  - pose proof (forward_http_rules client_request client i r req remote_addr w) as Hu.
    destruct (Proxy.forward_http _ _ _ _ _ _ _) as [[? ?] w']. by apply Hgoal.
Qed.

(** The stage as steps of the interleaving above, with nobody else waiting. *)
Section Stage.
Context `{HttpLib, GlobLib, RegexLib}.
Context (client_request : ProxyHttpClient → Request → result error Response).
Abbreviation alone w := (Tunnels.mkConfig w []).

Lemma forward_upgrade_steps client i r req remote w :
  rtc Tunnels.step (alone w)
    (alone (Proxy.forward_upgrade client_request client i r req remote w).2).
Proof.
  unfold Proxy.forward_upgrade.
  destruct (Proxy.try_acquire w) as [[p w1]|] eqn:Ea; [|apply rtc_refl].
  unfold Proxy.forward_upgrade_inner.
  destruct (Proxy.prepare_upgrade i r req remote w1) as [[[[u q]|e] req'] w2] eqn:Ep.
  - unfold Proxy.send. set (w3 := apply_update _ w2). set (a := client_request client q).
    apply rtc_l with (y := Tunnels.mkConfig w3 [(u, p)]).
    { exact (Tunnels.step_begin i r req remote w [] p w1 u q req' w2 Ea Ep). }
    apply rtc_once. pose proof (Tunnels.step_answer 0 u p a w3 [(u, p)] eq_refl) as Hs.
    by destruct (Proxy.finish_upgrade u a p w3).
  - apply rtc_once. by eapply Tunnels.step_refuse.
Qed.

Lemma pre_process_steps req remote w :
  rtc Tunnels.step (alone w) (alone (Proxy.pre_process client_request req remote w).2).
Proof.
  unfold Proxy.pre_process.
  destruct (Proxy.find_rule (w_opts w) req) as [[i r]|]; [|apply rtc_refl].
  destruct (proxy_client (w_opts w)) as [client|]; [|apply rtc_refl].
  destruct (Proxy.is_protocol_upgrade req).
  - pose proof (forward_upgrade_steps client i r req remote w) as Hs.
    by destruct (Proxy.forward_upgrade _ _ _ _ _ _ _) as [[? ?] ?].
  - apply rtc_once.
    pose proof (Tunnels.step_http client_request client i r req remote w []) as Hs.
    by destruct (Proxy.forward_http _ _ _ _ _ _ _) as [[? ?] ?].
Qed.

(** The options a running proxy never touches: all but its rules and its semaphore. *)
Definition fixed_opts (w : World) : RequestHandlerOpts :=
  (w_opts w) {{ advanced_opts ::= fmap (λ adv, adv {{ proxies := None }});
                upgrade_tunnel_semaphore := None }}.

Lemma fixed_put_rule i r w : fixed_opts (Proxy.put_rule i r w) = fixed_opts w.
Proof.
  destruct w as [o s t]. unfold fixed_opts, Proxy.put_rule. destruct o. cbn. f_equal.
  by match goal with |- context [fmap _ (fmap _ ?a)] => destruct a as [[]|] end.
Qed.
Lemma fixed_add d w : fixed_opts (Proxy.add_permits d w) = fixed_opts w.
Proof. by destruct w as [[] ? ?]. Qed.
Lemma fixed_drop p w : fixed_opts (Proxy.drop_permit p w) = fixed_opts w.
Proof. destruct p; [apply fixed_add | done]. Qed.

Lemma prepare_upgrade_fixed i r req remote w :
  fixed_opts (Proxy.prepare_upgrade i r req remote w).2 = fixed_opts w.
Proof.
  unfold Proxy.prepare_upgrade.
  destruct (Template.upstream_uri_for_rule r (rq_uri req)) as [[u|e] r'];
    [destruct (Proxy.set_upstream_host _ u)|]; cbn [fst snd]; apply fixed_put_rule.
Qed.

Lemma tunnels_step_fixed c c' :
  Tunnels.step c c' → fixed_opts (Tunnels.c_world c') = fixed_opts (Tunnels.c_world c).
Proof.
  assert (∀ w p w1, Proxy.try_acquire w = Some (p, w1) → fixed_opts w1 = fixed_opts w) as Hacq.
  { intros w p w1. unfold Proxy.try_acquire. destruct (upgrade_tunnel_semaphore _);
      [destruct (_ <=? _)%Z|]; intros ?; simplify_eq; auto using fixed_add. }
  destruct 1 as [i r req remote w ws p w1 u q req' w2 Ha Hp|i r req remote w ws p w1 e req' w2 Ha Hp
    |k u p a w ws _|k u p w ws _|cr client i r req remote w ws|k w ws]; cbn [Tunnels.c_world].
  - pose proof (prepare_upgrade_fixed i r req remote w1) as Hf. rewrite Hp in Hf.
    rewrite <- (Hacq _ _ _ Ha), <- Hf. by destruct w2 as [[] ? ?].
  - pose proof (prepare_upgrade_fixed i r req remote w1) as Hf. rewrite Hp in Hf.
    by rewrite fixed_drop, <- (Hacq _ _ _ Ha), <- Hf.
  - unfold Proxy.finish_upgrade.
    destruct a as [resp|e]; cbn [Res.context]; [destruct (negb _)|]; cbn [snd];
      auto using fixed_drop.
  - apply fixed_drop.
  - unfold Proxy.forward_http, Proxy.send.
    destruct (Template.upstream_uri_for_rule r (rq_uri req)) as [[u|e] r'];
      [destruct (Proxy.set_upstream_host _ u) as [hs|];
         [destruct (cr client _)|]|]; cbn [fst snd Res.context];
      rewrite <- (fixed_put_rule i r' w); done.
  - unfold Proxy.tunnel_ended. destruct (w_tunnels w !! k) as [t|]; [|done].
    rewrite fixed_drop. by destruct w as [[] ? ?].
Qed.

Lemma tunnels_steps_fixed c c' :
  rtc Tunnels.step c c' → fixed_opts (Tunnels.c_world c') = fixed_opts (Tunnels.c_world c).
Proof. induction 1 as [|c c1 c' Hs _ IH]; [done|]. by rewrite IH, (tunnels_step_fixed _ _ Hs). Qed.

Lemma pre_process_fixed req remote w :
  fixed_opts (Proxy.pre_process client_request req remote w).2 = fixed_opts w.
Proof. exact (tunnels_steps_fixed _ _ (pre_process_steps req remote w)). Qed.

Lemma tunnel_ended_rules k w :
  rules_of (w_opts (Proxy.tunnel_ended k w)) = rules_of (w_opts w).
Proof.
  unfold Proxy.tunnel_ended. destruct (w_tunnels w !! k) as [t|]; [|done].
  rewrite rules_drop. by destruct w as [[] ? ?].
Qed.
End Stage.

(** Serving keeps the proxy table: whatever the request and the upstream's answer, after
    [pre_process] the rules still stand for the same definitions, aligned and well formed, and
    only the counter of the rule that matched may have moved. *)
Theorem pre_process_keeps_rules `{HttpLib, GlobLib, RegexLib}
    (client_request : ProxyHttpClient → Request → result error Response)
    (defs : list File.Proxy) (req : Request) (remote_addr : option SocketAddr) (w : World)
    (Hserving : serving defs w) :
  let w' := (Proxy.pre_process client_request req remote_addr w).2 in
  serving defs w' ∧
  (rules_of (w_opts w') = rules_of (w_opts w) ∨
   ∃ i r, Proxy.find_rule (w_opts w) req = Some (i, r) ∧
     rules_of (w_opts w') =
       <[i := r {{ balancer -> next ::= (λ n, wrap64 (n + 1)) }}]> (rules_of (w_opts w))).
Proof. by apply pre_process_rules. Qed.

Lemma pre_process_keeps_rules_witness :
  let w := mkWorld _ _ _ (RequestHandlerOpts_default : RequestHandlerOpts) [] [] in
  serving [] (Proxy.pre_process ProxyRef.answer ProxyRef.req None w).2.
Proof.
  intros w. edestruct (pre_process_keeps_rules ProxyRef.answer [] ProxyRef.req None w) as [Hs _];
    [|exact Hs].
  split; constructor.
Defined.

(** With no free tunnel permit an upgrade request is answered 503 at once: the upstream is
    not contacted, no counter moves, the state and the request are untouched. *)
Theorem upgrade_refused `{HttpLib, GlobLib, RegexLib}
    (client_request : ProxyHttpClient → Request → result error Response)
    (req : Request) (remote_addr : option SocketAddr) (w : World) (i : nat) (rule : ProxyRule)
    (client : ProxyHttpClient)
    (Hrule : Proxy.find_rule (w_opts w) req = Some (i, rule))
    (Hclient : proxy_client (w_opts w) = Some client)
    (Hup : Proxy.is_protocol_upgrade req = true)
    (Hsem : upgrade_tunnel_semaphore (w_opts w) = Some 0%Z) :
  Proxy.pre_process client_request req remote_addr w =
    (Some (Ok (mkResponse 503 hm_empty BodyEmpty)), req, w).
Proof.
  unfold Proxy.pre_process, Proxy.forward_upgrade, Proxy.try_acquire.
  by rewrite Hrule, Hclient, Hup, Hsem.
Qed.

Lemma upgrade_refused_witness :
  let adv := Advanced_default {{ proxies := Some [ProxyRef.rule] }} in
  let o := RequestHandlerOpts_default {{ advanced_opts := Some adv;
             proxy_client := Some ProxyRef.client; upgrade_tunnel_semaphore := Some 0%Z }} in
  let req := mkRequest "GET" (RefUri.mk None None (Some "/api/ws"))
    [("host", "example.com:8080"); ("connection", "keep-alive, Upgrade"); ("upgrade", "websocket")]
    BodyEmpty in
  Proxy.pre_process ProxyRef.answer req None (mkWorld _ _ _ o [] []) =
    (Some (Ok (mkResponse 503 hm_empty BodyEmpty)), req, mkWorld _ _ _ o [] []).
Proof. intros adv o req. eapply upgrade_refused; reflexivity. Defined.

(** A request that names no host (no authority in its URI, no readable [Host] header) is never
    proxied, even by a rule without a host filter. *)
Theorem no_host_no_proxy `{HttpLib, GlobLib, RegexLib}
    (client_request : ProxyHttpClient → Request → result error Response)
    (req : Request) (remote_addr : option SocketAddr) (w : World)
    (Hhost : Proxy.request_host req = None) :
  Proxy.pre_process client_request req remote_addr w = (None, req, w).
Proof.
  unfold Proxy.pre_process, Proxy.find_rule. rewrite Hhost.
  destruct (advanced_opts (w_opts w)) as [adv|]; [by destruct (proxies adv)|done].
Qed.

Lemma no_host_no_proxy_witness :
  let adv := Advanced_default {{ proxies := Some [ProxyRef.rule] }} in
  let o := RequestHandlerOpts_default {{ advanced_opts := Some adv;
             proxy_client := Some ProxyRef.client }} in
  let req := mkRequest "GET" (RefUri.mk None None (Some "/api/users")) hm_empty BodyEmpty in
  (Proxy.pre_process ProxyRef.answer req None (mkWorld _ _ _ o [] [])).1.1 = None.
Proof. intros adv o req. by rewrite no_host_no_proxy. Defined.
