(* ===== verification/Links.v ===== *)
(** The links of a directory listing: [entry_uri] of [DirListing] against the lookup of
    [StaticFiles], two parts of the program that must agree on how a name is written in a URI.

    A client resolves the link of a row against the address of the listing; the request it then
    makes is decoded and sanitized back into a path, and passes the checks of the static
    handler. *)
From Stdlib Require Import ZArith Lia Ascii String.
From stdpp Require Import base list strings gmap.
From S2P Require Import Prelude Http Libs RefLibs Path Fs Quality Opts Pages Compression Ranges DirListing.
From S2P Require Import StaticFiles.
Local Open Scope string_scope.
Local Open Scope list_scope.
Local Open Scope nat_scope.

(** RFC 3986, 5.2.3: a relative-path reference replaces what follows the last slash of the
    address it is found at. *)
Definition resolve_reference (address reference : string) : string :=
  match Str.rsplit_once "/" address with
  | Some (dir, _) => dir +:+ "/" +:+ reference
  | None => reference
  end.

(** * The names a request path denotes *)

Section Names.
Context `{PercentLaws}.

Abbreviation normal_of := (filter (λ c, PathExt.is_normal c = true)).

(** The ordinary components of a text. *)
Definition text_names (s : string) : Path.t := normal_of (omap Path.piece (Str.split "/" s)).

Lemma parse_names s : normal_of (Path.parse s) = text_names s.
Proof.
  unfold Path.parse, text_names. destruct (Str.starts_with_char "/" s).
  { by rewrite filter_cons_False by done. }
  destruct (Str.split "/" s) as [|p ps]; [done|].
  destruct (String.eqb_spec p ".") as [->|_]; [|done]. by rewrite filter_cons_False by done.
Qed.

Lemma text_names_slash a b : text_names (a +:+ "/" +:+ b) = text_names a ++ text_names b.
Proof.
  unfold text_names. change ("/" +:+ b) with (String "/" b).
  by rewrite split_app, omap_app, filter_app.
Qed.

Lemma text_names_proper n : Path.proper_name n → text_names n = [Normal n].
Proof. intros Hn. by rewrite <- parse_names, parse_proper. Qed.

(** The names of a percent-encoded path. *)
Definition uri_names (s : string) : Path.t := text_names (percent_decode s).

Lemma uri_names_slash a b : uri_names (a +:+ "/" +:+ b) = uri_names a ++ uri_names b.
Proof. unfold uri_names. by rewrite decode_slash, text_names_slash. Qed.

Lemma uri_names_nil : uri_names "" = [].
Proof. unfold uri_names. by rewrite decode_nil. Qed.

Lemma uri_names_trim s : uri_names (Str.trim_start_char "/" s) = uri_names s.
Proof.
  induction s as [|c s IH]; [done|]. cbn [Str.trim_start_char].
  destruct (Ascii.eqb_spec c "/") as [->|_]; [|done]. rewrite IH.
  change (String "/" s) with ("" +:+ "/" +:+ s). by rewrite uri_names_slash, uri_names_nil.
Qed.

Lemma uri_names_encode keep n :
  "%"%char ∉ keep → Path.proper_name n → uri_names (percent_encode keep n) = [Normal n].
Proof. intros Hk Hn. unfold uri_names. by rewrite decode_encode, text_names_proper. Qed.

Lemma sanitize_uri_names base tail :
  PathExt.sanitize_path base tail = Ok (base ++ uri_names tail).
Proof.
  unfold PathExt.sanitize_path.
  destruct (sanitize_components_spec base (PathExt.decode_tail_path tail))
    as (names & -> & _ & ->); [intros n; apply parse_Normal|].
  unfold PathExt.decode_tail_path. by rewrite parse_names, <- (uri_names_trim tail).
Qed.

Lemma sanitize_normals base tail :
  ∃ names, PathExt.sanitize_path base tail = Ok (base ++ normals names).
Proof.
  destruct (sanitize_components_spec base (PathExt.decode_tail_path tail))
    as (names & Hs & _); [intros n; apply parse_Normal|].
  exists names. unfold PathExt.sanitize_path. by rewrite Hs.
Qed.

(** * The link of an entry *)

Lemma percent_not_kept : "%"%char ∉ DirListing.PERCENT_ENCODE_SET.
Proof.
  unfold DirListing.PERCENT_ENCODE_SET. rewrite !not_elem_of_cons.
  split_and!; [done..|]. apply not_elem_of_nil.
Qed.

(** What the client asks for: the address of the listing as a directory, then the name. *)
Definition directory_prefix (address : string) : string :=
  if Str.ends_with_char "/" address
  then match Str.rsplit_once "/" address with Some (a, _) => a | None => address end
  else address.

Definition type_suffix (ty : DirListing.FileType) : string :=
  match ty with DirListing.Directory => "/" | DirListing.RegularFile => "" end.

Lemma entry_link address n ty :
  Str.mem "/" address = true →
  resolve_reference address (DirListing.entry_uri address n ty) =
    directory_prefix address +:+ "/"
      +:+ (percent_encode DirListing.PERCENT_ENCODE_SET n +:+ type_suffix ty).
Proof.
  intros (a & b & Hr)%rsplit_once_mem. unfold resolve_reference, directory_prefix, DirListing.entry_uri.
  rewrite Hr, (rsplit_once_ends _ _ _ _ Hr).
  pose proof (rsplit_once_Some _ _ _ _ Hr) as [Ha _].
  assert (Str.is_empty address = false) as -> by (rewrite Ha; by destruct a).
  destruct b as [|x b]; cbn [Str.is_empty negb andb].
  - destruct ty; simpl; [done|]. by rewrite string_app_nil_r.
  - rewrite Ha. change (String "/" (String x b)) with ("/" +:+ String x b).
    destruct ty; simpl; rewrite ?string_app_nil_r, !string_app_assoc; done.
Qed.

Lemma directory_prefix_names address :
  uri_names (directory_prefix address) = uri_names address.
Proof.
  unfold directory_prefix. destruct (Str.ends_with_char "/" address) eqn:E; [|done].
  destruct (Str.rsplit_once "/" address) as [[a b]|] eqn:Er; [|done].
  rewrite (rsplit_once_ends _ _ _ _ Er) in E. destruct b; [|done].
  apply rsplit_once_Some in Er as [-> _]. change (String "/" "") with ("/" +:+ "").
  by rewrite uri_names_slash, uri_names_nil, app_nil_r.
Qed.

Lemma link_names address n ty :
  Str.mem "/" address = true → Path.proper_name n →
  uri_names (resolve_reference address (DirListing.entry_uri address n ty)) =
    uri_names address ++ [Normal n].
Proof.
  intros Hs Hn. rewrite entry_link, uri_names_slash, directory_prefix_names by done. f_equal.
  pose proof percent_not_kept as Hk.
  destruct ty; simpl.
  - change (percent_encode ?k n +:+ "/") with (percent_encode k n +:+ "/" +:+ "").
    by rewrite uri_names_slash, uri_names_nil, uri_names_encode.
  - by rewrite string_app_nil_r, uri_names_encode.
Qed.

Lemma link_ends address n ty mtime size :
  Str.mem "/" address = true → Path.proper_name n →
  Str.ends_with_char "/" (resolve_reference address (DirListing.entry_uri address n ty)) =
    DirListing.is_dir (DirListing.mkEntry n mtime size ty (DirListing.entry_uri address n ty)).
Proof.
  intros Hs Hn. rewrite entry_link by done. destruct ty; simpl.
  - change (percent_encode ?k n +:+ "/") with (percent_encode k n +:+ String "/" "").
    rewrite <- !string_app_assoc. apply ends_with_char_snoc.
  - rewrite string_app_nil_r.
    change ("/" +:+ percent_encode DirListing.PERCENT_ENCODE_SET n)
      with (String "/" (percent_encode DirListing.PERCENT_ENCODE_SET n)).
    rewrite ends_with_char_app.
    destruct (percent_encode _ n) as [|c e] eqn:Ee.
    { exfalso. destruct Hn as [Hn _]. apply Hn.
      rewrite <- (decode_encode DirListing.PERCENT_ENCODE_SET n), Ee; [apply decode_nil|].
      apply percent_not_kept. }
    cbn [Str.ends_with_char]. apply not_true_iff_false. intros Hend.
    assert (Str.mem "/" (String c e) = true) as Hm by (by apply ends_with_char_mem).
    rewrite <- Ee in Hm. apply encode_chars in Hm as [Hm|[Hm|Hm]]; [done|done|].
    unfold DirListing.PERCENT_ENCODE_SET in Hm.
    rewrite !elem_of_cons, elem_of_nil in Hm. by destruct_or! Hm.
Qed.

Lemma link_marks address n ty c :
  Str.mem "/" address = true → c ∈ ["?"; "#"]%char → Str.mem c address = false →
  Str.mem c (resolve_reference address (DirListing.entry_uri address n ty)) = false.
Proof.
  intros Hs Hc Ha. rewrite entry_link by done. rewrite !mem_app. apply orb_false_iff. split.
  - unfold directory_prefix. destruct (Str.ends_with_char "/" address); [|done].
    destruct (Str.rsplit_once "/" address) as [[a b]|] eqn:Er; [|done].
    apply rsplit_once_Some in Er as [-> _]. rewrite mem_app in Ha. by apply orb_false_iff in Ha as [? _].
  - assert (Str.mem c (percent_encode DirListing.PERCENT_ENCODE_SET n) = false) as ->.
    { apply not_true_iff_false. intros Hm. apply encode_chars in Hm.
      unfold DirListing.PERCENT_ENCODE_SET in Hm.
      rewrite !elem_of_cons, elem_of_nil in Hc. rewrite !elem_of_cons, elem_of_nil in Hm.
      destruct_or! Hc; subst c; by destruct_or! Hm. }
    rewrite !elem_of_cons, elem_of_nil in Hc. destruct_or! Hc; subst c; by destruct ty.
Qed.
End Names.

(** * Looking a listed name up *)

(** A walk over a prefix and more: it continues from where the prefix leads, or fails for want
    of a directory there. *)
Lemma walk_app fs links cur p q rest l :
  rest ≠ [] → Fs.walk fs true links cur p = Ok (q, l) →
  (∀ follow, Fs.walk fs follow links cur (p ++ rest) = Fs.walk fs follow l q rest) ∨
  (∀ follow, Fs.walk fs follow links cur (p ++ rest) = Err OtherError).
Proof.
  intros Hrest. revert cur p. induction links as [links IHlinks] using lt_wf_ind.
  intros cur p. revert cur. induction p as [|c p IH]; intros cur; rewrite walk_unfold.
  { intros [= <- <-]. by left. }
  setoid_rewrite (walk_unfold fs _ links cur ((c :: p) ++ rest)).
  destruct c as [| | |n]; simpl; auto.
  destruct (Fs.node_at fs (cur ++ [n])) as [[c m r|es m r|t m]|] eqn:En; auto; try done.
  - destruct p as [|c' p]; simpl; [|done]. intros _. right. intros follow. by destruct rest.
  - intros Hw. destruct (p ++ rest) as [|c' rest'] eqn:Epr.
    { by apply app_eq_nil in Epr as [_ ?]. }
    assert (match links with
            | 0 => Err OtherError
            | S links' => Fs.walk fs true links' cur (Path.parse t ++ p)
            end = Ok (q, l)) as Hw' by (by destruct p).
    destruct links as [|links]; [done|].
    destruct (IHlinks links ltac:(lia) cur (Path.parse t ++ p) Hw') as [Ha|Ha];
      [left|right]; intros follow; rewrite <- Epr, app_assoc; apply Ha.
Qed.

(** An entry of a directory that resolves to [q]: the node is [q] with the name, and unless it
    is a link the entry resolves literally. *)
Lemma entry_resolves fs d q n meta :
  Fs.canonicalize fs d = Ok (Fs.absolute q) →
  Fs.symlink_metadata fs (d ++ [Normal n]) = Ok meta →
  md_is_symlink meta = false →
  Fs.canonicalize fs (d ++ [Normal n]) = Ok (Fs.absolute (q ++ [n])) ∧
  Fs.metadata fs (d ++ [Normal n]) = Ok meta.
Proof.
  unfold Fs.canonicalize, Fs.symlink_metadata, Fs.metadata, Fs.get, Fs.resolve. intros Hc Hm Hlink.
  destruct d as [|c d]; [done|]. simpl app in *. rewrite !app_comm_cons in *.
  apply map_Ok in Hc as (q' & Hc & <-%absolute_inj).
  apply map_Ok in Hc as ([q2 l] & Hw & ->). cbn [fst] in *.
  apply map_Ok in Hm as (nd & Hnd & ->). apply bind_Ok in Hnd as (r & Hr & Hnd).
  apply of_option_Ok in Hnd. apply map_Ok in Hr as ([r' l'] & Hr & ->). cbn [fst] in *.
  destruct (walk_app fs _ _ (c :: d) q2 [Normal n] l ltac:(done) Hw) as [Ha|Ha].
  2: { by rewrite Ha in Hr. }
  rewrite Ha, walk_unfold in Hr. rewrite Ha, (walk_unfold fs true).
  destruct (Fs.node_at fs (q2 ++ [n])) as [[c0 m0 r0|es m0 r0|t m0]|] eqn:En; [| | |done].
  - injection Hr as <- <-. rewrite Hnd in En. injection En as ->.
    cbn [Res.map Res.bind fst app]. split; [done|]. by rewrite Hnd.
  - rewrite walk_unfold in Hr |- *. injection Hr as <- <-. rewrite Hnd in En. injection En as ->.
    cbn [Res.map Res.bind fst app]. split; [done|]. by rewrite Hnd.
  - injection Hr as <- <-. rewrite Hnd in En. by simplify_eq.
Qed.

Lemma contains_symlink_snoc fs cur names n meta :
  PathExt.contains_symlink_from fs cur (normals names) = Ok false →
  Fs.symlink_metadata fs (cur ++ normals (names ++ [n])) = Ok meta → md_is_symlink meta = false →
  PathExt.contains_symlink_from fs cur (normals (names ++ [n])) = Ok false.
Proof.
  revert cur. induction names as [|x names IH]; intros cur Hc Hm Hlink;
    cbn [app normals fmap list_fmap PathExt.contains_symlink_from] in *; rewrite push_Normal in *.
  { by rewrite Hm, Hlink. }
  destruct (Fs.symlink_metadata fs (cur ++ [Normal x])) as [m|]; [|done].
  destruct (md_is_symlink m); [done|]. fold (normals names) (normals (names ++ [n])) in *.
  apply IH; [done| |done]. by rewrite <- app_assoc.
Qed.

Lemma is_hidden_snoc rel n :
  PathExt.is_hidden rel = false → Str.starts_with_char "." n = false →
  PathExt.is_hidden (rel ++ [Normal n]) = false.
Proof.
  unfold PathExt.is_hidden. rewrite omap_app, existsb_app. intros -> Hn. simpl.
  destruct (Utf8.valid n); simpl; [by rewrite Hn|done].
Qed.

(** The checks made for a directory extend to an entry that the listing shows. *)
Lemma check_access_entry `{HeadersLib} fs opts names n meta :
  let d := StaticFiles.base_path opts ++ normals names in
  let p := d ++ [Normal n] in
  StaticFiles.check_access fs opts d = Ok () →
  Fs.symlink_metadata fs p = Ok meta →
  (StaticFiles.ignore_hidden_files opts = true → Str.starts_with_char "." n = false) →
  (md_is_symlink meta = true →
     StaticFiles.disable_symlinks opts = false ∧
     ∃ root q, Fs.canonicalize fs (StaticFiles.base_path opts) = Ok root ∧
       Fs.canonicalize fs p = Ok q ∧ Path.starts_with q root = true) →
  StaticFiles.check_access fs opts p = Ok ().
Proof.
  intros d p Hacc Hm Hhid Hlink.
  destruct (check_access_ok fs opts d Hacc) as (rel & q & b & Hrel & Hq & Hb & Hpre & Hsym & Hh).
  assert (rel = normals names) as -> by (by apply app_inv_head in Hrel).
  assert (∃ q0, q = Fs.absolute q0) as [q0 ->].
  { unfold Fs.canonicalize in Hq. apply map_Ok in Hq as (q0 & _ & ->). by exists q0. }
  assert (∃ r, Fs.canonicalize fs p = Ok r ∧ Path.starts_with r b = true) as (r & Hr & Hin).
  { destruct (md_is_symlink meta) eqn:Es.
    - destruct (Hlink eq_refl) as (_ & b' & r & Hb' & Hr & Hin). rewrite Hb in Hb'.
      simplify_eq. eauto.
    - destruct (entry_resolves fs d q0 n meta Hq Hm Es) as [Hr _]. eexists. split; [exact Hr|].
      apply starts_with_spec. destruct Hpre as [k Hk]. exists (k ++ [Normal n]).
      unfold Fs.absolute in *. by rewrite fmap_app, app_assoc, <- Hk. }
  unfold StaticFiles.check_access, p, d. rewrite <- app_assoc, strip_prefix_app, app_assoc.
  fold d p. rewrite Hr, Hb. simpl. rewrite Hin. cbn [negb].
  assert (normals names ++ [Normal n] = normals (names ++ [n])) as Hn by (symmetry; apply normals_snoc).
  assert ((if StaticFiles.disable_symlinks opts
           then Res.of_option 404%Z (Res.ok (PathExt.contains_symlink fs (normals names ++ [Normal n])
                  (StaticFiles.base_path opts)))
           else Ok false) = Ok false) as ->.
  { destruct (StaticFiles.disable_symlinks opts) eqn:Ed; [|done].
    destruct (md_is_symlink meta) eqn:Es; [by destruct (Hlink eq_refl)|].
    rewrite Hn. unfold PathExt.contains_symlink.
    rewrite (contains_symlink_snoc fs _ names n meta); [done|by apply Hsym| |done].
    rewrite <- Hn, app_assoc. exact Hm. }
  simpl. destruct (StaticFiles.ignore_hidden_files opts) eqn:Ei; [|done].
  by rewrite is_hidden_snoc by auto.
Qed.

(** The options of the request for [uri], everything else being the same. *)
Definition follow_link `{HttpLib} (opts : StaticFiles.HandleOpts) (uri : string)
    : StaticFiles.HandleOpts :=
  StaticFiles.mkHandleOpts (StaticFiles.method opts) (StaticFiles.memory_cache opts)
    (StaticFiles.headers opts) (StaticFiles.base_path opts) uri (StaticFiles.index_files opts)
    None (StaticFiles.dir_listing opts) (StaticFiles.dir_listing_order opts)
    (StaticFiles.dir_listing_format opts) (StaticFiles.dir_listing_download opts)
    (StaticFiles.redirect_trailing_slash opts) (StaticFiles.compression_static opts)
    (StaticFiles.ignore_hidden_files opts) (StaticFiles.disable_symlinks opts).

Section Links.
Context `{HeadersLib, CodecLib}.
Context (fs : Fs.t) (opts : StaticFiles.HandleOpts) (d root : Path.t) (idx : string)
  (names : list string).

(** The rows of the listing [opts] gets for the directory [d] with entries [names]. *)
Definition listing_rows : list DirListing.FileEntry :=
  (DirListing.read_entries fs
     (DirListing.dir_entry_opts (StaticFiles.dir_list_opts opts (d ++ [Normal idx])) d names)
     root names 0 0).2.

(** What a row was read from. *)
Lemma listing_row e :
  e ∈ listing_rows →
  ∃ n meta ty size,
    n ∈ names ∧ Fs.symlink_metadata fs (d ++ [Normal n]) = Ok meta ∧
    (StaticFiles.ignore_hidden_files opts = true → Str.starts_with_char "." n = false) ∧
    DirListing.entry_type fs root (d ++ [Normal n]) meta (StaticFiles.disable_symlinks opts) =
      Some (ty, size) ∧
    e = DirListing.mkEntry n (md_modified meta) size ty
          (DirListing.entry_uri (StaticFiles.uri_path opts) n ty).
Proof.
  unfold listing_rows. rewrite read_entries_acc.
  intros (n & Hn & He)%list_elem_of_omap. unfold DirListing.read_entry in He.
  cbn [DirListing.dir_entry_opts DirListing.dir_reader DirListing.de_ignore_hidden_files
       DirListing.de_disable_symlinks DirListing.base_path StaticFiles.dir_list_opts
       DirListing.current_path DirListing.ignore_hidden_files DirListing.disable_symlinks fst] in He.
  rewrite push_Normal in He.
  destruct (Fs.symlink_metadata fs (d ++ [Normal n])) as [meta|] eqn:Em; [|done].
  destruct (StaticFiles.ignore_hidden_files opts && Str.starts_with_char "." n) eqn:Eh; [done|].
  destruct (DirListing.entry_type _ _ _ _ _) as [[ty size]|] eqn:Et; [|done].
  injection He as <-. exists n, meta, ty, size. split_and!; [done..| |done|done].
  intros Hi. by rewrite Hi in Eh.
Qed.

(** An entry that is a link was listed because links are followed and it stays in the root. *)
Lemma entry_type_link p meta dis ty size :
  Fs.symlink_metadata fs p = Ok meta →
  DirListing.entry_type fs root p meta dis = Some (ty, size) → md_is_symlink meta = true →
  dis = false ∧ ∃ q, Fs.canonicalize fs p = Ok q ∧ Path.starts_with q root = true.
Proof.
  intros Hm Ht Hs. apply map_Ok in Hm as (nd & _ & ->). destruct nd; simpl in *; try done.
  unfold DirListing.entry_type in Ht. simpl in Ht. rewrite andb_true_r in Ht.
  destruct dis; [done|]. split; [done|]. simpl in Ht.
  destruct (Fs.canonicalize fs p) as [q|]; [|done]. exists q. split; [done|].
  by destruct (Path.starts_with q root).
Qed.

Lemma plain_file_type p meta dis ty size :
  Fs.symlink_metadata fs p = Ok meta →
  DirListing.entry_type fs root p meta dis = Some (ty, size) → md_is_file meta = true →
  size = Some (md_len meta) ∧ md_is_dir meta = false ∧ md_is_symlink meta = false.
Proof.
  intros Hm Ht Hf. apply map_Ok in Hm as (nd & _ & ->). destruct nd; simpl in *; try done.
  unfold DirListing.entry_type in Ht. simpl in Ht. by simplify_eq.
Qed.

(** The request for a regular file: what [file_reply] makes of it. *)
Lemma handle_plain_file store uri n meta :
  let o := follow_link opts uri in
  let p := d ++ [Normal n] in
  PathExt.sanitize_path (StaticFiles.base_path opts) uri = Ok p →
  StaticFiles.check_access fs opts p = Ok () →
  Fs.metadata fs p = Ok meta → md_is_dir meta = false →
  StaticFiles.method opts = "GET" → StaticFiles.memory_cache opts = None →
  StaticFiles.compression_static opts = false →
  StaticFiles.handle fs store o =
    Res.map (λ r, StaticFiles.mkSfr r p)
      (StaticFiles.file_reply fs (StaticFiles.headers opts) p meta None None).
Proof.
  intros o p Hp Hacc Hm Hd Hget Hmem Hcs. unfold StaticFiles.handle, StaticFiles.lookup_path.
  cbn [o follow_link StaticFiles.method StaticFiles.base_path StaticFiles.uri_path
       StaticFiles.memory_cache StaticFiles.headers StaticFiles.compression_static
       StaticFiles.index_files].
  rewrite Hget, Hmem, Hp, Hcs. cbn [is_allowed Res.bind].
  change (negb (is_allowed "GET")) with false. cbn iota.
  unfold StaticFiles.get_composed_file_metadata, Meta.try_metadata. rewrite Hm, Hd.
  cbn [StaticFiles.variant_of fmap option_fmap option_map Res.bind]. unfold StaticFiles.handle_file.
  cbn [StaticFiles.fm_file_path StaticFiles.fm_is_dir StaticFiles.precompressed_variant
       StaticFiles.fm_metadata andb].
  change (StaticFiles.check_access fs o p) with (StaticFiles.check_access fs opts p).
  rewrite Hacc. cbn [Res.bind]. unfold o.
  cbn [follow_link StaticFiles.method StaticFiles.headers StaticFiles.memory_cache].
  rewrite Hget, Hmem. cbn [is_options String.eqb Ascii.eqb Bool.eqb].
  by destruct (StaticFiles.file_reply _ _ _ _ _ _).
Qed.
End Links.

(** C13. Round trip of the links of a listing: for every row of the listing of a directory the
    server let through, whatever characters the name has (spaces, percent signs, question
    marks, bytes that are no text), the link resolved against the address of the listing, with
    or without its final slash, decodes and sanitizes back to exactly that entry, ends with a
    slash exactly for directories, brings in no query or fragment mark, and passes the same
    access checks (root, links, hidden names); for a regular file a plain [GET] of it is
    answered from that file. *)
Theorem listing_links_lead_back `{HeadersLib} `{PercentLaws} (fs : Fs.t)
    (store : gmap string MemFile) (opts : StaticFiles.HandleOpts) (d root : Path.t)
    (idx : string) (names : list string) (e : DirListing.FileEntry)
    (Hd : PathExt.sanitize_path (StaticFiles.base_path opts) (StaticFiles.uri_path opts) = Ok d)
    (Hacc : StaticFiles.check_access fs opts d = Ok ())
    (Hroot : Fs.canonicalize fs (StaticFiles.base_path opts) = Ok root)
    (Hslash : Str.mem "/" (StaticFiles.uri_path opts) = true)
    (Hnames : Forall Path.proper_name names)
    (He : e ∈ listing_rows fs opts d root idx names) :
  let link := resolve_reference (StaticFiles.uri_path opts) (DirListing.uri e) in
  let p := d ++ [Normal (DirListing.name e)] in
  DirListing.name e ∈ names ∧
  PathExt.sanitize_path (StaticFiles.base_path opts) link = Ok p ∧
  Str.ends_with_char "/" link = DirListing.is_dir e ∧
  (∀ c, c ∈ ["?"; "#"]%char → Str.mem c (StaticFiles.uri_path opts) = false → Str.mem c link = false) ∧
  StaticFiles.check_access fs (follow_link opts link) p = Ok () ∧
  ∃ meta, Fs.symlink_metadata fs p = Ok meta ∧
    (md_is_file meta = true → StaticFiles.method opts = "GET" →
     StaticFiles.memory_cache opts = None → StaticFiles.compression_static opts = false →
     DirListing.size e = Some (md_len meta) ∧
     StaticFiles.handle fs store (follow_link opts link) =
       Res.map (λ r, StaticFiles.mkSfr r p)
         (StaticFiles.file_reply fs (StaticFiles.headers opts) p meta None None)).
Proof.
  destruct (listing_row fs opts d root idx names e He) as (n & meta & ty & size & Hn & Hm & Hh & Ht & ->).
  intros link p. simpl in link, p. cbn [DirListing.name DirListing.size].
  pose proof (proj1 (Forall_forall _ _) Hnames n Hn) as Hproper.
  assert (PathExt.sanitize_path (StaticFiles.base_path opts) link = Ok p) as Hp.
  { rewrite sanitize_uri_names in Hd |- *. unfold link. rewrite link_names by done.
    injection Hd as <-. unfold p. by rewrite app_assoc. }
  assert (StaticFiles.check_access fs opts p = Ok ()) as Haccp.
  { destruct (sanitize_normals (StaticFiles.base_path opts) (StaticFiles.uri_path opts)) as [ns Hns].
    rewrite Hns in Hd. injection Hd as <-.
    apply (check_access_entry fs opts ns n meta); [done..|]. intros Hs.
    destruct (entry_type_link fs root p meta _ ty size Hm Ht Hs) as (Hdis & q & Hq & Hin). eauto 8. }
  split; [done|]. split; [done|]. split; [by apply link_ends|]. split.
  { intros c Hc Hc'. by apply link_marks. }
  split; [done|]. exists meta. split; [done|]. intros Hfile Hget Hmem Hcs.
  destruct (plain_file_type fs root p meta _ ty size Hm Ht Hfile) as [-> Hdl]. split; [done|].
  destruct Hdl as (Hnd & Hnl). apply handle_plain_file; [done..| |done|done|done|done].
  destruct (check_access_ok fs opts d Hacc) as (_ & q & _ & _ & Hq & _).
  assert (∃ q0, q = Fs.absolute q0) as [q0 ->].
  { unfold Fs.canonicalize in Hq. apply map_Ok in Hq as (q0 & _ & ->). by exists q0. }
  by destruct (entry_resolves fs d q0 n meta Hq Hm Hnl).
Qed.

(** A directory whose names need escapes, and the options of a listing of it. *)
Module LinksRef.
Definition fs : Fs.t := Fs.mkFs
  (list_to_map
     [(["srv"], NDir ["www"] None true);
      (["srv"; "www"], NDir ["d"] None true);
      (["srv"; "www"; "d"], NDir ["50% off?.txt"; "sub dir"; "..."] None true);
      (["srv"; "www"; "d"; "50% off?.txt"], NFile "sale" None true);
      (["srv"; "www"; "d"; "sub dir"], NDir [] None true);
      (["srv"; "www"; "d"; "..."], NLink "sub dir" None)])
  [] 4096.
Definition opts : @StaticFiles.HandleOpts ref_http :=
  StaticFiles.mkHandleOpts "GET" None (ref_headers []) (Path.parse "/srv/www") "/d" ["index.html"]
    None true 6 Html [] false false true false.
Definition dir : Path.t := Path.parse "/srv/www/d".
Definition names : list string := ["50% off?.txt"; "sub dir"; "..."].
End LinksRef.

Lemma listing_links_lead_back_witness :
  let rows := listing_rows LinksRef.fs LinksRef.opts LinksRef.dir (Path.parse "/srv/www") "index.html"
                LinksRef.names in
  ∃ e, e ∈ rows ∧ DirListing.uri e = "d/50%25%20off%3F.txt" ∧
    PathExt.sanitize_path (Path.parse "/srv/www") (resolve_reference "/d" (DirListing.uri e)) =
      Ok (Path.parse "/srv/www/d/50% off?.txt").
Proof.
  intros rows.
  set (e := DirListing.mkEntry "50% off?.txt" None (Some 4%Z) DirListing.RegularFile
              "d/50%25%20off%3F.txt").
  assert (e ∈ rows) as He by (left; reflexivity).
  exists e. split; [exact He|]. split; [reflexivity|].
  destruct (listing_links_lead_back LinksRef.fs ∅ LinksRef.opts LinksRef.dir (Path.parse "/srv/www")
    "index.html" LinksRef.names e) as (_ & Hp & _).
  - reflexivity.
  - reflexivity.
  - reflexivity.
  - reflexivity.
  - repeat (constructor; [by split_and!|]). constructor.
  - exact He.
  - exact Hp.
Defined.
