(* ===== verification/Handler.v ===== *)
(** The request handler: [handler.rs].

    [serve] is the inner future of [RequestHandler::handle], stage by stage; [handle] wraps it
    with the instrumentation.  The state is the [World] of the proxy and the collectors; the
    file system, the in-memory store and what upstreams answer are given. *)
From Stdlib Require Import ZArith Lia Ascii String.
From stdpp Require Import base list strings gmap.
From coqutil Require Import Datatypes.RecordSetters.
Import DoubleBraceUpdate.
From S2P Require Import Prelude Http Libs RefLibs Path Fs Quality Opts Pages Compression Ranges DirListing.
From S2P Require Import StaticFiles Cors Routing Policies Metrics Balancer Proxy.
Local Open Scope string_scope.
Local Open Scope list_scope.
Local Open Scope nat_scope.

(** [if let Some(result) = x { return result; } k]. *)
Notation "'or_return' x 'in' k" := (match x with Some result => result | None => k end)
  (at level 10, x at level 200, k at level 200, only parsing) : gate_scope.

Module Handler.
Section Handler.
Context `{HeadersLib, CodecLib, GlobLib, RegexLib}.
Context (client_request : ProxyHttpClient → Request → result error Response).
Context (encode_text : MetricsState → string).
Context (fs : Fs.t) (store : gmap string MemFile).

(** The error page of the handler's options. *)
Definition error_response (o : RequestHandlerOpts) (req : Request) (status : Z)
    : result error Response :=
  ErrorPage.error_response fs (rq_uri req) (rq_method req) status (page404 o) (page50x o).

(** [try_reverse_proxy]. *)
Definition try_reverse_proxy (req : Request) (remote_addr : option SocketAddr) (w : World)
    : option (result error Response) * Request * World :=
  match Proxy.pre_process client_request req remote_addr w with
  | (None, req, w) => (None, req, w)
  | (Some (Err _), req, w) => (Some (error_response (w_opts w) req 502), req, w)
  | (Some (Ok resp), req, w) =>
      if (rs_status resp =? 101)%Z then (Some (Ok resp), req, w)
      else (Some (CorsCheck.post_process (w_opts w) req resp), req, w)
  end.

(** The stages before any rule: method, health, metrics, CORS, authentication, maintenance. *)
Definition gate (o : RequestHandlerOpts) (req : Request) (m : MetricsState)
    : option (result error Response) :=
  if negb (is_allowed (rq_method req)) then Some (error_response o req 405)
  else
    match Health.pre_process o req with
    | Some result => Some result
    | None =>
        match Metrics.pre_process encode_text o req m with
        | Some result => Some result
        | None =>
            match CorsCheck.pre_process fs o req with
            | Some result => Some result
            | None =>
                match BasicAuth.pre_process fs o req with
                | Some response => Some response
                | None => Maintenance.pre_process fs o req
                end
            end
        end
    end.

(** The root directory: of the virtual host, if one matches. *)
Definition base_path_of (o : RequestHandlerOpts) (req : Request) : Path.t :=
  match advanced_opts o with
  | Some advanced => default (root_dir o) (VirtualHost.get_real_root req (virtual_hosts advanced))
  | None => root_dir o
  end.

(** The options of the static file handler. *)
Definition handle_opts (o : RequestHandlerOpts) (req : Request) (base_path : Path.t)
    (uri_path : string) : StaticFiles.HandleOpts := {|
  StaticFiles.method := rq_method req;
  StaticFiles.memory_cache := memory_cache o;
  StaticFiles.headers := rq_headers req;
  StaticFiles.base_path := base_path;
  StaticFiles.uri_path := uri_path;
  StaticFiles.index_files := index_files o;
  StaticFiles.uri_query := uri_query (rq_uri req);
  StaticFiles.dir_listing := dir_listing o;
  StaticFiles.dir_listing_order := dir_listing_order o;
  StaticFiles.dir_listing_format := dir_listing_format o;
  StaticFiles.dir_listing_download := dir_listing_download o;
  StaticFiles.redirect_trailing_slash := redirect_trailing_slash o;
  StaticFiles.compression_static := compression_static o;
  StaticFiles.ignore_hidden_files := ignore_hidden_files o;
  StaticFiles.disable_symlinks := disable_symlinks o;
|}.

(** The post-processing chain, in order. *)
Definition post_process (o : RequestHandlerOpts) (req : Request) (is_markdown : bool)
    (resp : Response) (file_path : option Path.t) : result error Response :=
  let? resp := FallbackPage.post_process o req resp in
  let? resp := CorsCheck.post_process o req resp in
  let? resp := Markdown.post_process is_markdown o resp in
  let? resp := TextCharset.post_process o resp in
  let? resp := CompressionStatic.post_process o req resp in
  let? resp := Compression.post_process fs o req resp in
  let? resp := ControlHeaders.post_process o req resp in
  let? resp := SecurityHeaders.post_process o req resp in
  let? resp := CustomHeaders.post_process o req resp file_path in
  Ok resp.

(** The end of the pipeline: virtual host, markdown variant, static file, post-processing. *)
Definition serve_static (o : RequestHandlerOpts) (req : Request) : result error Response :=
  let base_path := base_path_of o req in
  let uri_path_md :=
    if accept_markdown o then Markdown.pre_process fs req base_path (rq_path req) else None in
  let uri_path := default (rq_path req) uri_path_md in
  let? rf :=
    match StaticFiles.handle fs store (handle_opts o req base_path uri_path) with
    | Ok result => Ok (StaticFiles.sf_resp result, Some (StaticFiles.sf_file_path result))
    | Err status => let? resp := error_response o req status in Ok (resp, None)
    end in
  let '(resp, file_path) := rf in
  post_process o req (if uri_path_md is Some _ then true else false) resp file_path.

(** The inner future of [handle]. *)
Definition serve (req : Request) (remote_addr : option SocketAddr) (w : World) (m : MetricsState)
    : result error Response * Request * World :=
  or_return
    (match gate (w_opts w) req m with Some result => Some (result, req, w) | None => None end) in
  let '(early, req, w) :=
    if proxy_first (w_opts w) then try_reverse_proxy req remote_addr w else (None, req, w) in
  or_return (match early with Some result => Some (result, req, w) | None => None end) in
  or_return
    (match Redirects.pre_process fs (w_opts w) req with
     | Some result => Some (result, req, w) | None => None end) in
  let '(rewritten, req) := Rewrites.pre_process fs (w_opts w) req in
  or_return (match rewritten with Some result => Some (result, req, w) | None => None end) in
  let '(late, req, w) :=
    if negb (proxy_first (w_opts w)) then try_reverse_proxy req remote_addr w else (None, req, w) in
  or_return (match late with Some result => Some (result, req, w) | None => None end) in
  (serve_static (w_opts w) req, req, w).

(** What the instrumentation records once the inner future is done. *)
Definition record_outcome (req : Request) (result : result error Response) (elapsed : Z)
    (m : MetricsState) : MetricsState :=
  let m := Metrics.dec_requests_inflight m in
  match result with
  | Ok resp =>
      let bytes := default 0%Z
        ((rs_get "content-length" resp ≫= hv_to_str) ≫= Str.parse_uint u64_max) in
      Metrics.record_request req (rs_status resp) bytes elapsed m
  | Err _ => m
  end.

(** [RequestHandler::handle]; [elapsed] is the time the inner future took. *)
Definition handle (req : Request) (remote_addr : option SocketAddr) (elapsed : Z) (w : World)
    (m : MetricsState) : result error Response * Request * World * MetricsState :=
  let metrics_enabled := metrics_enabled (w_opts w) in
  let m := if metrics_enabled then Metrics.inc_requests_inflight m else m in
  let '(result, req, w) := serve req remote_addr w m in
  (result, req, w, if metrics_enabled then record_outcome req result elapsed m else m).
End Handler.
End Handler.

(** * Every request is answered *)

Section HandlerLemmas.
Context `{HeadersLib, CodecLib, GlobLib, RegexLib}.
Context (client_request : ProxyHttpClient → Request → result error Response).
Context (encode_text : MetricsState → string).
Context (fs : Fs.t) (store : gmap string MemFile).

(** A stage that answers, answers with a response. *)
Definition answered (x : option (result error Response)) : Prop :=
  ∀ e, x ≠ Some (Err e).

Lemma error_page_Ok o req status : ∃ r, Handler.error_response fs o req status = Ok r.
Proof. by eexists. Qed.

Lemma compression_auto_Ok method h level resp : ∃ r, Compression.auto method h level resp = Ok r.
Proof. unfold Compression.auto. repeat case_match; eauto. Qed.

Lemma compression_Ok o req resp : ∃ r, Compression.post_process fs o req resp = Ok r.
Proof.
  unfold Compression.post_process. destruct (compression o); cbn [negb]; [|eauto].
  destruct (hm_contains _ _); [eauto|]. cbv zeta.
  set (resp' := set_header _ _ _).
  destruct (compression_auto_Ok (rq_method req) (rq_headers req) (compression_level o) resp')
    as [r ->]. eauto.
Qed.

Lemma cors_post_Ok o req resp : ∃ r, CorsCheck.post_process o req resp = Ok r.
Proof. unfold CorsCheck.post_process. repeat case_match; eauto. Qed.

Lemma post_process_Ok o req md resp fp : ∃ r, Handler.post_process fs o req md resp fp = Ok r.
Proof.
  unfold Handler.post_process. unfold FallbackPage.post_process. cbn [Res.bind].
  edestruct cors_post_Ok as [r1 ->]. cbn [Res.bind].
  assert (∀ r, ∃ r', Markdown.post_process md o r = Ok r') as Hmd
    by (intros r; unfold Markdown.post_process; repeat case_match; eauto).
  edestruct Hmd as [r2 ->]. cbn [Res.bind].
  assert (∀ r, ∃ r', TextCharset.post_process o r = Ok r') as Htc
    by (intros r; unfold TextCharset.post_process; repeat case_match; eauto).
  edestruct Htc as [r3 ->]. cbn [Res.bind].
  assert (∀ r, ∃ r', CompressionStatic.post_process o req r = Ok r') as Hcs
    by (intros r; unfold CompressionStatic.post_process; repeat case_match; eauto).
  edestruct Hcs as [r4 ->]. cbn [Res.bind].
  edestruct compression_Ok as [r5 ->]. cbn [Res.bind]. eauto.
Qed.

Lemma serve_static_Ok o req : ∃ r, Handler.serve_static fs store o req = Ok r.
Proof.
  unfold Handler.serve_static. cbv zeta.
  destruct (StaticFiles.handle _ _ _) as [r|status]; cbn [Res.bind]; [apply post_process_Ok|].
  destruct (error_page_Ok o req status) as [r ->]. apply post_process_Ok.
Qed.

Lemma proxy_answered req remote w : answered (Handler.try_reverse_proxy client_request fs req remote w).1.1.
Proof.
  unfold Handler.try_reverse_proxy.
  destruct (Proxy.pre_process _ req remote w) as [[[[resp|e]|] req'] w']; cbn [fst]; [| |done].
  - destruct (_ =? _)%Z; cbn [fst]; [done|].
    destruct (cors_post_Ok (w_opts w') req' resp) as [r ->]. done.
  - destruct (error_page_Ok (w_opts w') req' 502) as [r ->]. done.
Qed.

Lemma gate_answered o req m : answered (Handler.gate encode_text fs o req m).
Proof.
  unfold Handler.gate.
  destruct (is_allowed (rq_method req)); cbn [negb]; [|done].
  destruct (Health.pre_process o req) as [r|] eqn:E1.
  { unfold Health.pre_process in E1. by repeat case_match; simplify_eq. }
  destruct (Metrics.pre_process encode_text o req m) as [r|] eqn:E2.
  { unfold Metrics.pre_process in E2. by repeat case_match; simplify_eq. }
  destruct (CorsCheck.pre_process fs o req) as [r|] eqn:E3.
  { unfold CorsCheck.pre_process in E3. by repeat case_match; simplify_eq. }
  destruct (BasicAuth.pre_process fs o req) as [r|] eqn:E4.
  { unfold BasicAuth.pre_process in E4. by repeat case_match; simplify_eq. }
  unfold Maintenance.pre_process. by destruct (maintenance_mode o).
Qed.

Lemma redirects_answered o req : answered (Redirects.pre_process fs o req).
Proof. unfold Redirects.pre_process, Redirects.handle_error. by repeat case_match. Qed.

Lemma rewrites_answered o req : answered (Rewrites.pre_process fs o req).1.
Proof. unfold Rewrites.pre_process, Redirects.handle_error. by repeat case_match. Qed.

Lemma serve_answered req remote w m :
  ∃ r, (Handler.serve client_request encode_text fs store req remote w m).1.1 = Ok r.
Proof.
  assert (∀ (x : result error Response), (∀ e, Some x ≠ Some (Err e)) → ∃ r, x = Ok r) as Hok
    by (intros [r|e] Hx; [eauto | by destruct (Hx e)]).
  unfold Handler.serve.
  pose proof (gate_answered (w_opts w) req m) as Hg.
  destruct (Handler.gate _ _ _ _ _) as [x|]; [by apply Hok|].
  pose proof (proxy_answered req remote w) as Hp.
  destruct (if proxy_first (w_opts w) then _ else _) as [[early req1] w1] eqn:E1.
  assert (answered early) as He by (destruct (proxy_first (w_opts w)); [by rewrite E1 in Hp|by simplify_eq]).
  destruct early as [x|]; [by apply Hok|].
  pose proof (redirects_answered (w_opts w1) req1) as Hr.
  destruct (Redirects.pre_process fs (w_opts w1) req1) as [x|]; [by apply Hok|].
  pose proof (rewrites_answered (w_opts w1) req1) as Hw.
  destruct (Rewrites.pre_process fs (w_opts w1) req1) as [[x|] req2]; [by apply Hok|].
  pose proof (proxy_answered req2 remote w1) as Hp2.
  destruct (if negb (proxy_first (w_opts w1)) then _ else _) as [[late req3] w3] eqn:E3.
  assert (answered late) as Hl
    by (destruct (negb (proxy_first (w_opts w1))); [by rewrite E3 in Hp2|by simplify_eq]).
  destruct late as [x|]; [by apply Hok|]. apply serve_static_Ok.
Qed.
End HandlerLemmas.

(** C19. The service never fails: whatever the request, the options, the file system, the cache and
    the upstreams do (upstream errors included), [handle] produces a response. *)
Theorem handle_always_answers `{HeadersLib, CodecLib, GlobLib, RegexLib}
    (client_request : ProxyHttpClient → Request → result error Response)
    (encode_text : MetricsState → string) (fs : Fs.t) (store : gmap string MemFile)
    (req : Request) (remote_addr : option SocketAddr) (elapsed : Z) (w : World)
    (m : MetricsState) :
  ∃ resp req' w' m',
    Handler.handle client_request encode_text fs store req remote_addr elapsed w m =
      (Ok resp, req', w', m').
Proof.
  destruct (serve_answered client_request encode_text fs store req remote_addr w
    (if metrics_enabled (w_opts w) then Metrics.inc_requests_inflight m else m)) as [r Hr].
  unfold Handler.handle. cbv zeta.
  destruct (Handler.serve _ _ _ _ _ _ _ _) as [[res req'] w']. simpl in Hr. subst res. by eexists _, _, _, _.
Qed.

(** Instrumentation of a finished request: the in-flight gauge is back at its value, the
    connection gauge is untouched, and with metrics on exactly one request is counted, under
    its method, the class of its status and its host, unless it asked for [/metrics]; with
    metrics off nothing changes. *)
Theorem handle_metrics `{HeadersLib, CodecLib, GlobLib, RegexLib}
    (client_request : ProxyHttpClient → Request → result error Response)
    (encode_text : MetricsState → string) (fs : Fs.t) (store : gmap string MemFile)
    (req : Request) (remote_addr : option SocketAddr) (elapsed : Z) (w : World)
    (m : MetricsState) :
  ∃ resp req' w' m',
    Handler.handle client_request encode_text fs store req remote_addr elapsed w m =
      (Ok resp, req', w', m') ∧
    requests_inflight m' = requests_inflight m ∧ connections_active m' = connections_active m ∧
    (metrics_enabled (w_opts w) = false → m' = m) ∧
    (metrics_enabled (w_opts w) = true →
       requests_total m' =
         if String.eqb (rq_path req') "/metrics" then requests_total m
         else let l := Metrics.labels req' (rs_status resp) in
              <[l := wrap64 (default 0%Z (requests_total m !! l) + 1)]> (requests_total m)).
Proof.
  destruct (serve_answered client_request encode_text fs store req remote_addr w
    (if metrics_enabled (w_opts w) then Metrics.inc_requests_inflight m else m)) as [r Hr].
  unfold Handler.handle. cbv zeta.
  destruct (Handler.serve _ _ _ _ _ _ _ _) as [[res req'] w']. simpl in Hr. subst res.
  eexists _, _, _, _. split; [done|]. destruct m as [t d b i k]. unfold Handler.record_outcome.
  destruct (metrics_enabled (w_opts w)).
  - unfold Metrics.record_request.
    destruct (String.eqb (rq_path req') "/metrics"); [|case_match]; simpl; split_and!; done || lia.
  - by split_and!.
Qed.

(** * What can reach an upstream *)

Section GateLemmas.
Context `{HeadersLib, CodecLib, GlobLib, RegexLib}.
Context (client_request : ProxyHttpClient → Request → result error Response).
Context (encode_text : MetricsState → string).
Context (fs : Fs.t) (store : gmap string MemFile).

(** The request has passed every check made before the rules. *)
Definition admitted (o : RequestHandlerOpts) (req : Request) : Prop :=
  is_allowed (rq_method req) = true ∧
  (∀ c, cors o = Some c →
     Res.is_ok (CorsCheck.check_request c (rq_method req) (rq_headers req)) = true) ∧
  (Str.is_empty (basic_auth o) = true ∨ is_options (rq_method req) = true ∨
   authorized (basic_auth o) (rq_headers req)) ∧
  maintenance_mode o = false.

Lemma gate_admits o req m : Handler.gate encode_text fs o req m = None → admitted o req.
Proof.
  unfold Handler.gate, admitted. destruct (is_allowed (rq_method req)); cbn [negb]; [|done].
  destruct (Health.pre_process o req); [done|].
  destruct (Metrics.pre_process encode_text o req m); [done|].
  destruct (CorsCheck.pre_process fs o req) eqn:Ec; [done|].
  destruct (BasicAuth.pre_process fs o req) eqn:Eb; [done|]. intros Hm.
  split; [done|]. split; [|split; [by apply basic_auth_passes in Eb|]].
  - intros c Hc. unfold CorsCheck.pre_process in Ec. rewrite Hc in Ec.
    by destruct (CorsCheck.check_request c _ _).
  - unfold Maintenance.pre_process in Hm. by destruct (maintenance_mode o).
Qed.

Lemma proxy_none req remote w :
  (Proxy.pre_process client_request req remote w).1.1 = None →
  (Proxy.pre_process client_request req remote w) = (None, req, w).
Proof. unfold Proxy.pre_process. repeat case_match; by intros ?; simplify_eq/=. Qed.

Lemma try_proxy_none req remote w req' w' :
  Handler.try_reverse_proxy client_request fs req remote w = (None, req', w') →
  req' = req ∧ w' = w.
Proof.
  unfold Handler.try_reverse_proxy. pose proof (proxy_none req remote w) as Hn.
  destruct (Proxy.pre_process client_request req remote w) as [[[[r|e]|] q] v]; [|done|].
  - by destruct (_ =? _)%Z.
  - intros [= <- <-]. specialize (Hn eq_refl). by simplify_eq.
Qed.

(** The world of a request is that of its proxy stage, if it got there. *)
Lemma try_reverse_proxy_world req remote w :
  (Handler.try_reverse_proxy client_request fs req remote w).2
  = (Proxy.pre_process client_request req remote w).2.
Proof.
  unfold Handler.try_reverse_proxy.
  destruct (Proxy.pre_process _ _ _ _) as [[[[r|e]|] q] v]; try done.
  by destruct (_ =? _)%Z.
Qed.

Lemma serve_world req remote w m :
  let w' := (Handler.serve client_request encode_text fs store req remote w m).2 in
  w' = w ∨ ∃ req1, w' = (Proxy.pre_process client_request req1 remote w).2.
Proof.
  cbv zeta. unfold Handler.serve.
  destruct (Handler.gate _ _ _ _ _); [by left|].
  destruct (proxy_first (w_opts w)) eqn:Ef.
  - right. exists req. rewrite <- try_reverse_proxy_world.
    destruct (Handler.try_reverse_proxy _ _ _ _ w) as [[early req1] w1] eqn:E.
    pose proof (try_proxy_none req remote w req1 w1) as Hn.
    destruct early as [x|]; [done|]. destruct (Hn E) as [-> ->]. rewrite Ef. simpl.
    destruct (Redirects.pre_process _ _ _); [done|].
    by destruct (Rewrites.pre_process _ _ _) as [[x|] req2].
  - destruct (Redirects.pre_process _ _ _); [by left|].
    destruct (Rewrites.pre_process _ _ _) as [[x|] req2]; [by left|].
    rewrite Ef. simpl. right. exists req2. rewrite <- try_reverse_proxy_world.
    by destruct (Handler.try_reverse_proxy _ _ _ _ _) as [[[x|] req3] w3].
Qed.

Lemma handle_world req remote elapsed w m res req' w' m' :
  Handler.handle client_request encode_text fs store req remote elapsed w m = (res, req', w', m') →
  w' = w ∨ ∃ req1, w' = (Proxy.pre_process client_request req1 remote w).2.
Proof.
  unfold Handler.handle. cbv zeta. intros Hh.
  pose proof (serve_world req remote w
    (if metrics_enabled (w_opts w) then Metrics.inc_requests_inflight m else m)) as Hs.
  destruct (Handler.serve _ _ _ _ _ _ _ _) as [[r q] v]. by simplify_eq.
Qed.

Lemma serve_state req remote w m :
  let '(_, _, w') := Handler.serve client_request encode_text fs store req remote w m in
  w' ≠ w →
  admitted (w_opts w) req ∧
  (proxy_first (w_opts w) = false →
     Redirects.pre_process fs (w_opts w) req = None ∧
     (Rewrites.pre_process fs (w_opts w) req).1 = None).
Proof.
  unfold Handler.serve.
  destruct (Handler.gate _ _ _ _ _) eqn:Eg; [done|]. apply gate_admits in Eg.
  destruct (proxy_first (w_opts w)) eqn:Ef.
  - destruct (Handler.try_reverse_proxy client_request fs req remote w) as [[early req1] w1] eqn:E1.
    assert (∀ w', w' ≠ w → admitted (w_opts w) req ∧
      (true = false → Redirects.pre_process fs (w_opts w) req = None ∧
       (Rewrites.pre_process fs (w_opts w) req).1 = None)) as Hdone by done.
    by repeat case_match.
  - cbn [negb]. destruct (Redirects.pre_process fs (w_opts w) req) eqn:Er; [done|].
    destruct (Rewrites.pre_process fs (w_opts w) req) as [[x|] req2] eqn:Ew; [done|].
    rewrite Ef. cbn [negb].
    destruct (Handler.try_reverse_proxy client_request fs req2 remote w) as [[[x|] req3] w3]; done.
Qed.
End GateLemmas.

(** C5. Nothing reaches an upstream unchecked: if handling a request changes the proxy's state at
    all (a request sent, a counter moved, a permit taken, a tunnel started), then its method is
    allowed, CORS accepts it, it is authenticated (or an [OPTIONS], or no credentials are
    configured), the server is not in maintenance, and unless the proxy goes first no redirect
    or answering rewrite applies to it. *)
Theorem upstream_only_admitted `{HeadersLib, CodecLib, GlobLib, RegexLib}
    (client_request : ProxyHttpClient → Request → result error Response)
    (encode_text : MetricsState → string) (fs : Fs.t) (store : gmap string MemFile)
    (req req' : Request) (remote_addr : option SocketAddr) (elapsed : Z) (w w' : World)
    (m m' : MetricsState) (res : result error Response)
    (Hhandle : Handler.handle client_request encode_text fs store req remote_addr elapsed w m =
                 (res, req', w', m'))
    (Hchanged : w' ≠ w) :
  admitted (w_opts w) req ∧
  (proxy_first (w_opts w) = false →
     Redirects.pre_process fs (w_opts w) req = None ∧
     (Rewrites.pre_process fs (w_opts w) req).1 = None).
Proof.
  unfold Handler.handle in Hhandle. cbv zeta in Hhandle.
  pose proof (serve_state client_request encode_text fs store req remote_addr w
    (if metrics_enabled (w_opts w) then Metrics.inc_requests_inflight m else m)) as Hs.
  destruct (Handler.serve _ _ _ _ _ _ _ _) as [[r q] v]. simplify_eq. by apply Hs.
Qed.

(** A method the server does not support gets a 405 page at once, whatever is configured: it
    is never proxied, redirected, authenticated or looked up. *)
Theorem unsupported_method `{HttpLaws} `{!MimeLib, !HeadersLib, !CodecLib, !GlobLib, !RegexLib}
    (client_request : ProxyHttpClient → Request → result error Response)
    (encode_text : MetricsState → string) (fs : Fs.t) (store : gmap string MemFile)
    (req : Request) (remote_addr : option SocketAddr) (w : World) (m : MetricsState)
    (Hmethod : rq_method req ∉ ["OPTIONS"; "HEAD"; "GET"]) :
  ∃ r, Handler.serve client_request encode_text fs store req remote_addr w m = (Ok r, req, w) ∧
       rs_status r = 405%Z ∧ rs_get "content-type" r = Some TEXT_HTML_UTF_8.
Proof.
  assert (is_allowed (rq_method req) = false) as Hno.
  { destruct (is_allowed (rq_method req)) eqn:E; [|done]. exfalso. apply Hmethod.
    apply is_allowed_spec in E. set_solver. }
  unfold Handler.serve, Handler.gate. rewrite Hno. cbn [negb].
  destruct (error_response_shape fs (rq_uri req) (rq_method req) 405
              (page404 (w_opts w)) (page50x (w_opts w))) as (r & _ & Hr & Hs & _ & Hc & _).
  exists r. unfold Handler.error_response. rewrite Hr. done.
Qed.

(** The last word on static answers: with security headers on and no custom headers, every
    answer of the static stage (pages, files, errors, listings, fallback) carries the four
    security headers, and with cache control on its lifetime header, whatever the earlier steps
    of the chain set. *)
Theorem static_answer_headers `{HttpLaws} `{!MimeLib, !HeadersLib, !CodecLib, !GlobLib, !RegexLib}
    (fs : Fs.t) (store : gmap string MemFile) (o : RequestHandlerOpts) (req : Request)
    (r : Response)
    (Hsec : security_headers o = true) (Hcache : cache_control_headers o = true)
    (Hcustom : advanced_opts o ≫= headers = None)
    (Hserve : Handler.serve_static fs store o req = Ok r) :
  rs_get "strict-transport-security" r = Some "max-age=63072000; includeSubDomains; preload" ∧
  rs_get "x-frame-options" r = Some "DENY" ∧ rs_get "x-content-type-options" r = Some "nosniff" ∧
  rs_get "content-security-policy" r = Some "frame-ancestors 'self'" ∧
  rs_get "cache-control" r =
    Some ("max-age=" +:+ Str.of_uint (Z.min (ControlHeaders.get_max_age (rq_path req)) u32_max)).
Proof.
  unfold Handler.serve_static in Hserve. cbv zeta in Hserve.
  apply bind_Ok in Hserve as ([resp fp] & _ & Hpost). unfold Handler.post_process in Hpost.
  do 6 (apply bind_Ok in Hpost as (? & _ & Hpost)).
  unfold ControlHeaders.post_process, SecurityHeaders.post_process, CustomHeaders.post_process in Hpost.
  rewrite Hsec, Hcache in Hpost. cbn [Res.bind] in Hpost.
  assert (r = SecurityHeaders.append_headers (ControlHeaders.append_headers (rq_path req) x4)) as ->.
  { destruct (advanced_opts o) as [a|]; [|congruence]. simpl in Hcustom. rewrite Hcustom in Hpost.
    simpl in Hpost. congruence. }
  unfold SecurityHeaders.append_headers, ControlHeaders.append_headers, rs_get, set_header.
  cbn [rs_headers set_headers]. by simpl_headers.
Qed.

Module HandlerRef.
Definition opts : RequestHandlerOpts :=
  RequestHandlerOpts_default {{ root_dir := Path.parse "/srv/www"; security_headers := true }}.
Definition world (o : RequestHandlerOpts) : World := mkWorld _ _ _ o [] [].
Definition req (method path : string) : Request :=
  mkRequest method (RefUri.mk None None (Some path)) (ref_headers [("host", "example.com")]) BodyEmpty.
Definition proxied : RequestHandlerOpts :=
  RequestHandlerOpts_default {{ advanced_opts := Some (Advanced_default {{ proxies := Some [ProxyRef.rule] }});
    proxy_client := Some ProxyRef.client }}.
End HandlerRef.

Lemma static_answer_headers_witness :
  ∃ r, Handler.serve_static FsRef.fs ∅ HandlerRef.opts (HandlerRef.req "GET" "/a.txt") = Ok r ∧
       rs_get "x-frame-options" r = Some "DENY".
Proof.
  destruct (Handler.serve_static FsRef.fs ∅ HandlerRef.opts (HandlerRef.req "GET" "/a.txt"))
    as [r|] eqn:E; [|discriminate E].
  exists r. split; [reflexivity|].
  exact (proj1 (proj2 (static_answer_headers FsRef.fs ∅ HandlerRef.opts
    (HandlerRef.req "GET" "/a.txt") r eq_refl eq_refl eq_refl E))).
Defined.

Lemma unsupported_method_witness :
  ∃ r, Handler.serve ProxyRef.answer (λ _, "") FsRef.fs ∅ (HandlerRef.req "POST" "/api/users") None
         (HandlerRef.world HandlerRef.proxied) Metrics.empty
       = (Ok r, HandlerRef.req "POST" "/api/users", HandlerRef.world HandlerRef.proxied) ∧
       rs_status r = 405%Z.
Proof.
  destruct (unsupported_method ProxyRef.answer (λ _, "") FsRef.fs ∅ (HandlerRef.req "POST" "/api/users")
    None (HandlerRef.world HandlerRef.proxied) Metrics.empty) as (r & Hr & Hs & _).
  { rewrite !not_elem_of_cons. split_and!; [done..|]. by intros ?%elem_of_nil. }
  exists r. split; [exact Hr | exact Hs].
Defined.

Lemma upstream_only_admitted_witness :
  let req := HandlerRef.req "GET" "/api/users" in
  let w := HandlerRef.world HandlerRef.proxied in
  length (w_sent (Handler.handle ProxyRef.answer (λ _, "") FsRef.fs ∅ req None 5 w Metrics.empty).1.2) = 1 ∧
  maintenance_mode (w_opts w) = false.
Proof.
  intros req w.
  destruct (Handler.handle ProxyRef.answer (λ _, "") FsRef.fs ∅ req None 5 w Metrics.empty)
    as [[[res req'] w'] m'] eqn:E.
  assert (length (w_sent w') = 1) as Hl
    by (change w' with (res, req', w', m').1.2; rewrite <- E; reflexivity).
  split; [exact Hl|].
  destruct (upstream_only_admitted ProxyRef.answer (λ _, "") FsRef.fs ∅ req req' None 5 w w'
    Metrics.empty m' res E) as [(_ & _ & _ & Hm) _]; [|exact Hm].
  intros ->. discriminate Hl.
Defined.
