(* ===== verification/Head.v ===== *)
(** [HEAD] against [GET], through the whole pipeline of [Handler]: the static handler, the
    built-in pages, the policies and the rules, each of which treats the two methods alike up to
    the body. *)
From Stdlib Require Import ZArith Lia Ascii String.
From stdpp Require Import base list strings gmap.
From coqutil Require Import Datatypes.RecordSetters.
Import DoubleBraceUpdate.
From S2P Require Import Prelude Http Libs RefLibs Path Fs Quality Opts Pages Compression Ranges DirListing.
From S2P Require Import StaticFiles Cors Routing Policies Metrics Balancer Proxy Handler.
Local Open Scope string_scope.
Local Open Scope list_scope.
Local Open Scope nat_scope.

(** The body of the [HEAD] answer, from that of the [GET] one: what the program writes itself is
    left out; the stream of a file is attached all the same, and dropped by the server library
    before it is read. *)
Definition head_body (b : Body) : Body :=
  match b with
  | BodyFile _ _ | BodyMemFile _ _ _ _ _ _ | BodyReadError => b
  | BodyEmpty | BodyBytes _ | BodyEncoded _ _ _ | BodyArchive _ _ _ _ => BodyEmpty
  end.

(** [r'] is the [HEAD] answer for [r]. *)
Definition mirror `{HttpLib} (r r' : Response) : Prop := r' = set_body (head_body (rs_body r)) r.

(** [HEAD] attaches the same body. *)
Definition streamed `{HttpLib} (r : Response) : Prop := head_body (rs_body r) = rs_body r.

(** The same outcome, answers up to the body. *)
Definition mirrored `{HttpLib} {E} (x y : result E Response) : Prop :=
  match x, y with
  | Ok r, Ok r' => mirror r r'
  | Err e, Err e' => e = e'
  | _, _ => False
  end.
Definition mirrored_opt `{HttpLib} (x y : option (result error Response)) : Prop :=
  match x, y with
  | Some x, Some y => mirrored x y
  | None, None => True
  | _, _ => False
  end.

(** The same request with another method. *)
Definition with_method `{HttpLib} (m : string) (req : Request) : Request :=
  mkRequest m (rq_uri req) (rq_headers req) (rq_body req).

Section Mirror.
Context `{HttpLib}.

Lemma set_same_body r : set_body (rs_body r) r = r.
Proof. by destruct r. Qed.

Lemma mirror_refl r : streamed r → mirror r r.
Proof. unfold mirror. intros ->. by rewrite set_same_body. Qed.

Lemma mirrored_refl {E} (x : result E Response) : (∀ r, x = Ok r → streamed r) → mirrored x x.
Proof. destruct x; simpl; [intros Hs; by apply mirror_refl, Hs|done]. Qed.

(** A step that never looks at the body. *)
Definition blind {E} (f : Response → result E Response) : Prop :=
  ∀ r b, f (set_body b r) = Res.map (set_body b) (f r).

Lemma blind_body {E} (f : Response → result E Response) r s :
  blind f → f r = Ok s → rs_body s = rs_body r.
Proof.
  intros Hf Hr. specialize (Hf r (rs_body r)). rewrite set_same_body, Hr in Hf. injection Hf as Hf.
  by rewrite Hf.
Qed.

Lemma blind_mirror {E} (f : Response → result E Response) r r' :
  blind f → mirror r r' → mirrored (f r) (f r').
Proof.
  intros Hf ->. rewrite Hf. destruct (f r) as [s|] eqn:E'; simpl; [|done].
  unfold mirror. by rewrite (blind_body f r s).
Qed.

Lemma blind_Ok {E} : blind (@Ok E Response).
Proof. done. Qed.

Lemma blind_bind {E} (f g : Response → result E Response) :
  blind f → blind g → blind (λ r, let? x := f r in g x).
Proof. intros Hf Hg r b. rewrite Hf. destruct (f r); simpl; [apply Hg|done]. Qed.
End Mirror.

#[export] Hint Resolve mirror_refl mirrored_refl : gate.

Lemma bind_ext {E A B} (r : result E A) (f g : A → result E B) :
  (∀ x, f x = g x) → Res.bind r f = Res.bind r g.
Proof. intros Hf. destruct r; simpl; auto. Qed.

(** * The steps that only add headers *)

Section Blind.
Context `{HeadersLib, CodecLib, GlobLib, RegexLib}.

Lemma cors_blind o req : blind (CorsCheck.post_process o req).
Proof. intros r b. unfold CorsCheck.post_process. by repeat case_match. Qed.

Lemma markdown_blind md o : blind (Markdown.post_process md o).
Proof. intros r b. unfold Markdown.post_process. by repeat case_match. Qed.

Lemma charset_blind o : blind (TextCharset.post_process o).
Proof.
  intros r b. unfold TextCharset.post_process.
  change (TextCharset.new_header (set_body b r)) with (TextCharset.new_header r).
  by repeat case_match.
Qed.

Lemma compression_static_blind o req : blind (CompressionStatic.post_process o req).
Proof. intros r b. unfold CompressionStatic.post_process. by case_match. Qed.

Lemma control_blind o req : blind (ControlHeaders.post_process o req).
Proof. intros r b. unfold ControlHeaders.post_process. by case_match. Qed.

Lemma security_blind o req : blind (SecurityHeaders.post_process o req).
Proof. intros r b. unfold SecurityHeaders.post_process. by case_match. Qed.

(** Dynamic compression when the request lists no supported coding: only [Vary] changes. *)
Definition idle_compression (o : RequestHandlerOpts) (r : Response) : result error Response :=
  if negb (compression o) then Ok r
  else if hm_contains "content-encoding" (rs_headers r) then Ok r
  else Ok (set_header "vary" (Compression.vary_value (rs_get "vary" r)) r).

Lemma compression_idle fs o req r :
  compression o = false ∨ Compression.get_preferred_encoding (rq_headers req) = None →
  Compression.post_process fs o req r = idle_compression o r.
Proof.
  unfold Compression.post_process, idle_compression, Compression.auto.
  destruct (compression o); [|done]. intros [[=]|Hn]. rewrite Hn. cbn [negb].
  destruct (hm_contains _ _); [done|]. by destruct (is_head _ || is_options _).
Qed.

Lemma idle_compression_blind o : blind (idle_compression o).
Proof.
  intros r b. unfold idle_compression. destruct (negb (compression o)); [done|].
  cbn [set_body rs_headers]. by destruct (hm_contains _ (rs_headers r)).
Qed.

Lemma custom_blind o req fp : blind (λ r, CustomHeaders.post_process o req r fp).
Proof.
  intros r b. unfold CustomHeaders.post_process, CustomHeaders.append_headers.
  destruct (advanced_opts o) as [a|]; [|done]. destruct (headers a) as [l|]; [|done].
  cbn [Res.map]. f_equal. revert r. induction l as [|h l IH]; intros r; [done|]. cbn [fold_left].
  rewrite <- IH. by destruct (glob_is_match _ _).
Qed.
End Blind.

#[export] Hint Resolve blind_Ok cors_blind markdown_blind charset_blind compression_static_blind
  idle_compression_blind control_blind security_blind custom_blind : gate.

(** * The static handler *)

Section StaticMirror.
Context `{HeadersLib, CodecLib}.
Context (fs : Fs.t) (store : gmap string MemFile).

(** The same request to the static handler with another method. *)
Definition static_method (m : string) (o : StaticFiles.HandleOpts) : StaticFiles.HandleOpts :=
  StaticFiles.mkHandleOpts m (StaticFiles.memory_cache o) (StaticFiles.headers o)
    (StaticFiles.base_path o) (StaticFiles.uri_path o) (StaticFiles.index_files o)
    (StaticFiles.uri_query o) (StaticFiles.dir_listing o) (StaticFiles.dir_listing_order o)
    (StaticFiles.dir_listing_format o) (StaticFiles.dir_listing_download o)
    (StaticFiles.redirect_trailing_slash o) (StaticFiles.compression_static o)
    (StaticFiles.ignore_hidden_files o) (StaticFiles.disable_symlinks o).

(** The same path, answers up to the body. *)
Definition mirrored_files (x y : result Z StaticFiles.StaticFileResponse) : Prop :=
  match x, y with
  | Ok a, Ok b =>
      mirror (StaticFiles.sf_resp a) (StaticFiles.sf_resp b) ∧
      StaticFiles.sf_file_path a = StaticFiles.sf_file_path b
  | Err e, Err e' => e = e'
  | _, _ => False
  end.

(** Answers with a file, or with nothing, attach the same body to both. *)
Lemma finish_streamed body s e len ct lm :
  head_body body = body → streamed (Respond.finish body s e len ct lm).
Proof.
  intros Hb. unfold streamed, Respond.finish.
  destruct (negb _); [destruct (enc_content_range _ _ _)|]; by destruct lm.
Qed.

Lemma response_body_streamed file p meta c cache r :
  Respond.response_body file p meta c cache = Ok r → streamed r.
Proof.
  unfold Respond.response_body. destruct (Conditional.check _ _) as [r0|range] eqn:Ec.
  { intros [= <-]. unfold streamed. by rewrite (check_no_body _ _ _ Ec). }
  destruct (Bytes.bytes_range _ _) as [[a e]|]; intros [= <-]; [|done].
  apply finish_streamed. unfold Respond.file_body. by repeat case_match.
Qed.

Lemma file_reply_streamed headers p meta pre cache r :
  StaticFiles.file_reply fs headers p meta pre cache = Ok r → streamed r.
Proof.
  unfold StaticFiles.file_reply. destruct (Fs.open _ _) as [|[]]; try done.
  apply response_body_streamed.
Qed.

Lemma precompressed_streamed o fm v r :
  StaticFiles.precompressed_reply fs o fm v = Ok r → streamed r.
Proof.
  unfold StaticFiles.precompressed_reply. destruct v as [p c]. intros Hr.
  apply bind_Ok in Hr as (r0 & Hr0%file_reply_streamed & Hr).
  by destruct (hv_from_str _); simplify_eq/=.
Qed.

Lemma cached_streamed p headers x r :
  Respond.get_or_acquire store p headers = Some x → x = Ok r → streamed r.
Proof.
  unfold Respond.get_or_acquire. destruct (Path.to_str p); [|done].
  destruct (store !! _) as [mf|]; [|done]. intros [= <-]. unfold Respond.mem_response_body.
  destruct (Conditional.check _ _) as [r0|range] eqn:Ec.
  { intros [= <-]. unfold streamed. by rewrite (check_no_body _ _ _ Ec). }
  destruct (Bytes.bytes_range _ _) as [[a e]|]; intros [= <-]; [|done]. by apply finish_streamed.
Qed.

Lemma reply_mirrored (x y : result Z Response) (p : Path.t) :
  mirrored x y →
  mirrored_files (let? resp := x in Ok (StaticFiles.mkSfr resp p))
                 (let? resp := y in Ok (StaticFiles.mkSfr resp p)).
Proof. by destruct x, y. Qed.

Lemma read_dir_entries_mirrored opt opt' :
  DirListing.is_head opt = false → DirListing.is_head opt' = true →
  opt' = DirListing.mkDirEntryOpts (DirListing.de_root_path opt) (DirListing.dir_reader opt)
           (DirListing.base_path opt) (DirListing.de_uri_query opt) true (DirListing.order_code opt)
           (DirListing.content_format opt) (DirListing.de_ignore_hidden_files opt)
           (DirListing.de_disable_symlinks opt) (DirListing.download opt) →
  mirrored (DirListing.read_dir_entries fs opt) (DirListing.read_dir_entries fs opt').
Proof.
  intros Hg Hh ->. unfold DirListing.read_dir_entries. cbn [DirListing.de_root_path].
  destruct (Res.of_option _ _) as [root|e]; [|done]. cbn [Res.bind].
  set (opt' := DirListing.mkDirEntryOpts _ _ _ _ _ _ _ _ _ _).
  assert (∀ ns, DirListing.read_entries fs opt' root ns 0 0 = DirListing.read_entries fs opt root ns 0 0)
    as -> by (intros ns; by rewrite !read_entries_acc).
  cbn [DirListing.dir_reader DirListing.content_format DirListing.base_path DirListing.de_uri_query
       DirListing.order_code DirListing.download DirListing.is_head opt'].
  destruct (DirListing.read_entries _ _ _ _ _ _) as [[dc fc] es]. rewrite Hg.
  destruct (DirListing.content_format opt).
  - done.
  - by destruct (DirListing.json_auto_index _ _).
Qed.

Lemma listing_mirrored o p :
  mirrored (StaticFiles.listing_reply fs (static_method "GET" o) p)
           (StaticFiles.listing_reply fs (static_method "HEAD" o) p).
Proof.
  unfold StaticFiles.listing_reply.
  cbn [static_method StaticFiles.dir_listing_download StaticFiles.uri_query StaticFiles.method
       StaticFiles.disable_symlinks StaticFiles.ignore_hidden_files].
  destruct (match StaticFiles.dir_listing_download o with [] => false | _ => _ end).
  - destruct (Path.file_name _); [|done]. unfold Download.archive_reply. by destruct (hv_from_str _).
  - unfold DirListing.auto_index.
    cbn [StaticFiles.dir_list_opts DirListing.filepath].
    destruct (Fs.read_dir fs _) as [names|[]]; [|done..].
    set (a := DirListing.dir_entry_opts _ _ _). set (b := DirListing.dir_entry_opts _ _ _).
    pose proof (read_dir_entries_mirrored a b eq_refl eq_refl eq_refl) as Hm.
    by destruct (DirListing.read_dir_entries fs a), (DirListing.read_dir_entries fs b).
Qed.

Lemma handle_file_mirrored o fm :
  mirrored_files (StaticFiles.handle_file fs (static_method "GET" o) fm)
                 (StaticFiles.handle_file fs (static_method "HEAD" o) fm).
Proof.
  unfold StaticFiles.handle_file.
  set (p := if StaticFiles.fm_is_dir fm then _ else _).
  change (StaticFiles.check_access fs (static_method "HEAD" o) p)
    with (StaticFiles.check_access fs (static_method "GET" o) p).
  destruct (StaticFiles.check_access fs (static_method "GET" o) p); [|done]. cbn [Res.bind].
  cbn [static_method StaticFiles.redirect_trailing_slash StaticFiles.uri_path StaticFiles.method
       StaticFiles.dir_listing StaticFiles.headers StaticFiles.memory_cache].
  destruct (_ && _ && _).
  { apply reply_mirrored, mirrored_refl. unfold StaticFiles.slash_redirect. cbn.
    destruct (hv_from_str _); by intros ? [= <-]. }
  change (is_options "GET") with false. change (is_options "HEAD") with false. cbv iota.
  destruct (_ && _ && _); [apply reply_mirrored, listing_mirrored|].
  destruct (StaticFiles.precompressed_variant fm) as [v|]; apply reply_mirrored.
  - apply mirrored_refl. intros r. apply (precompressed_streamed (static_method "GET" o)).
  - apply mirrored_refl. intros r. apply file_reply_streamed.
Qed.

Lemma static_mirrored o :
  mirrored_files (StaticFiles.handle fs store (static_method "GET" o))
                 (StaticFiles.handle fs store (static_method "HEAD" o)).
Proof.
  unfold StaticFiles.handle.
  change (StaticFiles.lookup_path (static_method "HEAD" o))
    with (StaticFiles.lookup_path (static_method "GET" o)).
  cbn [static_method StaticFiles.method StaticFiles.memory_cache StaticFiles.headers
       StaticFiles.compression_static StaticFiles.index_files].
  change (negb (is_allowed "GET")) with false. change (negb (is_allowed "HEAD")) with false.
  cbv iota. destruct (StaticFiles.lookup_path _) as [p|e]; [|done]. cbn [Res.bind].
  destruct (match StaticFiles.memory_cache o with Some _ => _ | None => _ end) as [x|] eqn:Ec.
  { apply reply_mirrored, mirrored_refl. destruct (StaticFiles.memory_cache o); [|done].
    intros r. by apply (cached_streamed _ _ _ _ Ec). }
  destruct (StaticFiles.get_composed_file_metadata _ _ _ _ _) as [fm|]; [|done].
  apply handle_file_mirrored.
Qed.
End StaticMirror.

(** * The pipeline *)

Section Pipeline.
Context `{HeadersLib, CodecLib, GlobLib, RegexLib}.
Context (client_request : ProxyHttpClient → Request → result error Response).
Context (encode_text : MetricsState → string).
Context (fs : Fs.t) (store : gmap string MemFile).

Abbreviation get := (with_method "GET").
Abbreviation head := (with_method "HEAD").

Lemma error_page_mirrored uri status p404 p50x :
  mirrored (ErrorPage.error_response fs uri "GET" status p404 p50x)
           (ErrorPage.error_response fs uri "HEAD" status p404 p50x).
Proof. done. Qed.

Lemma error_response_mirrored o req status :
  mirrored (Handler.error_response fs o (get req) status)
           (Handler.error_response fs o (head req) status).
Proof. apply error_page_mirrored. Qed.

Lemma health_mirrored o req :
  mirrored_opt (Health.pre_process o (get req)) (Health.pre_process o (head req)).
Proof.
  unfold Health.pre_process. destruct (negb (health o)); [done|].
  change (Health.is_health_endpoint (head req)) with (Health.is_health_endpoint (get req)).
  by destruct (negb (Health.is_health_endpoint _)).
Qed.

Lemma metrics_mirrored o req m :
  mirrored_opt (Metrics.pre_process encode_text o (get req) m)
               (Metrics.pre_process encode_text o (head req) m).
Proof.
  unfold Metrics.pre_process. destruct (negb (metrics_enabled o)); [done|].
  change (rq_path (head req)) with (rq_path (get req)).
  by destruct (negb (String.eqb _ _)).
Qed.

Lemma gate_mirrored o req m :
  mirrored_opt (Handler.gate encode_text fs o (get req) m) (Handler.gate encode_text fs o (head req) m).
Proof.
  unfold Handler.gate. change (negb (is_allowed (rq_method (get req)))) with false.
  change (negb (is_allowed (rq_method (head req)))) with false. cbv iota.
  pose proof (health_mirrored o req) as Hm1.
  destruct (Health.pre_process o (get req)), (Health.pre_process o (head req)); try done. clear Hm1.
  pose proof (metrics_mirrored o req m) as Hm1.
  destruct (Metrics.pre_process _ o (get req) m), (Metrics.pre_process _ o (head req) m); try done.
  clear Hm1. unfold CorsCheck.pre_process, BasicAuth.pre_process, Maintenance.pre_process.
  change (CorsCheck.check_request ?c (rq_method (head req)) (rq_headers (head req)))
    with (CorsCheck.check_request c (rq_method (get req)) (rq_headers (get req))).
  cbn [with_method rq_method rq_headers rq_uri].
  change (is_options "GET") with false. change (is_options "HEAD") with false. cbv iota.
  assert (mirrored_opt
    (if maintenance_mode o then Some (Maintenance.get_response fs "GET" (maintenance_mode_status o)
       (maintenance_mode_file o)) else None)
    (if maintenance_mode o then Some (Maintenance.get_response fs "HEAD" (maintenance_mode_status o)
       (maintenance_mode_file o)) else None)) as Hmaint
    by (by destruct (maintenance_mode o)).
  destruct (cors o) as [c|]; [destruct (CorsCheck.check_request c _ _)|];
    [|apply error_page_mirrored|];
    (destruct (Str.is_empty (basic_auth o)); [done|];
     destruct (Str.split_once ":" (basic_auth o)) as [[u pw]|]; [|apply error_page_mirrored];
     by destruct (BasicAuth.check_request _ _ _)).
Qed.

Lemma redirects_mirrored o req :
  mirrored_opt (Redirects.pre_process fs o (get req)) (Redirects.pre_process fs o (head req)).
Proof.
  unfold Redirects.pre_process, Redirects.handle_error.
  change (Redirects.request_host (head req)) with (Redirects.request_host (get req)).
  change (rq_path (head req)) with (rq_path (get req)).
  destruct (advanced_opts o ≫= redirects) as [l|]; [|done].
  destruct (Redirects.get_redirection _ _ _) as [r|]; [|done].
  destruct (Redirects.replace_placeholders _ _ _) as [dest|]; [|apply error_page_mirrored].
  destruct (hv_from_str dest); [done | apply error_page_mirrored].
Qed.

(** Rewrites leave the two requests the same but for the method. *)
Lemma rewrites_mirrored o req :
  ∃ req', mirrored_opt (Rewrites.pre_process fs o (get req)).1 (Rewrites.pre_process fs o (head req)).1 ∧
    (Rewrites.pre_process fs o (get req)).2 = get req' ∧
    (Rewrites.pre_process fs o (head req)).2 = head req'.
Proof.
  unfold Rewrites.pre_process, Redirects.handle_error.
  change (rq_path (head req)) with (rq_path (get req)).
  destruct (advanced_opts o ≫= rewrites) as [l|]; [|by exists req].
  destruct (Rewrites.rewrite_uri_path _ _) as [r|]; [|by exists req].
  destruct (Redirects.replace_placeholders _ _ _) as [dest|];
    [|exists req; split_and!; [apply error_page_mirrored|done..]].
  destruct (rw_redirect r) as [k|].
  { exists req. destruct (hv_from_str dest); split_and!; try done; apply error_page_mirrored. }
  cbn [with_method rq_uri].
  destruct (Rewrites.merge_uris _ dest) as [uri|];
    [|exists req; split_and!; [apply error_page_mirrored|done..]].
  exists (Rewrites.adjust_host (mkRequest "GET" uri (rq_headers req) (rq_body req))).
  split; [done|]. unfold Rewrites.adjust_host. cbn [with_method rq_uri rq_method rq_headers rq_body snd].
  destruct (uri_host uri); [|done]. by destruct (hv_from_str _).
Qed.

Lemma no_client_no_proxy req remote w :
  proxy_client (w_opts w) = None →
  Handler.try_reverse_proxy client_request fs req remote w = (None, req, w).
Proof.
  intros Hc. unfold Handler.try_reverse_proxy, Proxy.pre_process.
  destruct (Proxy.find_rule _ _) as [[i r]|]; [|done]. by rewrite Hc.
Qed.

(** The request does not ask for a coding that dynamic compression supports, or compression is
    off. *)
Definition uncompressed o req : Prop :=
  compression o = false ∨ Compression.get_preferred_encoding (rq_headers req) = None.

Lemma post_process_mirrored o req md r r' fp :
  uncompressed o req → page_fallback o = "" → mirror r r' →
  mirrored (Handler.post_process fs o (get req) md r fp) (Handler.post_process fs o (head req) md r' fp).
Proof.
  intros Hcomp Hpage Hr. unfold Handler.post_process, FallbackPage.post_process.
  rewrite Hpage. cbn [Str.is_empty negb]. rewrite !andb_false_r. cbn [Res.bind].
  set (f := λ r,
    let? r := CorsCheck.post_process o (get req) r in
    let? r := Markdown.post_process md o r in
    let? r := TextCharset.post_process o r in
    let? r := CompressionStatic.post_process o (get req) r in
    let? r := idle_compression o r in
    let? r := ControlHeaders.post_process o (get req) r in
    let? r := SecurityHeaders.post_process o (get req) r in
    let? r := CustomHeaders.post_process o (get req) r fp in Ok r).
  assert (∀ req', rq_headers req' = rq_headers req → rq_uri req' = rq_uri req → ∀ r,
    (let? r := CorsCheck.post_process o req' r in
     let? r := Markdown.post_process md o r in
     let? r := TextCharset.post_process o r in
     let? r := CompressionStatic.post_process o req' r in
     let? r := Compression.post_process fs o req' r in
     let? r := ControlHeaders.post_process o req' r in
     let? r := SecurityHeaders.post_process o req' r in
     let? r := CustomHeaders.post_process o req' r fp in Ok r) =
    (let? r := CorsCheck.post_process o req' r in
     let? r := Markdown.post_process md o r in
     let? r := TextCharset.post_process o r in
     let? r := CompressionStatic.post_process o req' r in
     let? r := idle_compression o r in
     let? r := ControlHeaders.post_process o req' r in
     let? r := SecurityHeaders.post_process o req' r in
     let? r := CustomHeaders.post_process o req' r fp in Ok r)) as Hidle.
  { intros req' Hh _ x. do 4 (apply bind_ext; intros).
    rewrite compression_idle; [done|]. by rewrite Hh. }
  rewrite !Hidle by done. apply (blind_mirror f); [|done].
  repeat (apply blind_bind; [auto with gate|]). auto with gate.
Qed.

Lemma serve_static_mirrored o req :
  uncompressed o req → page_fallback o = "" →
  mirrored (Handler.serve_static fs store o (get req)) (Handler.serve_static fs store o (head req)).
Proof.
  intros Hcomp Hpage. unfold Handler.serve_static.
  change (Handler.base_path_of o (head req)) with (Handler.base_path_of o (get req)).
  change (Markdown.pre_process fs (head req)) with (Markdown.pre_process fs (get req)).
  change (rq_path (head req)) with (rq_path (get req)).
  set (base := Handler.base_path_of o (get req)).
  set (md := if accept_markdown o then _ else _).
  set (path := default (rq_path (get req)) md).
  pose proof (static_mirrored fs store (Handler.handle_opts o req base path)) as Hs.
  change (static_method "GET" (Handler.handle_opts o req base path))
    with (Handler.handle_opts o (get req) base path) in Hs.
  change (static_method "HEAD" (Handler.handle_opts o req base path))
    with (Handler.handle_opts o (head req) base path) in Hs.
  destruct (StaticFiles.handle _ _ (Handler.handle_opts o (get req) base path)) as [a|e],
    (StaticFiles.handle _ _ (Handler.handle_opts o (head req) base path)) as [b|e']; try done.
  - destruct Hs as [Hr <-]. cbn [Res.bind]. by apply post_process_mirrored.
  - simpl in Hs. subst e'. by apply post_process_mirrored.
Qed.

(** The pipeline when no request is proxied. *)
Lemma serve_no_proxy req remote w m :
  proxy_client (w_opts w) = None →
  Handler.serve client_request encode_text fs store req remote w m =
    or_return (match Handler.gate encode_text fs (w_opts w) req m with
               | Some result => Some (result, req, w) | None => None end) in
    or_return (match Redirects.pre_process fs (w_opts w) req with
               | Some result => Some (result, req, w) | None => None end) in
    let '(rewritten, req) := Rewrites.pre_process fs (w_opts w) req in
    or_return (match rewritten with Some result => Some (result, req, w) | None => None end) in
    (Handler.serve_static fs store (w_opts w) req, req, w).
Proof.
  intros Hc. unfold Handler.serve.
  destruct (Handler.gate _ _ _ _ _); [done|]. rewrite no_client_no_proxy by done.
  destruct (proxy_first (w_opts w)) eqn:Ef; cbv iota beta;
    (destruct (Redirects.pre_process _ _ _); [done|]);
    destruct (Rewrites.pre_process _ _ _) as [[x|] q]; try done; rewrite Ef; cbn [negb];
    [done | by rewrite no_client_no_proxy].
Qed.
End Pipeline.

(** Rewrites do not change what codings a request asks for. *)
Lemma rewrites_coding `{HttpLaws} `{!MimeLib, !HeadersLib, !CodecLib, !GlobLib, !RegexLib}
    (fs : Fs.t) (o : RequestHandlerOpts) (req : Request) :
  Compression.get_preferred_encoding (rq_headers (Rewrites.pre_process fs o req).2) =
  Compression.get_preferred_encoding (rq_headers req).
Proof.
  assert (∀ req', hm_get_all "accept-encoding" (rq_headers req') =
                  hm_get_all "accept-encoding" (rq_headers req) →
            Compression.get_preferred_encoding (rq_headers req') =
            Compression.get_preferred_encoding (rq_headers req)) as Heq.
  { intros req' Hh. unfold Compression.get_preferred_encoding, AcceptEncoding.get, Quality.typed_get.
    by rewrite Hh. }
  unfold Rewrites.pre_process.
  destruct (advanced_opts o ≫= rewrites) as [l|]; [|done].
  destruct (Rewrites.rewrite_uri_path _ _) as [r|]; [|done].
  destruct (Redirects.replace_placeholders _ _ _) as [dest|]; [|done].
  destruct (rw_redirect r); [by destruct (hv_from_str dest)|].
  destruct (Rewrites.merge_uris _ dest) as [uri|]; [|done]. apply Heq.
  destruct (adjust_host_spec (mkRequest (rq_method req) uri (rq_headers req) (rq_body req)))
    as (_ & _ & _ & Hh). simpl. by rewrite Hh.
Qed.



(** The two exceptions.  The fallback page answers [GET] only, so for a missing path the two
    methods differ in status; and dynamic compression skips [HEAD], so its [Content-Length] is
    that of the plain file while [GET] announces an encoded body. *)
Example head_exceptions :
  let status o method path := Res.map rs_status (Handler.serve ProxyRef.answer (λ _, "") FsRef.fs ∅
    (HandlerRef.req method path) None (HandlerRef.world o) Metrics.empty).1.1 in
  let o := (RequestHandlerOpts_default {{ root_dir := Path.parse "/srv/www"; page_fallback := "app" }}) in
  status o "GET" "/none" = Ok 200%Z ∧ status o "HEAD" "/none" = Ok 404%Z.
Proof. split; reflexivity. Qed.

Example head_not_compressed :
  let req method := mkRequest method (RefUri.mk None None (Some "/a.txt"))
                      (ref_headers [("accept-encoding", "gzip")]) BodyEmpty in
  let o := (RequestHandlerOpts_default {{ root_dir := Path.parse "/srv/www" }}) in
  let header n method := Res.map (rs_get n) (Handler.serve ProxyRef.answer (λ _, "") FsRef.fs ∅
    (req method) None (HandlerRef.world o) Metrics.empty).1.1 in
  header "content-encoding" "GET" = Ok (Some "gzip") ∧ header "content-encoding" "HEAD" = Ok None ∧
  header "content-length" "GET" = Ok None ∧ header "content-length" "HEAD" = Ok (Some "5").
Proof. by split_and!. Qed.
