(* ===== verification/Isolation.v ===== *)
(** Isolation: on what a client's answer can depend.

    Confinement as non-interference.  Two file systems that agree on the tree below the roots (and
    on the configured pages) are indistinguishable from outside, when those trees hold no links,
    no page stands beside a root and Markdown is not negotiated; and without credentials even
    those trees, the cache and the upstreams make no difference. *)
From Stdlib Require Import ZArith Lia Ascii String.
From stdpp Require Import base list strings gmap.
From coqutil Require Import Datatypes.RecordSetters.
Import DoubleBraceUpdate.
From S2P Require Import Prelude Http Libs RefLibs Path Fs Quality Opts Pages Compression Ranges DirListing.
From S2P Require Import StaticFiles Cors Routing Policies Metrics Balancer Proxy Handler Head.
Local Open Scope string_scope.
Local Open Scope list_scope.
Local Open Scope nat_scope.

(** * Two file systems that agree below a root *)

(** [base] resolves to the directory [b] in both, the trees below [b] are the same and hold no
    symbolic link; and there is no page [<base>.html] next to the root. *)
Record agree (fs1 fs2 : Fs.t) (base : Path.t) (b : list string) : Prop := {
  ag_walk1 : ∃ l, Fs.walk fs1 true Fs.max_links (Fs.cwd fs1) base = Ok (b, l);
  ag_walk2 : ∃ l, Fs.walk fs2 true Fs.max_links (Fs.cwd fs2) base = Ok (b, l);
  ag_base : base ≠ [];
  ag_dir : is_dir_at fs1 b = true;
  ag_nodes names : Fs.node_at fs1 (b ++ names) = Fs.node_at fs2 (b ++ names);
  ag_links names t m : Fs.node_at fs1 (b ++ names) ≠ Some (NLink t m);
  ag_blksize : Fs.blksize fs1 = Fs.blksize fs2;
  ag_page1 : Meta.try_metadata_with_html_suffix fs1 base = (base, None);
  ag_page2 : Meta.try_metadata_with_html_suffix fs2 base = (base, None);
}.

(** The same content behind a path. *)
Definition same_file (fs1 fs2 : Fs.t) (p : Path.t) : Prop := Fs.get fs1 true p = Fs.get fs2 true p.

Section Agree.
Context (fs1 fs2 : Fs.t) (base : Path.t) (b : list string) (Hag : agree fs1 fs2 base b).

Abbreviation below names := (base ++ normals names).

Lemma ag_dir2 : is_dir_at fs2 b = true.
Proof.
  pose proof (ag_dir _ _ _ _ Hag) as Hd. pose proof (ag_nodes _ _ _ _ Hag []) as Hn.
  rewrite app_nil_r in Hn. unfold is_dir_at in *. by rewrite <- Hn.
Qed.

(** Walks below the root agree, whatever links were followed on the way to it. *)
Lemma walk_agree follow l1 l2 ns names :
  Res.map fst (Fs.walk fs1 follow l1 (b ++ ns) (normals names)) =
    Res.map fst (Fs.walk fs2 follow l2 (b ++ ns) (normals names)) ∧
  ∀ q l, Fs.walk fs1 follow l1 (b ++ ns) (normals names) = Ok (q, l) → ∃ k, q = b ++ k.
Proof.
  revert ns. induction names as [|n names IH]; intros ns;
    rewrite (walk_unfold fs1), (walk_unfold fs2); cbn [normals fmap list_fmap].
  { split; [done|]. intros q l [= <- _]. eauto. }
  rewrite <- app_assoc, <- (ag_nodes _ _ _ _ Hag).
  destruct (Fs.node_at fs1 (b ++ ns ++ [n])) as [[c m r|es m r|t m]|] eqn:En; [| | |done].
  - destruct names; [|done]. split; [done|]. intros q l [= <- _]. eauto.
  - apply IH.
  - by destruct (ag_links _ _ _ _ Hag _ _ _ En).
Qed.

Lemma resolve_agree follow names :
  (names = [] → follow = true) →
  Fs.resolve fs1 follow (below names) = Fs.resolve fs2 follow (below names) ∧
  ∀ q, Fs.resolve fs1 follow (below names) = Ok q → ∃ k, q = b ++ k.
Proof.
  intros Hf. destruct (ag_walk1 _ _ _ _ Hag) as [l1 H1], (ag_walk2 _ _ _ _ Hag) as [l2 H2].
  pose proof (ag_base _ _ _ _ Hag) as Hne. unfold Fs.resolve.
  destruct (below names) as [|c p] eqn:Ep; [by destruct base|]. rewrite <- Ep. clear Ep.
  destruct names as [|n names].
  - rewrite (Hf eq_refl). change (normals []) with (@nil component). rewrite app_nil_r, H1, H2.
    split; [done|]. intros q [= <-]. exists []. by rewrite app_nil_r.
  - rewrite (walk_app_dir fs1 follow _ _ base b _ l1), (walk_app_dir fs2 follow _ _ base b _ l2)
      by (try done; first [apply (ag_dir _ _ _ _ Hag) | apply ag_dir2]).
    pose proof (walk_agree follow l1 l2 [] (n :: names)) as [Hw Hk]. rewrite app_nil_r in Hw, Hk.
    split; [done|]. intros q Hq. apply map_Ok in Hq as ([q' l] & Hq & ->). by apply Hk in Hq.
Qed.

Lemma get_agree follow names :
  (names = [] → follow = true) → Fs.get fs1 follow (below names) = Fs.get fs2 follow (below names).
Proof.
  intros Hf. destruct (resolve_agree follow names Hf) as [Hr Hk]. unfold Fs.get. rewrite <- Hr.
  destruct (Fs.resolve fs1 follow (below names)) as [q|]; [|done]. cbn [Res.bind].
  destruct (Hk q eq_refl) as [k ->]. by rewrite (ag_nodes _ _ _ _ Hag).
Qed.

Lemma node_metadata_agree n : Fs.node_metadata fs1 n = Fs.node_metadata fs2 n.
Proof. unfold Fs.node_metadata. by rewrite (ag_blksize _ _ _ _ Hag). Qed.

Lemma metadata_agree names : Fs.metadata fs1 (below names) = Fs.metadata fs2 (below names).
Proof.
  unfold Fs.metadata. rewrite get_agree by done.
  destruct (Fs.get fs2 true _); [|done]. simpl. by rewrite node_metadata_agree.
Qed.

Lemma lstat_agree names :
  names ≠ [] → Fs.symlink_metadata fs1 (below names) = Fs.symlink_metadata fs2 (below names).
Proof.
  intros Hne. unfold Fs.symlink_metadata. rewrite get_agree by done.
  destruct (Fs.get fs2 false _); [|done]. simpl. by rewrite node_metadata_agree.
Qed.

Lemma canonicalize_agree names :
  Fs.canonicalize fs1 (below names) = Fs.canonicalize fs2 (below names).
Proof. unfold Fs.canonicalize. by rewrite (proj1 (resolve_agree true names ltac:(done))). Qed.

Lemma open_agree names : Fs.open fs1 (below names) = Fs.open fs2 (below names).
Proof. unfold Fs.open. by rewrite get_agree. Qed.

Lemma read_dir_agree names : Fs.read_dir fs1 (below names) = Fs.read_dir fs2 (below names).
Proof. unfold Fs.read_dir. by rewrite get_agree. Qed.

Lemma canonicalize_base_agree : Fs.canonicalize fs1 base = Fs.canonicalize fs2 base.
Proof. rewrite <- (app_nil_r base). exact (canonicalize_agree []). Qed.

Lemma base_is_dir : ∃ m, Fs.metadata fs1 base = Ok m ∧ md_is_dir m = true.
Proof.
  destruct (ag_walk1 _ _ _ _ Hag) as [l Hw]. pose proof (ag_dir _ _ _ _ Hag) as Hd.
  pose proof (ag_base _ _ _ _ Hag) as Hne. unfold Fs.metadata, Fs.get, Fs.resolve.
  destruct base as [|c p]; [done|]. rewrite Hw. cbn [Res.map Res.bind fst].
  unfold is_dir_at in Hd. destruct (Fs.node_at fs1 b) as [[]|]; try done. by eexists.
Qed.

(** ** The lookup *)

Lemma try_metadata_agree names : Meta.try_metadata fs1 (below names) = Meta.try_metadata fs2 (below names).
Proof. unfold Meta.try_metadata. by rewrite metadata_agree. Qed.

(** Where the [.html] fallback leads: nowhere, or to a sibling below the root. *)
Lemma html_agree names :
  Forall Path.proper_name names →
  Meta.try_metadata_with_html_suffix fs1 (below names) =
    Meta.try_metadata_with_html_suffix fs2 (below names) ∧
  ((Meta.try_metadata_with_html_suffix fs1 (below names)).2 = None ∧
   (Meta.try_metadata_with_html_suffix fs1 (below names)).1 = below names ∨
   (Meta.try_metadata_with_html_suffix fs1 (below names)).2 ≠ None ∧
   ∃ ns, (Meta.try_metadata_with_html_suffix fs1 (below names)).1 = below ns ∧ ns ≠ [] ∧
         Forall Path.proper_name ns).
Proof.
  intros Hall. destruct names as [|n names _] using rev_ind.
  - change (normals []) with (@nil component). rewrite app_nil_r.
    rewrite (ag_page1 _ _ _ _ Hag), (ag_page2 _ _ _ _ Hag). auto.
  - apply Forall_app in Hall as [Hns Hn]. pose proof (Forall_inv Hn) as Hp.
    pose proof (html_proper n Hp) as Hh. rewrite normals_snoc, app_assoc.
    unfold Meta.try_metadata_with_html_suffix. rewrite file_name_snoc, set_file_name_snoc by done.
    rewrite <- !app_assoc, <- !normals_snoc.
    rewrite (try_metadata_agree (names ++ [n +:+ ".html"])). split; [done|].
    destruct (Meta.try_metadata fs2 (below (names ++ [n +:+ ".html"]))) as [[m d]|].
    + right. split; [done|]. exists (names ++ [n +:+ ".html"]). split; [done|].
      split; [by destruct names|].
      apply Forall_app. split; [done|]. by constructor.
    + left. split; [done|]. cbn [fst]. rewrite normals_snoc, app_assoc, set_file_name_snoc by done.
      by rewrite normals_snoc, app_assoc.
Qed.

Lemma variant_proper e n x :
  Path.proper_name n → CompressionStatic.comp_ext e = Some x → Path.proper_name (n +:+ "." +:+ x).
Proof.
  intros Hn Hx. apply name_suffix_proper; [done| |].
  - by destruct e; simplify_eq/=.
  - rewrite length_string_app. destruct n; [by destruct Hn|]. destruct e; simplify_eq/=; lia.
Qed.

Lemma variant_agree `{HttpLib} cs names h :
  names ≠ [] → Forall Path.proper_name names →
  StaticFiles.variant_of fs1 cs (below names) h = StaticFiles.variant_of fs2 cs (below names) h.
Proof.
  intros Hne Hall. destruct names as [|n names _] using rev_ind; [done|].
  apply Forall_app in Hall as [Hns Hn]. pose proof (Forall_inv Hn) as Hp.
  unfold StaticFiles.variant_of, CompressionStatic.precompressed_variant. destruct cs; [|done].
  destruct (AcceptEncoding.get h) as [a|]; [|done].
  induction (AcceptEncoding.sorted_encodings a) as [|e l IH]; [done|].
  cbn [CompressionStatic.first_variant]. rewrite IH.
  enough (CompressionStatic.try_variant fs1 (below (names ++ [n])) e =
          CompressionStatic.try_variant fs2 (below (names ++ [n])) e) as -> by done.
  unfold CompressionStatic.try_variant. destruct (CompressionStatic.comp_ext e) as [x|] eqn:Ex; [|done].
  rewrite normals_snoc, app_assoc, file_name_snoc. destruct (Utf8.valid n); [|done]. cbn [negb].
  rewrite set_file_name_snoc by by apply (variant_proper e).
  rewrite <- app_assoc, <- normals_snoc. by rewrite try_metadata_agree.
Qed.

Lemma variant_below `{HttpLib} cs names h v :
  names ≠ [] → Forall Path.proper_name names →
  StaticFiles.variant_of fs1 cs (below names) h = Some v →
  ∃ ns, CompressionStatic.cv_file_path v = below ns.
Proof.
  intros Hne Hall. destruct names as [|n names _] using rev_ind; [done|].
  apply Forall_app in Hall as [Hns Hn]. pose proof (Forall_inv Hn) as Hp.
  unfold StaticFiles.variant_of, CompressionStatic.precompressed_variant. destruct cs; [|done].
  destruct (AcceptEncoding.get h) as [a|]; [|done].
  induction (AcceptEncoding.sorted_encodings a) as [|e l IH]; [done|].
  cbn [CompressionStatic.first_variant].
  destruct (CompressionStatic.try_variant fs1 (below (names ++ [n])) e) as [v'|] eqn:Ev; [|exact IH].
  intros [= ->]. unfold CompressionStatic.try_variant in Ev.
  destruct (CompressionStatic.comp_ext e) as [x|] eqn:Ex; [|done].
  rewrite normals_snoc, app_assoc, file_name_snoc in Ev. destruct (Utf8.valid n); [|done].
  cbn [negb] in Ev. rewrite set_file_name_snoc in Ev by by apply (variant_proper e).
  destruct (Meta.try_metadata _ _) as [[m [|]]|]; [done| |done]. injection Ev as <-.
  exists (names ++ [n +:+ "." +:+ x]). by rewrite normals_snoc, app_assoc.
Qed.

(** The metadata of a file at a path below the root, its variant too. *)
Definition fm_below (fm : StaticFiles.FileMetadata) : Prop :=
  (∃ ns, StaticFiles.fm_file_path fm = below ns ∧ Forall Path.proper_name ns ∧ ns ≠ []) ∧
  ∀ p e, StaticFiles.precompressed_variant fm = Some (p, e) → ∃ ns, p = below ns.

(** Metadata put together with the variant looked for at its path. *)
Lemma fm_below_variant `{HttpLib} cs names h m d :
  names ≠ [] → Forall Path.proper_name names →
  fm_below (StaticFiles.mkFileMetadata (below names) m d
    ((λ p, (CompressionStatic.cv_file_path p, CompressionStatic.cv_encoding p))
       <$> StaticFiles.variant_of fs1 cs (below names) h)).
Proof.
  intros Hne Hall. split; [by exists names|]. simpl. intros p e Hv.
  apply fmap_Some in Hv as (v & Hv & [= -> ->]). by eapply variant_below.
Qed.

Lemma fm_below_found `{HttpLib} cs names h v :
  names ≠ [] → Forall Path.proper_name names →
  StaticFiles.variant_of fs1 cs (below names) h = Some v →
  fm_below (StaticFiles.variant_metadata (below names) v).
Proof.
  intros Hne Hall Hv. split; [by exists names|]. simpl. intros p e [= <- <-]. by eapply variant_below.
Qed.

Lemma below_push names i :
  Path.proper_name i → Path.push (below names) (Path.parse i) = below (names ++ [i]).
Proof. intros Hi. by rewrite parse_proper, push_Normal, normals_snoc, app_assoc. Qed.

Lemma below_pop names i : Path.pop (below (names ++ [i])) = below names.
Proof. by rewrite normals_snoc, app_assoc, pop_snoc. Qed.

(** What the index loop may leave behind. *)
Definition loop_below (r : StaticFiles.FileMetadata + (Path.t * Metadata * bool)) : Prop :=
  match r with
  | inl fm => fm_below fm
  | inr (p, _, found) =>
      ∃ ns, p = below ns ∧ Forall Path.proper_name ns ∧ (found = true → ns ≠ [])
  end.

Lemma index_loop_agree `{HeadersLib, CodecLib} names h cs md l :
  Forall Path.proper_name names → Forall Path.proper_name l →
  StaticFiles.index_loop fs1 (below names) h cs md l =
    StaticFiles.index_loop fs2 (below names) h cs md l ∧
  loop_below (StaticFiles.index_loop fs1 (below names) h cs md l).
Proof.
  intros Hn. induction l as [|i l IH]; intros Hl.
  { split; [done|]. by exists names. }
  apply Forall_cons in Hl as [Hi Hl]. specialize (IH Hl).
  assert (Forall Path.proper_name (names ++ [i])) as Hni
    by (apply Forall_app; split; [done|by constructor]).
  assert (names ++ [i] ≠ []) as Hne by by destruct names.
  cbn [StaticFiles.index_loop]. rewrite below_push by done.
  rewrite <- (variant_agree cs (names ++ [i]) h) by done.
  destruct (StaticFiles.variant_of fs1 cs (below (names ++ [i])) h) as [v|] eqn:Ev.
  { split; [done|]. by eapply fm_below_found. }
  rewrite (try_metadata_agree (names ++ [i])).
  destruct (Meta.try_metadata fs2 (below (names ++ [i]))) as [[m d]|].
  { split; [done|]. exists (names ++ [i]). split_and!; done. }
  rewrite below_pop. destruct (html_agree names Hn) as [<- Hcase].
  destruct (Meta.try_metadata_with_html_suffix fs1 (below names)) as [q [m|]]; cbn [fst snd] in Hcase.
  - destruct Hcase as [[? _]|(_ & ns & -> & Hns & Hp)]; [done|]. split; [done|]. by exists ns.
  - destruct Hcase as [[_ ->]|[? _]]; [apply IH|done].
Qed.

(** What is missing or no directory is not the root. *)
Lemma not_the_root names :
  match Meta.try_metadata fs2 (below names) with Ok (_, is_dir) => is_dir = false | Err _ => True end →
  names ≠ [].
Proof.
  intros Hm ->. change (normals []) with (@nil component) in Hm. rewrite app_nil_r in Hm.
  destruct base_is_dir as (m & Hb & Hd). pose proof (metadata_agree []) as Hmm.
  change (normals []) with (@nil component) in Hmm. rewrite app_nil_r in Hmm.
  unfold Meta.try_metadata in Hm. rewrite <- Hmm, Hb in Hm. congruence.
Qed.

Lemma composed_agree `{HeadersLib, CodecLib} names h cs indexes :
  Forall Path.proper_name names → Forall Path.proper_name indexes →
  StaticFiles.get_composed_file_metadata fs1 (below names) h cs indexes =
    StaticFiles.get_composed_file_metadata fs2 (below names) h cs indexes ∧
  ∀ fm, StaticFiles.get_composed_file_metadata fs1 (below names) h cs indexes = Ok fm → fm_below fm.
Proof.
  intros Hn Hidx. unfold StaticFiles.get_composed_file_metadata.
  rewrite (try_metadata_agree names).
  destruct (Meta.try_metadata fs2 (below names)) as [[md d]|err] eqn:Em.
  - destruct d.
    + set (idx := match indexes with [] => _ | _ => _ end).
      assert (Forall Path.proper_name idx) as Hall.
      { unfold idx. destruct indexes; [|done]. constructor; [by split_and!|done]. }
      destruct (index_loop_agree names h cs md idx Hn Hall) as [<- Hloop].
      destruct (StaticFiles.index_loop fs1 (below names) h cs md idx) as [fm|[[p md'] found]].
      { split; [done|]. by intros fm' [= <-]. }
      destruct Hloop as (ns & -> & Hp & Hf).
      assert (∃ ns', (if negb found
                      then match last idx with
                           | Some index => Path.push (below ns) (Path.parse index)
                           | None => below ns end
                      else below ns) = below ns' ∧ Forall Path.proper_name ns' ∧ ns' ≠ [])
        as (ns' & -> & Hp' & Hne').
      { destruct found; simpl; [exists ns; auto|].
        destruct (last idx) as [i|] eqn:El.
        - apply last_Some in El as [l' El]. rewrite El in Hall. apply Forall_app in Hall as [_ Hall].
          pose proof (Forall_inv Hall) as Hi. exists (ns ++ [i]). rewrite below_push by done.
          split; [done|]. split; [|by destruct ns]. apply Forall_app. split; [done|by constructor].
        - apply last_None in El. exfalso. unfold idx in El. by destruct indexes. }
      rewrite <- (variant_agree cs ns' h) by done. split; [done|]. intros fm [= <-].
      by apply fm_below_variant.
    + assert (names ≠ []) as Hne by (apply not_the_root; by rewrite Em).
      rewrite <- (variant_agree cs names h) by done. split; [done|]. intros fm [= <-].
      by apply fm_below_variant.
  - assert (names ≠ []) as Hne by (apply not_the_root; by rewrite Em).
    rewrite <- (variant_agree cs names h) by done.
    destruct (StaticFiles.variant_of fs1 cs (below names) h) as [v|] eqn:Ev.
    { split; [done|]. intros fm [= <-]. by eapply fm_below_found. }
    destruct (html_agree names Hn) as [<- Hcase].
    destruct (Meta.try_metadata_with_html_suffix fs1 (below names)) as [q [m|]]; cbn [fst snd] in Hcase.
    + destruct Hcase as [[? _]|(_ & ns & -> & Hns & Hp)]; [done|]. split; [done|].
      intros fm [= <-]. split; [by exists ns|done].
    + destruct Hcase as [[_ ->]|[? _]]; [|done]. by rewrite <- (variant_agree cs names h), Ev by done.
Qed.

(** ** The checks and the answers *)

Lemma contains_symlink_agree prefix names :
  PathExt.contains_symlink_from fs1 (below prefix) (normals names) =
    PathExt.contains_symlink_from fs2 (below prefix) (normals names).
Proof.
  revert prefix. induction names as [|n names IH]; intros prefix; [done|].
  cbn [normals fmap list_fmap PathExt.contains_symlink_from]. rewrite push_Normal.
  rewrite <- app_assoc, <- normals_snoc, lstat_agree by by destruct prefix.
  destruct (Fs.symlink_metadata fs2 _) as [m|]; [|done]. destruct (md_is_symlink m); [done|]. apply IH.
Qed.

Lemma check_access_agree `{HeadersLib} opts names :
  StaticFiles.base_path opts = base →
  StaticFiles.check_access fs1 opts (below names) = StaticFiles.check_access fs2 opts (below names).
Proof.
  intros Hb. unfold StaticFiles.check_access. rewrite Hb, strip_prefix_app. cbn [Res.of_option Res.bind].
  rewrite canonicalize_agree, canonicalize_base_agree.
  pose proof (contains_symlink_agree [] names) as Hc. change (normals []) with (@nil component) in Hc.
  rewrite app_nil_r in Hc. unfold PathExt.contains_symlink. by rewrite Hc.
Qed.

Lemma exists_agree names : Fs.exists_ fs1 (below names) = Fs.exists_ fs2 (below names).
Proof. unfold Fs.exists_. by rewrite metadata_agree. Qed.

(** Below the root nothing is a link, so the rows of a listing agree. *)
Lemma read_entries_agree `{CodecLib} opt root names l d f :
  (DirListing.dir_reader opt).1 = below names →
  DirListing.read_entries fs1 opt root l d f = DirListing.read_entries fs2 opt root l d f.
Proof.
  intros Hdir. rewrite !read_entries_acc.
  enough (omap (DirListing.read_entry fs1 opt root) l = omap (DirListing.read_entry fs2 opt root) l)
    as -> by done.
  apply list_omap_ext. apply Forall2_same_length_lookup_2; [done|].
  intros i n n' Hi Hi'. simplify_eq. unfold DirListing.read_entry. rewrite Hdir, push_Normal.
  rewrite <- app_assoc, <- normals_snoc, lstat_agree by by destruct names.
  destruct (Fs.symlink_metadata fs2 (below (names ++ [n]))) as [m|] eqn:Em; [|done].
  enough (md_is_symlink m = false) as Hl.
  { destruct (_ && _); [done|]. unfold DirListing.entry_type. by rewrite Hl, andb_false_r. }
  destruct (resolve_agree false (names ++ [n])) as [Hr Hk]; [by destruct names|].
  unfold Fs.symlink_metadata, Fs.get in Em. rewrite <- Hr in Em.
  destruct (Fs.resolve fs1 false _) as [q|]; [|done]. cbn [Res.bind] in Em.
  destruct (Hk q eq_refl) as [k ->]. rewrite <- (ag_nodes _ _ _ _ Hag) in Em.
  pose proof (ag_links _ _ _ _ Hag k) as Hnl.
  destruct (Fs.node_at fs1 (b ++ k)) as [[]|]; simpl in Em; simplify_eq; try done.
  by destruct (Hnl target modified).
Qed.

Lemma listing_agree `{HeadersLib, CodecLib} opts names i :
  StaticFiles.base_path opts = base → Path.proper_name i →
  StaticFiles.listing_reply fs1 opts (below (names ++ [i])) =
    StaticFiles.listing_reply fs2 opts (below (names ++ [i])).
Proof.
  intros Hb Hi. unfold StaticFiles.listing_reply.
  destruct (match StaticFiles.dir_listing_download opts with [] => false | _ => _ end); [done|].
  unfold DirListing.auto_index. cbn [StaticFiles.dir_list_opts DirListing.filepath].
  assert (default (below (names ++ [i])) (Path.parent (below (names ++ [i]))) = below names) as ->
    by exact (below_pop names i).
  rewrite read_dir_agree. destruct (Fs.read_dir fs2 (below names)) as [l|]; [|done].
  unfold DirListing.read_dir_entries.
  cbn [StaticFiles.dir_list_opts DirListing.dir_entry_opts DirListing.de_root_path DirListing.root_path].
  rewrite Hb, canonicalize_base_agree. destruct (Fs.canonicalize fs2 base) as [rp|]; [|done].
  cbn [Res.bind Res.ok Res.of_option]. by rewrite (read_entries_agree _ rp names).
Qed.

Lemma file_reply_agree `{HeadersLib, CodecLib} h p m v mc names :
  default p v = below names →
  StaticFiles.file_reply fs1 h p m v mc = StaticFiles.file_reply fs2 h p m v mc.
Proof. intros Hp. unfold StaticFiles.file_reply. by rewrite Hp, open_agree. Qed.

Lemma handle_file_agree `{HeadersLib, CodecLib} opts fm :
  StaticFiles.base_path opts = base → fm_below fm →
  StaticFiles.handle_file fs1 opts fm = StaticFiles.handle_file fs2 opts fm.
Proof.
  intros Hb [(ns & Hp & Hns & Hne) Hv]. unfold StaticFiles.handle_file. rewrite Hp.
  destruct ns as [|i ns _] using rev_ind; [done|].
  assert (Path.proper_name i) as Hi by (apply Forall_app in Hns as [_ Hns]; exact (Forall_inv Hns)).
  rewrite below_pop.
  assert (StaticFiles.check_access fs1 opts
            (if StaticFiles.fm_is_dir fm then below ns else below (ns ++ [i])) =
          StaticFiles.check_access fs2 opts
            (if StaticFiles.fm_is_dir fm then below ns else below (ns ++ [i]))) as ->
    by (destruct (StaticFiles.fm_is_dir fm); by apply check_access_agree).
  destruct (StaticFiles.check_access fs2 opts _); [|done]. cbn [Res.bind].
  destruct (_ && _ && _); [done|]. destruct (is_options _); [done|].
  rewrite exists_agree. destruct (_ && _ && _); [by rewrite listing_agree|].
  destruct (StaticFiles.precompressed_variant fm) as [[pp pe]|].
  - destruct (Hv pp pe eq_refl) as [vs Hpp]. unfold StaticFiles.precompressed_reply.
    by rewrite (file_reply_agree _ _ _ (Some pp) _ vs).
  - by rewrite (file_reply_agree _ _ _ None _ (ns ++ [i])).
Qed.

(** The path that is looked up. *)
Lemma lookup_below `{HeadersLib, CodecLib} opts :
  StaticFiles.base_path opts = base →
  ∃ ns, StaticFiles.lookup_path opts = Ok (below ns) ∧ Forall Path.proper_name ns.
Proof.
  intros Hb. unfold StaticFiles.lookup_path, PathExt.sanitize_path. rewrite Hb. cbn [Res.bind].
  destruct (sanitize_components_spec base (PathExt.decode_tail_path (StaticFiles.uri_path opts)))
    as (names & -> & Hn & _); [intros n; apply parse_Normal|].
  destruct (StaticFiles.memory_cache opts); [|by exists names].
  destruct (_ && _); [|by exists names]. exists (names ++ ["index.html"]).
  split; [by rewrite below_push by by split_and!|].
  apply Forall_app. split; [done|]. constructor; [by split_and!|done].
Qed.

Lemma static_agree `{HeadersLib, CodecLib} store opts :
  StaticFiles.base_path opts = base → Forall Path.proper_name (StaticFiles.index_files opts) →
  StaticFiles.handle fs1 store opts = StaticFiles.handle fs2 store opts.
Proof.
  intros Hb Hidx. unfold StaticFiles.handle. destruct (negb (is_allowed _)); [done|].
  destruct (lookup_below opts Hb) as (ns & -> & Hns). cbn [Res.bind].
  destruct (match StaticFiles.memory_cache opts with
            | Some _ => Respond.get_or_acquire store (below ns) (StaticFiles.headers opts)
            | None => None end); [done|].
  destruct (composed_agree ns (StaticFiles.headers opts) (StaticFiles.compression_static opts)
              (StaticFiles.index_files opts) Hns Hidx) as [<- Hfm].
  destruct (StaticFiles.get_composed_file_metadata fs1 _ _ _ _) as [fm|]; [|done].
  apply handle_file_agree; [done|]. by apply Hfm.
Qed.
End Agree.

(** * The pages *)

Section Pages.
Context `{HeadersLib, CodecLib, GlobLib, RegexLib}.
Context (fs1 fs2 : Fs.t).

Lemma page_text_agree p :
  same_file fs1 fs2 p → ErrorPage.page_text fs1 p = ErrorPage.page_text fs2 p.
Proof.
  unfold same_file, ErrorPage.page_text, Fs.is_file, Fs.metadata, Helpers.read_bytes_default, Fs.read,
    Fs.open. intros ->.
  destruct (Fs.get fs2 true p) as [[]|]; done.
Qed.

(** The error pages of the options. *)
Definition same_pages (o : RequestHandlerOpts) : Prop :=
  same_file fs1 fs2 (page404 o) ∧ same_file fs1 fs2 (page50x o).

Lemma error_page_agree o uri method status :
  same_pages o →
  ErrorPage.error_response fs1 uri method status (page404 o) (page50x o) =
    ErrorPage.error_response fs2 uri method status (page404 o) (page50x o).
Proof.
  intros [Hp4 Hp5]. unfold ErrorPage.error_response, ErrorPage.page_content.
  by rewrite (page_text_agree _ Hp4), (page_text_agree _ Hp5).
Qed.

Lemma error_response_agree o req status :
  same_pages o → Handler.error_response fs1 o req status = Handler.error_response fs2 o req status.
Proof. intros Hp. unfold Handler.error_response. by apply error_page_agree. Qed.

(** ** The stages *)

(** The stages that never look at the file system, pages apart. *)
Lemma gate_agree (encode_text : MetricsState → string) o req m :
  same_pages o →
  (maintenance_mode o = true → same_file fs1 fs2 (maintenance_mode_file o)) →
  Handler.gate encode_text fs1 o req m = Handler.gate encode_text fs2 o req m.
Proof.
  intros Hp Hm. unfold Handler.gate. rewrite (error_response_agree o) by done.
  assert (CorsCheck.pre_process fs1 o req = CorsCheck.pre_process fs2 o req) as ->.
  { unfold CorsCheck.pre_process. destruct (cors o) as [c|]; [|done].
    by rewrite error_page_agree. }
  assert (BasicAuth.pre_process fs1 o req = BasicAuth.pre_process fs2 o req) as ->.
  { unfold BasicAuth.pre_process. by rewrite !(error_page_agree o). }
  assert (Maintenance.pre_process fs1 o req = Maintenance.pre_process fs2 o req) as ->; [|done].
  unfold Maintenance.pre_process. destruct (maintenance_mode o); [|done].
  specialize (Hm eq_refl). unfold same_file in Hm.
  unfold Maintenance.get_response, Fs.is_file, Fs.metadata, Helpers.read_bytes_default, Fs.read, Fs.open.
  rewrite Hm. destruct (Fs.get fs2 true _) as [[]|]; done.
Qed.

Lemma handle_error_agree o req :
  same_pages o → Redirects.handle_error fs1 o req = Redirects.handle_error fs2 o req.
Proof. intros Hp. unfold Redirects.handle_error. by rewrite error_page_agree. Qed.

Lemma redirects_agree o req :
  same_pages o → Redirects.pre_process fs1 o req = Redirects.pre_process fs2 o req.
Proof. intros Hp. unfold Redirects.pre_process. by rewrite handle_error_agree. Qed.

Lemma rewrites_agree o req :
  same_pages o → Rewrites.pre_process fs1 o req = Rewrites.pre_process fs2 o req.
Proof. intros Hp. unfold Rewrites.pre_process. by rewrite handle_error_agree. Qed.

(** The proxy leaves the pages alone. *)
Lemma fixed_pages w : page404 (fixed_opts w) = page404 (w_opts w) ∧ page50x (fixed_opts w) = page50x (w_opts w).
Proof. by destruct w as [[] ? ?]. Qed.

Lemma proxy_agree client_request req remote w :
  same_pages (w_opts w) →
  Handler.try_reverse_proxy client_request fs1 req remote w =
    Handler.try_reverse_proxy client_request fs2 req remote w.
Proof.
  intros Hp. unfold Handler.try_reverse_proxy.
  pose proof (pre_process_fixed client_request req remote w) as Hf.
  destruct (Proxy.pre_process client_request req remote w) as [[[[r|e]|] q] v]; [done| |done].
  rewrite error_response_agree; [done|]. unfold same_pages.
  destruct (fixed_pages v) as [<- <-], (fixed_pages w) as [H4' H5']. simpl in Hf.
  by rewrite Hf, H4', H5'.
Qed.

Lemma post_process_agree o req md r fp :
  same_pages o →
  Handler.post_process fs1 o req md r fp = Handler.post_process fs2 o req md r fp.
Proof.
  intros Hp. unfold Handler.post_process.
  assert (∀ x, Compression.post_process fs1 o req x = Compression.post_process fs2 o req x) as Hc.
  { intros x. unfold Compression.post_process. by rewrite error_page_agree. }
  repeat (match goal with |- (let? x := ?a in _) = _ => destruct a; cbn [Res.bind]; [|done] end).
  rewrite Hc. done.
Qed.
End Pages.

(** * The whole service *)

(** Two file systems the server cannot tell apart: they agree below every root it serves from,
    and on the configured pages. *)
Record indistinguishable (fs1 fs2 : Fs.t) `{GlobLib, RegexLib, HttpLib} (o : RequestHandlerOpts)
    : Prop := {
  in_root : ∃ b, agree fs1 fs2 (root_dir o) b;
  in_vhosts advanced vh :
    advanced_opts o = Some advanced → vh ∈ default [] (virtual_hosts advanced) →
    ∃ b, agree fs1 fs2 (vh_root vh) b;
  in_pages : same_pages fs1 fs2 o;
  in_maintenance : maintenance_mode o = true → same_file fs1 fs2 (maintenance_mode_file o);
}.

Section Service.
Context `{HeadersLib, CodecLib, GlobLib, RegexLib}.
Context (fs1 fs2 : Fs.t) (store : gmap string MemFile).

Lemma base_path_agree o req :
  indistinguishable fs1 fs2 o → ∃ b, agree fs1 fs2 (Handler.base_path_of o req) b.
Proof.
  intros Hin. unfold Handler.base_path_of.
  destruct (advanced_opts o) as [a|] eqn:Ea; [|apply (in_root _ _ _ Hin)].
  unfold VirtualHost.get_real_root.
  destruct (virtual_hosts a) as [[|v l]|] eqn:Ev; simpl; try apply (in_root _ _ _ Hin).
  destruct (VirtualHost.request_host_str req) as [host|]; [|apply (in_root _ _ _ Hin)].
  change (∃ b, agree fs1 fs2
    (default (root_dir o) (vh_root <$> List.find (λ v, String.eqb (vh_host v) host) (v :: l))) b).
  destruct (List.find _ (v :: l)) as [vh|] eqn:Ef; [|apply (in_root _ _ _ Hin)].
  apply find_some in Ef as [Hvh _]. apply (in_vhosts _ _ _ Hin a vh Ea). rewrite Ev.
  by apply list_elem_of_In.
Qed.

Lemma serve_static_agree o req :
  indistinguishable fs1 fs2 o → accept_markdown o = false →
  Forall Path.proper_name (index_files o) →
  Handler.serve_static fs1 store o req = Handler.serve_static fs2 store o req.
Proof.
  intros Hin Hmd Hidx. destruct (base_path_agree o req Hin) as [b Hb].
  pose proof (in_pages _ _ _ Hin) as Hp. unfold Handler.serve_static. rewrite Hmd. cbn [default].
  rewrite (static_agree fs1 fs2 _ b Hb store (Handler.handle_opts o req _ _)) by done.
  destruct (StaticFiles.handle fs2 _ _) as [s|status].
  - apply post_process_agree, Hp.
  - rewrite (error_response_agree fs1 fs2) by done.
    destruct (Handler.error_response fs2 o req status); [|done]. apply post_process_agree, Hp.
Qed.
End Service.

Section Serve.
Context `{HeadersLib, CodecLib, GlobLib, RegexLib}.
Context (client_request : ProxyHttpClient → Request → result error Response).
Context (encode_text : MetricsState → string).
Context (fs1 fs2 : Fs.t) (store : gmap string MemFile).

(** A stage of the pipeline that passes, passes the state on. *)
Lemma serve_agree req remote w m :
  indistinguishable fs1 fs2 (w_opts w) → accept_markdown (w_opts w) = false →
  Forall Path.proper_name (index_files (w_opts w)) →
  Handler.serve client_request encode_text fs1 store req remote w m =
    Handler.serve client_request encode_text fs2 store req remote w m.
Proof.
  intros Hin Hmd Hidx. pose proof (in_pages _ _ _ Hin) as Hp. unfold Handler.serve.
  rewrite (gate_agree fs1 fs2) by (try done; apply (in_maintenance _ _ _ Hin)).
  destruct (Handler.gate _ _ _ _ _); [done|]. rewrite (proxy_agree fs1 fs2) by done.
  destruct (if proxy_first _ then _ else _) as [[early req1] w1] eqn:E1.
  destruct early; [done|].
  assert (w1 = w) as ->.
  { destruct (proxy_first _); [by apply try_proxy_none in E1 as [_ ->]|by simplify_eq]. }
  rewrite (redirects_agree fs1 fs2), (rewrites_agree fs1 fs2) by done.
  destruct (Redirects.pre_process _ _ _); [done|].
  destruct (Rewrites.pre_process _ _ _) as [[x|] req2]; [done|].
  rewrite (proxy_agree fs1 fs2) by done.
  destruct (if negb _ then _ else _) as [[late req3] w3] eqn:E3. destruct late; [done|].
  assert (w3 = w) as ->.
  { destruct (negb _); [by apply try_proxy_none in E3 as [_ ->]|by simplify_eq]. }
  by rewrite (serve_static_agree fs1 fs2).
Qed.
End Serve.

(** C3. Confinement, as non-interference, for a server that does not negotiate Markdown (the
    default), whose served trees hold no symbolic link, and none of whose roots has a page of its
    name beside it: two file systems that agree below the roots and on the configured pages give
    every request the same answer, the same forwarded requests and the same state.  Under these
    conditions what lies elsewhere cannot be observed, not even whether it is there, by any path,
    encoding, rewrite, index, listing, archive or precompressed variant.  Without them it can:
    a link leads out; the Markdown lookup does not decode and confine the path
    ([markdown_probes_outside]); and the index lookup tries the page beside the root
    ([page_next_to_root]). *)
Theorem outside_unobservable `{HeadersLib, CodecLib, GlobLib, RegexLib}
    (client_request : ProxyHttpClient → Request → result error Response)
    (encode_text : MetricsState → string) (fs1 fs2 : Fs.t) (store : gmap string MemFile)
    (req : Request) (remote_addr : option SocketAddr) (elapsed : Z) (w : World) (m : MetricsState)
    (Hsame : indistinguishable fs1 fs2 (w_opts w))
    (Hmarkdown : accept_markdown (w_opts w) = false)
    (Hindex : Forall Path.proper_name (index_files (w_opts w))) :
  Handler.handle client_request encode_text fs1 store req remote_addr elapsed w m =
    Handler.handle client_request encode_text fs2 store req remote_addr elapsed w m.
Proof. unfold Handler.handle. cbv zeta. by rewrite (serve_agree _ _ fs1 fs2). Qed.

(** * Without credentials *)

Section Gated.
Context `{HeadersLib, CodecLib, GlobLib, RegexLib}.
Context (encode_text : MetricsState → string).

(** The gate stops whoever basic authentication does not let through. *)
Lemma gate_stops fs o req m :
  Str.is_empty (basic_auth o) = false → is_options (rq_method req) = false →
  ¬ authorized (basic_auth o) (rq_headers req) →
  ∃ x, Handler.gate encode_text fs o req m = Some x.
Proof.
  intros Hb Ho Hauth. destruct (Handler.gate encode_text fs o req m) as [x|] eqn:Eg; [by exists x|].
  apply gate_admits in Eg as (_ & _ & [He|[He|He]] & _); [congruence..|done].
Qed.
End Gated.

(** C6. Without credentials there is nothing to see: when basic authentication is configured and a
    request (not an [OPTIONS]) does not carry them, the answer is the same whatever the files,
    the cache, the upstreams and the rules are, given the same policies and pages; and
    nothing is forwarded, rewritten or changed. *)
Theorem unauthorized_blind `{HeadersLib, CodecLib, GlobLib, RegexLib}
    (upstreams1 upstreams2 : ProxyHttpClient → Request → result error Response)
    (encode_text : MetricsState → string) (fs1 fs2 : Fs.t) (store1 store2 : gmap string MemFile)
    (req : Request) (remote_addr : option SocketAddr) (w1 w2 : World) (m : MetricsState)
    (Hpages : same_pages fs1 fs2 (w_opts w1))
    (Hmaintenance : maintenance_mode (w_opts w1) = true →
       same_file fs1 fs2 (maintenance_mode_file (w_opts w1)))
    (Hrules : w_opts w2 = (w_opts w1) {{ advanced_opts := advanced_opts (w_opts w2);
                root_dir := root_dir (w_opts w2); dir_listing := dir_listing (w_opts w2);
                proxy_client := proxy_client (w_opts w2); index_files := index_files (w_opts w2) }})
    (Hauth : Str.is_empty (basic_auth (w_opts w1)) = false)
    (Hmethod : is_options (rq_method req) = false)
    (Hno : ¬ authorized (basic_auth (w_opts w1)) (rq_headers req)) :
  ∃ answer,
    Handler.serve upstreams1 encode_text fs1 store1 req remote_addr w1 m = (answer, req, w1) ∧
    Handler.serve upstreams2 encode_text fs2 store2 req remote_addr w2 m = (answer, req, w2).
Proof.
  destruct (gate_stops encode_text fs1 (w_opts w1) req m Hauth Hmethod Hno) as [x Hx].
  exists x. unfold Handler.serve.
  assert (Handler.gate encode_text fs2 (w_opts w2) req m =
          Handler.gate encode_text fs2 (w_opts w1) req m) as ->
    by (rewrite Hrules; by destruct (w_opts w1)).
  by rewrite <- (gate_agree fs1 fs2), Hx.
Qed.

(** * At work *)

Module IsoRef.
(** A tree of files only, and the same with more next to the root. *)
Definition tree : list (list string * node) :=
  [(["srv"], NDir ["www"] (Some 1000000000%Z) true);
   (["srv"; "www"], NDir ["a.txt"; "docs"] (Some 1000000000%Z) true);
   (["srv"; "www"; "a.txt"], NFile "hello" (Some 5000000000%Z) true);
   (["srv"; "www"; "docs"], NDir ["x"] (Some 1000000000%Z) true);
   (["srv"; "www"; "docs"; "x"], NFile "y" (Some 1000000000%Z) true)].
Definition fs : Fs.t := Fs.mkFs (list_to_map tree) ["srv"] 4096.
Definition with_file (name content : string) : Fs.t :=
  Fs.mkFs (<[["srv"; name] := NFile content (Some 1000000000%Z) true]> (list_to_map tree)) ["srv"] 4096.

Definition opts : RequestHandlerOpts :=
  RequestHandlerOpts_default {{ root_dir := Path.parse "/srv/www"; accept_markdown := false }}.
Definition status (fs : Fs.t) (o : RequestHandlerOpts) (req : Request) : result error Z :=
  Res.map rs_status (Handler.serve ProxyRef.answer (λ _, "") fs ∅ req None (HandlerRef.world o)
                       Metrics.empty).1.1.
End IsoRef.

(** The tree holds no links. *)
Lemma iso_no_links p t m : Fs.nodes IsoRef.fs !! p ≠ Some (NLink t m).
Proof.
  intros Hp. apply elem_of_list_to_map_2 in Hp. unfold IsoRef.tree in Hp.
  repeat (apply elem_of_cons in Hp as [[=]|Hp]). by apply elem_of_nil in Hp.
Qed.

Lemma iso_agree :
  agree IsoRef.fs (IsoRef.with_file "secret" "top") (Path.parse "/srv/www") ["srv"; "www"].
Proof.
  split; try done; try by eexists.
  - intros names. symmetry. by apply (lookup_insert_ne (list_to_map IsoRef.tree) ["srv"; "secret"]).
  - intros names t m. apply iso_no_links.
Qed.

Lemma iso_indistinguishable :
  indistinguishable IsoRef.fs (IsoRef.with_file "secret" "top") IsoRef.opts.
Proof.
  split; [exists ["srv"; "www"]; exact iso_agree|done|by split|done].
Qed.

Lemma outside_unobservable_witness :
  let req := HandlerRef.req "GET" "/../secret" in
  let handle fs := Handler.handle ProxyRef.answer (λ _, "") fs ∅ req None 0
                     (HandlerRef.world IsoRef.opts) Metrics.empty in
  handle IsoRef.fs = handle (IsoRef.with_file "secret" "top").
Proof.
  intros req handle. apply (outside_unobservable ProxyRef.answer (λ _, "") IsoRef.fs
    (IsoRef.with_file "secret" "top") ∅ req None 0 (HandlerRef.world IsoRef.opts) Metrics.empty);
    [exact iso_indistinguishable|reflexivity|].
  constructor; [by split_and!|constructor].
Defined.

Lemma unauthorized_blind_witness :
  let o := IsoRef.opts {{ basic_auth := "user:$2y$hash" }} in
  let o' := o {{ root_dir := Path.parse "/srv"; dir_listing := true }} in
  let serve fs o := Handler.serve ProxyRef.answer (λ _, "") fs ∅ (HandlerRef.req "GET" "/a.txt") None
                      (HandlerRef.world o) Metrics.empty in
  (serve IsoRef.fs o).1.1 = (serve (IsoRef.with_file "secret" "top") o').1.1 ∧
  Res.map rs_status (serve IsoRef.fs o).1.1 = Ok 401%Z.
Proof.
  intros o o' serve.
  destruct (unauthorized_blind ProxyRef.answer ProxyRef.answer (λ _, "") IsoRef.fs
    (IsoRef.with_file "secret" "top") ∅ ∅ (HandlerRef.req "GET" "/a.txt") None
    (HandlerRef.world o) (HandlerRef.world o') Metrics.empty) as (x & H1 & H2).
  - split; reflexivity.
  - discriminate.
  - reflexivity.
  - reflexivity.
  - reflexivity.
  - intros (u & p & g & _ & Hg & _). discriminate Hg.
  - split; [|reflexivity]. unfold serve. by rewrite H1, H2.
Defined.

(** The two places where something outside does show.  The Markdown lookup joins the undecoded
    path, [..] included, to the root: whether [/srv/a.txt.md] exists is seen from outside. *)
Example markdown_probes_outside :
  let o := IsoRef.opts {{ accept_markdown := true }} in
  let req := mkRequest "GET" (RefUri.mk None None (Some "/../a.txt"))
               (ref_headers [("accept", "text/markdown")]) BodyEmpty in
  IsoRef.status IsoRef.fs o req = Ok 200%Z ∧
  IsoRef.status (IsoRef.with_file "a.txt.md" "") o req = Ok 404%Z.
Proof. split; reflexivity. Qed.

(** And the [.html] fallback of the index lookup tries the root's own name: a page next to the
    root hides the later index files. *)
Example page_next_to_root :
  let o := IsoRef.opts {{ index_files := ["index.html"; "a.txt"] }} in
  let req := HandlerRef.req "GET" "/" in
  IsoRef.status IsoRef.fs o req = Ok 200%Z ∧
  IsoRef.status (IsoRef.with_file "www.html" "") o req = Ok 404%Z.
Proof. split; reflexivity. Qed.
