(* ===== verification/Cached.v ===== *)
(** The in-memory cache over time: [mem_cache/] under requests, streams and evictions.

    [FileCache.step] interleaves requests to the static handler with the polls of the bodies they
    started, clients that go away and entries that expire.  The cache stays coherent with the
    files, so answers do not depend on it. *)
From Stdlib Require Import ZArith Lia Ascii String.
From stdpp Require Import base list strings gmap relations.
From coqutil Require Import Datatypes.RecordSetters.
Import DoubleBraceUpdate.
From S2P Require Import Prelude Http Libs RefLibs Path Fs Quality Opts Pages Compression Ranges DirListing.
From S2P Require Import StaticFiles Links Cors Routing Policies Metrics Balancer Proxy Handler Head Isolation.
Local Open Scope string_scope.
Local Open Scope list_scope.
Local Open Scope nat_scope.

Module FileCache.
Section FileCache.
Context `{HeadersLib, CodecLib}.
Context (fs : Fs.t) (served : StaticFiles.HandleOpts → Prop).

(** The store, and the streams of the bodies that are under way. *)
Record Sys := mkSys {
  store : gmap string MemFile;
  streams : list MemCache.MemCacheFileStream;
}.

(** The stream behind a body that caches what it reads, an encoder around it or not; [plan] is how
    much the reads deliver. *)
Fixpoint stream_of (body : Body) (plan : list nat) : list MemCache.MemCacheFileStream :=
  match body with
  | BodyEncoded _ _ inner => stream_of inner plan
  | BodyMemFile data buf_size path content_type modified len =>
      [MemCache.mkMemStream (Stream.mkReader data plan) buf_size path content_type modified
         (Some "") len]
  | _ => []
  end.

(** A request is answered; a stream is polled; a stream is dropped, finished or not; an entry
    expires or is evicted. *)
Inductive step : Sys → Sys → Prop :=
| Request st ss opts answer plan :
    served opts → StaticFiles.handle fs st opts = Ok answer →
    step (mkSys st ss) (mkSys st (ss ++ stream_of (rs_body (StaticFiles.sf_resp answer)) plan))
| Poll st ss i s chunk s' st' :
    ss !! i = Some s → MemCache.poll_next s st = (chunk, s', st') →
    step (mkSys st ss) (mkSys st' (<[i := s']> ss))
| Drop st ss i : step (mkSys st ss) (mkSys st (delete i ss))
| Expire st ss key : step (mkSys st ss) (mkSys (delete key st) ss).
End FileCache.
End FileCache.

(** * A plain tree *)

Section Plain.
Context (fs : Fs.t) (base : Path.t) (b : list string) (Hag : agree fs fs base b).

Abbreviation below names := (base ++ normals names).

Lemma metadata_open_err p e : Fs.metadata fs p = Err e → Fs.open fs p = Err e.
Proof. unfold Fs.metadata, Fs.open. destruct (Fs.get fs true p); [done|]. by intros [= ->]. Qed.

Lemma resolve_walk follow p :
  p ≠ [] → Fs.resolve fs follow p = Res.map fst (Fs.walk fs follow Fs.max_links (Fs.cwd fs) p).
Proof. by destruct p. Qed.

(** A file that can be read, and its metadata. *)
Lemma open_metadata p data :
  Fs.open fs p = Ok (mkFile (Some data)) →
  ∃ m, Fs.metadata fs p = Ok m ∧ md_is_dir m = false ∧ md_len m = Z.of_nat (String.length data).
Proof.
  unfold Fs.open, Fs.metadata. destruct (Fs.get fs true p) as [n|]; [|done]. cbn [Res.bind Res.map].
  destruct n as [c mt [|]|es mt [|]|t mt]; intros [= <-]. by eexists.
Qed.

(** Without links a walk below the root is literal, and every name on the way is there. *)
Lemma plain_walk follow l l' ns names q :
  Fs.walk fs follow l (b ++ ns) (normals names) = Ok (q, l') → q = b ++ ns ++ names ∧ l' = l.
Proof.
  revert ns. induction names as [|n names IH]; intros ns; rewrite walk_unfold.
  { intros [= <- <-]. by rewrite app_nil_r. }
  cbn [normals fmap list_fmap]. rewrite <- app_assoc.
  destruct (Fs.node_at fs (b ++ ns ++ [n])) as [[c m r|es m r|t m]|] eqn:En; [| | |done].
  - destruct names; [|done]. by intros [= <- <-].
  - intros Hw. apply IH in Hw as [-> ->]. by rewrite <- app_assoc.
  - by destruct (ag_links _ _ _ _ Hag _ _ _ En).
Qed.

Lemma plain_no_symlink_from ns names l q l' :
  (∀ follow rest, rest ≠ [] → ∃ l0, Fs.walk fs follow Fs.max_links (Fs.cwd fs) (below (ns ++ rest)) =
     Fs.walk fs follow l0 (b ++ ns) (normals rest)) →
  Fs.walk fs true l (b ++ ns) (normals names) = Ok (q, l') →
  PathExt.contains_symlink_from fs (below ns) (normals names) = Ok false.
Proof.
  revert ns. induction names as [|n names IH]; intros ns Hns; [done|].
  rewrite walk_unfold. cbn [normals fmap list_fmap PathExt.contains_symlink_from].
  rewrite push_Normal, <- !app_assoc, <- normals_snoc.
  destruct (Hns false [n]) as [l0 Hl]; [done|].
  unfold Fs.symlink_metadata, Fs.get. rewrite resolve_walk, Hl by by destruct base, ns.
  rewrite (walk_unfold fs false). cbn [normals fmap list_fmap]. rewrite <- app_assoc.
  destruct (Fs.node_at fs (b ++ ns ++ [n])) as [nd|] eqn:En; [|done].
  pose proof (ag_links _ _ _ _ Hag (ns ++ [n])) as Hnl.
  destruct nd as [c m r|es m r|t m]; [| |by destruct (Hnl _ _ En)].
  - destruct names as [|n' names]; [|done]. intros _. cbn [Res.map Res.bind fst].
    by rewrite En.
  - rewrite (walk_unfold fs false). cbn [Res.map Res.bind fst]. rewrite En. intros Hw.
    cbn [Res.of_option Res.bind Res.map md_is_symlink Fs.node_metadata].
    apply (IH (ns ++ [n])); [|exact Hw].
    intros follow rest Hr. destruct (Hns follow (n :: rest)) as [l1 Hl1]; [done|]. exists l1.
    replace ((ns ++ [n]) ++ rest) with (ns ++ n :: rest) by by rewrite <- app_assoc.
    rewrite Hl1, (walk_unfold fs follow). cbn [normals fmap list_fmap].
    rewrite <- app_assoc. by rewrite En.
Qed.

Lemma metadata_resolves names m :
  Fs.metadata fs (below names) = Ok m → Fs.resolve fs true (below names) = Ok (b ++ names).
Proof.
  unfold Fs.metadata, Fs.get. intros Hm. apply map_Ok in Hm as (nd & Hnd & _).
  apply bind_Ok in Hnd as (q & Hq & _). rewrite Hq. f_equal.
  destruct (ag_walk1 _ _ _ _ Hag) as [l1 H1]. rewrite resolve_walk in Hq
    by (pose proof (ag_base _ _ _ _ Hag); by destruct base).
  apply map_Ok in Hq as ([q' l] & Hq & ->). cbn [fst].
  destruct names as [|n names].
  - change (normals []) with (@nil component) in Hq. rewrite app_nil_r in Hq |- *. congruence.
  - rewrite (walk_app_dir fs true _ _ base b _ l1) in Hq by (try done; apply (ag_dir _ _ _ _ Hag)).
    pose proof (plain_walk true l1 l [] (n :: names) q') as Hp. rewrite app_nil_r in Hp.
    by destruct (Hp Hq) as [-> _].
Qed.

(** So nothing that is there is refused, unless it is hidden. *)
Lemma plain_access `{HeadersLib} opts names m :
  StaticFiles.base_path opts = base →
  (StaticFiles.ignore_hidden_files opts = true → PathExt.is_hidden (normals names) = false) →
  Fs.metadata fs (below names) = Ok m →
  StaticFiles.check_access fs opts (below names) = Ok ().
Proof.
  intros Hb Hh Hm. pose proof (metadata_resolves names m Hm) as Hr.
  destruct (ag_walk1 _ _ _ _ Hag) as [l1 Hl1]. pose proof (ag_base _ _ _ _ Hag) as Hne.
  unfold StaticFiles.check_access. rewrite Hb, strip_prefix_app. cbn [Res.of_option Res.bind].
  assert (StaticFiles.ignore_hidden_files opts && PathExt.is_hidden (normals names) = false) as ->
    by (destruct (StaticFiles.ignore_hidden_files opts); auto).
  unfold Fs.canonicalize. rewrite Hr, (resolve_walk true base Hne), Hl1.
  cbn [Res.map Res.bind Res.ok Res.of_option fst andb].
  assert (Path.starts_with (Fs.absolute (b ++ names)) (Fs.absolute b) = true) as ->.
  { apply starts_with_spec. exists (normals names). unfold Fs.absolute. by rewrite fmap_app. }
  cbn [negb]. destruct (StaticFiles.disable_symlinks opts); [|done].
  unfold PathExt.contains_symlink.
  assert (PathExt.contains_symlink_from fs base (normals names) = Ok false) as ->; [|done].
  destruct names as [|n names]; [done|].
  rewrite resolve_walk in Hr by by destruct base.
  rewrite (walk_app_dir fs true _ _ base b _ l1) in Hr by (try done; apply (ag_dir _ _ _ _ Hag)).
  apply map_Ok in Hr as ([q l] & Hr & _).
  pose proof (plain_no_symlink_from [] (n :: names) l1 q l) as Hc.
  change (normals []) with (@nil component) in Hc. rewrite !app_nil_r in Hc. apply Hc; [|done].
  intros follow rest Hrest. exists l1. cbn [app].
  apply walk_app_dir; [by destruct rest|done|exact (ag_dir _ _ _ _ Hag)].
Qed.

(** ** What the lookup finds *)

(** Without pre-compressed variants the index loop leaves the metadata of the path it leaves, or
    has found nothing to open. *)
Lemma index_loop_metadata `{HeadersLib, CodecLib} names h md l :
  Forall Path.proper_name names → Forall Path.proper_name l →
  match StaticFiles.index_loop fs (below names) h false md l with
  | inl _ => False
  | inr (p, m, true) => Fs.metadata fs p = Ok m
  | inr (p, _, false) => p = below names ∧ Forall (λ i, ∃ e, Fs.open fs (below (names ++ [i])) = Err e) l
  end.
Proof.
  intros Hn. induction l as [|i l IH]; intros Hl; [done|].
  apply Forall_cons in Hl as [Hi Hl]. specialize (IH Hl). cbn [StaticFiles.index_loop].
  rewrite below_push by done. cbn [StaticFiles.variant_of]. unfold Meta.try_metadata at 1.
  destruct (Fs.metadata fs (below (names ++ [i]))) as [m|e] eqn:Em; [done|].
  rewrite below_pop. destruct (html_agree fs fs base b Hag names Hn) as [_ Hcase].
  destruct (Meta.try_metadata_with_html_suffix fs (below names)) as [q [m|]] eqn:Eh; cbn [fst snd] in Hcase.
  - unfold Meta.try_metadata_with_html_suffix in Eh. destruct (Path.file_name (below names)); [|done].
    unfold Meta.try_metadata in Eh. destruct (Fs.metadata fs (Path.set_file_name _ _)) eqn:E; [|done].
    by simplify_eq.
  - destruct Hcase as [[_ ->]|[? _]]; [|done].
    destruct (StaticFiles.index_loop _ _ _ _ _ _) as [|[[p m] [|]]]; [done..|].
    destruct IH as [-> IH]. split; [done|]. constructor; [|done]. exists e. by apply metadata_open_err.
Qed.

Lemma composed_metadata `{HeadersLib, CodecLib} names h indexes fm :
  Forall Path.proper_name names → Forall Path.proper_name indexes →
  StaticFiles.get_composed_file_metadata fs (below names) h false indexes = Ok fm →
  StaticFiles.precompressed_variant fm = None ∧
  (Fs.metadata fs (StaticFiles.fm_file_path fm) = Ok (StaticFiles.fm_metadata fm) ∨
   ∃ e, Fs.open fs (StaticFiles.fm_file_path fm) = Err e).
Proof.
  intros Hn Hidx. unfold StaticFiles.get_composed_file_metadata. cbn [StaticFiles.variant_of fmap option_fmap option_map].
  unfold Meta.try_metadata at 1.
  destruct (Fs.metadata fs (below names)) as [md|err] eqn:Em.
  - destruct (md_is_dir md); [|intros [= <-]; auto].
    set (idx := match indexes with [] => _ | _ => _ end).
    assert (Forall Path.proper_name idx) as Hall.
    { unfold idx. destruct indexes; [|done]. constructor; [by split_and!|done]. }
    pose proof (index_loop_metadata names h md idx Hn Hall) as Hloop.
    destruct (StaticFiles.index_loop fs (below names) h false md idx) as [?|[[p md'] [|]]]; [done| |];
      cbn [negb]; intros [= <-]; cbn [StaticFiles.precompressed_variant StaticFiles.fm_file_path
        StaticFiles.fm_metadata]; (split; [done|]); [by left|right].
    destruct Hloop as [-> Hloop]. destruct (last idx) as [i|] eqn:El.
    + apply last_Some in El as [l' El]. rewrite El in Hall, Hloop.
      apply Forall_app in Hall as [_ Hall]. apply Forall_app in Hloop as [_ Hloop].
      rewrite below_push by exact (Forall_inv Hall). exact (Forall_inv Hloop).
    + apply last_None in El. exfalso. unfold idx in El. by destruct indexes.
  - unfold Meta.try_metadata_with_html_suffix.
    destruct (Path.file_name (below names)); [|done]. unfold Meta.try_metadata.
    destruct (Fs.metadata fs (Path.set_file_name _ (below names))) as [m|] eqn:E; [|done].
    intros [= <-]. auto.
Qed.

(** The page beside what has the name [n]. *)
Lemma page_shape names q m :
  Forall Path.proper_name names →
  Meta.try_metadata_with_html_suffix fs (below names) = (q, Some m) →
  ∃ init n, names = init ++ [n] ∧ q = below (init ++ [n +:+ ".html"]) ∧ Fs.metadata fs q = Ok m.
Proof.
  intros Hn. destruct names as [|n names _] using rev_ind.
  { change (normals []) with (@nil component). rewrite app_nil_r.
    rewrite (ag_page1 _ _ _ _ Hag). discriminate. }
  apply Forall_app in Hn as [_ Hn]. pose proof (html_proper n (Forall_inv Hn)).
  unfold Meta.try_metadata_with_html_suffix.
  rewrite normals_snoc, app_assoc, file_name_snoc, set_file_name_snoc by done.
  unfold Meta.try_metadata. destruct (Fs.metadata fs _) as [m'|] eqn:E; [|done]. intros [= <- <-].
  exists names, n. by rewrite normals_snoc, app_assoc.
Qed.

(** What the loop leaves is one of the index files, or the page beside the directory. *)
Lemma index_loop_shape `{HeadersLib, CodecLib} names h md l p m :
  Forall Path.proper_name names → Forall Path.proper_name l →
  StaticFiles.index_loop fs (below names) h false md l = inr (p, m, true) →
  (∃ i, i ∈ l ∧ p = below (names ++ [i])) ∨
  Meta.try_metadata_with_html_suffix fs (below names) = (p, Some m).
Proof.
  intros Hn. induction l as [|i l IH]; intros Hl; [done|].
  apply Forall_cons in Hl as [Hi Hl]. specialize (IH Hl). cbn [StaticFiles.index_loop].
  rewrite below_push by done. cbn [StaticFiles.variant_of].
  destruct (Meta.try_metadata fs (below (names ++ [i]))) as [[m' d]|e].
  { intros [= <- <-]. left. exists i. split; [left|done]. }
  rewrite below_pop. destruct (html_agree fs fs base b Hag names Hn) as [_ Hcase].
  destruct (Meta.try_metadata_with_html_suffix fs (below names)) as [q [m'|]]; cbn [fst snd] in Hcase.
  { intros [= <- <-]. by right. }
  destruct Hcase as [[_ ->]|[? _]]; [|done]. intros Hloop.
  destruct (IH Hloop) as [(i' & Hi' & ->)|?]; [|by right]. left. exists i'. split; [by right|done].
Qed.

(** A directory is answered with one of its index files, there or not, or with the page beside
    it. *)
Lemma composed_shape `{HeadersLib, CodecLib} names h indexes fm :
  Forall Path.proper_name names → Forall Path.proper_name indexes →
  StaticFiles.get_composed_file_metadata fs (below names) h false indexes = Ok fm →
  StaticFiles.fm_is_dir fm = true →
  (∃ i, (i ∈ indexes ∨ i = "index.html") ∧ StaticFiles.fm_file_path fm = below (names ++ [i])) ∨
  (∃ init n m m', names = init ++ [n] ∧ Fs.metadata fs (below names) = Ok m ∧ md_is_dir m = true ∧
     Fs.metadata fs (below (init ++ [n +:+ ".html"])) = Ok m' ∧
     StaticFiles.fm_file_path fm = below (init ++ [n +:+ ".html"])).
Proof.
  intros Hn Hidx. unfold StaticFiles.get_composed_file_metadata.
  cbn [StaticFiles.variant_of fmap option_fmap option_map]. unfold Meta.try_metadata at 1.
  destruct (Fs.metadata fs (below names)) as [md|err] eqn:Em.
  2: { destruct (Meta.try_metadata_with_html_suffix _ _) as [q [m|]]; [|done]. by intros [= <-]. }
  destruct (md_is_dir md) eqn:Ed; [|by intros [= <-]].
  set (idx := match indexes with [] => _ | _ => _ end).
  assert (Forall Path.proper_name idx) as Hall.
  { unfold idx. destruct indexes; [|done]. constructor; [by split_and!|done]. }
  assert (∀ i, i ∈ idx → i ∈ indexes ∨ i = "index.html") as Hin.
  { unfold idx. destruct indexes; [|auto]. intros i ->%list_elem_of_singleton. by right. }
  pose proof (index_loop_metadata names h md idx Hn Hall) as Hloop.
  destruct (StaticFiles.index_loop fs (below names) h false md idx) as [?|[[p md'] [|]]] eqn:El;
    [done| |]; cbn [negb]; intros [= <-] _; cbn [StaticFiles.fm_file_path].
  - destruct (index_loop_shape names h md idx p md' Hn Hall El) as [(i & Hi & ->)|Hpage]; [eauto|].
    right. destruct (page_shape _ _ _ Hn Hpage) as (init & n & -> & -> & Hm).
    by exists init, n, md, md'.
  - destruct Hloop as [-> _]. destruct (last idx) as [i|] eqn:Ei.
    + left. exists i. assert (i ∈ idx) as Hi.
      { apply last_Some in Ei as [l' ->]. apply elem_of_app. right. left. }
      split; [auto|]. rewrite Forall_forall in Hall. by rewrite below_push by auto.
    + apply last_None in Ei. exfalso. unfold idx in Ei. by destruct indexes.
Qed.
End Plain.

(** * Answers that cannot be told apart *)

(** The same bytes, whichever way they are read, or the same encoding of them. *)
Inductive same_bytes : Body → Body → Prop :=
| SameBody body : same_bytes body body
| SameData body body' s :
    body_bytes body = Some s → body_bytes body' = Some s → same_bytes body body'
| SameEncoded coding level body body' :
    same_bytes body body' →
    same_bytes (BodyEncoded coding level body) (BodyEncoded coding level body').

Section Similar.
Context `{HeadersLib, CodecLib}.

Definition similar (r r' : Response) : Prop :=
  rs_status r = rs_status r' ∧ rs_headers r = rs_headers r' ∧ same_bytes (rs_body r) (rs_body r').

(** The same answer of the static handler. *)
Definition alike (x y : result Z StaticFiles.StaticFileResponse) : Prop :=
  match x, y with
  | Ok a, Ok c =>
      StaticFiles.sf_file_path a = StaticFiles.sf_file_path c ∧
      similar (StaticFiles.sf_resp a) (StaticFiles.sf_resp c)
  | Err e, Err e' => e = e'
  | _, _ => False
  end.

Lemma similar_refl r : similar r r.
Proof. by split_and!; [..|constructor]. Qed.

Lemma alike_refl x : alike x x.
Proof. destruct x; [split; [done|apply similar_refl]|done]. Qed.
End Similar.

(** * Coherence *)

Section Coherence.
Context `{HeadersLib, CodecLib}.
Context (fs : Fs.t) (roots : list Path.t) (hide : bool).

(** Hidden files are served, or none of the names is hidden. *)
Definition shown (names : list string) : Prop :=
  hide = true → PathExt.is_hidden (normals names) = false.

(** The directories a service serves from, its own and those of its virtual hosts: no links below
    them, no page beside them.  If hidden files are not served, no root lies in a hidden directory
    of another, and no hidden directory has a page beside it: that page would be served, see
    [hidden_page_served]. *)
Record plain_roots : Prop := {
  pr_tree : ∀ base, base ∈ roots → parsed base ∧ ∃ b, agree fs fs base b;
  pr_nested : ∀ base names, base ∈ roots → base ++ normals names ∈ roots → shown names;
  pr_pages : hide = true → ∀ base names n m, base ∈ roots → Str.starts_with_char "." n = true →
    Fs.metadata fs (base ++ normals (names ++ [n])) = Ok m → md_is_dir m = true →
    ∃ e, Fs.metadata fs (base ++ normals (names ++ [n +:+ ".html"])) = Err e;
}.

(** A path below one of them, not hidden. *)
Definition below_root (path : Path.t) : Prop :=
  ∃ base names, base ∈ roots ∧ Forall Path.proper_name names ∧ names ≠ [] ∧ shown names ∧
    path = base ++ normals names.

(** [data] is what the file under [key] holds, with the headers it is served with. *)
Definition whole_file (key data content_type : string) (modified : option Z) : Prop :=
  ∃ path m, below_root path ∧ Path.to_str path = Some key ∧
    Fs.metadata fs path = Ok m ∧ Fs.open fs path = Ok (mkFile (Some data)) ∧
    content_type = Respond.content_type_of path ∧ modified = Respond.modified_of m.

(** Every entry is its file. *)
Definition coherent (st : gmap string MemFile) : Prop :=
  ∀ key mf, st !! key = Some mf →
    whole_file key (mf_data mf) (mf_content_type mf) (mf_last_modified mf).

(** A stream that still collects reads a part of its file, and knows the length of the whole. *)
Definition faithful (s : MemCache.MemCacheFileStream) : Prop :=
  ∀ buf, MemCache.ms_buf s = Some buf →
    ∃ data start n,
      whole_file (MemCache.ms_key s) data (MemCache.ms_content_type s) (MemCache.ms_last_modified s) ∧
      MemCache.ms_capacity s = Z.of_nat (String.length data) ∧
      buf +:+ Stream.rd_data (MemCache.ms_reader s) = substring start n data.

Lemma substring_length k n s : String.length (substring k n s) ≤ String.length s - k.
Proof.
  revert k n. induction s as [|c s IH]; intros [|k] [|n]; simpl; try lia.
  - specialize (IH 0 n). lia.
  - specialize (IH k 0). lia.
  - specialize (IH k (S n)). lia.
Qed.

(** Only the whole is as long as the whole. *)
Lemma substring_whole k n s : String.length (substring k n s) = String.length s → substring k n s = s.
Proof.
  intros Hl. pose proof (substring_length k n s) as Hk.
  destruct s as [|c s]; [by destruct k, n|]. destruct k; [|simpl in Hk, Hl; lia]. clear Hk.
  revert n Hl. induction s as [|c' s IH] in c |- *; intros n Hl.
  - destruct n as [|n]; [done|]. by destruct n.
  - destruct n as [|n]; [done|]. simpl in Hl. injection Hl as Hl. simpl. f_equal.
    exact (IH c' n Hl).
Qed.

Lemma collected buf rest k n data :
  buf +:+ rest = substring k n data → String.length buf = String.length data → buf = data.
Proof.
  intros He Hl. pose proof (f_equal String.length He) as Hn. rewrite length_string_app in Hn.
  pose proof (substring_length k n data).
  assert (rest = "") as -> by (destruct rest; [done|simpl in Hn; lia]).
  rewrite string_app_nil_r in He. rewrite He in Hl |- *. by apply substring_whole.
Qed.

Lemma poll_faithful s st chunk s' st' :
  MemCache.poll_next s st = (chunk, s', st') → faithful s → coherent st →
  faithful s' ∧ coherent st'.
Proof.
  unfold MemCache.poll_next, Stream.read. destruct s as [r bs key ct lm buf cap].
  cbn [MemCache.ms_reader MemCache.ms_buf_size MemCache.ms_buf MemCache.ms_key
       MemCache.ms_content_type MemCache.ms_last_modified MemCache.ms_capacity].
  set (n := Stream.read_len r (Z.to_nat bs)). pose proof (str_take_drop n (Stream.rd_data r)) as Htd.
  set (hd := Stream.str_take n (Stream.rd_data r)) in *.
  set (tl := Stream.str_drop n (Stream.rd_data r)) in *. intros Hp Hf Hc.
  destruct (Nat.eqb_spec (String.length hd) 0) as [Hz|Hnz].
  { injection Hp as _ <- <-. split; [|done]. intros buf0 [= ->].
    destruct (Hf buf0 eq_refl) as (data & k & m & Hw & Hcap & Hsub). exists data, k, m.
    split; [done|]. split; [done|]. simpl in *. rewrite <- Hsub, <- Htd.
    destruct hd; [done|discriminate Hz]. }
  destruct buf as [buf|]; [|injection Hp as _ <- <-; by split].
  destruct (Hf buf eq_refl) as (data & k & m & Hw & Hcap & Hsub). simpl in Hw, Hcap, Hsub.
  assert ((buf +:+ hd) +:+ tl = substring k m data) as Hsub'
    by (by rewrite string_app_assoc, Htd).
  destruct (Z.eqb_spec (Z.of_nat (String.length (buf +:+ hd))) cap) as [Hfull|Hnot];
    injection Hp as _ <- <-; (split; [|try done]).
  - done.
  - intros key' mf. destruct (decide (key = key')) as [<-|Hne].
    + rewrite lookup_insert_eq. intros [= <-]. cbn [mf_data mf_content_type mf_last_modified].
      rewrite (collected (buf +:+ hd) tl k m data); [done|done|lia].
    + rewrite lookup_insert_ne by done. apply Hc.
  - intros buf0 [= <-]. by exists data, k, m.
Qed.

(** ** Which answers start a stream *)

Fixpoint caching (body : Body) : bool :=
  match body with
  | BodyMemFile _ _ _ _ _ _ => true
  | BodyEncoded _ _ inner => caching inner
  | _ => false
  end.

Lemma plain_stream body plan : caching body = false → FileCache.stream_of body plan = [].
Proof. induction body; simpl; done || auto. Qed.

Lemma check_body c lm r : Conditional.check c lm = Conditional.NoBody r → rs_body r = BodyEmpty.
Proof.
  unfold Conditional.check, Conditional.check_unmodified_since, Conditional.check_modified_since,
    Conditional.check_if_range. repeat case_match; intros; by simplify_eq/=.
Qed.

Lemma finish_body body s e len ct lm :
  rs_body (Respond.finish body s e len ct lm) = body ∨
  rs_body (Respond.finish body s e len ct lm) = BodyEmpty.
Proof.
  unfold Respond.finish. destruct (negb _); [destruct (enc_content_range s e len)|]; destruct lm; auto.
Qed.

Lemma mem_response_plain mf h r :
  Respond.mem_response_body mf h = Ok r →
  caching (rs_body r) = false ∧ ∃ s, body_bytes (rs_body r) = Some s.
Proof.
  unfold Respond.mem_response_body.
  destruct (Conditional.check _ _) as [r'|range] eqn:Ec;
    [intros [= <-]; rewrite (check_body _ _ _ Ec); by split; [|eexists]|].
  destruct (Bytes.bytes_range _ _) as [[s e]|]; [|intros [= <-]; by split; [|eexists]]. intros [= <-].
  destruct (finish_body (BodyFile (slice (mf_data mf) s (wrap64 (e - s))) (mf_buf_size mf)) s e
    (Z.of_nat (String.length (mf_data mf))) (mf_content_type mf) (mf_last_modified mf)) as [-> | ->];
    by split; [|eexists].
Qed.

Lemma listing_plain opts p r :
  StaticFiles.listing_reply fs opts p = Ok r → caching (rs_body r) = false.
Proof.
  unfold StaticFiles.listing_reply. destruct (match StaticFiles.dir_listing_download opts with [] => _ | _ => _ end).
  - destruct (Path.file_name _); [|done]. intros [= <-]. unfold Download.archive_reply.
    by repeat case_match.
  - unfold DirListing.auto_index. destruct (Fs.read_dir _ _) as [l|[]]; [|done..].
    destruct (DirListing.read_dir_entries _ _) as [r'|] eqn:Er; [|done]. intros [= <-].
    unfold DirListing.read_dir_entries in Er. apply bind_Ok in Er as (root & _ & Er).
    destruct (DirListing.read_entries _ _ _ _ _ _) as [[dc fc] es].
    apply bind_Ok in Er as ([r0 content] & Hr0 & Er).
    assert (rs_body r0 = BodyEmpty) as Hb0.
    { destruct (DirListing.content_format _); [by simplify_eq|].
      apply bind_Ok in Hr0 as (? & _ & [= <- _]). done. }
    destruct (DirListing.is_head _); injection Er as <-; [|done]. simpl. by rewrite Hb0.
Qed.

(** The stream of a file's answer reads a part of the file. *)
Lemma response_stream file path m h mc r plan s :
  Respond.response_body file path m (Conditional.new h) mc = Ok r →
  s ∈ FileCache.stream_of (rs_body r) plan →
  ∃ data k n,
    fl_data file = Some data ∧ Path.to_str path = Some (MemCache.ms_key s) ∧
    MemCache.ms_content_type s = Respond.content_type_of path ∧
    MemCache.ms_last_modified s = Respond.modified_of m ∧ MemCache.ms_capacity s = md_len m ∧
    MemCache.ms_buf s = Some "" ∧ Stream.rd_data (MemCache.ms_reader s) = substring k n data.
Proof.
  unfold Respond.response_body.
  destruct (Conditional.check _ _) as [r'|range] eqn:Ec.
  { intros [= <-]. rewrite (check_body _ _ _ Ec). by intros ?%elem_of_nil. }
  destruct (Bytes.bytes_range _ _) as [[i e]|]; [|intros [= <-]; by intros ?%elem_of_nil].
  cbn zeta. set (body := Respond.file_body _ _ _ _ _ _ _). intros [= <-].
  destruct (finish_body body i e (md_len m) (Respond.content_type_of path) (Respond.modified_of m))
    as [-> | ->]; [|by intros ?%elem_of_nil].
  unfold body, Respond.file_body. destruct (fl_data file) as [data|]; [|by intros ?%elem_of_nil].
  destruct mc as [o|]; [|by intros ?%elem_of_nil].
  destruct (_ <=? _)%Z; [|by intros ?%elem_of_nil].
  destruct (Path.to_str path) as [key|]; [|by intros ?%elem_of_nil].
  intros ->%list_elem_of_singleton. by eexists data, _, _.
Qed.

(** ** Requests *)

(** An index file that can be served: a plain name, not hidden. *)
Definition index_name (i : string) : Prop :=
  Path.proper_name i ∧ (hide = true → Str.starts_with_char "." i = false).

(** The options of the requests of one service: its roots, no pre-compressed variants. *)
Record served (opts : StaticFiles.HandleOpts) : Prop := {
  sv_base : StaticFiles.base_path opts ∈ roots;
  sv_variants : StaticFiles.compression_static opts = false;
  sv_hidden : StaticFiles.ignore_hidden_files opts = hide;
  sv_index : Forall index_name (StaticFiles.index_files opts);
}.

Lemma normals_inj ns ns' : normals ns = normals ns' → ns = ns'.
Proof. unfold normals. revert ns'. induction ns; intros [|n ns'] He; simplify_eq/=; f_equal; auto. Qed.

Lemma index_names l : Forall index_name l → Forall Path.proper_name l.
Proof. intros Hl. apply (Forall_impl _ _ _ Hl). by intros i [? _]. Qed.

Lemma hidden_app ns ns' :
  PathExt.is_hidden (normals (ns ++ ns')) = PathExt.is_hidden (normals ns) || PathExt.is_hidden (normals ns').
Proof. unfold PathExt.is_hidden, normals. by rewrite fmap_app, omap_app, existsb_app. Qed.

Lemma shown_app ns ns' : shown (ns ++ ns') ↔ shown ns ∧ shown ns'.
Proof.
  unfold shown. rewrite hidden_app. destruct hide; [|by intuition].
  destruct (PathExt.is_hidden (normals ns)), (PathExt.is_hidden (normals ns')); simpl; intuition.
Qed.

Lemma shown_snoc ns n :
  shown ns → (hide = true → Str.starts_with_char "." n = false) → shown (ns ++ [n]).
Proof.
  intros Hns Hn Hh. rewrite normals_snoc. apply is_hidden_snoc; auto.
Qed.

Lemma below_root_parsed base names :
  plain_roots → base ∈ roots → Forall Path.proper_name names → parsed (base ++ normals names).
Proof.
  intros Hroots Hb Hn. destruct (pr_tree Hroots base Hb) as (Hp & b & Hag).
  apply parsed_app; [done| |exact (ag_base _ _ _ _ Hag)]. by apply Forall_fmap.
Qed.

(** What is shown from one root is shown from every other. *)
Lemma shown_at base names base' ns' :
  plain_roots → base ∈ roots → base' ∈ roots →
  base' ++ normals ns' = base ++ normals names → shown ns' → shown names.
Proof.
  intros Hroots Hb Hb' He Hs. unfold normals in He.
  apply app_eq_inv in He as [(k & -> & Hk)|(k & -> & Hk)].
  - apply fmap_app_inv in Hk as (l1 & l2 & -> & <-%normals_inj & ->).
    apply shown_app. split; [|done]. exact (pr_nested Hroots base l1 Hb Hb').
  - apply fmap_app_inv in Hk as (l1 & l2 & -> & <-%normals_inj & ->). by apply shown_app in Hs as [_ ?].
Qed.

(** A key names one file, whichever root it is reached from. *)
Lemma whole_file_at base names key data ct lm :
  plain_roots → base ∈ roots → Forall Path.proper_name names →
  Path.to_str (base ++ normals names) = Some key → whole_file key data ct lm →
  shown names ∧
  ∃ m, Fs.metadata fs (base ++ normals names) = Ok m ∧
    Fs.open fs (base ++ normals names) = Ok (mkFile (Some data)) ∧
    ct = Respond.content_type_of (base ++ normals names) ∧ lm = Respond.modified_of m.
Proof.
  intros Hroots Hb Hn Hk (path & m & (base' & ns' & Hb' & Hn' & _ & Hs' & ->) & Hk' & Hrest).
  assert (base' ++ normals ns' = base ++ normals names) as He.
  { eapply to_str_inj; [..|exact Hk'|exact Hk]; by apply below_root_parsed. }
  split; [exact (shown_at base names base' ns' Hroots Hb Hb' He Hs')|]. exists m. by rewrite <- He.
Qed.

Lemma file_stream opts p m r plan s :
  below_root p →
  (Fs.metadata fs p = Ok m ∨ ∃ e, Fs.open fs p = Err e) →
  StaticFiles.file_reply fs (StaticFiles.headers opts) p m None (StaticFiles.memory_cache opts) = Ok r →
  s ∈ FileCache.stream_of (rs_body r) plan → faithful s.
Proof.
  intros Hp Hm. unfold StaticFiles.file_reply. cbn [default].
  destruct (Fs.open fs p) as [file|[]] eqn:Eo; [|done..]. destruct Hm as [Hm|[e He]]; [|done].
  intros Hr Hs. destruct (response_stream _ _ _ _ _ _ _ _ Hr Hs)
    as (data & k & n & Hd & Hkey & Hct & Hlm & Hcap & Hbuf & Hrest).
  destruct file as [d]. simpl in Hd. subst d. destruct (open_metadata fs _ _ Eo) as (m' & Hm' & _ & Hlen).
  rewrite Hm in Hm'. injection Hm' as <-. intros buf Hb. rewrite Hbuf in Hb. injection Hb as <-.
  exists data, k, n. split; [|by rewrite Hcap, Hlen]. by exists p, m.
Qed.

(** What passes the check for hidden names is not hidden. *)
Lemma access_shown opts names :
  StaticFiles.ignore_hidden_files opts = hide →
  StaticFiles.check_access fs opts (StaticFiles.base_path opts ++ normals names) = Ok () → shown names.
Proof.
  intros Hh Hacc Ht. rewrite <- Hh in Ht.
  destruct (PathExt.is_hidden (normals names)) eqn:E; [|done]. exfalso. revert Hacc.
  unfold StaticFiles.check_access. rewrite strip_prefix_app. cbn [Res.of_option Res.bind].
  rewrite Ht, E. cbn [andb].
  do 2 (destruct (Res.ok (Fs.canonicalize _ _)); [|done]; cbn [Res.of_option Res.bind]).
  destruct (negb _); [done|]. by destruct (if StaticFiles.disable_symlinks opts then _ else _) as [[|]|].
Qed.

(** The check is made for the file, or for the directory whose index it is; the pages beside hidden
    directories are the exception, and there are none. *)
Lemma checked_shown opts b ns fm ns' :
  let base := StaticFiles.base_path opts in
  let path := StaticFiles.fm_file_path fm in
  plain_roots → served opts → agree fs fs base b → Forall Path.proper_name ns →
  StaticFiles.get_composed_file_metadata fs (base ++ normals ns) (StaticFiles.headers opts) false
    (StaticFiles.index_files opts) = Ok fm →
  StaticFiles.check_access fs opts (if StaticFiles.fm_is_dir fm then Path.pop path else path) = Ok () →
  path = base ++ normals ns' → shown ns'.
Proof.
  intros base path Hroots [Hb _ Hh Hidx] Hag Hns Hfm Hacc Hp. unfold path in *. clear path.
  rewrite Hp in Hacc. destruct (StaticFiles.fm_is_dir fm) eqn:Ed; [|by apply (access_shown opts)].
  assert (∀ init n, ns' = init ++ [n] → (hide = true → Str.starts_with_char "." n = false) → shown ns')
    as Hlast.
  { intros init n -> Hn. apply shown_snoc; [|done]. rewrite below_pop in Hacc. by apply (access_shown opts). }
  destruct (composed_shape fs base b Hag ns _ _ fm Hns (index_names _ Hidx) Hfm Ed)
    as [(i & Hi & He)|(init & n & m & m' & -> & Hm & Hd & Hpage & He)];
    rewrite Hp in He; apply app_inv_head, normals_inj in He; subst ns'.
  - eapply Hlast; [done|]. intros Ht. destruct Hi as [Hi| ->]; [|done].
    rewrite Forall_forall in Hidx. by apply Hidx.
  - eapply Hlast; [done|]. intros Ht. destruct (Str.starts_with_char "." n) eqn:En.
    + by destruct (pr_pages Hroots Ht base init n m Hb En Hm Hd) as [e Hpe]; rewrite Hpage in Hpe.
    + apply Forall_app in Hns as [_ Hn]. pose proof (Forall_inv Hn) as (? & _).
      by destruct n.
Qed.

Lemma request_faithful st opts answer plan :
  plain_roots → served opts → StaticFiles.handle fs st opts = Ok answer →
  Forall faithful (FileCache.stream_of (rs_body (StaticFiles.sf_resp answer)) plan).
Proof.
  intros Hroots Hsv. pose proof Hsv as [Hb Hcs _ Hidx%index_names]. unfold StaticFiles.handle.
  destruct (negb (is_allowed _)); [done|]. destruct (pr_tree Hroots _ Hb) as (_ & b & Hag). set (base := StaticFiles.base_path opts) in *.
  destruct (lookup_below base opts eq_refl) as (ns & -> & Hns). cbn [Res.bind].
  destruct (match StaticFiles.memory_cache opts with
            | Some _ => Respond.get_or_acquire st (base ++ normals ns) (StaticFiles.headers opts)
            | None => None end) as [r|] eqn:Ehit.
  { destruct (StaticFiles.memory_cache opts); [|done]. unfold Respond.get_or_acquire in Ehit.
    destruct (Path.to_str _); [|done]. destruct (st !! _) as [mf|]; [|done]. injection Ehit as <-.
    destruct (Respond.mem_response_body mf _) as [r|] eqn:Er; [|done]. intros [= <-]. simpl.
    by rewrite (plain_stream _ plan (proj1 (mem_response_plain _ _ _ Er))). }
  rewrite Hcs. intros Hok. apply bind_Ok in Hok as (fm & Hfm & Hok).
  destruct (composed_metadata fs base b Hag ns _ _ fm Hns Hidx Hfm) as [Hv Hm].
  destruct (composed_agree fs fs base b Hag ns (StaticFiles.headers opts) false _ Hns Hidx) as [_ Hbelow].
  specialize (Hbelow fm Hfm). unfold StaticFiles.handle_file in Hok. cbv zeta in Hok.
  apply bind_Ok in Hok as ([] & Hacc & Hok). rewrite Hv in Hok.
  assert (∀ r, caching (rs_body r) = false → ∀ p, StaticFiles.mkSfr r p = answer →
            Forall faithful (FileCache.stream_of (rs_body (StaticFiles.sf_resp answer)) plan)) as Hplain.
  { intros r Hr p <-. simpl. by rewrite plain_stream. }
  destruct (_ && _ && _).
  { apply bind_Ok in Hok as (r & Hr & [= <-]). eapply (Hplain r); [|done].
    unfold StaticFiles.slash_redirect in Hr. by destruct (hv_from_str _); simplify_eq. }
  destruct (is_options _); [injection Hok as <-; by eapply (Hplain StaticFiles.options_reply)|].
  destruct (_ && _ && _).
  { apply bind_Ok in Hok as (r & Hr & [= <-]). eapply (Hplain r); [|done]. by eapply listing_plain. }
  apply bind_Ok in Hok as (r & Hr & [= <-]). apply Forall_forall. intros s Hs.
  eapply (file_stream opts (StaticFiles.fm_file_path fm) (StaticFiles.fm_metadata fm)); [|done|exact Hr|exact Hs].
  destruct Hbelow as [(ns' & Hp & Hns' & Hne) _]. exists base, ns'. split_and!; try done.
  by eapply (checked_shown opts b ns).
Qed.

(** ** Every state of the cache *)

Definition sound (c : FileCache.Sys) : Prop :=
  coherent (FileCache.store c) ∧ Forall faithful (FileCache.streams c).

Lemma step_sound c c' : plain_roots → FileCache.step fs served c c' → sound c → sound c'.
Proof.
  intros Hroots Hs [Hc Hf]. destruct Hs as [st ss opts answer plan Hsv Hans|st ss i s chunk s' st' Hi Hp|st ss i|st ss key];
    simpl in *; split; simpl; try done.
  - apply Forall_app. split; [done|]. by eapply request_faithful.
  - by destruct (poll_faithful s st chunk s' st' Hp (Forall_lookup_1 _ _ _ _ Hf Hi) Hc).
  - apply Forall_insert; [done|].
    by destruct (poll_faithful s st chunk s' st' Hp (Forall_lookup_1 _ _ _ _ Hf Hi) Hc).
  - rewrite delete_take_drop. apply Forall_app. split; [by apply Forall_take|by apply Forall_drop].
  - intros key' mf. destruct (decide (key = key')) as [<-|Hne]; [by rewrite lookup_delete_eq|].
    rewrite lookup_delete_ne by done. apply Hc.
Qed.

Lemma steps_sound c :
  plain_roots → rtc (FileCache.step fs served) (FileCache.mkSys ∅ []) c → sound c.
Proof.
  intros Hroots Hr. assert (sound (FileCache.mkSys ∅ [])) as Hstart by (split; [by intros key mf|done]).
  induction Hr as [|c1 c2 c3 Hs _ IH]; [done|]. apply IH. by eapply step_sound.
Qed.

(** The answer without the cache to a request for a file that can be read. *)
Lemma uncached_file base b opts ns m data :
  agree fs fs base b → StaticFiles.base_path opts = base → served opts → shown ns →
  StaticFiles.lookup_path opts = Ok (base ++ normals ns) →
  is_allowed (StaticFiles.method opts) = true → is_options (StaticFiles.method opts) = false →
  Fs.metadata fs (base ++ normals ns) = Ok m →
  Fs.open fs (base ++ normals ns) = Ok (mkFile (Some data)) →
  StaticFiles.handle fs ∅ opts =
    let? resp := Respond.response_body (mkFile (Some data)) (base ++ normals ns) m
                   (Conditional.new (StaticFiles.headers opts)) (StaticFiles.memory_cache opts) in
    Ok (StaticFiles.mkSfr resp (base ++ normals ns)).
Proof.
  intros Hag Hb [_ Hcs Hh _] Hs Hl Hall Hopt Hm Ho. unfold StaticFiles.handle. rewrite Hall, Hl.
  cbn [negb Res.bind].
  assert (match StaticFiles.memory_cache opts with
          | Some _ => Respond.get_or_acquire ∅ (base ++ normals ns) (StaticFiles.headers opts)
          | None => None end = None) as ->.
  { destruct (StaticFiles.memory_cache opts); [|done]. unfold Respond.get_or_acquire.
    by destruct (Path.to_str _). }
  destruct (open_metadata fs _ _ Ho) as (m' & Hm' & Hdir & _). rewrite Hm in Hm'. injection Hm' as <-.
  unfold StaticFiles.get_composed_file_metadata, Meta.try_metadata. rewrite Hm, Hdir, Hcs.
  cbn [StaticFiles.variant_of fmap option_fmap option_map Res.bind]. unfold StaticFiles.handle_file.
  cbn [StaticFiles.fm_file_path StaticFiles.fm_is_dir StaticFiles.precompressed_variant
       StaticFiles.fm_metadata andb].
  rewrite (plain_access fs base b Hag opts ns m Hb (λ Ht, Hs (eq_trans (eq_sym Hh) Ht)) Hm), Hopt. cbn [Res.bind].
  unfold StaticFiles.file_reply. cbn [default]. by rewrite Ho.
Qed.

Lemma coherent_alike st opts :
  plain_roots → coherent st → served opts → is_options (StaticFiles.method opts) = false →
  alike (StaticFiles.handle fs st opts) (StaticFiles.handle fs ∅ opts).
Proof.
  intros Hroots Hc Hsv Hopt. destruct (is_allowed (StaticFiles.method opts)) eqn:Hall.
  2: { unfold StaticFiles.handle. by rewrite Hall. }
  pose proof (sv_base _ Hsv) as Hb. destruct (pr_tree Hroots _ Hb) as (_ & b & Hag).
  destruct (lookup_below _ opts eq_refl) as (ns & Hl & Hns).
  destruct (StaticFiles.memory_cache opts) as [mc|] eqn:Emc.
  2: { unfold StaticFiles.handle. rewrite Emc. apply alike_refl. }
  destruct (Path.to_str (StaticFiles.base_path opts ++ normals ns)) as [key|] eqn:Ek.
  2: { unfold StaticFiles.handle, Respond.get_or_acquire. rewrite Hl. cbn [Res.bind]. rewrite Emc, Ek.
       apply alike_refl. }
  destruct (st !! key) as [mf|] eqn:Est.
  2: { unfold StaticFiles.handle, Respond.get_or_acquire. rewrite Hl. cbn [Res.bind].
       rewrite Emc, Ek, Est, lookup_empty. apply alike_refl. }
  destruct (whole_file_at _ ns key _ _ _ Hroots Hb Hns Ek (Hc key mf Est)) as (Hshown & m & Hm & Ho & Hct & Hlm).
  rewrite (uncached_file _ b opts ns m (mf_data mf)) by done.
  unfold StaticFiles.handle, Respond.get_or_acquire. rewrite Hall, Hl. cbn [negb Res.bind].
  rewrite Emc, Ek, Est. destruct mf as [data bs ct lm]. simpl in Hct, Hlm, Ho |- *. subst ct lm.
  destruct (open_metadata fs _ _ Ho) as (m' & Hm' & _ & Hlen). rewrite Hm in Hm'. injection Hm' as <-.
  destruct (cache_hit_alike data (StaticFiles.base_path opts ++ normals ns) m bs
    (StaticFiles.headers opts) (Some mc) Hlen) as (r1 & r2 & Hr1 & -> & Hs & Hh & Hbody).
  rewrite Hr1. simpl. split; [done|]. destruct (mem_response_plain _ _ _ Hr1) as [_ [s Hs1]].
  split_and!; [done..|]. eapply SameData; [exact Hs1|]. by rewrite <- Hbody.
Qed.
End Coherence.

(** The in-memory cache cannot be observed at the static handler.  Take any run on plain roots,
    without pre-compressed variants: requests answered from files or from the cache, bodies polled in any order and
    chunking, clients that leave in the middle, ranges, entries that expire at any time.  Whatever
    is in the store then, every entry is a whole file under its own path, with the content type and
    date it is served with; and every [GET] or [HEAD] (conditions and ranges included, and errors)
    is answered as if there were no cache: same path, status and headers, same bytes.
    [CachedService] says the same of the whole pipeline. *)
Theorem cache_transparent `{HeadersLib, CodecLib} (fs : Fs.t) (roots : list Path.t)
    (hide : bool) (c : FileCache.Sys) (opts : StaticFiles.HandleOpts)
    (Hroots : plain_roots fs roots hide)
    (Hreach : rtc (FileCache.step fs (served roots hide)) (FileCache.mkSys ∅ []) c)
    (Hserved : served roots hide opts) (Hmethod : is_options (StaticFiles.method opts) = false) :
  coherent fs roots hide (FileCache.store c) ∧
  alike (StaticFiles.handle fs (FileCache.store c) opts) (StaticFiles.handle fs ∅ opts).
Proof.
  destruct (steps_sound fs roots hide c Hroots Hreach) as [Hc _]. split; [done|].
  by apply (coherent_alike fs roots hide).
Qed.

(** * At work *)

Module CachedRef.
Definition opts (method path : string) : StaticFiles.HandleOpts :=
  Handler.handle_opts (IsoRef.opts {{ memory_cache := Some (mkMemCacheOpts 1000);
                                      ignore_hidden_files := true; compression_static := false }})
    (HandlerRef.req method path) (Path.parse "/srv/www") path.

(** The root of the server, and that of a virtual host inside it. *)
Definition roots : list Path.t := [Path.parse "/srv/www"; Path.parse "/srv/www/docs"].

(** [a.txt] once it was read. *)
Definition entry : MemFile := mkMemFile "hello" 5 "text/plain" (Some 5%Z).
Definition store : gmap string MemFile := {[ "/srv/www/a.txt" := entry ]}.
(** Its stream: what is left to read, and what was collected. *)
Definition stream (rest : string) (plan : list nat) (buf : option string)
    : MemCache.MemCacheFileStream :=
  MemCache.mkMemStream (Stream.mkReader rest plan) 5 "/srv/www/a.txt" "text/plain" (Some 5%Z) buf 5.
End CachedRef.

Lemma iso_tree base :
  base ∈ CachedRef.roots →
  parsed base ∧ ∃ b, agree IsoRef.fs IsoRef.fs base b ∧ b ∈ [["srv"; "www"]; ["srv"; "www"; "docs"]].
Proof.
  unfold CachedRef.roots. rewrite !elem_of_cons, elem_of_nil. intros Hb. split.
  - destruct Hb as [->|[->|[]]]; apply parse_parsed.
  - destruct Hb as [->|[->|[]]]; [exists ["srv"; "www"]|exists ["srv"; "www"; "docs"]];
      (split; [|by repeat constructor]);
      (split; try done; try (by eexists); intros names t m; apply iso_no_links).
Qed.

(** No name of the tree is hidden. *)
Lemma iso_no_hidden p n nd :
  Fs.nodes IsoRef.fs !! (p ++ [n]) = Some nd → Str.starts_with_char "." n = false.
Proof.
  intros Hp. apply elem_of_list_to_map_2 in Hp. unfold IsoRef.tree in Hp.
  repeat (apply elem_of_cons in Hp as [Hp|Hp];
          [apply (f_equal fst) in Hp; cbn [fst] in Hp;
           repeat (destruct p as [|? p]; simplify_eq/=; try done); fail|]).
  by apply elem_of_nil in Hp.
Qed.

Lemma iso_plain hide : plain_roots IsoRef.fs CachedRef.roots hide.
Proof.
  split.
  - intros base Hb. destruct (iso_tree base Hb) as (? & b & ? & _). eauto.
  - intros base names Hb Hn _. revert Hb Hn. unfold CachedRef.roots.
    rewrite !elem_of_cons, !elem_of_nil. 
    intros [->|[->|[]]] [Hn|[Hn|[]]]; vm_compute in Hn; simplify_eq;
      do 2 (destruct names as [|? names]; simplify_eq/=; try done).
  - intros _ base names n m Hb Hdot Hm _. exfalso. destruct (iso_tree base Hb) as (_ & b & Hag & _).
    pose proof (metadata_resolves _ base b Hag _ m Hm) as Hr. revert Hm.
    unfold Fs.metadata, Fs.get. rewrite Hr. cbn [Res.bind]. 
    destruct (Fs.node_at IsoRef.fs _) as [nd|] eqn:En; [|done]. intros _.
    rewrite app_assoc in En. 
    assert (Fs.nodes IsoRef.fs !! ((b ++ names) ++ [n]) = Some nd) as Hnd.
    { revert En. unfold Fs.node_at. by destruct ((b ++ names) ++ [n]) eqn:E; [apply app_nil in E as [_ ?]|]. }
    apply iso_no_hidden in Hnd. by rewrite Hdot in Hnd.
Qed.

Lemma iso_served method path : served CachedRef.roots true (CachedRef.opts method path).
Proof. split; try done; [left|]. constructor; [by split; [split_and!|]|constructor]. Qed.

(** A request, and two polls of its body, the first of three bytes. *)
Lemma cached_reach :
  rtc (FileCache.step IsoRef.fs (served CachedRef.roots true)) (FileCache.mkSys ∅ [])
    (FileCache.mkSys CachedRef.store [CachedRef.stream "" [] None]).
Proof.
  assert (Res.map (λ a, FileCache.stream_of (rs_body (StaticFiles.sf_resp a)) [3])
            (StaticFiles.handle IsoRef.fs ∅ (CachedRef.opts "GET" "/a.txt")) =
          Ok [CachedRef.stream "hello" [3] (Some "")]) as Hs by (vm_compute; reflexivity).
  apply map_Ok in Hs as (a & Ha & Hs).
  eapply rtc_l; [exact (FileCache.Request _ _ ∅ [] _ a [3] (iso_served _ _) Ha)|].
  rewrite <- Hs. cbn [app].
  eapply rtc_l.
  { exact (FileCache.Poll _ _ ∅ [CachedRef.stream "hello" [3] (Some "")] 0 _ (Some "hel")
             (CachedRef.stream "lo" [] (Some "hel")) ∅ eq_refl eq_refl). }
  apply rtc_once.
  exact (FileCache.Poll _ _ ∅ [CachedRef.stream "lo" [] (Some "hel")] 0 _ (Some "lo")
           (CachedRef.stream "" [] None) CachedRef.store eq_refl eq_refl).
Qed.

Lemma cache_transparent_witness :
  coherent IsoRef.fs CachedRef.roots true CachedRef.store ∧
  alike (StaticFiles.handle IsoRef.fs CachedRef.store (CachedRef.opts "GET" "/a.txt"))
        (StaticFiles.handle IsoRef.fs ∅ (CachedRef.opts "GET" "/a.txt")).
Proof.
  exact (cache_transparent IsoRef.fs CachedRef.roots true
    (FileCache.mkSys CachedRef.store [CachedRef.stream "" [] None]) (CachedRef.opts "GET" "/a.txt")
    (iso_plain true) cached_reach (iso_served _ _) eq_refl).
Defined.

(** The exceptions.  The cache is asked before [OPTIONS] is told apart, so a cached file is sent
    to a client that asks what is allowed. *)
Example options_of_cached_file :
  let status st := Res.map (λ a, rs_status (StaticFiles.sf_resp a))
                     (StaticFiles.handle IsoRef.fs st (CachedRef.opts "OPTIONS" "/a.txt")) in
  status ∅ = Ok 204%Z ∧ status CachedRef.store = Ok 200%Z.
Proof. split; reflexivity. Qed.

(** And a hidden file is served, and then cached, as the page of a directory of its name: the
    check is made for the parent. *)
Example hidden_page_served :
  let fs := Fs.mkFs (<[["srv"; "www"; ".x.html"] := NFile "secret" (Some 1000000000%Z) true]>
                     (<[["srv"; "www"; ".x"] := NDir [] (Some 1000000000%Z) true]> (Fs.nodes IsoRef.fs)))
              ["srv"] 4096 in
  let o := IsoRef.opts {{ ignore_hidden_files := true }} in
  let status path := IsoRef.status fs o (HandlerRef.req "GET" path) in
  status "/.x.html" = Ok 404%Z ∧ status "/.x/" = Ok 200%Z.
Proof. split; reflexivity. Qed.
