(* ===== verification/CachedService.v ===== *)
(** The service with its in-memory cache: [handler.rs] and [mem_cache/] together.

    [CachedService.step] interleaves whole requests (gate, proxy, rules, files, post-processing,
    instrumentation) with the polls of the bodies they answered with, encoded or not, clients that
    go away, entries that expire and tunnels that end.  Seen from its cache the service is
    [FileCache], so the cache stays what it is there. *)
From Stdlib Require Import ZArith Lia Ascii String.
From stdpp Require Import base list strings gmap relations.
From coqutil Require Import Datatypes.RecordSetters.
Import DoubleBraceUpdate.
From S2P Require Import Prelude Http Libs RefLibs Path Fs Quality Opts Pages Compression Ranges DirListing.
From S2P Require Import StaticFiles Links Cors Routing Policies Metrics Balancer Proxy Handler Head Isolation Cached.
Local Open Scope string_scope.
Local Open Scope list_scope.
Local Open Scope nat_scope.

Module CachedService.
Section Service.
Context `{HeadersLib, CodecLib, GlobLib, RegexLib}.
Context (encode_text : MetricsState → string) (fs : Fs.t).

(** What requests share: options and proxy state, collectors, the cache. *)
Record Sys := mkSys { world : World; metrics : MetricsState; cache : FileCache.Sys }.

(** What an upstream sends is not a stream into the cache. *)
Definition upstream_bodies (client_request : ProxyHttpClient → Request → result error Response)
    : Prop :=
  ∀ client req resp, client_request client req = Ok resp → caching (rs_body resp) = false.

(** A request is handled, the upstreams answering it this time as [client_request]; the cache moves
    on its own; a tunnel ends. *)
Inductive step : Sys → Sys → Prop :=
| Request client_request req remote_addr elapsed plan w m st ss resp req' w' m' :
    upstream_bodies client_request →
    Handler.handle client_request encode_text fs st req remote_addr elapsed w m =
      (Ok resp, req', w', m') →
    step (mkSys w m (FileCache.mkSys st ss))
         (mkSys w' m' (FileCache.mkSys st (ss ++ FileCache.stream_of (rs_body resp) plan)))
| Cache w m c c' : FileCache.step fs (λ _, False) c c' → step (mkSys w m c) (mkSys w m c')
| TunnelEnded k w m c : step (mkSys w m c) (mkSys (Proxy.tunnel_ended k w) m c).
End Service.
End CachedService.

(** * What becomes of a body *)

(** [body'] streams what [body] streams, or nothing. *)
Definition carried (body body' : Body) : Prop :=
  ∀ plan, FileCache.stream_of body' plan = FileCache.stream_of body plan ∨
          FileCache.stream_of body' plan = [].

Lemma carried_refl body : carried body body.
Proof. by left. Qed.

Lemma carried_plain body body' : caching body' = false → carried body body'.
Proof. right. by apply plain_stream. Qed.

Lemma carried_trans b1 b2 b3 : carried b1 b2 → carried b2 b3 → carried b1 b3.
Proof.
  intros Ha Hb plan. destruct (Hb plan) as [-> | ->]; [|by right]. apply Ha.
Qed.

Section Bodies.
Context `{HeadersLib, CodecLib, GlobLib, RegexLib}.

(** The outcomes of one step of post-processing on two similar responses. *)
Definition similar_step {E} (f : Response → result E Response) : Prop :=
  ∀ r r', similar r r' → ∃ a a', f r = Ok a ∧ f r' = Ok a' ∧ similar a a' ∧
    carried (rs_body r) (rs_body a).

Lemma blind_step {E} (f : Response → result E Response) :
  (∀ r, ∃ a, f r = Ok a) → blind f → similar_step f.
Proof.
  intros Htotal Hblind r r' (Hs & Hh & Hb). destruct (Htotal r) as [a Ha].
  assert (r' = set_body (rs_body r') r) as Hr'.
  { destruct r, r'. simpl in *. by subst. }
  pose proof (blind_body f r a Hblind Ha) as Hself.
  exists a, (set_body (rs_body r') a). split; [done|]. split; [by rewrite Hr', Hblind, Ha|].
  rewrite Hself. split; [|apply carried_refl]. split_and!; [done..|by rewrite Hself].
Qed.

Lemma step_bind {E} (f g : Response → result E Response) :
  similar_step f → similar_step g → similar_step (λ r, let? x := f r in g x).
Proof.
  intros Hf Hg r r' Hr. destruct (Hf r r' Hr) as (a & a' & -> & -> & Ha & Hc).
  destruct (Hg a a' Ha) as (x & x' & Hx & Hx' & Hs & Hc'). exists x, x'.
  split_and!; [exact Hx|exact Hx'|done|]. by eapply carried_trans.
Qed.

Lemma step_Ok {E} : similar_step (@Ok E Response).
Proof. intros r r' Hr. exists r, r'. split; [done|]. split; [done|]. split; [done|apply carried_refl]. Qed.

Lemma fallback_step o req : similar_step (FallbackPage.post_process o req).
Proof.
  intros r r' (Hs & Hh & Hb). unfold FallbackPage.post_process. rewrite <- Hs.
  destruct (_ && _ && _); eexists _, _; (split; [done|]); (split; [done|]).
  - split; [apply similar_refl|by apply carried_plain].
  - split; [by split_and!|apply carried_refl].
Qed.

Lemma encode_step coding default_level level :
  similar_step (λ r, @Ok error _ (Compression.encode coding default_level r level)).
Proof.
  intros [st h b] [st' h' b'] (Hs & Hh & Hb). simpl in *. subst st' h'.
  eexists _, _. split; [done|]. split; [done|]. split.
  - split_and!; [done..|]. by apply SameEncoded.
  - intros plan. by left.
Qed.

Lemma auto_step method headers level : similar_step (Compression.auto method headers level).
Proof.
  intros r r' Hr. unfold Compression.auto. pose proof Hr as (_ & Hh & _). rewrite <- Hh.
  destruct (_ || _); [by apply step_Ok|].
  destruct (Compression.get_preferred_encoding headers) as [c|]; [|by apply step_Ok].
  destruct (match get_content_type (rs_headers r) with Some _ => _ | None => _ end); [by apply step_Ok|].
  destruct c; (by apply step_Ok) || by apply (encode_step _ _ level).
Qed.

Lemma compression_step fs o req : similar_step (Compression.post_process fs o req).
Proof.
  intros r r' Hr. unfold Compression.post_process, rs_get. pose proof Hr as (_ & Hh & _).
  rewrite <- Hh. destruct (compression o); cbn [negb]; [|by apply step_Ok].
  destruct (hm_contains _ _); [by apply step_Ok|]. cbv zeta.
  set (v := Compression.vary_value _).
  assert (similar (set_header "vary" v r) (set_header "vary" v r')) as Hv.
  { destruct Hr as (Hs & Hh' & Hb). unfold similar, set_header. simpl. by rewrite Hs, Hh'. }
  destruct (auto_step (rq_method req) (rq_headers req) (compression_level o) _ _ Hv)
    as (a & a' & -> & -> & Ha & Hc). by exists a, a'.
Qed.

Lemma post_process_step fs o req md fp :
  similar_step (λ r, Handler.post_process fs o req md r fp).
Proof.
  unfold Handler.post_process.
  apply step_bind; [apply fallback_step|].
  apply step_bind; [apply blind_step; [apply cors_post_Ok|auto with gate]|].
  apply step_bind; [apply blind_step; [|auto with gate]|].
  { intros r. unfold Markdown.post_process. repeat case_match; eauto. }
  apply step_bind; [apply blind_step; [|auto with gate]|].
  { intros r. unfold TextCharset.post_process. repeat case_match; eauto. }
  apply step_bind; [apply blind_step; [|auto with gate]|].
  { intros r. unfold CompressionStatic.post_process. repeat case_match; eauto. }
  apply step_bind; [apply compression_step|].
  do 2 (apply step_bind; [apply blind_step; [by eexists|auto with gate]|]).
  apply step_bind; [|apply step_Ok]. apply blind_step; [by eexists|auto with gate].
Qed.
End Bodies.

(** * The stages before the files *)

Section Stages.
Context `{HeadersLib, CodecLib, GlobLib, RegexLib}.
Context (client_request : ProxyHttpClient → Request → result error Response).
Context (encode_text : MetricsState → string) (fs : Fs.t).

(** An outcome that starts no stream. *)
Definition plain (x : result error Response) : Prop := ∀ r, x = Ok r → caching (rs_body r) = false.

Lemma error_page_plain uri method status p404 p50x :
  plain (ErrorPage.error_response fs uri method status p404 p50x).
Proof.
  unfold ErrorPage.error_response. intros r [= <-].
  by repeat (case_match; simpl).
Qed.

Lemma gate_plain o req m x : Handler.gate encode_text fs o req m = Some x → plain x.
Proof.
  unfold Handler.gate. destruct (negb _); [intros [= <-]; apply error_page_plain|].
  destruct (Health.pre_process o req) as [y|] eqn:E.
  { intros [= <-] r ->. unfold Health.pre_process in E. by repeat case_match; simplify_eq. }
  clear E. destruct (Metrics.pre_process encode_text o req m) as [y|] eqn:E.
  { intros [= <-] r ->. unfold Metrics.pre_process in E. by repeat case_match; simplify_eq. }
  clear E. destruct (CorsCheck.pre_process fs o req) as [y|] eqn:E.
  { intros [= <-]. unfold CorsCheck.pre_process in E. repeat case_match; simplify_eq;
      try apply error_page_plain; by intros ? [= <-]. }
  clear E. destruct (BasicAuth.pre_process fs o req) as [y|] eqn:E.
  { intros [= <-]. unfold BasicAuth.pre_process in E. repeat case_match; simplify_eq;
      try apply error_page_plain. intros r [= <-]. simpl. by destruct (is_head _). }
  clear E. unfold Maintenance.pre_process. destruct (maintenance_mode o); [|done].
  intros [= <-] r [= <-]. unfold Maintenance.get_response. by repeat case_match.
Qed.

Lemma redirects_plain o req x : Redirects.pre_process fs o req = Some x → plain x.
Proof.
  unfold Redirects.pre_process, Redirects.handle_error.
  repeat case_match; intros; simplify_eq; try apply error_page_plain; by intros ? [= <-].
Qed.

Lemma rewrites_plain o req x : (Rewrites.pre_process fs o req).1 = Some x → plain x.
Proof.
  unfold Rewrites.pre_process, Redirects.handle_error.
  repeat case_match; intros; simplify_eq/=; try apply error_page_plain; by intros ? [= <-].
Qed.

Lemma rewrites_method o req : rq_method (Rewrites.pre_process fs o req).2 = rq_method req.
Proof.
  unfold Rewrites.pre_process, Rewrites.adjust_host. by repeat (case_match; simpl).
Qed.

Lemma pre_process_plain req remote w x :
  CachedService.upstream_bodies client_request →
  (Proxy.pre_process client_request req remote w).1.1 = Some x → plain x.
Proof.
  intros Hup. unfold Proxy.pre_process, Proxy.forward_upgrade, Proxy.forward_upgrade_inner,
    Proxy.finish_upgrade, Proxy.forward_http, Proxy.send.
  assert (∀ c client r a, Res.context c (client_request client r) = Ok a → caching (rs_body a) = false)
    as Hsent.
  { intros c client r a Hr. destruct (client_request client r) as [a'|] eqn:Ha; [|done].
    injection Hr as <-. by eapply Hup. }
  repeat (case_match; simplify_eq/=); intros; simplify_eq/=; intros resp [= <-]; simpl; try done;
    by eapply Hsent.
Qed.
End Stages.

(** * The pipeline, up to the files *)

(** What a service needs to serve from [roots] through the cache, hiding the hidden files or not; a
    running service never changes it. *)
Record servable `{GlobLib, RegexLib, HttpLib} (roots : list Path.t) (hide : bool)
    (o : RequestHandlerOpts) : Prop := {
  sv_root : root_dir o ∈ roots;
  sv_vhosts : Forall (λ vh, vh_root vh ∈ roots) (default [] (advanced_opts o ≫= virtual_hosts));
  sv_no_variants : compression_static o = false;
  sv_hiding : ignore_hidden_files o = hide;
  sv_indexes : Forall (index_name hide) (index_files o);
}.

Section Pipeline.
Context `{HeadersLib, CodecLib, GlobLib, RegexLib}.
Context (encode_text : MetricsState → string) (fs : Fs.t) (roots : list Path.t) (hide : bool).

Lemma servable_fixed w w' : fixed_opts w = fixed_opts w' → servable roots hide (w_opts w) → servable roots hide (w_opts w').
Proof.
  assert (∀ w, servable roots hide (w_opts w) ↔ servable roots hide (fixed_opts w)) as Hfix.
  { intros [o s t].
    assert (advanced_opts (fixed_opts (mkWorld _ _ _ o s t)) ≫= virtual_hosts =
              advanced_opts o ≫= virtual_hosts) as Hv.
    { unfold fixed_opts. cbn [w_opts]. destruct o. cbn.
      by match goal with |- context [fmap _ ?a] => destruct a as [[]|] end. }
    split; intros [? Hvh ? ? ?]; (split; [done| |done..]); by rewrite Hv in Hvh || rewrite Hv. }
  intros He. by rewrite Hfix, He, <- Hfix.
Qed.

Lemma base_path_servable o req : servable roots hide o → Handler.base_path_of o req ∈ roots.
Proof.
  intros [Hr Hv _ _ _]. unfold Handler.base_path_of, VirtualHost.get_real_root.
  destruct (advanced_opts o) as [adv|]; [|done]. cbn [mbind option_bind] in Hv.
  destruct (virtual_hosts adv) as [l|]; [|done]. cbn [default] in Hv.
  destruct l as [|v l]; [done|]. destruct (VirtualHost.request_host_str req) as [host|]; [|done].
  destruct (List.find (λ v, String.eqb (vh_host v) host) (v :: l)) as [vh|] eqn:Ef; [|done].
  apply find_some in Ef as [Hvh _]. rewrite Forall_forall in Hv. by apply Hv, list_elem_of_In.
Qed.

(** The end of the pipeline: the static handler, then a post-processing that the store does not
    change. *)
Lemma serve_static_files o req :
  ∃ opts post,
    (servable roots hide o → served roots hide opts) ∧ StaticFiles.method opts = rq_method req ∧
    (∀ fp, similar_step (post fp)) ∧
    ∀ st, Handler.serve_static fs st o req =
      match StaticFiles.handle fs st opts with
      | Ok a => post (Some (StaticFiles.sf_file_path a)) (StaticFiles.sf_resp a)
      | Err status => let? resp := Handler.error_response fs o req status in post None resp
      end.
Proof.
  unfold Handler.serve_static. cbv zeta.
  set (md := if accept_markdown o then _ else _).
  exists (Handler.handle_opts o req (Handler.base_path_of o req) (default (rq_path req) md)),
    (λ fp r, Handler.post_process fs o req (if md is Some _ then true else false) r fp).
  split_and!; [|done|intros fp; apply post_process_step|].
  - intros Ho. split; [by apply base_path_servable|apply Ho..].
  - intros st. destruct (StaticFiles.handle _ _ _); [done|].
    by destruct (Handler.error_response _ _ _ _).
Qed.

(** A request is answered before the files, whatever is in the store, or by the files. *)
Lemma serve_cases client_request req remote w m :
  (∃ x q w', (CachedService.upstream_bodies client_request → plain x) ∧
     ∀ st, Handler.serve client_request encode_text fs st req remote w m = (x, q, w')) ∨
  (∃ q, rq_method q = rq_method req ∧
     ∀ st, Handler.serve client_request encode_text fs st req remote w m =
       (Handler.serve_static fs st (w_opts w) q, q, w)).
Proof.
  assert (∀ x q q0 w w', Handler.try_reverse_proxy client_request fs q0 remote w = (Some x, q, w') →
            CachedService.upstream_bodies client_request → plain x) as Hproxy.
  { intros x q q0 v v' Hx Hup. unfold Handler.try_reverse_proxy in Hx.
    pose proof (pre_process_plain client_request q0 remote v) as Hp.
    destruct (Proxy.pre_process _ _ _ _) as [[[[r|e]|] ?] ?]; [| |done].
    - specialize (Hp (Ok r) Hup eq_refl). destruct (_ =? _)%Z; [by simplify_eq|]. injection Hx as <- _ _.
      intros a Ha. rewrite (blind_body _ _ _ (cors_blind _ _) Ha). by apply Hp.
    - injection Hx as <- _ _. apply error_page_plain. }
  unfold Handler.serve. destruct (Handler.gate encode_text fs (w_opts w) req m) as [x|] eqn:Eg.
  { left. eexists _, _, _. split; [intros _; by eapply gate_plain|done]. }
  destruct (if proxy_first (w_opts w) then _ else _) as [[early req1] w1] eqn:E1.
  destruct early as [x|].
  { left. destruct (proxy_first (w_opts w)); [|done]. eexists _, _, _. split; [by eapply Hproxy|done]. }
  assert (req1 = req ∧ w1 = w) as [-> ->].
  { destruct (proxy_first _); [by apply try_proxy_none in E1|by simplify_eq]. }
  destruct (Redirects.pre_process fs (w_opts w) req) as [x|] eqn:Er.
  { left. eexists _, _, _. split; [intros _; by eapply redirects_plain|done]. }
  pose proof (rewrites_method fs (w_opts w) req) as Hmeth.
  pose proof (rewrites_plain fs (w_opts w) req) as Hrw.
  destruct (Rewrites.pre_process fs (w_opts w) req) as [[x|] req2].
  { left. eexists _, _, _. split; [intros _; by apply Hrw|done]. }
  destruct (if negb (proxy_first (w_opts w)) then _ else _) as [[late req3] w3] eqn:E3.
  destruct late as [x|].
  { left. destruct (negb _); [|done]. eexists _, _, _. split; [by eapply Hproxy|done]. }
  assert (req3 = req2 ∧ w3 = w) as [-> ->].
  { destruct (negb _); [by apply try_proxy_none in E3|by simplify_eq]. }
  right. by exists req2.
Qed.

(** With the cache and without it. *)
Lemma serve_similar client_request st req remote w m :
  plain_roots fs roots hide → coherent fs roots hide st → servable roots hide (w_opts w) →
  is_options (rq_method req) = false →
  ∃ r r' q w',
    Handler.serve client_request encode_text fs st req remote w m = (Ok r, q, w') ∧
    Handler.serve client_request encode_text fs ∅ req remote w m = (Ok r', q, w') ∧ similar r r'.
Proof.
  intros Hroots Hc Ho Hmeth.
  destruct (serve_cases client_request req remote w m) as [(x & q & w' & _ & Hx)|(q & Hq & Hx)].
  - destruct (serve_answered client_request encode_text fs st req remote w m) as [r Hr].
    rewrite Hx in Hr. simpl in Hr. subst x. exists r, r, q, w'. split_and!; [by rewrite Hx..|].
    apply similar_refl.
  - rewrite !Hx.
    destruct (serve_static_files (w_opts w) q) as (opts & post & Hs & Hm & Hpost & Hf). rewrite !Hf.
    assert (is_options (StaticFiles.method opts) = false) as Hopt by by rewrite Hm, Hq.
    pose proof (coherent_alike fs roots hide st opts Hroots Hc (Hs Ho) Hopt) as Ha.
    destruct (StaticFiles.handle fs st opts) as [a|e], (StaticFiles.handle fs ∅ opts) as [a'|e'];
      try done.
    + destruct Ha as [-> Ha]. destruct (Hpost (Some (StaticFiles.sf_file_path a')) _ _ Ha) as (r & r' & -> & -> & Hr & _).
      by exists r, r', q, w.
    + simpl in Ha. subst e'. destruct (error_page_Ok fs (w_opts w) q e) as [r ->]. cbn [Res.bind].
      destruct (Hpost None r r (similar_refl r)) as (a & _ & -> & _ & _). exists a, a, q, w.
      split_and!; [done..|apply similar_refl].
Qed.

(** A stream into the cache is one the static handler started. *)
Lemma serve_streams client_request st req remote w m r q w' :
  CachedService.upstream_bodies client_request → servable roots hide (w_opts w) →
  Handler.serve client_request encode_text fs st req remote w m = (Ok r, q, w') →
  (∀ plan, FileCache.stream_of (rs_body r) plan = []) ∨
  ∃ opts a, served roots hide opts ∧ StaticFiles.handle fs st opts = Ok a ∧
    carried (rs_body (StaticFiles.sf_resp a)) (rs_body r).
Proof.
  intros Hup Ho Hr.
  destruct (serve_cases client_request req remote w m) as [(x & q' & v & Hp & Hx)|(q' & Hq & Hx)];
    rewrite Hx in Hr.
  - left. injection Hr as -> _ _. intros plan. apply plain_stream. by apply Hp.
  - injection Hr as Hr _ _. destruct (serve_static_files (w_opts w) q') as (opts & post & Hs & _ & Hpost & Hf).
    rewrite Hf in Hr. destruct (StaticFiles.handle fs st opts) as [a|e] eqn:Ea.
    + right. exists opts, a. split; [by apply Hs|]. split; [done|].
      destruct (Hpost (Some (StaticFiles.sf_file_path a)) _ _ (similar_refl (StaticFiles.sf_resp a))) as (r' & _ & Hr' & _ & _ & Hcar).
      rewrite Hr in Hr'. by injection Hr' as <-.
    + left. destruct (error_page_Ok fs (w_opts w) q' e) as [page He]. rewrite He in Hr. cbn [Res.bind] in Hr.
      destruct (Hpost None _ _ (similar_refl page)) as (r' & _ & Hr' & _ & _ & Hcar). rewrite Hr in Hr'.
      injection Hr' as <-. intros plan. destruct (Hcar plan) as [-> |]; [|done].
      apply plain_stream. 
      exact (error_page_plain fs (rq_uri q') (rq_method q') e (page404 (w_opts w)) (page50x (w_opts w)) page He).
Qed.

Lemma record_similar req r r' elapsed m :
  similar r r' → Handler.record_outcome req (Ok r) elapsed m = Handler.record_outcome req (Ok r') elapsed m.
Proof. intros (Hs & Hh & _). unfold Handler.record_outcome, rs_get. by rewrite Hs, Hh. Qed.

Lemma handle_similar client_request st req remote elapsed w m :
  plain_roots fs roots hide → coherent fs roots hide st → servable roots hide (w_opts w) →
  is_options (rq_method req) = false →
  ∃ r r' q w' m',
    Handler.handle client_request encode_text fs st req remote elapsed w m = (Ok r, q, w', m') ∧
    Handler.handle client_request encode_text fs ∅ req remote elapsed w m = (Ok r', q, w', m') ∧
    similar r r'.
Proof.
  intros Hroots Hc Ho Hmeth. unfold Handler.handle. cbv zeta.
  destruct (serve_similar client_request st req remote w
    (if metrics_enabled (w_opts w) then Metrics.inc_requests_inflight m else m) Hroots Hc Ho Hmeth)
    as (r & r' & q & w' & -> & -> & Hr).
  rewrite (record_similar _ r r') by done. by eexists _, _, _, _, _.
Qed.

(** * The service, seen from its cache *)

Lemma cache_step_mono c c' : FileCache.step fs (λ _, False) c c' → FileCache.step fs (served roots hide) c c'.
Proof. intros Hs. destruct Hs; [done|by econstructor..]. Qed.

Lemma tunnel_ended_fixed k w : fixed_opts (Proxy.tunnel_ended k w) = fixed_opts w.
Proof. exact (tunnels_step_fixed _ _ (Tunnels.step_end k w [])). Qed.

(** A step of the service is steps of its cache, and leaves the options as they are. *)
Lemma service_step s s' :
  CachedService.step encode_text fs s s' → servable roots hide (w_opts (CachedService.world s)) →
  rtc (FileCache.step fs (served roots hide)) (CachedService.cache s) (CachedService.cache s') ∧
  fixed_opts (CachedService.world s') = fixed_opts (CachedService.world s).
Proof.
  intros Hs Ho. destruct Hs as [cr req remote elapsed plan w m st ss r req' w' m' Hup Hh|w m c c' Hc|k w m c];
    cbn [CachedService.cache CachedService.world] in *.
  - split.
    + unfold Handler.handle in Hh. cbv zeta in Hh.
      destruct (Handler.serve cr encode_text fs st req remote w _) as [[x q] v] eqn:Es.
      injection Hh as -> <- <- _.
      destruct (serve_streams _ _ _ _ _ _ _ _ _ Hup Ho Es) as [Hnone|(opts & a & Hsv & Ha & Hcar)].
      * rewrite Hnone, app_nil_r. apply rtc_refl.
      * destruct (Hcar plan) as [-> | ->]; [|rewrite app_nil_r; apply rtc_refl].
        by apply rtc_once, FileCache.Request with (opts := opts).
    + apply handle_world in Hh as [->|[req1 ->]]; [done|apply pre_process_fixed].
  - split; [by apply rtc_once, cache_step_mono|done].
  - split; [apply rtc_refl|apply tunnel_ended_fixed].
Qed.

Lemma service_steps s s' :
  rtc (CachedService.step encode_text fs) s s' → servable roots hide (w_opts (CachedService.world s)) →
  rtc (FileCache.step fs (served roots hide)) (CachedService.cache s) (CachedService.cache s') ∧
  servable roots hide (w_opts (CachedService.world s')).
Proof.
  induction 1 as [s|s1 s2 s3 Hs _ IH]; intros Ho; [by split; [apply rtc_refl|]|].
  destruct (service_step s1 s2 Hs Ho) as [Hr Hf].
  destruct (IH (servable_fixed _ _ (eq_sym Hf) Ho)) as [Hr' Ho']. split; [by etrans|done].
Qed.
End Pipeline.


(** * At work *)

Module CachedServiceRef.
(** The server at [/srv/www], and a virtual host at its [docs]. *)
Definition opts : RequestHandlerOpts :=
  IsoRef.opts {{ memory_cache := Some (mkMemCacheOpts 1000); ignore_hidden_files := true;
                 compression_static := false;
                 advanced_opts := Some (Advanced_default {{ virtual_hosts :=
                   Some [mkVirtualHosts "docs.example" (Path.parse "/srv/www/docs")] }}) }}.
Definition world : World := HandlerRef.world opts.
Definition req (host path : string) : Request :=
  mkRequest "GET" (RefUri.mk None None (Some path)) (ref_headers [("host", host)]) BodyEmpty.
Definition handle (store : gmap string MemFile) (r : Request) :=
  Handler.handle ProxyRef.answer (λ _, "") IsoRef.fs store r None 0 world Metrics.empty.

(** The stream of [docs/x], and the entry it leaves. *)
Definition stream (rest : string) (buf : option string) : MemCache.MemCacheFileStream :=
  MemCache.mkMemStream (Stream.mkReader rest []) 1 "/srv/www/docs/x" "application/octet-stream"
    (Some 1%Z) buf 1.
Definition store : gmap string MemFile :=
  {[ "/srv/www/docs/x" := mkMemFile "y" 1 "application/octet-stream" (Some 1%Z) ]}.
Definition state (st : gmap string MemFile) (ss : list MemCache.MemCacheFileStream) : CachedService.Sys :=
  CachedService.mkSys world Metrics.empty (FileCache.mkSys st ss).
End CachedServiceRef.

Lemma service_servable : servable CachedRef.roots true CachedServiceRef.opts.
Proof.
  split; try done; [left|..].
  - constructor; [right; left|constructor].
  - constructor; [by split; [split_and!|]|constructor].
Qed.

(** The virtual host is asked for [/x], and the body is read. *)
Lemma service_reach :
  rtc (CachedService.step (λ _, "") IsoRef.fs) (CachedServiceRef.state ∅ [])
    (CachedServiceRef.state CachedServiceRef.store [CachedServiceRef.stream "" None]).
Proof.
  assert (let x := CachedServiceRef.handle ∅ (CachedServiceRef.req "docs.example" "/x") in
          x.1.2 = CachedServiceRef.world ∧ x.2 = Metrics.empty ∧
          Res.map (λ r, FileCache.stream_of (rs_body r) []) x.1.1.1 = Ok [CachedServiceRef.stream "y" (Some "")])
    as (Hw & Hm & Hs) by (split_and!; vm_compute; reflexivity).
  destruct (CachedServiceRef.handle ∅ (CachedServiceRef.req "docs.example" "/x")) as [[[x q] w'] m'] eqn:E.
  simpl in Hw, Hm, Hs. subst w' m'. apply map_Ok in Hs as (r & -> & Hs).
  eapply rtc_l.
  { refine (CachedService.Request _ _ ProxyRef.answer (CachedServiceRef.req "docs.example" "/x") None 0 []
      CachedServiceRef.world Metrics.empty ∅ [] r q _ _ _ E).
    intros client req resp. unfold ProxyRef.answer. repeat case_match; by intros [= <-]. }
  rewrite <- Hs. cbn [app]. apply rtc_once, CachedService.Cache.
  exact (FileCache.Poll _ _ ∅ [CachedServiceRef.stream "y" (Some "")] 0 _ (Some "y")
           (CachedServiceRef.stream "" None) CachedServiceRef.store eq_refl eq_refl).
Qed.


Example service_hit :
  let body st := Res.map rs_body (CachedServiceRef.handle st (CachedServiceRef.req "example.com" "/docs/x")).1.1.1 in
  body CachedServiceRef.store = Ok (BodyFile "y" 1) ∧
  body ∅ = Ok (BodyMemFile "y" 1 "/srv/www/docs/x" "application/octet-stream" (Some 1%Z) 1).
Proof. split; vm_compute; reflexivity. Qed.

(** With pre-compressed variants, the answer depends on what is in the cache. *)
Example variant_only_uncached :
  let fs := Fs.mkFs (<[["srv"; "www"; "a.txt.gz"] := NFile "zip" (Some 1000000000%Z) true]>
                     (Fs.nodes IsoRef.fs)) ["srv"] 4096 in
  let o := IsoRef.opts {{ memory_cache := Some (mkMemCacheOpts 1000); compression := false;
                            compression_static := true }} in
  let req := mkRequest "GET" (RefUri.mk None None (Some "/a.txt"))
               (ref_headers [("accept-encoding", "gzip")]) BodyEmpty in
  let encoding st := Res.map (λ r, rs_get "content-encoding" r)
    (Handler.serve ProxyRef.answer (λ _, "") fs st req None (HandlerRef.world o) Metrics.empty).1.1 in
  encoding ∅ = Ok (Some "gzip") ∧ encoding CachedRef.store = Ok None.
Proof. split; vm_compute; reflexivity. Qed.
