(* ===== verification/Transport.v ===== *)
(** Connections as the server sees them: [transport.rs].

    [AsyncIo] is the pair of tokio traits [AsyncRead] and [AsyncWrite] in state-passing form: a
    poll yields what it answers and the connection after it.  [Transport] adds the peer's
    address.  [HyperLib] is hyper's TCP side ([AddrStream], [AddrIncoming]).  [Conn.run] drives a
    connection with a sequence of calls. *)
From Stdlib Require Import ZArith Lia Ascii String.
From stdpp Require Import base list strings.
From S2P Require Import Prelude Http Libs RefLibs Path Fs Opts.
Local Open Scope string_scope.
Local Open Scope list_scope.
Local Open Scope nat_scope.

(** [std::task::Poll]. *)
Inductive Poll (A : Type) : Type := Ready (a : A) | Pending.
Arguments Ready {A} a.
Arguments Pending {A}.

(** [std::io::Error]: its kind (that of a file operation, or one the program names) and text. *)
Inductive ErrorKind := FileKind (k : io_error) | InvalidData | BrokenPipe | OtherKind (name : string).
Record IoError := mkIoError { ie_kind : ErrorKind; ie_text : string }.
Abbreviation io_result A := (result IoError A) (only parsing).

(** [AsyncRead] and [AsyncWrite]: a read fills at most the room given. *)
Class AsyncIo (T : Type) := {
  poll_read : T → nat → Poll (io_result string) * T;
  poll_write : T → string → Poll (io_result nat) * T;
  poll_flush : T → Poll (io_result unit) * T;
  poll_shutdown : T → Poll (io_result unit) * T;
}.

(** [trait Transport]. *)
Class Transport (T : Type) `{AsyncIo T} := remote_addr : T → option SocketAddr.

(** hyper's TCP connections and listener. *)
Class HyperLib := {
  AddrStream : Type;
  AddrStream_io :: AsyncIo AddrStream;
  AddrStream_remote_addr : AddrStream → SocketAddr;
  AddrIncoming : Type;
  AddrIncoming_poll_accept :
    AddrIncoming → Poll (option (io_result AddrStream)) * AddrIncoming;
}.

(** [impl Transport for AddrStream]. *)
#[export] Instance AddrStream_transport `{HyperLib} : Transport AddrStream :=
  λ s, Some (AddrStream_remote_addr s).

(** * [LiftIo] *)

Record LiftIo (T : Type) := mkLiftIo { lift_0 : T }.
Arguments mkLiftIo {T} _.
Arguments lift_0 {T} _.

Definition lifted {A T} (r : Poll A * T) : Poll A * LiftIo T := (r.1, mkLiftIo r.2).

#[export] Instance LiftIo_io `{AsyncIo T} : AsyncIo (LiftIo T) := {|
  poll_read t room := lifted (poll_read (lift_0 t) room);
  poll_write t buf := lifted (poll_write (lift_0 t) buf);
  poll_flush t := lifted (poll_flush (lift_0 t));
  poll_shutdown t := lifted (poll_shutdown (lift_0 t));
|}.

#[export] Instance LiftIo_transport `{AsyncIo T} : Transport (LiftIo T) := λ _, None.

(** * Driving a connection *)

Module Conn.

Inductive Op := OpRead (room : nat) | OpWrite (buf : string) | OpFlush | OpShutdown.

Inductive Answer :=
| ARead (r : Poll (io_result string))
| AWrite (r : Poll (io_result nat))
| AUnit (r : Poll (io_result unit)).

Section Run.
Context `{AsyncIo T}.

Definition poll (t : T) (o : Op) : Answer * T :=
  match o with
  | OpRead room => let '(r, t) := poll_read t room in (ARead r, t)
  | OpWrite buf => let '(r, t) := poll_write t buf in (AWrite r, t)
  | OpFlush => let '(r, t) := poll_flush t in (AUnit r, t)
  | OpShutdown => let '(r, t) := poll_shutdown t in (AUnit r, t)
  end.

Fixpoint run (t : T) (ops : list Op) : list Answer * T :=
  match ops with
  | [] => ([], t)
  | o :: ops =>
      let '(a, t) := poll t o in
      let '(answers, t) := run t ops in (a :: answers, t)
  end.

Lemma run_cons t o ops :
  run t (o :: ops) = ((poll t o).1 :: (run (poll t o).2 ops).1, (run (poll t o).2 ops).2).
Proof. simpl. destruct (poll t o) as [a t']. simpl. by destruct (run t' ops). Qed.

Lemma run_length t ops : length (run t ops).1 = length ops.
Proof. revert t; induction ops as [|o ops IH]; intros t; [done|]. rewrite run_cons. simpl. by rewrite IH. Qed.

(** The call moved application data. *)
Definition moves_data (a : Answer) : bool :=
  match a with ARead (Ready (Ok _)) | AWrite (Ready (Ok _)) => true | _ => false end.
End Run.
End Conn.

Lemma run_app `{AsyncIo T} (t : T) ops1 ops2 :
  Conn.run t (ops1 ++ ops2) =
  ((Conn.run t ops1).1 ++ (Conn.run (Conn.run t ops1).2 ops2).1,
   (Conn.run (Conn.run t ops1).2 ops2).2).
Proof.
  revert t. induction ops1 as [|o ops IH]; intros t; simpl; [by destruct (Conn.run t ops2)|].
  destruct (Conn.poll t o) as [a t']. simpl. rewrite IH. by destruct (Conn.run t' ops).
Qed.

(** A lifted connection answers as the one inside; only its address is hidden. *)
Theorem lift_io_transparent `{AsyncIo T} (t : T) (ops : list Conn.Op) :
  Conn.run (mkLiftIo t) ops = ((Conn.run t ops).1, mkLiftIo (Conn.run t ops).2) ∧
  remote_addr (mkLiftIo t) = None.
Proof.
  split; [|done]. revert t. induction ops as [|o ops IH]; intros t; [done|].
  rewrite !Conn.run_cons. destruct o; cbn [Conn.poll poll_read poll_write poll_flush poll_shutdown
    LiftIo_io lift_0].
  1: destruct (poll_read t room) as [r t'].
  2: destruct (poll_write t buf) as [r t'].
  3: destruct (poll_flush t) as [r t'].
  4: destruct (poll_shutdown t) as [r t'].
  all: unfold lifted; simpl; by rewrite IH.
Qed.
