(* ===== verification/Bodies.v ===== *)
(** Streams passed on: the body adapter of [compression.rs] and the tunnel of [proxy.rs].

    [CompressableBody] puts hyper's body errors into the form the encoders expect.
    [tunnel_upgrades] is the body of the task [Proxy.spawn_tunnel] starts, [Tunnel.task] that task
    with the permit it owns. *)
From Stdlib Require Import ZArith Lia Ascii String.
From stdpp Require Import base list strings gmap.
From coqutil Require Import Datatypes.RecordSetters.
Import DoubleBraceUpdate.
From S2P Require Import Prelude Http Libs RefLibs Path Fs Opts Balancer Proxy Handler Transport.
Local Open Scope string_scope.
Local Open Scope list_scope.
Local Open Scope nat_scope.

(** [Stream<Item = Result<Bytes, E>>], in state-passing form. *)
Class BodyStream (S E : Type) := poll_next : S → Poll (option (result E string)) * S.

(** * [CompressableBody] *)

Record CompressableBody (S : Type) := mkBody { body : S }.
Arguments mkBody {S} _.
Arguments body {S} _.

Module Body.

(** [Poll<Option<Result>>::map_err]. *)
Definition map_err {E F} (f : E → F) (p : Poll (option (result E string)))
    : Poll (option (result F string)) :=
  match p with
  | Ready (Some (Err e)) => Ready (Some (Err (f e)))
  | Ready (Some (Ok chunk)) => Ready (Some (Ok chunk))
  | Ready None => Ready None
  | Pending => Pending
  end.

(** [std::io::Error::from(ErrorKind::InvalidData)]. *)
Definition invalid_data : IoError := mkIoError InvalidData "invalid data".

End Body.

#[export] Instance CompressableBody_stream {S E} `{BodyStream S E}
    : BodyStream (CompressableBody S) IoError := λ this,
  let '(r, inner) := poll_next (body this) in (Body.map_err (λ _ : E, Body.invalid_data) r, mkBody inner).

Module Polls.

(** [n] polls in a row. *)
Fixpoint polls {S E} `{BodyStream S E} (n : nat) (s : S) : list (Poll (option (result E string))) * S :=
  match n with
  | O => ([], s)
  | Datatypes.S n =>
      let '(r, s) := poll_next s in
      let '(l, s) := polls n s in (r :: l, s)
  end.

(** The bytes the polls delivered. *)
Definition delivered {E} (l : list (Poll (option (result E string)))) : string :=
  fold_right String.append ""
    (omap (λ r, match r with Ready (Some (Ok chunk)) => Some chunk | _ => None end) l).
End Polls.

(** The adapter loses nothing: over any number of polls it delivers the same bytes in the same
    chunks, is pending and ends when the body does, and fails exactly where the body fails, with
    [InvalidData] whatever the cause was. *)
Theorem compressable_body_transparent {S E} `{BodyStream S E} (s : S) (n : nat) :
  Polls.polls n (mkBody s) =
    (Body.map_err (λ _ : E, Body.invalid_data) <$> (Polls.polls n s).1,
     mkBody (Polls.polls n s).2) ∧
  Polls.delivered (Polls.polls n (mkBody s)).1 = Polls.delivered (Polls.polls n s).1.
Proof.
  assert (∀ s, Polls.polls n (mkBody s) =
    (Body.map_err (λ _ : E, Body.invalid_data) <$> (Polls.polls n s).1,
     mkBody (Polls.polls n s).2)) as Hp.
  { induction n as [|n IH]; intros t; [done|]. cbn [Polls.polls].
    unfold poll_next at 1, CompressableBody_stream at 1. cbn [body].
    destruct (poll_next t) as [r t']. rewrite IH. by destruct (Polls.polls n t'). }
  split; [done|]. rewrite Hp. cbn [fst]. unfold Polls.delivered. f_equal.
  induction (Polls.polls n s).1 as [|[[[c|e]|]|] l IH]; [done|by f_equal/=|exact IH..].
Qed.

(** * The upgrade tunnel *)

Module Tunnel.
Section Tunnel.
Context {Io : Type}.
(** [tokio::io::copy_bidirectional]: the bytes moved each way, or the I/O error. *)
Context (copy_bidirectional : Io → Io → io_result (Z * Z)).

(** [try_join!] of the two handshakes: the first error, if any; [server_first] is whether the
    server's side is done first. *)
Definition try_join (server_first : bool) (client server : result error Io)
    : result error (Io * Io) :=
  if server_first
  then let? s := server in let? c := client in Ok (c, s)
  else let? c := client in let? s := server in Ok (c, s).

(** [tunnel_upgrades]; both outcomes of the copy are only logged. *)
Definition tunnel_upgrades (server_first : bool) (client server : result error Io)
    (upgrade_kind : string) : result error unit :=
  let? ios := Res.context
                ("failed to complete protocol upgrade handshake (" +:+ upgrade_kind +:+ ")")
                (try_join server_first client server) in
  match copy_bidirectional ios.1 ios.2 with
  | Ok _ => Ok ()
  | Err _ => Ok ()
  end.

Section Task.
Context `{HttpLib, GlobLib, RegexLib}.

(** The spawned task of the [k]-th tunnel: the warning it logs, and the state once it is over
    and its permit is dropped. *)
Definition task (server_first : bool) (client server : result error Io) (k : nat) (w : World)
    : option string * World :=
  let upgrade_kind := default "unknown" (tt_kind <$> w_tunnels w !! k) in
  let warning :=
    match tunnel_upgrades server_first client server upgrade_kind with
    | Ok _ => None
    | Err _ => Some ("proxy upgrade tunnel (" +:+ upgrade_kind +:+ ") ended")
    end in
  (warning, Proxy.tunnel_ended k w).
End Task.
End Tunnel.
End Tunnel.

(** However a tunnel ends (a handshake that fails on either side, an I/O error, a clean close) its
    permit comes back, and only a failed handshake is worth a warning. *)
Theorem tunnel_ends_with_permit_back {Io} `{HttpLib, GlobLib, RegexLib}
    (copy_bidirectional : Io → Io → io_result (Z * Z)) (server_first : bool)
    (client server : result error Io) (k : nat) (w : World) (t : TunnelTask) (n : Z)
    (Htask : w_tunnels w !! k = Some t) (Hpermit : tt_permit t = true)
    (Hsem : semaphore w = Some n) :
  let '(warning, w') := Tunnel.task copy_bidirectional server_first client server k w in
  semaphore w' = Some (1 + n)%Z ∧ length (w_tunnels w') = pred (length (w_tunnels w)) ∧
  (warning = None ↔ Res.is_ok client = true ∧ Res.is_ok server = true).
Proof.
  unfold Tunnel.task. split_and!.
  - unfold Proxy.tunnel_ended. rewrite Htask, semaphore_drop, Hpermit. unfold semaphore in *.
    destruct w as [o ? ?]. simpl in *. by rewrite Hsem.
  - unfold Proxy.tunnel_ended. rewrite Htask, tunnels_drop. destruct w as [o ? l]. simpl in *.
    apply lookup_lt_Some in Htask. rewrite length_app, length_take, length_drop. lia.
  - unfold Tunnel.tunnel_upgrades, Tunnel.try_join.
    destruct server_first, client as [c|], server as [s|]; simpl; try (by split; [|intros []]);
      destruct (copy_bidirectional c s); done.
Qed.

Lemma tunnel_ends_with_permit_back_witness :
  let w := mkWorld _ _ _ (HandlerRef.opts {{ upgrade_tunnel_semaphore := Some 0%Z }}) []
             [mkTunnelTask "websocket" true] in
  let '(warning, w') := Tunnel.task (λ _ _ : string, Err (mkIoError BrokenPipe "broken pipe")) false
                          (Ok "client") (Ok "server") 0 w in
  semaphore w' = Some 1%Z ∧ length (w_tunnels w') = 0 ∧ warning = None.
Proof.
  intros w.
  destruct (tunnel_ends_with_permit_back (λ _ _ : string, Err (mkIoError BrokenPipe "broken pipe")) false
    (Ok "client") (Ok "server") 0 w (mkTunnelTask "websocket" true) 0 eq_refl eq_refl eq_refl)
    as (Hs & Hl & Hw).
  split; [exact Hs|]. split; [exact Hl|]. by apply Hw.
Defined.
