(* ===== verification/Tls.v ===== *)
(** TLS: [tls.rs].

    The builder ([builder_new], [key_path], [cert_path], [build]) reads the certificate and the
    key, each a [Source], and builds the rustls configuration; [Module TlsStream] is the connection that performs its handshake
    on the first read or write; [Module TlsAcceptor] wraps accepted sockets.  PEM parsing and
    rustls itself are the parameters [TlsLib]. *)
From Stdlib Require Import ZArith Lia Ascii String.
From stdpp Require Import base list strings gmap.
From S2P Require Import Prelude Http Libs RefLibs Path Fs Opts Transport.
Local Open Scope string_scope.
Local Open Scope list_scope.
Local Open Scope nat_scope.

(** [rustls_pki_types::pem::Error]; the enum is open. *)
Inductive PemError :=
| MissingSectionEnd (end_marker : string)
| IllegalSectionStart (line : string)
| Base64Decode (text : string)
| PemIo (e : IoError)
| NoItemsFound
| OtherPemError.

(** [rustls_pki_types] and [rustls]. *)
Class TlsLib `{HyperLib} := {
  Certificate : Type;
  PrivateKey : Type;
  ServerConfig : Type;
  TlsError : Type;
  tls_error_text : TlsError → string;
  (** [CertificateDer::pem_reader_iter] on what reading the source gives, up to its first
      error; [PrivateKeyDer::from_pem_reader]. *)
  pem_reader_iter : io_result string → list (result PemError Certificate);
  from_pem_reader : string → result PemError PrivateKey;
  (** [ServerConfig::builder().with_no_client_auth().with_single_cert]. *)
  with_single_cert : list Certificate → PrivateKey → result TlsError ServerConfig;
  set_alpn_protocols : list string → ServerConfig → ServerConfig;
  (** [TlsAcceptor::accept]: the handshake future; [TlsStream]: the established stream. *)
  Accept : Type;
  accept : ServerConfig → AddrStream → Accept;
  RustlsStream : Type;
  RustlsStream_io :: AsyncIo RustlsStream;
  poll_accept_future : Accept → Poll (io_result RustlsStream) * Accept;
}.

(** The documented behaviour the theorems use: reading fails, so does the iterator. *)
Class TlsLaws `{TlsLib} : Prop := {
  pem_reader_iter_io e : ∃ items pe, pem_reader_iter (Err e) = items ++ [Err pe];
}.

(** [TlsConfigError]. *)
Inductive TlsConfigError `{TlsLib} :=
| Io (err : IoError)
| CertParseError
| InvalidIdentityPem
| EmptyKey
| UnknownPrivateKeyFormat
| InvalidKey (err : TlsError)
| BadSectionStart (line : string)
| BadSectionEnd (end_marker : string).

(** [Display for TlsConfigError]. *)
Definition tls_config_error_text `{TlsLib} (e : TlsConfigError) : string :=
  let from_utf8 s := if Utf8.valid s then s else "" in
  match e with
  | Io err => ie_text err
  | CertParseError => "failed to parse certificate"
  | InvalidIdentityPem => "the identity PEM provided is invalid"
  | UnknownPrivateKeyFormat => "the private key format is unknown"
  | EmptyKey => "the key provided is probably missing or empty"
  | InvalidKey err => "the key provided is invalid, " +:+ tls_error_text err
  | BadSectionStart line => "illegal section start in PEM at '" +:+ from_utf8 line +:+ "'"
  | BadSectionEnd marker => "illegal section end in PEM at '" +:+ from_utf8 marker +:+ "'"
  end.

Definition map_err {E E' A} (f : E → E') (r : result E A) : result E' A :=
  match r with Ok a => Ok a | Err e => Err (f e) end.

(** * Reading the PEM files *)

Module LazyFile.

(** [struct LazyFile]: the file is opened by the first read; a directory opens, too. *)
Inductive Handle := HData (r : Stream.reader) | HDir.
Record t := mkLazyFile { path : Path.t; file : option Handle }.
End LazyFile.

Section Files.
(** The operating system: the tree, how much each read gives, the texts of its errors and the
    [Debug] text of a path; the room [read_to_end] offers. *)
Context (fs : Fs.t) (plan : list nat) (os_text : io_error → string).
Context (path_debug : Path.t → string) (room : nat).

Definition os_error (k : io_error) : IoError := mkIoError (FileKind k) (os_text k).

Definition file_open (p : Path.t) : io_result LazyFile.Handle :=
  map_err os_error
    (let? f := Fs.open fs p in
     Ok match fl_data f with
        | Some data => LazyFile.HData (Stream.mkReader data plan)
        | None => LazyFile.HDir
        end).

Definition file_read (h : LazyFile.Handle) : io_result string * LazyFile.Handle :=
  match h with
  | LazyFile.HData r => let '(chunk, r) := Stream.read r room in (Ok chunk, LazyFile.HData r)
  | LazyFile.HDir => (Err (os_error OtherError), LazyFile.HDir)
  end.

(** [lazy_read]. *)
Definition lazy_read (l : LazyFile.t) : io_result string * LazyFile.t :=
  let opened :=
    match LazyFile.file l with
    | None => file_open (LazyFile.path l)
    | Some h => Ok h
    end in
  match opened with
  | Err e => (Err e, l)
  | Ok h => let '(r, h) := file_read h in (r, LazyFile.mkLazyFile (LazyFile.path l) (Some h))
  end.

(** [Read::read for LazyFile]: the error names the path. *)
Definition lazy_file_read (l : LazyFile.t) : io_result string * LazyFile.t :=
  let '(r, l') := lazy_read l in
  (map_err (λ err, mkIoError (ie_kind err)
      ("error reading file (" +:+ path_debug (LazyFile.path l) +:+ "): " +:+ ie_text err)) r, l').

(** [Read::read_to_end]: reads until a read gives nothing. *)
Fixpoint read_to_end (fuel : nat) (l : LazyFile.t) : option (io_result string) :=
  match fuel with
  | O => None
  | S f =>
      match lazy_file_read l with
      | (Err e, _) => Some (Err e)
      | (Ok chunk, l') =>
          if (String.length chunk =? 0)%nat then Some (Ok "")
          else Res.map (String.append chunk) <$> read_to_end f l'
      end
  end.

(** The readers a builder holds: [io::empty()], a [Cursor], a [LazyFile]. *)
Inductive Source := SrcEmpty | SrcCursor (bytes : string) | SrcFile (l : LazyFile.t).

Definition read_source (fuel : nat) (s : Source) : option (io_result string) :=
  match s with
  | SrcEmpty => Some (Ok "")
  | SrcCursor bytes => Some (Ok bytes)
  | SrcFile l => read_to_end fuel l
  end.

(** * [TlsConfigBuilder] *)

Section Builder.
Context `{TlsLib}.

Record TlsConfigBuilder := mkTlsConfigBuilder { cert : Source; key : Source }.

Definition builder_new : TlsConfigBuilder := mkTlsConfigBuilder SrcEmpty SrcEmpty.
Definition key_path (p : Path.t) (b : TlsConfigBuilder) : TlsConfigBuilder :=
  mkTlsConfigBuilder (cert b) (SrcFile (LazyFile.mkLazyFile p None)).
Definition set_key (bytes : string) (b : TlsConfigBuilder) : TlsConfigBuilder :=
  mkTlsConfigBuilder (cert b) (SrcCursor bytes).
Definition cert_path (p : Path.t) (b : TlsConfigBuilder) : TlsConfigBuilder :=
  mkTlsConfigBuilder (SrcFile (LazyFile.mkLazyFile p None)) (key b).
Definition set_cert (bytes : string) (b : TlsConfigBuilder) : TlsConfigBuilder :=
  mkTlsConfigBuilder (SrcCursor bytes) (key b).

(** The [map_err] of the key's parsing. *)
Definition of_pem_error (err : PemError) : TlsConfigError :=
  match err with
  | Base64Decode _ => InvalidIdentityPem
  | NoItemsFound => EmptyKey
  | IllegalSectionStart line => BadSectionStart line
  | MissingSectionEnd end_marker => BadSectionEnd end_marker
  | PemIo err => Io (mkIoError InvalidData (ie_text err))
  | OtherPemError => InvalidIdentityPem
  end.

(** [build]; [None] if [fuel] does not suffice to read the files. *)
Definition build (fuel : nat) (b : TlsConfigBuilder)
    : option (result TlsConfigError ServerConfig) :=
  cert_read ← read_source fuel (cert b);
  match map_err (λ _, CertParseError) (Res.mapM id (pem_reader_iter cert_read)) with
  | Err e => Some (Err e)
  | Ok certs =>
      key_read ← read_source fuel (key b);
      Some (
        let? key_buf := map_err Io key_read in
        if Str.is_empty key_buf then Err EmptyKey
        else
          let? pkey := map_err of_pem_error (from_pem_reader key_buf) in
          let? config := map_err InvalidKey (with_single_cert certs pkey) in
          Ok (set_alpn_protocols ["h2"; "http/1.1"] config))
  end.
End Builder.
End Files.

(** * [TlsStream] *)

Module TlsStream.
Section TlsStream.
Context `{TlsLib}.

Inductive State := Handshaking (a : Accept) | Streaming (s : RustlsStream).
Record t := mkTlsStream { state : State; addr : SocketAddr }.

(** [TlsStream::new]. *)
Definition new (stream : AddrStream) (config : ServerConfig) : t :=
  mkTlsStream (Handshaking (accept config stream)) (AddrStream_remote_addr stream).

(** [ready!(Pin::new(accept).poll(cx))], then the call on the established stream. *)
Definition poll_with {A} (call : RustlsStream → Poll (io_result A) * RustlsStream) (pin : t)
    : Poll (io_result A) * t :=
  match state pin with
  | Handshaking accept =>
      match poll_accept_future accept with
      | (Pending, accept) => (Pending, mkTlsStream (Handshaking accept) (addr pin))
      | (Ready (Ok stream), _) =>
          let '(result, stream) := call stream in
          (result, mkTlsStream (Streaming stream) (addr pin))
      | (Ready (Err err), accept) => (Ready (Err err), mkTlsStream (Handshaking accept) (addr pin))
      end
  | Streaming stream =>
      let '(result, stream) := call stream in (result, mkTlsStream (Streaming stream) (addr pin))
  end.

(** [poll_flush] and [poll_shutdown] leave a handshake alone. *)
Definition poll_end (call : RustlsStream → Poll (io_result unit) * RustlsStream) (pin : t)
    : Poll (io_result unit) * t :=
  match state pin with
  | Handshaking _ => (Ready (Ok ()), pin)
  | Streaming stream =>
      let '(result, stream) := call stream in (result, mkTlsStream (Streaming stream) (addr pin))
  end.

#[export] Instance io : AsyncIo t := {|
  poll_read pin room := poll_with (λ stream, poll_read stream room) pin;
  poll_write pin buf := poll_with (λ stream, poll_write stream buf) pin;
  poll_flush pin := poll_end poll_flush pin;
  poll_shutdown pin := poll_end poll_shutdown pin;
|}.

#[export] Instance transport : Transport t := λ s, Some (addr s).
End TlsStream.
End TlsStream.
Export (hints) TlsStream.

(** * [TlsAcceptor] *)

Module TlsAcceptor.
Section TlsAcceptor.
Context `{TlsLib}.

Record t := mkTlsAcceptor { config : ServerConfig; incoming : AddrIncoming }.

Definition new (config : ServerConfig) (incoming : AddrIncoming) : t :=
  mkTlsAcceptor config incoming.

(** [poll_accept]. *)
Definition poll_accept (pin : t) : Poll (option (io_result TlsStream.t)) * t :=
  let '(r, incoming) := AddrIncoming_poll_accept (incoming pin) in
  (match r with
   | Pending => Pending
   | Ready (Some (Ok sock)) => Ready (Some (Ok (TlsStream.new sock (config pin))))
   | Ready (Some (Err e)) => Ready (Some (Err e))
   | Ready None => Ready None
   end, mkTlsAcceptor (config pin) incoming).
End TlsAcceptor.
End TlsAcceptor.

(** * Reading to the end *)

Section ReadFacts.
Context (fs : Fs.t) (plan : list nat) (os_text : io_error → string).
Context (path_debug : Path.t → string) (room : nat) (Hroom : 0 < room).
Abbreviation read_to_end := (read_to_end fs plan os_text path_debug room).

(** What reading a file that does not deliver its content reports. *)
Definition file_error (p : Path.t) (k : io_error) : IoError :=
  mkIoError (FileKind k) ("error reading file (" +:+ path_debug p +:+ "): " +:+ os_text k).

Lemma read_rest fuel p data pl :
  String.length data < fuel →
  read_to_end fuel (LazyFile.mkLazyFile p (Some (LazyFile.HData (Stream.mkReader data pl))))
    = Some (Ok data).
Proof.
  revert data pl. induction fuel as [|fuel IH]; intros data pl Hlen; [lia|].
  cbn [Tls.read_to_end]. unfold lazy_file_read, lazy_read, file_read, Stream.read.
  cbn [LazyFile.file LazyFile.path map_err Stream.rd_data].
  set (r := Stream.mkReader data pl). set (n := Stream.read_len r room).
  pose proof (read_len_le r room) as [_ Hn]. fold n in Hn. simpl in Hn.
  rewrite str_take_length by lia. destruct (Nat.eqb_spec n 0) as [Hz|Hnz].
  - destruct data as [|c data]; [done|].
    pose proof (read_len_pos r room Hroom). simpl in *. unfold n in Hz. lia.
  - pose proof (str_take_drop n data) as Htd.
    rewrite IH; [simpl; by rewrite Htd|].
    apply (f_equal String.length) in Htd. rewrite length_string_app, str_take_length in Htd; lia.
Qed.

Lemma read_file_spec fuel p :
  match Fs.read fs p with Ok data => String.length data | Err _ => 0 end < fuel →
  read_to_end fuel (LazyFile.mkLazyFile p None) = Some (map_err (file_error p) (Fs.read fs p)).
Proof.
  unfold Fs.read. destruct fuel as [|fuel]; [lia|].
  destruct (Fs.open fs p) as [[[data|]]|k] eqn:E; simpl; intros Hlen.
  - rewrite <- (read_rest (S fuel) p data plan) by lia.
    cbn [Tls.read_to_end]. unfold lazy_file_read, lazy_read, file_open. simpl. by rewrite E.
  - unfold lazy_file_read, lazy_read, file_open. simpl. by rewrite E.
  - unfold lazy_file_read, lazy_read, file_open. simpl. by rewrite E.
Qed.
End ReadFacts.

Lemma mapM_error {E A} (items : list (result E A)) e :
  ∃ e', Res.mapM id (items ++ [Err e]) = Err e'.
Proof.
  induction items as [|[a|e'] items [e'' IH]]; simpl; [by eexists| |by eexists].
  rewrite IH. by eexists.
Qed.

(** The bytes a path offers. *)
Definition content_size (fs : Fs.t) (p : Path.t) : nat :=
  match Fs.read fs p with Ok data => String.length data | Err _ => 0 end.

Section BuildFacts.
Context `{TlsLib} (fs : Fs.t) (plan : list nat) (os_text : io_error → string).
Context (path_debug : Path.t → string) (room fuel : nat) (c k : Path.t).
Context (Hroom : 0 < room) (Hc : content_size fs c < fuel) (Hk : content_size fs k < fuel).
Abbreviation io_read p := (map_err (file_error os_text path_debug p) (Fs.read fs p)).

(** What [build] computes, on the files' contents. *)
Definition built : result TlsConfigError ServerConfig :=
  let? certs := map_err (λ _, CertParseError) (Res.mapM id (pem_reader_iter (io_read c))) in
  let? key_buf := map_err Io (io_read k) in
  if Str.is_empty key_buf then Err EmptyKey
  else
    let? pkey := map_err of_pem_error (from_pem_reader key_buf) in
    let? config := map_err InvalidKey (with_single_cert certs pkey) in
    Ok (set_alpn_protocols ["h2"; "http/1.1"] config).

Lemma build_built :
  build fs plan os_text path_debug room fuel (key_path k (cert_path c builder_new))
  = Some built.
Proof.
  unfold build, built. simpl. rewrite !read_file_spec by done. simpl.
  by destruct (map_err _ (Res.mapM id _)).
Qed.
End BuildFacts.

Lemma map_err_Ok {E E' A} (f : E → E') (r : result E A) a : map_err f r = Ok a ↔ r = Ok a.
Proof. destruct r; simpl; split; congruence. Qed.

Lemma mapM_id_Forall2 {E A} (items : list (result E A)) l :
  Res.mapM id items = Ok l ↔ Forall2 (λ it x, it = Ok x) items l.
Proof. rewrite mapM_Ok. done. Qed.

Lemma mapM_id_error {E A} (items : list (result E A)) it :
  it ∈ items → Res.is_ok it = false → ∃ e, Res.mapM id items = Err e.
Proof.
  induction items as [|[a|e] items IH]; simpl; [by intros ?%elem_of_nil| |by eexists].
  intros [->|Hin]%elem_of_cons Hit; [done|]. destruct (IH Hin Hit) as [e ->]. by eexists.
Qed.

Lemma mapM_id_all {E A} (items : list (result E A)) :
  Forall (λ it, Res.is_ok it = true) items → ∃ l, Res.mapM id items = Ok l.
Proof.
  induction 1 as [|[a|e] items Ha _ [l IH]]; simpl in *; [by eexists| |done].
  rewrite IH. by eexists.
Qed.

(** What is wrong with a key file that was read, given the certificates: the error for each way a
    key can be bad. *)
Inductive key_error `{TlsLib} (certs : list Certificate) (key_pem : string) : TlsConfigError → Prop :=
| key_no_bytes : key_pem = "" → key_error certs key_pem EmptyKey
| key_no_items :
    key_pem ≠ "" → from_pem_reader key_pem = Err NoItemsFound → key_error certs key_pem EmptyKey
| key_section_start line :
    key_pem ≠ "" → from_pem_reader key_pem = Err (IllegalSectionStart line) →
    key_error certs key_pem (BadSectionStart line)
| key_section_end marker :
    key_pem ≠ "" → from_pem_reader key_pem = Err (MissingSectionEnd marker) →
    key_error certs key_pem (BadSectionEnd marker)
| key_base64 text :
    key_pem ≠ "" → from_pem_reader key_pem = Err (Base64Decode text) →
    key_error certs key_pem InvalidIdentityPem
| key_other_pem :
    key_pem ≠ "" → from_pem_reader key_pem = Err OtherPemError →
    key_error certs key_pem InvalidIdentityPem
| key_pem_io e :
    key_pem ≠ "" → from_pem_reader key_pem = Err (PemIo e) →
    key_error certs key_pem (Io (mkIoError InvalidData (ie_text e)))
| key_refused pkey e :
    key_pem ≠ "" → from_pem_reader key_pem = Ok pkey → with_single_cert certs pkey = Err e →
    key_error certs key_pem (InvalidKey e).

(** Nothing else is reported once both files were read and the certificates parsed. *)
Lemma built_key_error `{TlsLib} fs os_text path_debug c k chain_pem certs key_pem e :
  Fs.read fs c = Ok chain_pem → Forall2 (λ it x, it = Ok x) (pem_reader_iter (Ok chain_pem)) certs →
  Fs.read fs k = Ok key_pem →
  built fs os_text path_debug c k = Err e ↔ key_error certs key_pem e.
Proof.
  intros Hc Hcerts%mapM_id_Forall2 Hk. unfold built. rewrite Hc, Hk. cbn [map_err]. rewrite Hcerts.
  cbn [map_err Res.bind]. destruct (Str.is_empty key_pem) eqn:Ee.
  { destruct key_pem; [|done]. split; [intros [= <-]; by constructor|]. by inversion 1. }
  assert (key_pem ≠ "") as Hne by by intros ->.
  destruct (from_pem_reader key_pem) as [pkey|pe] eqn:Ep; cbn [map_err Res.bind].
  - destruct (with_single_cert certs pkey) as [cfg|te] eqn:Ew; cbn [map_err Res.bind].
    + split; [done|]. inversion 1; congruence.
    + split; [intros [= <-]; by eapply key_refused|]. inversion 1; congruence.
  - split.
    + intros [= <-]. destruct pe; cbn [of_pem_error]; eauto using key_error.
    + inversion 1; simplify_eq; rewrite Ep in *; simplify_eq/=; congruence.
Qed.

(** C24. The TLS configuration of a certificate file and a key file.  With enough rounds to read
    both, [build] answers.  It gives a configuration exactly when both files can be read, every
    certificate parses, the key file is not empty and holds a private key, and rustls accepts the
    pair; the configuration then offers HTTP/2 before HTTP/1.1.  Otherwise the first obstacle is
    reported: any trouble with the certificate file hides what is wrong with the key; then an
    unreadable key file keeps its kind of error and names the path; then an empty file, each kind of
    PEM error and a pair that rustls refuses is reported by its own error, and nothing else is
    ([key_error]). *)
Theorem tls_build_spec `{TlsLaws} (fs : Fs.t) (plan : list nat) (os_text : io_error → string)
    (path_debug : Path.t → string) (room fuel : nat) (c k : Path.t)
    (Hroom : 0 < room) (Hc : content_size fs c < fuel) (Hk : content_size fs k < fuel) :
  ∃ r,
    build fs plan os_text path_debug room fuel (key_path k (cert_path c builder_new)) = Some r ∧
    (∀ config, r = Ok config ↔
       ∃ chain_pem key_pem certs pkey config0,
         Fs.read fs c = Ok chain_pem ∧ Forall2 (λ it x, it = Ok x) (pem_reader_iter (Ok chain_pem)) certs ∧
         Fs.read fs k = Ok key_pem ∧ key_pem ≠ "" ∧ from_pem_reader key_pem = Ok pkey ∧
         with_single_cert certs pkey = Ok config0 ∧
         config = set_alpn_protocols ["h2"; "http/1.1"] config0) ∧
    (∀ e, Fs.read fs c = Err e → r = Err CertParseError) ∧
    (∀ chain_pem it, Fs.read fs c = Ok chain_pem → it ∈ pem_reader_iter (Ok chain_pem) →
       Res.is_ok it = false → r = Err CertParseError) ∧
    (∀ chain_pem e, Fs.read fs c = Ok chain_pem →
       Forall (λ it, Res.is_ok it = true) (pem_reader_iter (Ok chain_pem)) →
       Fs.read fs k = Err e → r = Err (Io (file_error os_text path_debug k e))) ∧
    (∀ chain_pem certs key_pem e, Fs.read fs c = Ok chain_pem →
       Forall2 (λ it x, it = Ok x) (pem_reader_iter (Ok chain_pem)) certs →
       Fs.read fs k = Ok key_pem → r = Err e ↔ key_error certs key_pem e).
Proof.
  eexists. split; [by apply build_built|].
  split_and!; [..|intros; by eapply built_key_error]; unfold built.
  - intros config. split.
    + intros Hb. inv_res. rewrite ?map_err_Ok in *. destruct (Str.is_empty _) eqn:Ee; [done|].
      inv_res. rewrite ?map_err_Ok in *.
      destruct (Fs.read fs c) as [chain|e] eqn:Er; simpl in *.
      2:{ destruct (pem_reader_iter_io (file_error os_text path_debug c e)) as (items & pe & Hi).
          rewrite Hi in *. destruct (mapM_error items pe) as [e' He']. congruence. }
      eexists chain, _, _, _, _. rewrite <- mapM_id_Forall2.
      split_and!; try done. by intros ->.
    + intros (chain & kp & certs & pkey & cfg0 & -> & Hc2%mapM_id_Forall2 & -> & Hne & Hp & Hw & ->).
      simpl. rewrite Hc2. simpl. destruct kp; [done|]. simpl. by rewrite Hp; simpl; rewrite Hw.
  - intros e ->. simpl.
    destruct (pem_reader_iter_io (file_error os_text path_debug c e)) as (items & pe & ->).
    by destruct (mapM_error items pe) as [e' ->].
  - intros chain it -> Hit Hbad. simpl. by destruct (mapM_id_error _ _ Hit Hbad) as [e ->].
  - intros chain e -> Hall ->. simpl. by destruct (mapM_id_all _ Hall) as [l ->].
Qed.

(** * The handshake comes first *)

Section Handshake.
Context `{TlsLib}.

(** The handshake future before and after a poll that did not give the stream. *)
Inductive handshake_step : Accept → Accept → Prop :=
| handshake_pending a a' : poll_accept_future a = (Pending, a') → handshake_step a a'
| handshake_failed a a' e : poll_accept_future a = (Ready (Err e), a') → handshake_step a a'.

(** The answers before the stream exists: no data moves, and there is nothing to flush. *)
Definition quiet (o : Conn.Op) (a : Conn.Answer) : Prop :=
  match o, a with
  | Conn.OpRead _, Conn.ARead r => match r with Ready (Ok _) => False | _ => True end
  | Conn.OpWrite _, Conn.AWrite r => match r with Ready (Ok _) => False | _ => True end
  | Conn.OpFlush, Conn.AUnit r | Conn.OpShutdown, Conn.AUnit r => r = Ready (Ok ())
  | _, _ => False
  end.

(** One call: it stays in the handshake, or is the first call on the established stream. *)
Lemma poll_handshaking a ad o :
  let t := TlsStream.mkTlsStream (TlsStream.Handshaking a) ad in
  (∃ a', (Conn.poll t o).2 = TlsStream.mkTlsStream (TlsStream.Handshaking a') ad ∧
     rtc handshake_step a a' ∧ quiet o (Conn.poll t o).1) ∨
  (∃ s a', poll_accept_future a = (Ready (Ok s), a') ∧
     Conn.poll t o = ((Conn.poll s o).1,
       TlsStream.mkTlsStream (TlsStream.Streaming (Conn.poll s o).2) ad)).
Proof.
  destruct o; simpl; unfold TlsStream.poll_with, TlsStream.poll_end; simpl.
  3,4: left; exists a; by split_and!; [|apply rtc_refl|].
  all: destruct (poll_accept_future a) as [[[s|e]|] a'] eqn:E; simpl.
  1,4: right; exists s, a'; split; [done|].
  1: by destruct (poll_read s room). 1: by destruct (poll_write s buf).
  all: left; exists a'; split_and!; [done| |done]; apply rtc_once; by econstructor.
Qed.

Lemma run_streaming s ad ops :
  Conn.run (TlsStream.mkTlsStream (TlsStream.Streaming s) ad) ops =
  ((Conn.run s ops).1, TlsStream.mkTlsStream (TlsStream.Streaming (Conn.run s ops).2) ad).
Proof.
  revert s. induction ops as [|o ops IH]; intros s; [done|].
  rewrite !Conn.run_cons.
  assert (Conn.poll (TlsStream.mkTlsStream (TlsStream.Streaming s) ad) o =
    ((Conn.poll s o).1, TlsStream.mkTlsStream (TlsStream.Streaming (Conn.poll s o).2) ad)) as ->.
  { destruct o; simpl; unfold TlsStream.poll_with, TlsStream.poll_end; simpl.
    - by destruct (poll_read s room).
    - by destruct (poll_write s buf).
    - by destruct (poll_flush s).
    - by destruct (poll_shutdown s). }
  simpl. by rewrite IH.
Qed.

Lemma run_handshaking a ad ops :
  let t := TlsStream.mkTlsStream (TlsStream.Handshaking a) ad in
  ∃ ops1 ops2 a1, ops = ops1 ++ ops2 ∧ rtc handshake_step a a1 ∧
    Forall2 quiet ops1 (Conn.run t ops1).1 ∧
    (Conn.run t ops1).2 = TlsStream.mkTlsStream (TlsStream.Handshaking a1) ad ∧
    (ops2 = [] ∨ ∃ s a2, poll_accept_future a1 = (Ready (Ok s), a2) ∧
       Conn.run t ops = ((Conn.run t ops1).1 ++ (Conn.run s ops2).1,
         TlsStream.mkTlsStream (TlsStream.Streaming (Conn.run s ops2).2) ad)).
Proof.
  cbv zeta. revert a. induction ops as [|o ops IH]; intros a.
  { exists [], [], a. split_and!; eauto using rtc_refl. }
  destruct (poll_handshaking a ad o) as [(a' & Ha' & Hr & Hq)|(s & a' & Hs & Hp)].
  - destruct (IH a') as (ops1 & ops2 & a1 & -> & Hr1 & Hq1 & H1 & H2).
    exists (o :: ops1), ops2, a1. rewrite <- app_comm_cons, !Conn.run_cons, Ha'. simpl.
    split_and!; try done; [by etrans|by constructor|].
    destruct H2 as [->|(s & a2 & Hs & ->)]; [by left|right]. by exists s, a2.
  - exists [], (o :: ops), a. split_and!; [done|apply rtc_refl|constructor|done|right].
    exists s, a'. split; [done|]. rewrite !Conn.run_cons, Hp. simpl. by rewrite run_streaming.
Qed.
End Handshake.

(** C15. A connection accepted over TLS.  Its handshake uses the acceptor's configuration on the
    socket hyper accepted, whose peer address it reports for good.  Whatever sequence of reads,
    writes, flushes and shutdowns hyper makes, it splits in two: first calls during which the
    connection is still handshaking, which move no application data and report flush and shutdown
    as done; then, once the handshake has given a stream, exactly the answers of that stream:
    nothing ever reaches the bare socket and the handshake never starts again. *)
Theorem tls_handshake_first `{TlsLib} (acceptor acceptor' : TlsAcceptor.t) (t : TlsStream.t)
    (ops : list Conn.Op)
    (Haccept : TlsAcceptor.poll_accept acceptor = (Ready (Some (Ok t)), acceptor')) :
  ∃ sock,
    AddrIncoming_poll_accept (TlsAcceptor.incoming acceptor)
      = (Ready (Some (Ok sock)), TlsAcceptor.incoming acceptor') ∧
    TlsAcceptor.config acceptor' = TlsAcceptor.config acceptor ∧
    remote_addr (Conn.run t ops).2 = Some (AddrStream_remote_addr sock) ∧
    ∃ ops1 ops2 a, ops = ops1 ++ ops2 ∧
      rtc handshake_step (accept (TlsAcceptor.config acceptor) sock) a ∧
      Forall2 quiet ops1 (Conn.run t ops1).1 ∧
      TlsStream.state (Conn.run t ops1).2 = TlsStream.Handshaking a ∧
      (ops2 = [] ∨ ∃ s a', poll_accept_future a = (Ready (Ok s), a') ∧
         (Conn.run t ops).1 = (Conn.run t ops1).1 ++ (Conn.run s ops2).1 ∧
         TlsStream.state (Conn.run t ops).2 = TlsStream.Streaming (Conn.run s ops2).2).
Proof.
  unfold TlsAcceptor.poll_accept in Haccept.
  destruct (AddrIncoming_poll_accept _) as [[[[sock|e]|]|] inc'] eqn:E; try discriminate Haccept.
  injection Haccept as <- <-. exists sock. split_and!; [done..| |].
  all: destruct (run_handshaking (accept (TlsAcceptor.config acceptor) sock)
         (AddrStream_remote_addr sock) ops) as (ops1 & ops2 & a & -> & Hr & Hq & H1 & H2).
  - unfold TlsStream.new. destruct H2 as [->|(s & a2 & _ & ->)]; [|done].
    rewrite app_nil_r. by rewrite H1.
  - exists ops1, ops2, a. unfold TlsStream.new. split_and!; try done; [by rewrite H1|].
    destruct H2 as [->|(s & a2 & Hs & ->)]; [by left|right]. by exists s, a2.
Qed.

(** * A concrete transport and TLS library *)

Module TlsRef.

(** A socket: its peer and the bytes still to be read from it. *)
Definition sock : Type := SocketAddr * string.

#[export] Instance sock_io : AsyncIo sock := {|
  poll_read s room := (Ready (Ok (Stream.str_take room s.2)), (s.1, Stream.str_drop room s.2));
  poll_write s buf := (Ready (Ok (String.length buf)), s);
  poll_flush s := (Ready (Ok ()), s);
  poll_shutdown s := (Ready (Ok ()), s);
|}.

(** A listener with sockets waiting; one at a time. *)
#[export] Instance hyper : HyperLib := {|
  AddrStream := sock;
  AddrStream_io := sock_io;
  AddrStream_remote_addr := fst;
  AddrIncoming := list sock;
  AddrIncoming_poll_accept l :=
    match l with s :: l => (Ready (Some (Ok s)), l) | [] => (Pending, []) end;
|}.

(** A handshake that needs three polls; the key must be "KEY", the chain is one line each. *)
#[export] Instance tls : TlsLib := {|
  Certificate := string;
  PrivateKey := string;
  ServerConfig := list string;
  TlsError := string;
  tls_error_text e := e;
  pem_reader_iter r :=
    match r with
    | Ok s => Ok <$> filter (λ l, l ≠ "") (Str.split "010" s)
    | Err e => [Err (PemIo e)]
    end;
  from_pem_reader s := if String.eqb s "KEY" then Ok s else Err NoItemsFound;
  with_single_cert certs _ :=
    match certs with [] => Err "no certificate chain" | _ => Ok [] end;
  set_alpn_protocols l _ := l;
  Accept := nat * sock;
  accept _ s := (2, s);
  RustlsStream := sock;
  RustlsStream_io := sock_io;
  poll_accept_future a :=
    match a with
    | (O, s) => (Ready (Ok s), (O, s))
    | (S n, s) => (Pending, (n, s))
    end;
|}.

#[export] Instance tls_laws : TlsLaws.
Proof. split. intros e. by exists [], (PemIo e). Qed.

Definition fs : Fs.t := Fs.mkFs
  (list_to_map [(["cert.pem"], NFile "LEAF" None true); (["key.pem"], NFile "KEY" None true);
                (["locked.pem"], NFile "KEY" None false)]) [] 4096.

Definition peer : SocketAddr := mkSocketAddr "192.0.2.7" 50000.
Definition acceptor : TlsAcceptor.t := TlsAcceptor.new ["h2"] [(peer, "hello")].
Definition drained : TlsAcceptor.t := TlsAcceptor.new ["h2"] [].
Definition conn : TlsStream.t := TlsStream.new (peer, "hello") ["h2"].
End TlsRef.
Import (hints) TlsRef.

Lemma tls_build_spec_witness :
  let build k := build TlsRef.fs [2] (λ _, "denied") Path.text 8 20
    (key_path (Path.parse k) (cert_path (Path.parse "/cert.pem") builder_new)) in
  build "/locked.pem" = Some (Err (Io (mkIoError (FileKind PermissionDenied)
                                "error reading file (/locked.pem): denied"))) ∧
  build "/cert.pem" = Some (Err EmptyKey).
Proof.
  split.
  - destruct (tls_build_spec TlsRef.fs [2] (λ _, "denied") Path.text 8 20
      (Path.parse "/cert.pem") (Path.parse "/locked.pem") ltac:(lia)
      ltac:(vm_compute; lia) ltac:(vm_compute; lia)) as (r & -> & _ & _ & _ & Hkey & _).
    rewrite (Hkey "LEAF" PermissionDenied); [reflexivity|reflexivity| |reflexivity].
    vm_compute. repeat constructor.
  - destruct (tls_build_spec TlsRef.fs [2] (λ _, "denied") Path.text 8 20
      (Path.parse "/cert.pem") (Path.parse "/cert.pem") ltac:(lia)
      ltac:(vm_compute; lia) ltac:(vm_compute; lia)) as (r & -> & _ & _ & _ & _ & Hkey).
    assert (r = Err EmptyKey) as ->; [|reflexivity].
    apply (Hkey "LEAF" ["LEAF"] "LEAF" EmptyKey); [reflexivity|vm_compute; repeat constructor|reflexivity|].
    by apply key_no_items.
Defined.

Lemma tls_handshake_first_witness :
  remote_addr (Conn.run TlsRef.conn [Conn.OpRead 3; Conn.OpFlush; Conn.OpRead 3; Conn.OpRead 3]).2
    = Some TlsRef.peer ∧
  (Conn.run TlsRef.conn [Conn.OpRead 3; Conn.OpFlush; Conn.OpRead 3; Conn.OpRead 3]).1
    = [Conn.ARead Pending; Conn.AUnit (Ready (Ok ())); Conn.ARead Pending;
       Conn.ARead (Ready (Ok "hel"))].
Proof.
  destruct (tls_handshake_first TlsRef.acceptor TlsRef.drained TlsRef.conn
    [Conn.OpRead 3; Conn.OpFlush; Conn.OpRead 3; Conn.OpRead 3] eq_refl)
    as (sock & Hs & _ & Hr & _).
  injection Hs as <-. split; [exact Hr | reflexivity].
Defined.
