(* ===== verification/Server.v ===== *)
(** Start-up and life of the server: [server.rs].

    [Server.start] is [start_server] up to the point where hyper takes over: the listener, the
    error pages, the request handler's options built by the modules' [init] functions in the
    order of the code, the TLS configuration and the protocol to serve.  Sockets and signal
    registration are in the [Platform].  [Server.step] is the server at work: one handled
    request, or the end of a tunnel. *)
From Stdlib Require Import ZArith Lia Ascii String.
From stdpp Require Import base list strings gmap relations.
From coqutil Require Import Datatypes.RecordSetters.
Import DoubleBraceUpdate.
From S2P Require Import Prelude Http Libs RefLibs Path Fs Opts Pages Compression Ranges DirListing StaticFiles.
From S2P Require Import Cors Routing Policies Metrics Balancer Routes Settings Proxy Handler.
From S2P Require Import Transport Tls.
Local Open Scope string_scope.
Local Open Scope list_scope.
Local Open Scope nat_scope.

Module Server.

(** [struct Server]. *)
Record Server `{HttpLib, GlobLib, RegexLib} := mkServer {
  opts : Settings;
  worker_threads : Z;
  max_blocking_threads : Z;
}.

(** [Server::new]; [cpus] is what [available_parallelism] gives, the product is that of a
    [usize] in a release build. *)
Definition new `{HttpLib, GlobLib, RegexLib} (cpus : option Z) (opts : Settings)
    : result error Server :=
  let? cpus := Res.of_option
    ["unable to get current platform cpus or lack of permissions to query available parallelism"]
    cpus in
  let n := Cli.threads_multiplier (general opts) in
  let worker_threads := if ((n =? 0) || (n =? 1))%Z then cpus else wrap64 (cpus * n) in
  Ok (mkServer _ _ _ opts worker_threads (Cli.max_blocking_threads (general opts))).

(** Where the server listens: an inherited descriptor or an address. *)
Inductive Listener := FromFd (fd : Z) | BoundTo (addr : SocketAddr).

(** What hyper serves: plain HTTP/1, or TLS with an optional HTTP redirect server. *)
Inductive Protocol `{TlsLib} :=
| Http1
| Http2 (tls : ServerConfig) (redirect : option (SocketAddr * HttpsRedirect.RedirectOpts)).

(** The machine: [str::parse::<IpAddr>] (printed back); [take_tcp_listener] of the inherited
    descriptors, false if there is none at that position; [TcpListener::bind]; whether the
    termination signals can be registered; how files are read and the texts of their errors. *)
Record Platform := mkPlatform {
  ip_parse : string → option IpAddr;
  take_tcp_listener : Z → result error bool;
  bind : SocketAddr → result error unit;
  create_signals : bool;
  read_plan : list nat;
  read_room : nat;
  os_text : io_error → string;
  path_debug : Path.t → string;
}.

(** [split(',').map(trim)]. *)
Definition comma_list (s : string) : list string := map Str.trim (Str.split "," s).

(** Error pages: relative paths are joined to the root directory. *)
Definition page_path (root_dir page : Path.t) : Path.t :=
  if negb (Path.is_absolute page) && negb (Path.starts_with page root_dir)
  then Path.push root_dir page else page.

Section Start.
Context `{HeadersLib, CodecLib, GlobLib, RegexLib, TlsLib}.
(** The order in which a [HashSet] yields its elements. *)
Context (order : gset string → list string).
Context (fs : Fs.t) (env : string → option string).
Context (pem_certs : string → option (list string)) (root_add : string → bool).
Context (json_encode : Document.RoutesDocument → string)
        (json_decode : string → option Document.RoutesDocument) (op_ok : FsOp → bool).
Context (control_plane : ProxyHttpClient → Request → option (result error Response)).
Context (weavegate_version : string).
Context (pf : Platform).

Definition address (host : string) (port : Z) : result error SocketAddr :=
  let? ip := Res.context ("failed to parse " +:+ host +:+ " address")
               (Res.of_option ["invalid IP address syntax"] (ip_parse pf host)) in
  Ok (mkSocketAddr ip port).

Definition bind_tcp (addr : SocketAddr) : result error unit :=
  Res.context ("failed to bind to " +:+ LogAddr.addr_text addr +:+ " address") (bind pf addr).

(** The TCP listener. *)
Definition listener (g : Cli.General) : result error Listener :=
  match Cli.fd g with
  | Some fd =>
      let? taken := take_tcp_listener pf fd in
      if taken : bool then Ok (FromFd fd)
      else Err ["failed to convert inherited 'fd' into a 'tcp' listener"]
  | None =>
      let? addr := address (Cli.host g) (Cli.port g) in
      let? _ := bind_tcp addr in Ok (BoundTo addr)
  end.

(** The [RequestHandlerOpts] literal. *)
Definition base_opts (g : Cli.General) (advanced : option Advanced) (root : Path.t)
    : result error RequestHandlerOpts :=
  let files := comma_list (Cli.index_files g) in
  match files with
  | [] => Err ["index files list is empty, provide at least one index file"]
  | _ => Ok (RequestHandlerOpts_default
      {{ root_dir := root;
         page404 := page_path root (Cli.page404 g);
         page50x := page_path root (Cli.page50x g);
         log_remote_address := Cli.log_remote_address g;
         log_x_real_ip := Cli.log_x_real_ip g;
         log_forwarded_for := Cli.log_forwarded_for g;
         trusted_proxies := Cli.trusted_proxies g;
         redirect_trailing_slash := Cli.redirect_trailing_slash g;
         ignore_hidden_files := Cli.ignore_hidden_files g;
         disable_symlinks := Cli.disable_symlinks g;
         accept_markdown := Cli.accept_markdown g;
         text_charset := Cli.text_charset g;
         index_files := files;
         advanced_opts := advanced }})
  end.

(** The modules' [init]s before the proxy; the registry is that of the metrics. *)
Definition init_modules (g : Cli.General) (registry : gset string) (o : RequestHandlerOpts)
    : result error (RequestHandlerOpts * gset string) :=
  let o := DirListing.init (Cli.directory_listing g) (Cli.directory_listing_order g)
             (Cli.directory_listing_format g) o in
  let o := Download.init (Cli.directory_listing_download g) o in
  let o := FallbackPage.init fs (Cli.page_fallback g) o in
  let o := Health.init (Cli.health g) o in
  let o := LogAddr.init (Cli.log_remote_address g) o in
  let? r := Metrics.init (Cli.metrics g) o registry in
  let '(o, registry) := r in
  let? o := CorsConfig.init order (Cli.cors_allow_origins g) (Cli.cors_allow_headers g)
              (Cli.cors_expose_headers g) o in
  let o := BasicAuth.init (Cli.basic_auth g) o in
  Ok (Maintenance.init (Cli.maintenance_mode g) (Cli.maintenance_mode_status g)
        (Cli.maintenance_mode_file g) o, registry).

(** The [init]s after the proxy; the store of the in-memory cache can be set once. *)
Definition init_late (g : Cli.General) (store : option MemCache.CacheConfig)
    (o : RequestHandlerOpts) : result error (RequestHandlerOpts * option MemCache.CacheConfig) :=
  let o := CompressionStatic.init (Cli.compression_static g) o in
  let o := Compression.init (Cli.compression g) (Cli.compression_level g) o in
  let o := ControlHeaders.init (Cli.cache_control_headers g) o in
  let o := SecurityHeaders.init (Cli.security_headers g) o in
  MemCache.init o store.

(** All the request handler's options, with the file operations of the routes bootstrap. *)
Definition handler_opts (s : Settings) (root_dir : Path.t) (registry : gset string)
    (store : option MemCache.CacheConfig)
    : result error (RequestHandlerOpts * gset string * option MemCache.CacheConfig) * list FsOp :=
  match (let? o := base_opts (general s) (advanced s) root_dir in
         init_modules (general s) registry o) with
  | Err e => (Err e, [])
  | Ok (o, registry) =>
      let '(resolved, ops) :=
        Bootstrap.resolve_rules fs env pem_certs root_add json_encode json_decode op_ok
          control_plane weavegate_version (advanced_opts o) in
      (let? adv := resolved in
       let? o := Bootstrap.init fs pem_certs root_add (o {{ advanced_opts := adv }}) in
       let? r := init_late (general s) store o in
       Ok (fst r, registry, snd r), ops)
  end.

(** The rustls configuration; the rounds suffice to read both files. *)
Definition tls_config (cert key : Path.t) : result error ServerConfig :=
  Res.context "failed to initialize TLS probably because invalid cert or key file"
    match build fs (read_plan pf) (os_text pf) (path_debug pf) (read_room pf)
            (S (content_size fs cert + content_size fs key))
            (key_path key (cert_path cert builder_new)) with
    | Some r => map_err (λ e, [tls_config_error_text e]) r
    | None => Err []
    end.

Definition register_signals : result error unit :=
  if create_signals pf then Ok () else Err ["failed to register termination signals"].

(** The protocol, once the handler is ready. *)
Definition protocol (g : Cli.General) : result error Protocol :=
  if negb (Cli.http2 g) then let? _ := register_signals in Ok Http1
  else
    let? cert := Res.of_option ["failed to initialize TLS because cert file missing"]
                   (Cli.http2_tls_cert g) in
    let? key := Res.of_option ["failed to initialize TLS because key file missing"]
                  (Cli.http2_tls_key g) in
    let? tls := tls_config cert key in
    let? _ := register_signals in
    if negb (Cli.https_redirect g) then Ok (Http2 tls None)
    else
      let? addr := address (Cli.host g) (Cli.https_redirect_from_port g) in
      let? _ := bind_tcp addr in
      let? _ := register_signals in
      let redirect_allowed_hosts := comma_list (Cli.https_redirect_from_hosts g) in
      match redirect_allowed_hosts with
      | [] => Err ["https redirect allowed hosts is empty, provide at least one host or IP"]
      | _ => Ok (Http2 tls (Some (addr, HttpsRedirect.mkRedirectOpts
               (Cli.https_redirect_host g) (Cli.port g) redirect_allowed_hosts)))
      end.

(** What a start-up that succeeds leaves behind. *)
Record Started := mkStarted {
  st_listener : Listener;
  st_opts : RequestHandlerOpts;
  st_registry : gset string;
  st_store : option MemCache.CacheConfig;
  st_protocol : Protocol;
}.

(** [start_server]. *)
Definition start (s : Settings) (registry : gset string) (store : option MemCache.CacheConfig)
    : result error Started * list FsOp :=
  let g := general s in
  match (let? l := listener g in
         let? root_dir := Res.context "root directory was not found or inaccessible"
                            (Helpers.get_valid_dirpath fs (Cli.root g)) in
         Ok (l, root_dir)) with
  | Err e => (Err e, [])
  | Ok (l, root_dir) =>
      let '(r, ops) := handler_opts s root_dir registry store in
      (let? r := r in
       let '(o, registry, store) := r in
       let? p := protocol g in
       Ok (mkStarted l o registry store p), ops)
  end.

(** The service of the HTTP redirect server. *)
Definition redirect_service (opts : HttpsRedirect.RedirectOpts) (page404 page50x : Path.t)
    (req : Request) : result error Response :=
  match HttpsRedirect.redirect_to_https req opts with
  | Ok resp => Ok resp
  | Err status =>
      ErrorPage.error_response fs (rq_uri req) (rq_method req) status page404 page50x
  end.
End Start.

(** [RouterService] and [RequestService] of [service.rs]: a connection's service keeps the peer's
    address and hands every request of the connection to the handler with it. *)
Section Service.
Context `{HeadersLib, CodecLib, GlobLib, RegexLib}.

Record RequestService := mkRequestService { sv_remote_addr : option SocketAddr }.

Definition call_connection `{Transport T} (conn : T) (m : MetricsState)
    : RequestService * MetricsState :=
  (mkRequestService (remote_addr conn), Metrics.inc_connections m).

Context (client_request : ProxyHttpClient → Request → result error Response).
Context (encode_text : MetricsState → string) (fs : Fs.t) (store : gmap string MemFile).

Definition call_request (sv : RequestService) (req : Request) (elapsed : Z) (w : World)
    (m : MetricsState) : result error Response * Request * World * MetricsState :=
  Handler.handle client_request encode_text fs store req (sv_remote_addr sv) elapsed w m.
End Service.

(** The server at work: its tasks take turns, each handling one request to its end, or ending one
    of the running tunnels; upgrades that wait while other requests are handled are the steps of
    [Tunnels.step].  What upstreams answer, the files and the cache are those of the
    moment. *)
Section Step.
Context `{HeadersLib, CodecLib, GlobLib, RegexLib}.
Context (encode_text : MetricsState → string).

Inductive step : World * MetricsState → World * MetricsState → Prop :=
| StepRequest client_request fs store sv req elapsed w m res req' w' m' :
    call_request client_request encode_text fs store sv req elapsed w m = (res, req', w', m') →
    step (w, m) (w', m')
| StepTunnelEnded k w m : step (w, m) (Proxy.tunnel_ended k w, m).
End Step.
End Server.

(** * Start-up *)

Lemma comma_list_nonempty s : Server.comma_list s ≠ [].
Proof.
  unfold Server.comma_list. destruct (Str.split "," s) eqn:E; [|done].
  exfalso. revert E. destruct s as [|a s]; simpl; [done|].
  destruct (Ascii.eqb a ","); [done|]. by destruct (Str.split "," s).
Qed.

(** A handled request leaves the world of its proxy stage, if it got there ([handle_world]). *)
Section World.
Context `{HeadersLib, CodecLib, GlobLib, RegexLib}.
Context (encode_text : MetricsState → string).

Abbreviation alone w := (Tunnels.mkConfig w []).

(** A step of the server is made of steps of its proxy and keeps the proxy's rules. *)
Lemma server_step_spec w m w' m' defs :
  Server.step encode_text (w, m) (w', m') →
  rtc Tunnels.step (alone w) (alone w') ∧ (serving defs w → serving defs w').
Proof.
  inversion 1 as [cr fs store [remote] req elapsed ? ? ? req' ? ? Hh|k]; simplify_eq.
  - unfold Server.call_request in Hh. apply handle_world in Hh as [->|[req1 ->]]; [split; [apply rtc_refl|done]|].
    split; [apply pre_process_steps|]. intros Hs.
    by apply (pre_process_rules cr defs req1 remote w).
  - split; [apply rtc_once, Tunnels.step_end|].
    by apply serving_equiv, tunnel_ended_rules.
Qed.

Lemma server_steps_spec c c' defs :
  rtc (Server.step encode_text) c c' →
  rtc Tunnels.step (alone c.1) (alone c'.1) ∧ (serving defs c.1 → serving defs c'.1).
Proof.
  induction 1 as [|[w m] [w' m'] c'' Hs _ [IHr IHs]]; [by split; [apply rtc_refl|]|].
  apply (server_step_spec _ _ _ _ defs) in Hs as [Hr Hk]. simpl in *.
  split; [by etrans | auto].
Qed.
End World.

Section StartUp.
Context `{HeadersLib, CodecLib, GlobLib, RegexLib, TlsLib}.
Context (order : gset string → list string).
Context (fs : Fs.t) (env : string → option string).
Context (pem_certs : string → option (list string)) (root_add : string → bool).
Context (json_encode : Document.RoutesDocument → string)
        (json_decode : string → option Document.RoutesDocument) (op_ok : FsOp → bool).
Context (control_plane : ProxyHttpClient → Request → option (result error Response)).
Context (version : string).
Context (pf : Server.Platform).
Abbreviation start := (Server.start order fs env pem_certs root_add json_encode json_decode op_ok
                         control_plane version pf).
Abbreviation resolve := (Bootstrap.resolve_rules fs env pem_certs root_add json_encode json_decode
                           op_ok control_plane version).

Lemma download_init_frame formats (o : RequestHandlerOpts) :
  ∃ l, Download.init formats o = o {{ dir_listing_download := l }} ∧
    (∀ f, f ∈ l ↔ f ∈ formats ∨ f ∈ dir_listing_download o) ∧
    (NoDup (dir_listing_download o) → NoDup l).
Proof.
  unfold Download.init. revert o. induction formats as [|f l IH]; intros o; cbn [fold_left].
  - exists (dir_listing_download o). split; [by destruct o|]. split; [|done]. intros f. set_solver.
  - destruct (bool_decide_reflect (f ∈ dir_listing_download o)) as [Hin|Hin]; cbn [negb].
    + destruct (IH o) as (l' & -> & Hl & Hd). exists l'. split; [done|]. split; [|done].
      intros x. rewrite Hl. set_solver.
    + match goal with |- context [fold_left _ l ?x] => destruct (IH x) as (l' & -> & Hl & Hd) end.
      exists l'. destruct o; cbn in *. split; [done|]. split.
      * intros x. rewrite Hl. set_solver.
      * intros Hn. apply Hd, NoDup_app. split; [done|]. split; [set_solver|apply NoDup_singleton].
Qed.

(** The page [init] of the fallback keeps. *)
Definition fallback_of (file : Path.t) : string :=
  if Fs.is_file fs file then Str.trim (Utf8.lossy (Helpers.read_bytes_default fs file)) else "".

Lemma fallback_init_frame file (o : RequestHandlerOpts) :
  page_fallback o = "" →
  FallbackPage.init fs file o = o {{ page_fallback := fallback_of file }}.
Proof.
  unfold FallbackPage.init, fallback_of. destruct (Fs.is_file fs file); [done|].
  destruct o. simpl. by intros ->.
Qed.

(** The options before the proxy, as one update of those of the literal. *)
Lemma init_modules_frame g registry (o o' : RequestHandlerOpts) registry' :
  page_fallback o = "" → dir_listing_download o = [] →
  Server.init_modules order fs g registry o = Ok (o', registry') →
  ∃ downloads c,
    NoDup downloads ∧ (∀ f, f ∈ downloads ↔ f ∈ Cli.directory_listing_download g) ∧
    CorsConfig.new order (Str.trim (Cli.cors_allow_origins g)) (Str.trim (Cli.cors_allow_headers g))
      (Str.trim (Cli.cors_expose_headers g)) = Ok c ∧
    o' = o {{ dir_listing := Cli.directory_listing g;
              dir_listing_order := Cli.directory_listing_order g;
              dir_listing_format := Cli.directory_listing_format g;
              dir_listing_download := downloads;
              page_fallback := fallback_of (Cli.page_fallback g);
              health := Cli.health g;
              log_remote_address := Cli.log_remote_address g;
              metrics_enabled := Cli.metrics g;
              cors := c;
              basic_auth := Str.trim (Cli.basic_auth g);
              maintenance_mode := Cli.maintenance_mode g;
              maintenance_mode_status := Cli.maintenance_mode_status g;
              maintenance_mode_file := Cli.maintenance_mode_file g }}.
Proof.
  intros Hfb Hdl. unfold Server.init_modules. cbv zeta.
  destruct (download_init_frame (Cli.directory_listing_download g) (DirListing.init
    (Cli.directory_listing g) (Cli.directory_listing_order g) (Cli.directory_listing_format g) o))
    as (l & -> & Hl & Hnd).
  rewrite fallback_init_frame by (by destruct o).
  intros Hi. apply bind_Ok in Hi as ([o1 r1] & Hm & Hi).
  apply bind_Ok in Hi as (o2 & Hc & [= <- <-]).
  unfold CorsConfig.init in Hc. apply bind_Ok in Hc as (c & Hc & [= <-]).
  exists l, c. split; [apply Hnd; destruct o; simpl in *; rewrite Hdl; constructor|]. 
  split; [intros f; rewrite Hl; destruct o; simpl in *; rewrite Hdl; set_solver|]. split; [exact Hc|].
  unfold Metrics.init in Hm. destruct o.
  destruct (Cli.metrics g) eqn:Em; [apply map_Ok in Hm as (r & _ & [= -> ->])|injection Hm as <- <-];
    reflexivity.
Qed.

(** What a start-up that succeeds went through. *)
Lemma start_inv s registry store st ops :
  start s registry store = (Ok st, ops) →
  let g := general s in
  ∃ o0 o1 o2 registry' adv',
    Fs.is_dir fs (Cli.root g) = true ∧
    Server.base_opts g (advanced s) (Cli.root g) = Ok o0 ∧
    Server.init_modules order fs g registry o0 = Ok (o1, registry') ∧
    resolve (advanced_opts o1) = (Ok adv', ops) ∧
    Bootstrap.init fs pem_certs root_add (o1 {{ advanced_opts := adv' }}) = Ok o2 ∧
    Server.init_late g store o2 = Ok (Server.st_opts st, Server.st_store st) ∧
    Server.protocol fs pf g = Ok (Server.st_protocol st) ∧
    Server.listener pf g = Ok (Server.st_listener st).
Proof.
  unfold Server.start. cbv zeta. intros Hs.
  destruct (Res.bind (Server.listener _ _) _) as [[l root]|e] eqn:El; [|done].
  apply bind_Ok in El as (l' & Hlis & El). apply bind_Ok in El as (root' & Hd & [= -> ->]).
  apply context_Ok, get_valid_dirpath_Ok in Hd as [-> Hdir].
  unfold Server.handler_opts in Hs.
  destruct (Res.bind (Server.base_opts _ _ _) _) as [[o1 registry']|e] eqn:Eb; [|done].
  apply bind_Ok in Eb as (o0 & Hbase & Hinit).
  destruct (resolve (advanced_opts o1)) as [adv' ops'] eqn:Er.
  injection Hs as Hs <-. apply bind_Ok in Hs as ([[o3 reg3] store3] & Hs & Hp).
  apply bind_Ok in Hs as (adv & -> & Hs). apply bind_Ok in Hs as (o2 & Hi & Hs).
  apply bind_Ok in Hs as ([o4 store4] & Hl & [= -> -> ->]).
  apply bind_Ok in Hp as (p & Hp & [= <-]).
  by exists o0, o1, o2, reg3, adv.
Qed.

Lemma proxy_init_frame (o o' : RequestHandlerOpts) :
  Bootstrap.init fs pem_certs root_add o = Ok o' →
  o' = o {{ proxy_client := proxy_client o'; proxy_settings := proxy_settings o';
            proxy_first := proxy_first o';
            upgrade_tunnel_semaphore := upgrade_tunnel_semaphore o' }}.
Proof.
  unfold Bootstrap.init. intros Hi.
  destruct (advanced_opts o ≫= proxies) as [[|r rules]|]; cbv zeta in Hi;
    [injection Hi as <-; by destruct o| |injection Hi as <-; by destruct o].
  apply bind_Ok in Hi as (c & _ & [= <-]). by destruct o.
Qed.

Lemma init_late_frame g store (o o' : RequestHandlerOpts) store' :
  Server.init_late g store o = Ok (o', store') →
  o' = o {{ compression_static := Cli.compression_static g;
            compression := Cli.compression g;
            compression_level := Cli.compression_level g;
            cache_control_headers := Cli.cache_control_headers g;
            security_headers := Cli.security_headers g;
            memory_cache := memory_cache o' }} ∧
  match advanced_opts o ≫= adv_memory_cache with
  | Some mc => is_Some (memory_cache o') ∧
      ∀ n, File.max_file_size mc = Some n → memory_cache o' = Some (MemCache.new n)
  | None => memory_cache o' = memory_cache o
  end.
Proof.
  unfold Server.init_late, MemCache.init. cbv zeta. destruct o. simpl.
  match goal with |- context [mbind adv_memory_cache ?a] =>
    destruct (mbind adv_memory_cache a) as [mc|] end.
  - destruct store; [done|]. intros [= <- <-]. simpl. split; [done|].
    split; [by eexists|]. by intros n ->.
  - intros [= <- <-]. by split.
Qed.

(** The protocol of a server that starts. *)
Lemma protocol_spec g p :
  Server.protocol fs pf g = Ok p → 0 < Server.read_room pf →
  Server.create_signals pf = true ∧
  if Cli.http2 g
  then ∃ cert key config redirect,
         Cli.http2_tls_cert g = Some cert ∧ Cli.http2_tls_key g = Some key ∧
         built fs (Server.os_text pf) (Server.path_debug pf) cert key = Ok config ∧
         p = Server.Http2 config redirect ∧
         match redirect with
         | Some (addr, ro) =>
             Cli.https_redirect g = true ∧
             Server.address pf (Cli.host g) (Cli.https_redirect_from_port g) = Ok addr ∧
             HttpsRedirect.https_port ro = Cli.port g ∧
             HttpsRedirect.https_hostname ro = Cli.https_redirect_host g ∧
             HttpsRedirect.allowed_hosts ro = Server.comma_list (Cli.https_redirect_from_hosts g)
         | None => Cli.https_redirect g = false
         end
  else p = Server.Http1.
Proof.
  unfold Server.protocol, Server.register_signals. intros Hp Hroom.
  destruct (Server.create_signals pf), (Cli.http2 g); simpl in Hp; try discriminate Hp.
  2:{ by injection Hp as <-. }
  2:{ by inv_res. }
  split; [done|]. apply bind_Ok in Hp as (cert & Hc%of_option_Ok & Hp).
  apply bind_Ok in Hp as (key & Hk%of_option_Ok & Hp).
  apply bind_Ok in Hp as (config & Ht & Hp).
  unfold Server.tls_config in Ht. rewrite build_built in Ht by lia.
  apply context_Ok, map_err_Ok in Ht. simpl in Hp.
  destruct (Cli.https_redirect g) eqn:Er; simpl in Hp.
  - apply bind_Ok in Hp as (addr & Ha & Hp). apply bind_Ok in Hp as (_ & _ & Hp).
    pose proof (comma_list_nonempty (Cli.https_redirect_from_hosts g)) as Hne.
    destruct (Server.comma_list _) as [|x l] eqn:El; [done|]. injection Hp as <-.
    eexists cert, key, config, _. split_and!; [done..|]. by split_and!.
  - injection Hp as <-. by exists cert, key, config, None.
Qed.

(** The listener is the inherited descriptor, or bound to the address of the settings. *)
Definition listens (g : Cli.General) (l : Server.Listener) : Prop :=
  match Cli.fd g with
  | Some fd => l = Server.FromFd fd
  | None => ∃ ip, Server.ip_parse pf (Cli.host g) = Some ip ∧
              l = Server.BoundTo (mkSocketAddr ip (Cli.port g))
  end.

Lemma listener_spec g l : Server.listener pf g = Ok l → listens g l.
Proof.
  unfold Server.listener, listens, Server.address, Server.bind_tcp. destruct (Cli.fd g) as [fd|].
  - intros Hl. apply bind_Ok in Hl as ([|] & _ & Hl); [by injection Hl as <-|done].
  - intros Hl. apply bind_Ok in Hl as (addr & Ha & Hl). apply bind_Ok in Ha as (ip & Hi & [= <-]).
    apply context_Ok, of_option_Ok in Hi. apply bind_Ok in Hl as (_ & _ & [= <-]). by exists ip.
Qed.

(** Where an error page lies: where an absolute path says, or below the root. *)
Definition page_at (root page set : Path.t) : Prop :=
  if Path.is_absolute set then page = set
  else Path.starts_with page root = true ∧ (page = set ∨ page = Path.push root set).

Lemma page_path_rooted root page : page_at root (Server.page_path root page) page.
Proof.
  unfold page_at, Server.page_path. destruct (Path.is_absolute page) eqn:Ea; [done|]. simpl.
  destruct (Path.starts_with page root) eqn:Es; simpl; [auto|]. split; [|auto].
  unfold Path.push. rewrite Ea. unfold Path.starts_with.
  destruct root as [|c root]; [by destruct page|].
  destruct page as [|[] page]; by rewrite strip_prefix_app.
Qed.

(** What the proxy serves with, given the rules: nothing, or a client built from the settings. *)
Definition proxy_ready (o : RequestHandlerOpts) : Prop :=
  match advanced_opts o ≫= proxies with
  | Some (_ :: _) =>
      ∃ adv client, advanced_opts o = Some adv ∧
        Client.build_proxy_client fs pem_certs root_add (adv_proxy_settings adv) = Ok client ∧
        (proxy_client o, proxy_settings o, proxy_first o, upgrade_tunnel_semaphore o) =
          (Some client, Some (adv_proxy_settings adv), ps_proxy_first (adv_proxy_settings adv),
           max_upgrade_tunnels (adv_proxy_settings adv))
  | _ => (proxy_client o, proxy_settings o, proxy_first o, upgrade_tunnel_semaphore o) =
           (None, None, false, None)
  end.

Lemma proxy_init_ready (o o' : RequestHandlerOpts) :
  (proxy_client o, proxy_settings o, proxy_first o, upgrade_tunnel_semaphore o) =
    (None, None, false, None) →
  Bootstrap.init fs pem_certs root_add o = Ok o' → proxy_ready o' ∧ advanced_opts o' = advanced_opts o.
Proof.
  unfold Bootstrap.init, proxy_ready. intros Hnone. destruct (advanced_opts o) as [adv|] eqn:Ea.
  2: { intros [= <-]. by rewrite Ea. }
  cbn [mbind option_bind]. destruct (proxies adv) as [[|r rules]|] eqn:Er; cbv zeta.
  1, 3: intros [= <-]; by rewrite Ea; cbn [mbind option_bind]; rewrite Er.
  intros Hi. apply bind_Ok in Hi as (c & Hc & [= <-]). clear Hnone. destruct o; cbn in *. subst.
  cbn. rewrite Er. split; [|done]. by exists adv, c.
Qed.

(** C23's conclusion: the running server [st], option by option, from its settings [s]; [ops] are
    the file operations of the routes bootstrap. *)
Record runs_with (s : Settings) (st : Server.Started) (ops : list FsOp) : Prop := {
  (** The root directory exists; the index names are those of the list, of which there is one. *)
  rw_root : root_dir (Server.st_opts st) = Cli.root (general s) ∧
    Fs.is_dir fs (root_dir (Server.st_opts st)) = true;
  rw_index : index_files (Server.st_opts st) = Server.comma_list (Cli.index_files (general s)) ∧
    index_files (Server.st_opts st) ≠ [];
  (** Error pages are absolute, or below the root. *)
  rw_pages : page_at (root_dir (Server.st_opts st)) (page404 (Server.st_opts st)) (Cli.page404 (general s)) ∧
    page_at (root_dir (Server.st_opts st)) (page50x (Server.st_opts st)) (Cli.page50x (general s));
  (** How files are served. *)
  rw_files : let o := Server.st_opts st in let g := general s in
    (disable_symlinks o, ignore_hidden_files o, redirect_trailing_slash o, accept_markdown o,
     text_charset o) =
    (Cli.disable_symlinks g, Cli.ignore_hidden_files g, Cli.redirect_trailing_slash g,
     Cli.accept_markdown g, Cli.text_charset g);
  rw_compression : let o := Server.st_opts st in let g := general s in
    (compression o, compression_level o, compression_static o) =
    (Cli.compression g, Cli.compression_level g, Cli.compression_static g);
  rw_listing : let o := Server.st_opts st in let g := general s in
    (dir_listing o, dir_listing_order o, dir_listing_format o) =
    (Cli.directory_listing g, Cli.directory_listing_order g, Cli.directory_listing_format g);
  rw_downloads : NoDup (dir_listing_download (Server.st_opts st)) ∧
    ∀ f, f ∈ dir_listing_download (Server.st_opts st) ↔ f ∈ Cli.directory_listing_download (general s);
  rw_fallback : page_fallback (Server.st_opts st) = fallback_of (Cli.page_fallback (general s));
  (** Who may ask, and what they are told. *)
  rw_credentials : basic_auth (Server.st_opts st) = Str.trim (Cli.basic_auth (general s));
  rw_cors : CorsConfig.new order (Str.trim (Cli.cors_allow_origins (general s)))
      (Str.trim (Cli.cors_allow_headers (general s))) (Str.trim (Cli.cors_expose_headers (general s)))
    = Ok (cors (Server.st_opts st));
  rw_headers : let o := Server.st_opts st in let g := general s in
    (security_headers o, cache_control_headers o) = (Cli.security_headers g, Cli.cache_control_headers g);
  rw_endpoints : let o := Server.st_opts st in let g := general s in
    (health o, metrics_enabled o) = (Cli.health g, Cli.metrics g);
  rw_maintenance : let o := Server.st_opts st in let g := general s in
    (maintenance_mode o, maintenance_mode_status o, maintenance_mode_file o) =
    (Cli.maintenance_mode g, Cli.maintenance_mode_status g, Cli.maintenance_mode_file g);
  rw_logs : let o := Server.st_opts st in let g := general s in
    (log_remote_address o, log_x_real_ip o, log_forwarded_for o, trusted_proxies o) =
    (Cli.log_remote_address g, Cli.log_x_real_ip g, Cli.log_forwarded_for g, Cli.trusted_proxies g);
  (** The advanced section, with its rules resolved; the proxy they need; the in-memory cache,
      exactly if the section has one, with the file limit it gives. *)
  rw_advanced : resolve (advanced s) = (Ok (advanced_opts (Server.st_opts st)), ops);
  rw_proxy : proxy_ready (Server.st_opts st);
  rw_cache : match advanced_opts (Server.st_opts st) ≫= adv_memory_cache with
    | Some mc => is_Some (memory_cache (Server.st_opts st)) ∧
        ∀ n, File.max_file_size mc = Some n → memory_cache (Server.st_opts st) = Some (MemCache.new n)
    | None => memory_cache (Server.st_opts st) = None
    end;
  (** What listens, and for what. *)
  rw_listener : listens (general s) (Server.st_listener st);
  rw_signals : Server.create_signals pf = true;
  rw_protocol : let g := general s in
    if Cli.http2 g
    then ∃ cert key config redirect,
      Cli.http2_tls_cert g = Some cert ∧ Cli.http2_tls_key g = Some key ∧
      built fs (Server.os_text pf) (Server.path_debug pf) cert key = Ok config ∧
      Server.st_protocol st = Server.Http2 config redirect ∧
      match redirect with
      | Some (addr, ro) =>
          Cli.https_redirect g = true ∧
          Server.address pf (Cli.host g) (Cli.https_redirect_from_port g) = Ok addr ∧
          HttpsRedirect.https_port ro = Cli.port g ∧
          HttpsRedirect.https_hostname ro = Cli.https_redirect_host g ∧
          HttpsRedirect.allowed_hosts ro = Server.comma_list (Cli.https_redirect_from_hosts g)
      | None => Cli.https_redirect g = false
      end
    else Server.st_protocol st = Server.Http1;
}.

(** C23. A server that starts runs with the options its settings ask for, every one of them
    ([runs_with]): an existing root directory, a non-empty list of index names, error pages that are
    absolute or below the root; the file, compression, listing, download, fallback, CORS,
    credentials, header, endpoint, maintenance and logging options of the settings; the advanced
    section with its rules resolved, a proxy client built from its settings exactly if there are
    rules, and an in-memory cache exactly if the section has one (how large files may be when it
    does not say is left open).  It listens on the inherited descriptor or on the address of the
    settings, its termination signals are registered, and it serves plain HTTP/1, or, if HTTP/2 is
    on, TLS with the configuration its certificate and key files give, with a redirect server
    exactly if one is asked for, on the port and for the hosts of the settings. *)
Theorem startup_options (s : Settings) (registry : gset string)
    (store : option MemCache.CacheConfig) (st : Server.Started) (ops : list FsOp)
    (Hroom : 0 < Server.read_room pf)
    (Hstart : start s registry store = (Ok st, ops)) :
  runs_with s st ops.
Proof.
  destruct (start_inv s registry store st ops Hstart)
    as (o0 & o1 & o2 & reg & adv' & Hdir & Hbase & Hmods & Hres & Hproxy & Hlate & Hprot & Hlis).
  unfold Server.base_opts in Hbase. cbv zeta in Hbase.
  pose proof (comma_list_nonempty (Cli.index_files (general s))) as Hne.
  destruct (Server.comma_list (Cli.index_files (general s))) as [|f fl] eqn:Eidx; [done|].
  injection Hbase as <-. apply init_modules_frame in Hmods as (dl & c & Hnd & Hdl & Hc & ->); [|done..].
  apply protocol_spec in Hprot as [Hsig Hp]; [|done]. apply listener_spec in Hlis.
  pose proof Hproxy as Hready. apply proxy_init_ready in Hready as [Hready Hadv]; [|done].
  apply proxy_init_frame in Hproxy. apply init_late_frame in Hlate as [Hlate Hmc].
  assert (advanced_opts (Server.st_opts st) = adv') as Ha by (rewrite Hlate, Hproxy; reflexivity).
  assert (proxy_ready (Server.st_opts st)) as Hready'.
  { unfold proxy_ready in *. rewrite Ha, Hlate. rewrite Hadv in Hready. exact Hready. }
  rewrite Hadv in Hmc. cbn in Hmc. rewrite <- Ha in Hmc, Hres.
  assert (memory_cache o2 = None) as Hno by by rewrite Hproxy.
  rewrite Hno in Hmc. clear Hready Hadv Hno Ha.
  rewrite Hproxy in Hlate. clear Hproxy Hstart.
  split; cbv zeta; try rewrite Eidx;
    first [exact Hready' | exact Hmc | exact Hlis | exact Hsig | exact Hp | exact Hres | idtac];
    clear Hready' Hmc Hres; rewrite Hlate; cbn; try done.
  split; apply page_path_rooted.
Qed.

(** The definitions a started server serves: the manifest's, then the control plane's, sorted. *)
Lemma start_serving s registry store st ops :
  (∀ adv, advanced s = Some adv → proxies adv = None) →
  start s registry store = (Ok st, ops) →
  ∃ defs,
    (∀ adv, advanced s = Some adv → ∃ remote,
       defs = Specificity.sort_proxy_defs_by_specificity (default [] (proxy_defs adv) ++ remote) ∧
       (routes_bootstrap adv = None → remote = [])) ∧
    serving defs (mkWorld _ _ _ (Server.st_opts st) [] []) ∧
    (defs ≠ [] → ∃ adv, advanced s = Some adv ∧
       is_Some (proxy_client (Server.st_opts st)) ∧
       upgrade_tunnel_semaphore (Server.st_opts st) = max_upgrade_tunnels (adv_proxy_settings adv)).
Proof.
  intros Hfresh Hstart.
  destruct (start_inv s registry store st ops Hstart)
    as (o0 & o1 & o2 & reg & adv' & _ & Hbase & Hmods & Hres & Hproxy & Hlate & Hprot & _).
  assert (advanced_opts o1 = advanced s) as Ha1.
  { unfold Server.base_opts in Hbase. cbv zeta in Hbase.
    destruct (Server.comma_list (Cli.index_files (general s))) as [|f fl]; [done|].
    injection Hbase as <-. by apply init_modules_frame in Hmods as (dl & c & _ & _ & _ & ->). }
  rewrite Ha1 in Hres. clear Hbase Hmods Ha1.
  pose proof (proxy_init_cases fs pem_certs root_add (o1 {{ advanced_opts := adv' }})) as Hcases.
  rewrite Hproxy in Hcases. change (advanced_opts (o1 {{ advanced_opts := adv' }})) with adv' in Hcases.
  apply proxy_init_frame in Hproxy. apply init_late_frame in Hlate as [Hlate _].
  assert (advanced_opts (Server.st_opts st) = adv') as Ha by (rewrite Hlate, Hproxy; reflexivity).
  assert (proxy_client (Server.st_opts st) = proxy_client o2) as Hc by (rewrite Hlate; reflexivity).
  assert (upgrade_tunnel_semaphore (Server.st_opts st) = upgrade_tunnel_semaphore o2) as Hu
    by (rewrite Hlate; reflexivity).
  unfold serving, rules_of. cbn [w_opts]. rewrite Ha, Hc, Hu. clear Hlate Hproxy Ha Hc Hu.
  destruct (advanced s) as [adv|]; cbn in Hres.
  2:{ injection Hres as <- <-. exists []. split; [done|]. split; [by split|done]. }
  destruct adv' as [adv''|].
  2:{ cbn in Hres. rewrite (Hfresh adv eq_refl) in Hres.
      destruct (match routes_bootstrap adv with Some b => _ | None => _ end) as [[rem|e] ?];
        cbn in Hres; [|done]. by destruct (_ ++ _); [|destruct (Compile.compile_proxy_rules _)]. }
  destruct (resolve_rules_Ok fs env pem_certs root_add json_encode json_decode op_ok control_plane
              version adv adv'' ops (Hfresh adv eq_refl) Hres) as (rem & Hrem & Hcase).
  exists (Specificity.sort_proxy_defs_by_specificity (default [] (proxy_defs adv) ++ default [] rem)).
  split; [|split].
  - intros ? [= <-]. exists (default [] rem). split; [done|]. intros Hn. rewrite Hn in Hrem.
    by rewrite Hrem.
  - destruct Hcase as [[-> ->]|(rules & _ & -> & Hof & Hwf & _)]; cbn.
    + rewrite (Hfresh adv eq_refl). by split.
    + by split.
  - intros Hne. exists adv. split; [done|].
    destruct Hcase as [[Hd _]|(rules & _ & -> & Hof & Hwf & _)].
    { rewrite Hd in Hne. by destruct Hne. }
    apply Forall2_length in Hof. cbn in Hcases.
    destruct rules as [|r rules].
    { destruct (Specificity.sort_proxy_defs_by_specificity _); done. }
    destruct Hcases as (cl & _ & Hcl & _ & Hsem & _). cbn in Hcl, Hsem.
    rewrite Hcl, Hsem. split; [by eexists | done].
Qed.
End StartUp.

Section Reach.
Context `{HttpLib, GlobLib, RegexLib}.

Lemma fixed_client w w' :
  fixed_opts w = fixed_opts w' → proxy_client (w_opts w) = proxy_client (w_opts w').
Proof. intros Hf. by apply (f_equal proxy_client) in Hf. Qed.

Lemma balanced_alone max o w :
  (0 ≤ max)%Z → upgrade_tunnel_semaphore o = Some max →
  rtc Tunnels.step (Tunnels.mkConfig (mkWorld _ _ _ o [] []) []) (Tunnels.mkConfig w []) →
  (Z.of_nat (length (w_tunnels w)) ≤ max)%Z ∧
  upgrade_tunnel_semaphore (w_opts w) = Some (max - Z.of_nat (length (w_tunnels w)))%Z.
Proof.
  intros Hmax Hsem Hr.
  assert (Tunnels.balanced max (Tunnels.mkConfig (mkWorld _ _ _ o [] []) [])) as Hb.
  { exists max. simpl. split_and!; try done. unfold Tunnels.held. simpl. lia. }
  assert (Tunnels.balanced max (Tunnels.mkConfig w [])) as (n & Hn & Hn0 & Hsum & Ht & _).
  { induction Hr; eauto using step_balanced. }
  simpl in *. rewrite (held_all tt_permit) in Hsum by done. unfold Tunnels.held in Hsum.
  simpl in Hsum. rewrite Hn. split; [lia | f_equal; lia].
Qed.
End Reach.

(** C1. From the configuration file to every state of the running server.  Take the settings the
    configuration parser yields and a start-up that succeeds; then, however requests are handled
    and tunnels end from there on, whatever upstreams answer and the files become, the proxy still serves exactly the definitions of the manifest
    followed by those of the control plane, sorted by specificity, one aligned and well-formed
    rule each; it has its client as soon as there is a rule; never more tunnels run than
    [max-upgrade-tunnels] allows, and the free permits are what is left of it; and no other
    option of the server ever changes. *)
Theorem server_invariant `{HeadersLib, CodecLib, GlobLib, RegexLib, TlsLib}
    (order : gset string → list string) (fs : Fs.t) (env : string → option string)
    (pem_certs : string → option (list string)) (root_add : string → bool)
    (json_encode : Document.RoutesDocument → string)
    (json_decode : string → option Document.RoutesDocument) (op_ok : FsOp → bool)
    (control_plane : ProxyHttpClient → Request → option (result error Response))
    (version : string) (pf : Server.Platform)
    (Toml : Type) (toml_from_str : string → option Toml)
    (deserialize : Toml → option (File.Settings * list serde_path))
    (logger_init : string → bool → result error unit)
    (encode_text : MetricsState → string)
    (log_init : bool) (line : Cli.General) (s : Settings) (registry : gset string)
    (store : option MemCache.CacheConfig) (st : Server.Started) (ops : list FsOp)
    (m0 m : MetricsState) (w : World)
    (Hparse : Settings.parse_from fs env Toml toml_from_str deserialize logger_init log_init line
                = Ok s)
    (Hstart : Server.start order fs env pem_certs root_add json_encode json_decode op_ok
                control_plane version pf s registry store = (Ok st, ops))
    (Hreach : rtc (Server.step encode_text)
                (mkWorld _ _ _ (Server.st_opts st) [] [], m0) (w, m)) :
  ∃ defs,
    (∀ adv, advanced s = Some adv → ∃ remote,
       defs = Specificity.sort_proxy_defs_by_specificity (default [] (proxy_defs adv) ++ remote) ∧
       (routes_bootstrap adv = None → remote = [])) ∧
    serving defs w ∧
    (defs ≠ [] → is_Some (proxy_client (w_opts w)) ∧
       ∀ adv max, advanced s = Some adv →
         max_upgrade_tunnels (adv_proxy_settings adv) = Some max → (0 ≤ max)%Z →
         (Z.of_nat (length (w_tunnels w)) ≤ max)%Z ∧
         upgrade_tunnel_semaphore (w_opts w) =
           Some (max - Z.of_nat (length (w_tunnels w)))%Z) ∧
    fixed_opts w = fixed_opts (mkWorld _ _ _ (Server.st_opts st) [] []).
Proof.
  destruct (start_serving order fs env pem_certs root_add json_encode json_decode op_ok
    control_plane version pf s registry store st ops) as (defs & Hdefs & Hserve & Hon).
  { intros adv Hadv. by eapply parse_from_fresh. }
  { exact Hstart. }
  pose proof (server_steps_spec encode_text _ _ defs Hreach) as [Hr Hkeep].
  cbn [fst] in Hr, Hkeep. exists defs. split; [exact Hdefs|]. split; [by apply Hkeep|].
  assert (fixed_opts w = fixed_opts (mkWorld _ _ _ (Server.st_opts st) [] [])) as Hfix
    by exact (tunnels_steps_fixed _ _ Hr).
  split; [|exact Hfix]. intros Hne. destruct (Hon Hne) as (adv & Hadv & Hcl & Hsem). split.
  - by rewrite (fixed_client _ _ Hfix).
  - intros adv' max Hadv' Hmax Hmax0. rewrite Hadv in Hadv'. injection Hadv' as <-.
    rewrite Hmax in Hsem. exact (balanced_alone _ _ _ Hmax0 Hsem Hr).
Qed.

(** * Witnesses *)

Module ServerRef.
Import (hints) TlsRef.
Definition fs : Fs.t := Fs.mkFs
  (list_to_map
     [(["srv"], NDir ["public"; "weavegate.toml"] (Some 0%Z) true);
      (["srv"; "weavegate.toml"], NFile "manifest" (Some 0%Z) true);
      (["srv"; "public"], NDir [] (Some 0%Z) true)]) ["srv"] 4096.

Definition manifest : File.Settings := File.mkSettings _ None (Some {|
  File.headers := None;
  File.rewrites := None;
  File.redirects := None;
  File.virtual_hosts := None;
  File.proxies := Some [RoutesRef.toml];
  File.routes_bootstrap := None;
  File.proxy_tls := None;
  File.proxy_pool_max_idle_per_host := None;
  File.proxy_pool_idle_timeout_secs := None;
  File.proxy_first := None;
  File.max_upgrade_tunnels := Some 2%Z;
  File.memory_cache := None;
|}).

Definition parse : result error Settings :=
  Settings.parse_from fs (λ _, None) unit (λ _, Some tt) (λ _, Some (manifest, []))
    (λ _ _, Ok ()) true Cli.General_default.

Definition pf : Server.Platform := {|
  Server.ip_parse := Some;
  Server.take_tcp_listener := λ _, Ok true;
  Server.bind := λ _, Ok ();
  Server.create_signals := true;
  Server.read_plan := [];
  Server.read_room := 4096;
  Server.os_text := λ _, "";
  Server.path_debug := Path.text;
|}.

Definition start (s : Settings) : result error Server.Started * list FsOp :=
  Server.start elements fs (λ _, None) (λ _, None) (λ _, true) RoutesRef.encode RoutesRef.decode
    (λ _, true) (λ _ _, None) "1.0" pf s ∅ None.

Definition settings : Settings :=
  match parse with Ok s => s | Err _ => mkSettings Cli.General_default None end.

Lemma parse_is_ok : Res.is_ok parse = true.
Proof. vm_compute. reflexivity. Qed.

Lemma parse_ok : parse = Ok settings.
Proof. unfold settings. pose proof parse_is_ok as Hp. by destruct parse. Qed.

Lemma start_ok : Res.is_ok (start settings).1 = true.
Proof. vm_compute. reflexivity. Qed.

Lemma settings_ok :
  (λ adv, (routes_bootstrap adv, proxy_defs adv, max_upgrade_tunnels (adv_proxy_settings adv)))
    <$> advanced settings = Some (None, Some [RoutesRef.toml], Some 2%Z).
Proof. vm_compute. reflexivity. Qed.
End ServerRef.

Import (hints) TlsRef.

Lemma startup_options_witness :
  ∃ st ops, ServerRef.start ServerRef.settings = (Ok st, ops) ∧
    root_dir (Server.st_opts st) = Path.parse "./public" ∧
    Server.st_protocol st = Server.Http1 ∧ is_Some (proxy_client (Server.st_opts st)).
Proof.
  pose proof ServerRef.start_ok as Hok.
  destruct (ServerRef.start ServerRef.settings) as [[st|e] ops] eqn:E; [|discriminate Hok].
  exists st, ops. split; [reflexivity|].
  pose proof (startup_options elements ServerRef.fs (λ _, None) (λ _, None) (λ _, true)
    RoutesRef.encode RoutesRef.decode (λ _, true) (λ _ _, None) "1.0" ServerRef.pf
    ServerRef.settings ∅ None st ops ltac:(simpl; lia) E) as [[Hr _] _ _ _ _ _ _ _ _ _ _ _ _ _ Hres Hready _ _ _ Hp].
  assert (Cli.http2 (general ServerRef.settings) = false) as Hh by (vm_compute; reflexivity).
  cbv zeta in Hp. rewrite Hh in Hp.
  split; [rewrite Hr; vm_compute; reflexivity|]. split; [exact Hp|].
  revert Hready. unfold proxy_ready.
  assert (match (Bootstrap.resolve_rules ServerRef.fs (λ _, None) (λ _, None) (λ _, true)
    RoutesRef.encode RoutesRef.decode (λ _, true) (λ _ _, None) "1.0" (advanced ServerRef.settings)).1 with
    | Ok a => match a ≫= proxies with Some (_ :: _) => true | _ => false end | _ => false end = true) as Hrules
    by (vm_compute; reflexivity).
  rewrite Hres in Hrules. cbn [fst] in Hrules.
  destruct (advanced_opts (Server.st_opts st) ≫= proxies) as [[|r l]|]; [done| |done].
  intros (adv & client & _ & _ & [= -> _ _ _]). by eexists.
Defined.

Lemma server_invariant_witness :
  ∃ st ops w m, ServerRef.start ServerRef.settings = (Ok st, ops) ∧
    Server.step (λ _, "")
      (mkWorld _ _ _ (Server.st_opts st) [] [], Metrics.empty) (w, m) ∧
    upgrade_tunnel_semaphore (w_opts w) = Some (2 - Z.of_nat (length (w_tunnels w)))%Z.
Proof.
  pose proof ServerRef.start_ok as Hok.
  destruct (ServerRef.start ServerRef.settings) as [[st|e] ops] eqn:E; [|discriminate Hok].
  destruct (Server.call_request ProxyRef.answer (λ _, "") ServerRef.fs ∅
    (Server.mkRequestService None) (HandlerRef.req "GET" "/api/x") 1 (mkWorld _ _ _ (Server.st_opts st) [] []) Metrics.empty)
    as [[[res req'] w] m] eqn:Eh.
  assert (Server.step (λ _, "")
      (mkWorld _ _ _ (Server.st_opts st) [] [], Metrics.empty) (w, m)) as Hstep
    by exact (Server.StepRequest _ _ _ _ _ _ _ _ _ _ _ _ _ Eh).
  exists st, ops, w, m. split; [reflexivity|]. split; [exact Hstep|].
  destruct (server_invariant elements ServerRef.fs (λ _, None) (λ _, None) (λ _, true)
    RoutesRef.encode RoutesRef.decode (λ _, true) (λ _ _, None) "1.0" ServerRef.pf
    unit (λ _, Some tt) (λ _, Some (ServerRef.manifest, [])) (λ _ _, Ok ())
    (λ _, "") true Cli.General_default ServerRef.settings ∅ None
    st ops Metrics.empty m w ServerRef.parse_ok E (rtc_once _ _ Hstep))
    as (defs & Hd & _ & Hon & _).
  pose proof ServerRef.settings_ok as Hset.
  destruct (advanced ServerRef.settings) as [adv|] eqn:Ha; [|discriminate Hset].
  injection Hset as Hrb Hpd Hmax.
  destruct (Hd adv eq_refl) as (remote & -> & Hrem). rewrite (Hrem Hrb), Hpd in Hon.
  destruct Hon as [_ Hn]; [discriminate|].
  exact (proj2 (Hn adv 2%Z eq_refl Hmax ltac:(lia))).
Defined.
