(* ===== verification/Testing.v ===== *)
(** Test support: [testing.rs].

    The integration tests run a handler whose options come from [fixture_req_handler_opts]
    instead of [start_server]; the theorem says in what the two differ. *)
From Stdlib Require Import ZArith Lia Ascii String.
From stdpp Require Import base list strings gmap relations.
From coqutil Require Import Datatypes.RecordSetters.
Import DoubleBraceUpdate.
From S2P Require Import Prelude Http Libs RefLibs Path Fs Opts Pages Compression Ranges DirListing StaticFiles.
From S2P Require Import Cors Routing Policies Metrics Balancer Routes Settings Proxy Handler.
From S2P Require Import Transport Tls Server.
Local Open Scope string_scope.
Local Open Scope list_scope.
Local Open Scope nat_scope.

Module Testing.

(** The peer the tests pretend to be. *)
Definition REMOTE_ADDR : string := "127.0.0.1:1234".

(** The command line of [fixture_settings]; a path that is no text panics ([None]). *)
Definition fixture_args (fixture_toml : string) : option (list string) :=
  let f := Path.push (Path.parse "tests/fixtures") (Path.parse fixture_toml) in
  (λ f, ["weavegate"; "--config-file"; f]) <$> Path.to_str f.

Section Fixtures.
Context `{HttpLib, GlobLib, RegexLib}.

(** [fixture_settings] over [Settings::get_unparsed]; every [unwrap] may panic. *)
Definition fixture_settings (get_unparsed : list string → result error Settings)
    (fixture_toml : string) : option Settings :=
  fixture_args fixture_toml ≫= λ args, Res.ok (get_unparsed args).

(** [fixture_req_handler_opts]. *)
Definition fixture_req_handler_opts (general : Cli.General) (advanced : option Advanced)
    : RequestHandlerOpts :=
  RequestHandlerOpts_default
    {{ root_dir := Cli.root general;
       compression := Cli.compression general;
       compression_static := Cli.compression_static general;
       compression_level := Cli.compression_level general;
       dir_listing := Cli.directory_listing general;
       dir_listing_order := Cli.directory_listing_order general;
       dir_listing_format := Cli.directory_listing_format general;
       dir_listing_download := Cli.directory_listing_download general;
       cors := None;
       security_headers := Cli.security_headers general;
       cache_control_headers := Cli.cache_control_headers general;
       page404 := Cli.page404 general;
       page50x := Cli.page50x general;
       page_fallback := "";
       basic_auth := Cli.basic_auth general;
       log_remote_address := Cli.log_remote_address general;
       log_x_real_ip := Cli.log_x_real_ip general;
       log_forwarded_for := Cli.log_forwarded_for general;
       trusted_proxies := Cli.trusted_proxies general;
       redirect_trailing_slash := Cli.redirect_trailing_slash general;
       ignore_hidden_files := Cli.ignore_hidden_files general;
       disable_symlinks := Cli.disable_symlinks general;
       accept_markdown := Cli.accept_markdown general;
       text_charset := Cli.text_charset general;
       index_files := map Str.trim (Str.split "," (Cli.index_files general));
       health := Cli.health general;
       metrics_enabled := Cli.metrics general;
       maintenance_mode := Cli.maintenance_mode general;
       maintenance_mode_status := Cli.maintenance_mode_status general;
       maintenance_mode_file := Cli.maintenance_mode_file general;
       memory_cache := None;
       advanced_opts := advanced;
       proxy_client := None;
       proxy_settings := None;
       proxy_first := false;
       upgrade_tunnel_semaphore := None }}.
End Fixtures.
End Testing.

(** An advanced section that sets up neither a proxy nor the in-memory cache. *)
Definition plain_advanced `{HttpLib, GlobLib, RegexLib} (adv : Advanced) : Prop :=
  proxies adv = None ∧ proxy_defs adv = None ∧ routes_bootstrap adv = None ∧
  adv_memory_cache adv = None.

(** What the tests exercise is what is served: for settings without a proxy and an in-memory
    cache, the handler options of a server that starts are those of the fixture for the same
    settings, except that error pages are joined to the root, the credentials are trimmed, and
    the fallback page, the CORS policy and the (repeated) download formats are set up. *)
Theorem fixture_options `{HeadersLib, CodecLib, GlobLib, RegexLib, TlsLib}
    (order : gset string → list string) (fs : Fs.t) (env : string → option string)
    (pem_certs : string → option (list string)) (root_add : string → bool)
    (json_encode : Document.RoutesDocument → string)
    (json_decode : string → option Document.RoutesDocument) (op_ok : FsOp → bool)
    (control_plane : ProxyHttpClient → Request → option (result error Response))
    (version : string) (pf : Server.Platform) (s : Settings) (registry : gset string)
    (store : option MemCache.CacheConfig) (st : Server.Started) (ops : list FsOp)
    (Hadv : ∀ adv, advanced s = Some adv → plain_advanced adv)
    (Hstart : Server.start order fs env pem_certs root_add json_encode json_decode op_ok
                control_plane version pf s registry store = (Ok st, ops)) :
  let g := general s in
  let o := Server.st_opts st in
  o = (Testing.fixture_req_handler_opts g (advanced s))
        {{ page404 := Server.page_path (Cli.root g) (Cli.page404 g);
           page50x := Server.page_path (Cli.root g) (Cli.page50x g);
           basic_auth := Str.trim (Cli.basic_auth g);
           page_fallback := page_fallback o;
           cors := cors o;
           dir_listing_download := dir_listing_download o }}.
Proof.
  intros g o. subst g o.
  destruct (start_inv order fs env pem_certs root_add json_encode json_decode op_ok control_plane
    version pf s registry store st ops Hstart)
    as (o0 & o1 & o2 & reg & adv' & _ & Hbase & Hmods & Hres & Hproxy & Hlate & _).
  unfold Server.base_opts in Hbase. cbv zeta in Hbase.
  pose proof (comma_list_nonempty (Cli.index_files (general s))) as Hne.
  assert (Server.comma_list (Cli.index_files (general s)) =
          map Str.trim (Str.split "," (Cli.index_files (general s)))) as Hidx by done.
  destruct (Server.comma_list (Cli.index_files (general s))) as [|f fl]; [done|].
  injection Hbase as <-. apply init_modules_frame in Hmods as (dl & c & _ & _ & _ & ->); [|done..].
  assert (adv' = advanced s) as ->.
  { clear Hproxy. simpl in Hres. destruct (advanced s) as [adv|]; [|simpl in Hres; congruence].
    destruct (Hadv adv eq_refl) as (Hp & Hd & Hb & _). destruct adv; simpl in *; subst.
    simpl in Hres. congruence. }
  assert (∀ x, x = advanced s → x ≫= proxies = None ∧ x ≫= adv_memory_cache = None) as Hnone.
  { intros x ->. destruct (advanced s) as [adv|]; [|done].
    by destruct (Hadv adv eq_refl) as (? & _ & _ & ?). }
  assert (∀ o, advanced_opts o = advanced s → Bootstrap.init fs pem_certs root_add o = Ok o) as Hinit.
  { intros o Ho. unfold Bootstrap.init. by rewrite (proj1 (Hnone _ Ho)). }
  rewrite Hinit in Hproxy by done. injection Hproxy as <-.
  apply init_late_frame in Hlate as [Hl Hm].
  match type of Hm with context [mbind adv_memory_cache ?x] =>
    rewrite (proj2 (Hnone x eq_refl)) in Hm end.
  rewrite Hm in Hl. rewrite Hl. unfold Testing.fixture_req_handler_opts. rewrite <- Hidx. reflexivity.
Qed.

Import (hints) TlsRef.

Lemma fixture_options_witness :
  ∃ st ops, ServerRef.start (mkSettings Cli.General_default None) = (Ok st, ops) ∧
    compression (Server.st_opts st) =
      compression (Testing.fixture_req_handler_opts Cli.General_default None).
Proof.
  assert (Res.is_ok (ServerRef.start (mkSettings Cli.General_default None)).1 = true) as Hok
    by (vm_compute; reflexivity).
  destruct (ServerRef.start (mkSettings Cli.General_default None)) as [[st|e] ops] eqn:E;
    [|discriminate Hok].
  exists st, ops. split; [reflexivity|].
  pose proof (fixture_options elements ServerRef.fs (λ _, None) (λ _, None) (λ _, true)
    RoutesRef.encode RoutesRef.decode (λ _, true) (λ _ _, None) "1.0" ServerRef.pf
    (mkSettings Cli.General_default None) ∅ None st ops
    (λ adv (H : None = Some adv), False_ind _ (eq_ind None (λ o, if o is Some _ then False else True) I _ H)) E) as Ho.
  rewrite Ho. reflexivity.
Defined.
