(* ===== verification/Signals.v ===== *)
(** Graceful shutdown: [signals.rs], and the cancel receiver the servers of [server.rs] share.

    [wait_for_signals] is three concurrent tasks: the one that reads the signal stream, the one
    that waits on the shared cancel receiver, and the waiter itself, which takes the first
    message of either from a channel of capacity one and then lets the grace period pass.
    [Signals.step] interleaves the tasks of all waiters (one for a plain server; two, sharing the
    receiver behind a mutex, for HTTP/2 with the HTTPS redirect) with what happens around them. *)
From Stdlib Require Import ZArith Lia Ascii String Wellfounded.
From stdpp Require Import base list relations.
From coqutil Require Import Datatypes.RecordSetters.
Import DoubleBraceUpdate.
From S2P Require Import Prelude.
Local Open Scope string_scope.
Local Open Scope list_scope.
Local Open Scope nat_scope.

Module Signals.

(** The signals [create_signals] registers. *)
Inductive Signal := SIGHUP | SIGTERM | SIGINT | SIGQUIT.
#[export] Instance Signal_eq_dec : EqDecision Signal.
Proof. solve_decision. Defined.

Definition registered : list Signal := [SIGHUP; SIGTERM; SIGINT; SIGQUIT].

(** The arm [SIGTERM | SIGINT | SIGQUIT]. *)
Definition terminates (s : Signal) : bool := match s with SIGHUP => false | _ => true end.

(** The signal task: reading its stream (signals delivered and not yet read, whether the
    stream's handle was closed), sending on [first_tx], or gone. *)
Inductive SigTask := Listening (queue : list Signal) (closed : bool) | SigSending | SigDone.

(** The cancel task: waiting for the mutex, for [changed] with the mutex held, sending on
    [last_tx] with the mutex held, or gone. *)
Inductive CancelTask := Locking | Changing | CancelSending | CancelDone.

(** [base_rx.recv()], the grace period with the seconds left, the end. *)
Inductive MainTask := Receiving | Grace (secs : nat) | Delegated.

#[export] Instance MainTask_eq_dec : EqDecision MainTask.
Proof. solve_decision. Defined.

Record Waiter := mkWaiter {
  sig : SigTask;
  cancel : CancelTask;
  buffered : nat;      (* messages in the channel *)
  main : MainTask;
}.

(** [tokio::sync::mpsc::channel(1)]. *)
Definition capacity : nat := 1.

(** [wait_for_signals] when it starts to wait. *)
Definition spawn : Waiter := mkWaiter (Listening [] false) Locking 0 Receiving.

(** The [watch] receiver: a change it has not seen, and whether the sender is still there. *)
Record Watch := mkWatch { changed : bool; open : bool }.

(** All waiters, and the [Arc<Mutex<Option<Receiver<()>>>>] they share. *)
Record Sys := mkSys {
  waiters : list Waiter;
  holder : option nat;       (* whose cancel task has the mutex *)
  recv : option Watch;
}.

Definition start (n : nat) (recv : option Watch) : Sys := mkSys (replicate n spawn) None recv.

(** A send ends at once if the receiver is gone, else it needs room in the channel. *)
Definition can_send (w : Waiter) : bool :=
  match main w with Delegated => true | _ => buffered w <? capacity end.
Definition send (w : Waiter) : Waiter :=
  match main w with Delegated => w | _ => w {{ buffered ::= S }} end.

(** [base_rx.recv()] answers: a message, or no sender is left. *)
Definition can_receive (w : Waiter) : bool :=
  (0 <? buffered w) ||
  match sig w, cancel w with SigDone, CancelDone => true | _, _ => false end.

(** [delay_graceful_shutdown] of the configured seconds begins. *)
Definition begin_grace (grace_period_secs : nat) (w : Waiter) : Waiter :=
  w {{ buffered ::= Nat.pred; main := Grace grace_period_secs }}.

(** One step of the tasks of one waiter, [i] its place among the waiters. *)
Inductive wstep (grace i : nat) :
    Waiter → option nat → option Watch → Waiter → option nat → option Watch → Prop :=
| SigHup q c w h r :
    sig w = Listening (SIGHUP :: q) c →
    wstep grace i w h r (w {{ sig := Listening q c }}) h r
| SigTerm s q c w h r :
    sig w = Listening (s :: q) c → terminates s = true →
    wstep grace i w h r (w {{ sig := SigSending }}) h r
| SigEnd w h r :
    sig w = Listening [] true →
    wstep grace i w h r (w {{ sig := SigDone }}) h r
| SigSend w h r :
    sig w = SigSending → can_send w = true →
    wstep grace i w h r ((send w) {{ sig := SigDone }}) h r
| CancelNone w :
    cancel w = Locking →
    wstep grace i w None None (w {{ cancel := CancelDone }}) None None
| CancelLock w r :
    cancel w = Locking →
    wstep grace i w None (Some r) (w {{ cancel := Changing }}) (Some i) (Some r)
| CancelChanged w h r :
    cancel w = Changing → changed r || negb (open r) = true →
    wstep grace i w h (Some r) (w {{ cancel := CancelSending }}) h (Some (mkWatch false (open r)))
| CancelSend w h r :
    cancel w = CancelSending → can_send w = true →
    wstep grace i w h r ((send w) {{ cancel := CancelDone }}) None r
| MainReceive w h r :
    main w = Receiving → can_receive w = true →
    wstep grace i w h r (begin_grace grace w) h r
| GraceSecond n w h r :
    main w = Grace (S n) →
    wstep grace i w h r (w {{ main := Grace n }}) h r
| GraceOver w h r :
    main w = Grace 0 →
    wstep grace i w h r (w {{ main := Delegated }}) h r.

(** A step of the program: of one of its waiters. *)
Inductive step (grace : nat) : Sys → Sys → Prop :=
| StepWaiter i ws w w' h h' r r' :
    ws !! i = Some w → wstep grace i w h r w' h' r' →
    step grace (mkSys ws h r) (mkSys (<[i := w']> ws) h' r').

(** A signal reaches every stream that is still read. *)
Definition deliver (s : Signal) (w : Waiter) : Waiter :=
  match sig w with
  | Listening q false => w {{ sig := Listening (q ++ [s]) false }}
  | _ => w
  end.

(** [Handle::close]. *)
Definition close (w : Waiter) : Waiter :=
  match sig w with Listening q _ => w {{ sig := Listening q true }} | _ => w end.

(** What happens around the tasks: a signal, a cancel by the sender, its end, a closed handle. *)
Inductive event : Sys → Sys → Prop :=
| EvSignal s ws h r : event (mkSys ws h r) (mkSys (deliver s <$> ws) h r)
| EvCancel ws h c : event (mkSys ws h (Some (mkWatch c true))) (mkSys ws h (Some (mkWatch true true)))
| EvDropSender ws h c :
    event (mkSys ws h (Some (mkWatch c true))) (mkSys ws h (Some (mkWatch c false)))
| EvClose i ws w h r :
    ws !! i = Some w → event (mkSys ws h r) (mkSys (<[i := close w]> ws) h r).
End Signals.
Import Signals.

(** * Every run of the tasks ends *)

Section Measure.
Context (grace : nat).

(** How many steps a waiter has left at most. *)
Definition waiter_measure (w : Waiter) : nat :=
  match sig w with Listening q _ => 2 + length q | SigSending => 1 | SigDone => 0 end +
  match cancel w with Locking => 3 | Changing => 2 | CancelSending => 1 | CancelDone => 0 end +
  match main w with Receiving => 2 + grace | Grace n => S n | Delegated => 0 end.

Lemma wstep_measure i w h r w' h' r' :
  wstep grace i w h r w' h' r' → waiter_measure w' < waiter_measure w.
Proof.
  unfold waiter_measure.
  destruct 1; destruct w as [sg cn bf mn]; simpl in *; subst; unfold send, begin_grace; simpl;
    try (destruct mn; simpl); simpl; lia.
Qed.

Definition measure (c : Sys) : nat := sum_list_with waiter_measure (waiters c).

Lemma sum_list_with_insert {A} (f : A → nat) l i x y :
  l !! i = Some x → f y < f x → sum_list_with f (<[i := y]> l) < sum_list_with f l.
Proof.
  revert i. induction l as [|z l IH]; intros [|i] Hi Hlt; simplify_eq/=; [lia|].
  specialize (IH i Hi Hlt). lia.
Qed.

Lemma step_measure c c' : step grace c c' → measure c' < measure c.
Proof.
  intros [i ws w w' h h' r r' Hi Hw]. unfold measure. simpl.
  eapply sum_list_with_insert; [exact Hi|]. by eapply wstep_measure.
Qed.

Lemma step_sn c : sn (step grace) c.
Proof.
  apply (Acc_incl _ _ (ltof _ measure)); [|apply well_founded_ltof].
  intros c1 c2 Hs. by apply step_measure.
Qed.

Lemma nsteps_measure n c c' : nsteps (step grace) n c c' → n + measure c' ≤ measure c.
Proof. induction 1 as [|n c1 c2 c3 Hs _ IH]; [lia|]. apply step_measure in Hs. lia. Qed.
End Measure.

(** * A waiter that was called goes through *)

(** A waiter's end is under way: a terminating signal was read or is still in its stream, or a
    message is in its channel, or it has stopped waiting. *)
Definition called (w : Waiter) : Prop :=
  main w ≠ Receiving ∨ 0 < buffered w ∨ sig w = SigSending ∨
  ∃ q c s, sig w = Listening q c ∧ s ∈ q ∧ terminates s = true.

Definition delegated (c : Sys) (i : nat) : Prop :=
  ∃ w, waiters c !! i = Some w ∧ main w = Delegated.

Section Calls.
Context (grace : nat).

Lemma wstep_called i w h r w' h' r' : wstep grace i w h r w' h' r' → called w → called w'.
Proof.
  unfold called. destruct 1; destruct w as [sg cn bf mn]; simpl in *; subst;
    unfold send, begin_grace; simpl.
  all: try by (intros [?|[?|[?|(q' & c' & s' & ? & ? & ?)]]]; simplify_eq; naive_solver).
  - intros [?|[?|[?|(q' & c' & s' & ? & Hin & Ht)]]]; simplify_eq; try naive_solver.
    apply elem_of_cons in Hin as [->|Hin]; [done|]. do 3 right. by exists q, c', s'.
  - intros [?|[?|[?|(q' & c' & s' & ? & Hin & Ht)]]]; simplify_eq; try naive_solver.
    by apply elem_of_nil in Hin.
  - destruct mn; simpl; [right; left; lia|left; done..].
  - destruct mn; simpl; [right; left; lia|left; done..].
Qed.

(** As long as a called waiter is not through, one of its tasks can move. *)
Lemma called_progress c i w :
  waiters c !! i = Some w → called w → main w ≠ Delegated → ∃ c', step grace c c'.
Proof.
  destruct c as [ws h r]. simpl. intros Hi Hc Hm.
  assert (∀ w' h' r', wstep grace i w h r w' h' r' → ∃ c', step grace (mkSys ws h r) c') as Hstep.
  { intros w' h' r' Hs. eexists. by eapply StepWaiter. }
  destruct (main w) as [|[|n]|] eqn:Em; [| |by eapply Hstep, GraceSecond|done].
  2:{ by eapply Hstep, GraceOver. }
  destruct (buffered w) as [|b] eqn:Eb.
  2:{ eapply Hstep, MainReceive; [done|]. unfold can_receive. by rewrite Eb. }
  destruct Hc as [?|[?|[Hs|(q & cl & s & Hs & Hin & Ht)]]]; [done|lia| |].
  - eapply Hstep, SigSend; [done|]. unfold can_send. by rewrite Em, Eb.
  - destruct q as [|s' q]; [by apply elem_of_nil in Hin|].
    destruct (terminates s') eqn:Et; [by eapply Hstep, SigTerm|].
    destruct s'; try done. by eapply Hstep, SigHup.
Qed.

Definition waiter_called (i : nat) (c : Sys) : Prop :=
  ∃ w, waiters c !! i = Some w ∧ called w.

Lemma insert_inv {A} (P : A → Prop) (l : list A) i j x y :
  l !! j = Some x → (P x → P y) →
  (∃ z, l !! i = Some z ∧ P z) → ∃ z, <[j := y]> l !! i = Some z ∧ P z.
Proof.
  intros Hj Hxy (z & Hi & Hz). destruct (decide (i = j)) as [->|Hne].
  - simplify_eq. exists y. rewrite list_lookup_insert_eq; [auto|]. by eapply lookup_lt_Some.
  - exists z. by rewrite list_lookup_insert_ne.
Qed.

Lemma step_called i c c' : step grace c c' → waiter_called i c → waiter_called i c'.
Proof.
  intros [j ws w w' h h' r r' Hj Hw]. apply (insert_inv called _ _ _ w); [done|].
  by eapply wstep_called.
Qed.

Lemma deliver_called s w : called w → called (deliver s w).
Proof.
  unfold called, deliver. destruct (sig w) as [q [|]| |] eqn:E; simpl; rewrite ?E; auto.
  intros [?|[?|[?|(q' & c & s' & [= <- <-] & Hin & Ht)]]]; [auto..|done|].
  do 3 right. eexists _, _, s'. split_and!; [done| |done]. rewrite elem_of_app. auto.
Qed.

Lemma close_called w : called w → called (close w).
Proof.
  unfold called, close. destruct (sig w) as [q c| |] eqn:E; simpl; rewrite ?E; auto.
  intros [?|[?|[?|(q' & c' & s' & [= <- <-] & Hin & Ht)]]]; [auto..|done|].
  do 3 right. by eexists _, _, s'.
Qed.

Lemma event_called i c c' : event c c' → waiter_called i c → waiter_called i c'.
Proof.
  destruct 1 as [s ws h r| | |j ws w h r Hj]; unfold waiter_called; simpl; [|done..|].
  - intros (w & Hi & Hw). exists (deliver s w). rewrite list_lookup_fmap, Hi.
    split; [done|]. by apply deliver_called.
  - apply (insert_inv called _ _ _ w); [done|]. apply close_called.
Qed.

(** From a called waiter on, the tasks can only end with it through. *)
Lemma called_ends i c :
  waiter_called i c → ∃ c', rtc (step grace) c c' ∧ delegated c' i.
Proof.
  induction (step_sn grace c) as [c _ IH]. intros (w & Hi & Hc).
  destruct (main w) eqn:Em; [| |by exists c; split; [apply rtc_refl|exists w]].
  all: destruct (called_progress c i w Hi Hc) as [c1 Hs]; [congruence|].
  all: destruct (IH c1 Hs) as (c2 & Hr & Hd); [by eapply step_called; [|exists w]|].
  all: exists c2; split; [by eapply rtc_l|done].
Qed.
End Calls.

(** The program and its surroundings take turns. *)
Definition moves (grace : nat) (c c' : Sys) : Prop := step grace c c' ∨ event c c'.

Lemma moves_called grace i c c' : rtc (moves grace) c c' → waiter_called i c → waiter_called i c'.
Proof.
  induction 1 as [|c1 c2 c3 [Hs|He] _ IH]; [done| |]; intros Hc; apply IH.
  - by eapply step_called.
  - by eapply event_called.
Qed.

(** A termination signal ends the wait.  When SIGTERM, SIGINT or SIGQUIT arrives, every
    waiter whose stream is open then — that of the main server and that of the redirect server —
    is let through, whatever the tasks do and whatever else happens from there on: the tasks
    cannot run for ever, each run is bounded by [measure], the tasks of a waiter that is not
    through yet can always move, and they reach the end of its grace period. *)
Theorem signal_ends_wait (grace i : nat) (s : Signal) (ws : list Waiter) (h : option nat)
    (r : option Watch) (w : Waiter) (q : list Signal) (c : Sys)
    (Hterm : terminates s = true)
    (Hi : ws !! i = Some w) (Hopen : sig w = Listening q false)
    (Hrun : rtc (moves grace) (mkSys (deliver s <$> ws) h r) c) :
  sn (step grace) c ∧
  (∀ n c', nsteps (step grace) n c c' → n ≤ measure grace c) ∧
  (∀ c', rtc (step grace) c c' → delegated c' i ∨ ∃ c'', step grace c' c'') ∧
  (∀ c', rtc (step grace) c c' → ∃ c'', rtc (step grace) c' c'' ∧ delegated c'' i).
Proof.
  assert (waiter_called i c) as Hc.
  { eapply moves_called; [exact Hrun|]. exists (deliver s w).
    simpl. rewrite list_lookup_fmap, Hi. split; [done|].
    unfold called, deliver. rewrite Hopen. simpl. do 3 right. exists (q ++ [s]), false, s.
    split_and!; [done| |done]. rewrite elem_of_app, list_elem_of_singleton. auto. }
  assert (∀ c', rtc (step grace) c c' → waiter_called i c') as Hstay.
  { intros c' Hr. eapply moves_called; [|exact Hc].
    eapply rtc_subrel; [|exact Hr]. intros ???. by left. }
  split_and!.
  - apply step_sn.
  - intros n c' Hn. apply nsteps_measure in Hn. lia.
  - intros c' (w' & Hi' & Hc')%Hstay. destruct (main w') eqn:Em.
    3: by left; exists w'.
    all: right; eapply called_progress; [done..|congruence].
  - intros c' Hr. by apply called_ends, Hstay.
Qed.

(** * The shared cancel receiver *)

(** The waiter's cancel task has the mutex. *)
Definition holds (w : Waiter) : bool :=
  match cancel w with Changing | CancelSending => true | _ => false end.

(** The mutex is with the one cancel task that is past it; a cancel task that found a receiver
    only ends after it sent. *)
Record lock_inv (c : Sys) : Prop := {
  li_holder i w : waiters c !! i = Some w → (holds w = true ↔ holder c = Some i);
  li_exists i : holder c = Some i → is_Some (waiters c !! i);
  li_done i w : waiters c !! i = Some w → cancel w = CancelDone → recv c = None ∨ called w;
}.

Section Cancel.
Context (grace : nat).

Lemma wstep_lock i w h r w' h' r' :
  wstep grace i w h r w' h' r' →
  (holds w' = holds w ∧ h' = h) ∨
  (holds w = false ∧ h = None ∧ holds w' = true ∧ h' = Some i) ∨
  (holds w = true ∧ holds w' = false ∧ h' = None).
Proof.
  unfold holds. destruct 1; destruct w as [sg cn bf mn]; simpl in *; subst;
    unfold send, begin_grace; simpl; try (destruct mn; simpl); tauto.
Qed.

Lemma wstep_recv i w h r w' h' r' :
  wstep grace i w h r w' h' r' →
  r' = r ∨ ∃ x, r = Some x ∧ r' = Some (mkWatch false (open x)) ∧ cancel w' = CancelSending.
Proof. destruct 1; eauto. Qed.

Lemma wstep_done i w h r w' h' r' :
  wstep grace i w h r w' h' r' → cancel w' = CancelDone →
  cancel w = CancelDone ∨ r = None ∨ called w'.
Proof.
  destruct 1; destruct w as [sg cn bf mn]; simpl in *; subst; unfold send, begin_grace; simpl;
    try (destruct mn; simpl); auto; try done; intros _; right; right; unfold called; simpl.
  - right. left. lia.
  - left. done.
  - left. done.
Qed.

Lemma start_lock n r : lock_inv (start n r).
Proof.
  split; simpl; [|done|].
  - intros i w [-> _]%lookup_replicate. by split.
  - intros i w [-> _]%lookup_replicate. done.
Qed.

Lemma step_lock c c' : step grace c c' → lock_inv c → lock_inv c'.
Proof.
  intros Hs [Hh He Hd].
  assert (∀ i, waiter_called i c → waiter_called i c') as Hcall
    by (intros i; by apply (step_called grace i c)).
  destruct Hs as [j ws w w' h h' r r' Hj Hw]. simpl in *.
  pose proof (wstep_lock _ _ _ _ _ _ _ Hw) as Hl.
  pose proof (Hh j w Hj) as Hhj.
  split; simpl.
  - intros i v Hi. apply list_lookup_insert_Some in Hi as [(-> & <- & _)|[Hne Hi]].
    + destruct Hl as [[-> ->]|[(_ & _ & -> & ->)|(_ & -> & ->)]]; [done|by split|by split].
    + pose proof (Hh i v Hi) as Hhi.
      destruct Hl as [[_ ->]|[(_ & -> & _ & ->)|(Ht & _ & ->)]]; [done| |];
        rewrite Hhi; split; try congruence.
      apply Hhj in Ht. congruence.
  - intros i Hi. apply list_lookup_insert_is_Some.
    destruct Hl as [[_ ->]|[(_ & _ & _ & ->)|(_ & _ & ->)]]; [by apply He| |done].
    injection Hi as <-. by eexists.
  - intros i v Hi Hv. assert (∃ v, ws !! i = Some v ∧
      (cancel v = CancelDone ∨ r = None ∨ waiter_called i (mkSys (<[j:=w']> ws) h' r')))
      as (u & Hu & Hcase).
    { apply list_lookup_insert_Some in Hi as [(-> & <- & _)|[Hne Hi]]; [|by exists v; auto].
      exists w. split; [done|]. destruct (wstep_done _ _ _ _ _ _ _ Hw Hv) as [?|[?|Hc]]; auto.
      right. right. exists w'. simpl. split; [|done].
      apply list_lookup_insert_eq. by eapply lookup_lt_Some. }
    assert (r = None ∨ waiter_called i (mkSys (<[j:=w']> ws) h' r')) as [->|(v' & Hv' & Hc)].
    { destruct Hcase as [Hu'|[?|?]]; [|auto..].
      destruct (Hd i u Hu Hu') as [?|?]; [by left|right]. apply Hcall. by exists u. }
    + left. destruct (wstep_recv _ _ _ _ _ _ _ Hw) as [->|(x & ? & _)]; done.
    + right. simpl in Hv'. by simplify_eq.
Qed.

Lemma deliver_cancel s w : cancel (deliver s w) = cancel w.
Proof. unfold deliver. by destruct (sig w) as [? []| |]. Qed.
Lemma close_cancel w : cancel (close w) = cancel w.
Proof. unfold close. by destruct (sig w). Qed.

(** An event keeps the cancel tasks. *)
Lemma event_waiters c c' i w' :
  event c c' → waiters c' !! i = Some w' →
  ∃ w, waiters c !! i = Some w ∧ cancel w' = cancel w ∧ (called w → called w').
Proof.
  destruct 1 as [s ws h r| | |j ws w h r Hj]; simpl; [|by exists w'..|].
  - rewrite list_lookup_fmap. intros (w & Hi & ->)%fmap_Some. exists w.
    split_and!; [done|apply deliver_cancel|apply deliver_called].
  - intros [(-> & <- & _)|[Hne Hi]]%list_lookup_insert_Some; [|by exists w'].
    exists w. split_and!; [done|apply close_cancel|apply close_called].
Qed.

Lemma event_lock c c' : event c c' → lock_inv c → lock_inv c'.
Proof.
  intros He [Hh Hx Hd].
  assert (holder c' = holder c) as Hholder by by destruct He.
  assert (recv c = None → recv c' = None) as Hrecv by by destruct He.
  split.
  - intros i w' Hi. destruct (event_waiters _ _ _ _ He Hi) as (w & Hi' & Hc & _).
    rewrite Hholder, <- (Hh i w Hi'). unfold holds. by rewrite Hc.
  - intros i Hi. rewrite Hholder in Hi. destruct (Hx i Hi) as [w Hi'].
    destruct He as [| | |j ws v h r Hj]; simpl in *; [|by eexists..|].
    + rewrite list_lookup_fmap, Hi'. by eexists.
    + by apply list_lookup_insert_is_Some.
  - intros i w' Hi Hdone. destruct (event_waiters _ _ _ _ He Hi) as (w & Hi' & Hc & Hcl).
    rewrite Hc in Hdone. destruct (Hd i w Hi' Hdone); [left|right]; auto.
Qed.

Lemma moves_lock c c' : rtc (moves grace) c c' → lock_inv c → lock_inv c'.
Proof.
  induction 1 as [|c1 c2 c3 [Hs|He] _ IH]; [done| |]; intros Hc; apply IH.
  - by eapply step_lock.
  - by eapply event_lock.
Qed.

(** * A cancel goes through *)

Lemma waiter_progress c i w :
  waiters c !! i = Some w →
  main w = Receiving ∧ buffered w = 0 ∨ main w = Delegated ∨ ∃ c', step grace c c'.
Proof.
  destruct c as [ws h r]. simpl. intros Hi.
  destruct (main w) as [|n|] eqn:Em; [|right; right|auto].
  - destruct (buffered w) as [|b] eqn:Eb; [auto|right; right].
    eexists. eapply StepWaiter, MainReceive; [done..|]. unfold can_receive. by rewrite Eb.
  - destruct n as [|n]; eexists; eapply StepWaiter; [done|by apply GraceOver|done|by eapply GraceSecond].
Qed.

(** The cancel task with the mutex can go on, once there is something to see. *)
Lemma holder_progress c i w r :
  waiters c !! i = Some w → recv c = Some r →
  (cancel w = Changing ∧ changed r || negb (open r) = true) ∨ cancel w = CancelSending →
  ∃ c', step grace c c'.
Proof.
  destruct c as [ws h rc]. simpl. intros Hi -> [[Hc Hr]|Hc].
  - eexists. by eapply StepWaiter, CancelChanged.
  - destruct (waiter_progress (mkSys ws h (Some r)) i w Hi) as [[Hm Hb]|[Hm|?]]; [| |done].
    all: eexists; eapply StepWaiter, CancelSend; [done..|]; unfold can_send; by rewrite Hm, ?Hb.
Qed.

(** With a change to see, no waiter can be stuck before its end. *)
Lemma change_progress c i r :
  lock_inv c → i < length (waiters c) → recv c = Some r → changed r || negb (open r) = true →
  delegated c i ∨ ∃ c', step grace c c'.
Proof.
  intros [Hh Hx Hd] [w Hi]%lookup_lt_is_Some Hrecv Hr.
  destruct (waiter_progress c i w Hi) as [[Hm Hb]|[Hm|?]]; [|by left; exists w|by right].
  right. destruct (cancel w) eqn:Ec.
  - destruct c as [ws [j|] rc]; simpl in *; subst rc.
    + destruct (Hx j eq_refl) as [v Hj]. pose proof (proj2 (Hh j v Hj) eq_refl) as Hv.
      apply (holder_progress (mkSys ws (Some j) (Some r)) j v r); [done..|].
      unfold holds in Hv. destruct (cancel v); auto; done.
    + eexists. by eapply StepWaiter, CancelLock.
  - eapply holder_progress; eauto.
  - eapply holder_progress; eauto.
  - destruct (Hd i w Hi Ec) as [?|Hc]; [congruence|].
    eapply called_progress; [done..|congruence].
Qed.

(** A cancel that concerns waiter [i]: it got its message, or the sender is gone, or it is the
    only waiter and the change is still to be seen or being passed on. *)
Definition due (i : nat) (c : Sys) : Prop :=
  lock_inv c ∧ i < length (waiters c) ∧
  (waiter_called i c ∨ ∃ r, recv c = Some r ∧
     (open r = false ∨ ∃ w, waiters c = [w] ∧ (changed r = true ∨ cancel w = CancelSending))).

Lemma due_progress i c : due i c → delegated c i ∨ ∃ c', step grace c c'.
Proof.
  intros (Hinv & Hlt & [(w & Hi & Hc)|(r & Hr & [Ho|(w & Hw & [Hch|Hs])])]).
  - destruct (waiter_progress c i w Hi) as [[Hm Hb]|[Hm|?]]; [|by left; exists w|by right].
    right. eapply called_progress; [done..|congruence].
  - apply (change_progress c i r Hinv Hlt Hr). rewrite Ho. by destruct (changed r).
  - apply (change_progress c i r Hinv Hlt Hr). by rewrite Hch.
  - right. rewrite Hw in Hlt. simpl in Hlt.
    apply (holder_progress c 0 w r); [by rewrite Hw|done|by right].
Qed.

Lemma step_due i c c' : step grace c c' → due i c → due i c'.
Proof.
  intros Hs (Hinv & Hlt & Hcase). split; [by eapply step_lock|].
  assert (waiter_called i c → waiter_called i c') as Hcall by by apply (step_called grace).
  assert (length (waiters c') = length (waiters c)) as Hlen.
  { destruct Hs. simpl. apply length_insert. }
  split; [by rewrite Hlen|].
  destruct Hcase as [Hc|(r & Hr & Hcase)]; [by left; apply Hcall|].
  destruct Hs as [j ws w w' h h' rc rc' Hj Hw]; simpl in *; subst rc.
  destruct Hcase as [Ho|(v & -> & Hcase)].
  { right. destruct (wstep_recv _ _ _ _ _ _ _ Hw) as [->|(x & [= <-] & -> & _)]; eauto. }
  destruct j as [|j]; [|done]. destruct i as [|i]; [|simpl in *; lia]. injection Hj as ->. simpl.
  destruct (wstep_recv _ _ _ _ _ _ _ Hw) as [->|(x & [= <-] & -> & Hs)].
  2:{ right. eexists. split; [done|]. right. exists w'. auto. }
  destruct Hcase as [Hch|Hs]; [right; exists r; split; [done|]; right; eauto|].
  assert (cancel w' = CancelSending ∨ called w') as [Hs'|Hc'].
  { clear -Hw Hs. destruct Hw; destruct w as [sg cn bf mn]; simpl in *; subst; try done;
      unfold send, begin_grace; simpl; try (destruct mn; simpl); auto; right; unfold called; simpl;
      first [left; done | right; left; lia]. }
  - right. exists r. split; [done|]. right. eauto.
  - left. exists w'. by split.
Qed.

Lemma event_due i c c' : event c c' → due i c → due i c'.
Proof.
  intros He (Hinv & Hlt & Hcase). split; [by eapply event_lock|].
  assert (length (waiters c') = length (waiters c)) as Hlen.
  { destruct He; simpl; rewrite ?length_fmap, ?length_insert; done. }
  split; [by rewrite Hlen|].
  destruct Hcase as [Hc|(r & Hr & Hcase)]; [left; by eapply event_called|right].
  assert (∃ r', recv c' = Some r' ∧ (open r = false → open r' = false) ∧
                (changed r = true → changed r' = true)) as (r' & Hr' & Ho & Hch).
  { destruct He; simpl in *; simplify_eq; eauto. }
  exists r'. split; [done|]. destruct Hcase as [?|(w & Hw & Hcase)]; [auto|right].
  destruct (waiters c') as [|w' [|]] eqn:Ew; rewrite Hw in Hlen; try done.
  exists w'. split; [done|]. destruct Hcase as [?|Hs]; [auto|right].
  destruct (event_waiters c c' 0 w' He) as (v & Hv & -> & _); [by rewrite Ew|].
  rewrite Hw in Hv. by injection Hv as <-.
Qed.

Lemma moves_due i c c' : rtc (moves grace) c c' → due i c → due i c'.
Proof.
  induction 1 as [|c1 c2 c3 [Hs|He] _ IH]; [done| |]; intros Hc; apply IH.
  - by eapply step_due.
  - by eapply event_due.
Qed.

Lemma due_ends i c : due i c → ∃ c', rtc (step grace) c c' ∧ delegated c' i.
Proof.
  induction (step_sn grace c) as [c _ IH]. intros Hd.
  destruct (due_progress i c Hd) as [?|[c1 Hs]]; [by exists c; split; [apply rtc_refl|]|].
  destruct (IH c1 Hs) as (c2 & Hr & Hi); [by eapply step_due|].
  exists c2. split; [by eapply rtc_l|done].
Qed.
End Cancel.

(** C20. A cancel ends the wait.  In every state the program can reach from its start, once the
    sender given to the server is dropped, all waiters are let through whatever happens next; and
    a plain server, which has one waiter, is let through by a change alone, with the sender kept:
    the tasks cannot run for ever, they are never stuck before the waiter is through, and they
    reach the end of its grace period. *)
Theorem cancel_ends_wait (grace n i : nat) (r0 r : Watch) (c c' : Sys)
    (Hreach : rtc (moves grace) (start n (Some r0)) c) (Hi : i < n)
    (Hrecv : recv c = Some r) (Hcall : open r = false ∨ n = 1 ∧ changed r = true)
    (Hrun : rtc (moves grace) c c') :
  sn (step grace) c' ∧
  (delegated c' i ∨ ∃ c'', step grace c' c'') ∧
  (∃ c'', rtc (step grace) c' c'' ∧ delegated c'' i).
Proof.
  assert (length (waiters c) = n) as Hlen.
  { assert (length (waiters (start n (Some r0))) = n) as <- by apply length_replicate.
    clear -Hreach. induction Hreach as [|c1 c2 c3 [Hs|He] _ IH]; [done|..]; rewrite IH.
    - destruct Hs. simpl. by rewrite length_insert.
    - destruct He; simpl; by rewrite ?length_fmap, ?length_insert. }
  assert (due i c) as Hdue.
  { split; [eapply moves_lock; [exact Hreach|apply start_lock]|]. split; [lia|].
    right. exists r. split; [done|]. destruct Hcall as [?|[-> Hch]]; [by left|right].
    destruct (waiters c) as [|w [|]]; try done. exists w. auto. }
  pose proof (moves_due grace i c c' Hrun Hdue) as Hd'.
  split_and!; [apply step_sn|by apply due_progress|by apply due_ends].
Qed.

(** * Nothing else ends a wait *)

(** The tasks move, or a SIGHUP arrives. *)
Definition idle_moves (grace : nat) (c c' : Sys) : Prop :=
  step grace c c' ∨ ∃ ws h r, c = mkSys ws h r ∧ c' = mkSys (deliver SIGHUP <$> ws) h r.

(** A waiter nobody has called. *)
Definition waiting (r : option Watch) (w : Waiter) : Prop :=
  main w = Receiving ∧ buffered w = 0 ∧
  (∃ q, sig w = Listening q false ∧ Forall (λ s, s = SIGHUP) q) ∧
  match cancel w with
  | Locking | Changing => True
  | CancelDone => r = None
  | CancelSending => False
  end.

Lemma wstep_waiting grace i w h r w' h' r' :
  wstep grace i w h r w' h' r' → match r with Some x => x = mkWatch false true | None => True end →
  waiting r w → waiting r w' ∧ r' = r.
Proof.
  intros Hs Hr (Hm & Hb & (q & Hq & Hall) & Hc).
  destruct Hs as [| | | | | |w h x| |? ? ? ? Hrecv| |];
    destruct w as [sg cn bf mn]; simpl in *; subst; try discriminate; simplify_eq.
  - split; [|done]. split_and!; [done..| |done]. apply Forall_cons in Hall as [_ Hall]. eauto.
  - apply Forall_cons in Hall as [-> _]. done.
  - split; [|done]. unfold waiting. simpl. split_and!; eauto.
  - split; [|done]. unfold waiting. simpl. split_and!; eauto.
  - done.
Qed.

(** C39. Only a termination signal, a cancel or the end of a signal stream ends the wait: from the
    start of any number of waiters, with a cancel receiver or without, and whatever number of
    SIGHUPs arrives, every waiter keeps waiting, whichever way the tasks take turns. *)
Theorem no_spurious_shutdown (grace n : nat) (cancellable : bool) (c : Sys)
    (Hreach : rtc (idle_moves grace)
      (start n (if cancellable then Some (mkWatch false true) else None)) c) :
  Forall (λ w, main w = Receiving) (waiters c).
Proof.
  assert (Forall (waiting (recv c)) (waiters c)) as Hall.
  2:{ eapply Forall_impl; [exact Hall|]. by intros w (? & _). }
  set (r0 := if cancellable then Some (mkWatch false true) else None) in *.
  assert (match r0 with Some x => x = mkWatch false true | None => True end) as Hr0
    by by destruct cancellable.
  cut (recv c = r0 ∧ Forall (waiting r0) (waiters c)); [by intros [-> ?]|].
  remember (start n r0) as c0 eqn:E0.
  assert (recv c0 = r0 ∧ Forall (waiting r0) (waiters c0)) as Hc0.
  { subst c0. split; [done|]. apply Forall_replicate. unfold waiting. simpl. split_and!; [done..| |done]. by exists []. }
  clear E0. induction Hreach as [|c1 c2 c3 [Hs|(ws & h & r & -> & ->)] _ IH]; [done|..];
    apply IH; destruct Hc0 as [Hr Hall]; simpl in *.
  - destruct Hs as [i ws w w' h h' r r' Hi Hw]; simpl in *; subst r.
    destruct (wstep_waiting _ _ _ _ _ _ _ _ Hw Hr0) as [Hw' ->].
    { by eapply Forall_lookup_1. }
    split; [done|]. by apply Forall_insert.
  - split; [done|]. apply Forall_fmap. eapply Forall_impl; [exact Hall|].
    intros [sg cn bf mn] (Hm & Hb & (q & Hq & Hqs) & Hcn); simpl in *; subst.
    unfold deliver; simpl. split_and!; [done..| |done]. eexists. split; [done|].
    apply Forall_app. by split; [|repeat constructor].
Qed.

(** * All waiters together *)

(** The servers at work: the tasks move and anything happens, but no handle is closed, which
    [start_server] does only when its servers have ended. *)
Definition serving_moves (grace : nat) (c c' : Sys) : Prop :=
  step grace c c' ∨
  (∃ s ws h r, c = mkSys ws h r ∧ c' = mkSys (deliver s <$> ws) h r) ∨
  (∃ ws h x o, c = mkSys ws h (Some (mkWatch x true)) ∧ c' = mkSys ws h (Some (mkWatch (x || o) o))).

(** A waiter can still hear a signal, or needs none any more. *)
Definition attentive (w : Waiter) : Prop := (∃ q, sig w = Listening q false) ∨ called w.

Section Together.
Context (grace : nat).

Lemma wstep_attentive i w h r w' h' r' :
  wstep grace i w h r w' h' r' → attentive w → attentive w'.
Proof.
  intros Hs [[q Hq]|Hc]; [|right; by eapply wstep_called].
  destruct Hs; destruct w as [sg cn bf mn]; simpl in *; subst; try discriminate; simplify_eq.
  - left. by eexists.
  - right. unfold called. simpl. auto.
  - left. by eexists.
  - left. by eexists.
  - left. by eexists.
  - unfold send. destruct mn; simpl; left; by eexists.
  - left. by eexists.
  - left. by eexists.
  - left. by eexists.
Qed.

Lemma deliver_attentive s w : attentive w → attentive (deliver s w).
Proof.
  intros [[q Hq]|Hc]; [|right; by apply deliver_called].
  left. unfold deliver. rewrite Hq. by eexists.
Qed.

Lemma serving_attentive c c' :
  rtc (serving_moves grace) c c' → Forall attentive (waiters c) →
  Forall attentive (waiters c') ∧ length (waiters c') = length (waiters c).
Proof.
  induction 1 as [|c1 c2 c3 Hm _ IH]; [done|]. intros Hall.
  assert (Forall attentive (waiters c2) ∧ length (waiters c2) = length (waiters c1)) as [Ha Hl].
  { destruct Hm as [Hs|[(s & ws & h & r & -> & ->)|(ws & h & x & o & -> & ->)]]; [| |done].
    - destruct Hs as [i ws w w' h h' r r' Hi Hw]; simpl in *. split; [|apply length_insert].
      apply Forall_insert; [done|]. eapply wstep_attentive; [exact Hw|]. by eapply Forall_lookup_1.
    - simpl in *. split; [|apply length_fmap].
      apply Forall_fmap. eapply Forall_impl; [exact Hall|]. intros w. apply deliver_attentive. }
  destruct (IH Ha) as [? ->]. by split.
Qed.

(** A terminating signal calls every attentive waiter. *)
Lemma deliver_calls s w : terminates s = true → attentive w → called (deliver s w).
Proof.
  intros Ht [[q Hq]|Hc]; [|by apply deliver_called].
  unfold called, deliver. rewrite Hq. simpl. do 3 right. exists (q ++ [s]), false, s.
  split_and!; [done| |done]. rewrite elem_of_app, list_elem_of_singleton. auto.
Qed.

Lemma step_length c c' : step grace c c' → length (waiters c') = length (waiters c).
Proof. destruct 1. apply length_insert. Qed.

Lemma rtc_step_called i c c' : rtc (step grace) c c' → waiter_called i c → waiter_called i c'.
Proof. induction 1; eauto using step_called. Qed.

Lemma all_called_stuck n c :
  (∀ i, i < n → waiter_called i c) → nf (step grace) c → ∀ i, i < n → delegated c i.
Proof.
  intros Hall Hnf i Hi. destruct (Hall i Hi) as (w & Hw & Hc).
  destruct (decide (main w = Delegated)) as [Hm|Hm]; [by exists w|].
  destruct Hnf. by apply (called_progress grace c i w).
Qed.

(** Whether some waiter is not through can be decided, and then a task can move. *)
Lemma all_called_end n c :
  (∀ i, i < n → waiter_called i c) →
  ∃ c', rtc (step grace) c c' ∧ ∀ i, i < n → delegated c' i.
Proof.
  induction (step_sn grace c) as [c _ IH]. intros Hall.
  destruct (decide (Forall (λ i, (main <$> waiters c !! i) = Some Delegated) (seq 0 n))) as [Hd|Hd].
  - exists c. split; [apply rtc_refl|]. intros i Hi. rewrite Forall_forall in Hd.
    specialize (Hd i). rewrite elem_of_seq, fmap_Some in Hd.
    destruct Hd as (w & Hw & Hm); [lia|]. by exists w.
  - apply not_Forall_Exists, Exists_exists in Hd; [|intros ?; apply _].
    destruct Hd as (i & Hi & Hn). apply elem_of_seq in Hi.
    destruct (Hall i) as (w & Hw & Hc); [lia|].
    destruct (called_progress grace c i w Hw Hc) as [c1 Hs]; [simpl in Hn; rewrite Hw in Hn; simpl in Hn; congruence|].
    destruct (IH c1 Hs) as (c2 & Hr & Hend).
    { intros j Hj. eapply step_called; [exact Hs|]. by apply Hall. }
    exists c2. split; [by eapply rtc_l|done].
Qed.
End Together.

(** * Witnesses *)

(** A step of waiter [i], or an event, at the head of a run. *)
Ltac waiter_moves i rule :=
  eapply rtc_l; [left; eapply (StepWaiter _ i); [reflexivity | eapply rule; reflexivity]|]; simpl.
Ltac event_happens rule := eapply rtc_l; [right; eapply rule|]; simpl.

(** With the HTTPS redirect the two servers share the cancel receiver.  One cancel, its sender
    kept, wakes the first waiter only: the second then holds the mutex, the change is marked as
    seen, and nothing can move any more. *)
Example one_cancel_wakes_one_waiter :
  let c := mkSys [mkWaiter (Listening [] false) CancelDone 0 Delegated;
                  mkWaiter (Listening [] false) Changing 0 Receiving]
                 (Some 1) (Some (mkWatch false true)) in
  rtc (moves 0) (start 2 (Some (mkWatch false true))) c ∧ nf (step 0) c.
Proof.
  cbv zeta. split.
  - waiter_moves 0 CancelLock. event_happens EvCancel. waiter_moves 0 CancelChanged.
    waiter_moves 0 CancelSend. waiter_moves 1 CancelLock. waiter_moves 0 MainReceive.
    waiter_moves 0 GraceOver. apply rtc_refl.
  - intros [c' Hs]. inversion Hs as [i ws w w' h h' r r' Hi Hw]; subst.
    destruct i as [|[|i]]; [| |done]; injection Hi as <-; by inversion Hw.
Qed.

Lemma signal_ends_wait_witness :
  let c := mkSys (deliver SIGTERM <$> [spawn; spawn]) None None in
  sn (step 1) c ∧ ∃ c', rtc (step 1) c c' ∧ delegated c' 1.
Proof.
  cbv zeta.
  destruct (signal_ends_wait 1 1 SIGTERM [spawn; spawn] None None spawn []
    (mkSys (deliver SIGTERM <$> [spawn; spawn]) None None) eq_refl eq_refl eq_refl
    (rtc_refl _ _)) as (Hsn & _ & _ & Hend).
  split; [exact Hsn | exact (Hend _ (rtc_refl _ _))].
Defined.

Lemma cancel_ends_wait_witness :
  let c := mkSys [spawn] None (Some (mkWatch true true)) in
  ∃ c', rtc (step 3) c c' ∧ delegated c' 0.
Proof.
  cbv zeta.
  assert (rtc (moves 3) (start 1 (Some (mkWatch false true)))
            (mkSys [spawn] None (Some (mkWatch true true)))) as Hr.
  { event_happens EvCancel. apply rtc_refl. }
  exact (proj2 (proj2 (cancel_ends_wait 3 1 0 (mkWatch false true) (mkWatch true true) _ _
    Hr (le_n 1) eq_refl (or_intror (conj eq_refl eq_refl)) (rtc_refl _ _)))).
Defined.

Lemma no_spurious_shutdown_witness :
  Forall (λ w, main w = Receiving)
    (waiters (mkSys (deliver SIGHUP <$> [spawn; spawn]) None (Some (mkWatch false true)))).
Proof.
  apply (no_spurious_shutdown 0 2 true). apply rtc_once. right.
  exists [spawn; spawn], None, (Some (mkWatch false true)). split; reflexivity.
Defined.
