(* ===== verification/Main.v ===== *)
(** The processes: [bin/server.rs], [bin/bench_echo.rs], [logger.rs] and the runtime part of
    [server.rs].

    A process does a list of things the outside sees and ends with a result or an exit code. *)
From Stdlib Require Import ZArith Lia Ascii String.
From stdpp Require Import base list strings gmap relations.
From S2P Require Import Prelude Http Libs RefLibs Path Fs Opts Metrics Routes Settings.
From S2P Require Import Transport Tls Server Signals.
Local Open Scope string_scope.
Local Open Scope list_scope.
Local Open Scope nat_scope.

(** How a function that may call [std::process::exit] ends. *)
Inductive Exit := Returned (r : result error unit) | Exited (code : Z).

(** * [logger.rs] *)

Module Logger.
Section Logger.
Context `{CodecLib}.
(** [str::parse::<Level>] and installing the global subscriber, both third-party: they may fail
    with a message. *)
Context (TracingLevel : Type) (level_parse : string → result string TracingLevel).
Context (try_init : TracingLevel → bool → result string unit).

Definition configure (level : string) (enable_ansi : bool) : result error unit :=
  let? level := Res.context "failed to parse log level" (map_err (λ e, [e]) (level_parse level)) in
  map_err (λ e, [e]) (try_init level enable_ansi).

Definition init (log_level : string) (log_with_ansi : bool) : result error unit :=
  Res.context "failed to initialize logging"
    (configure (str_to_lowercase log_level) log_with_ansi).
End Logger.
End Logger.

(** * Running the server *)

Module Run.
Section Run.
Context `{HeadersLib, CodecLib, GlobLib, RegexLib, TlsLib}.

(** What awaiting the servers gives: a failing server of the pair ends the process. *)
Definition serve (st : Server.Started) (server redirect : result error unit) : Exit :=
  match Server.st_protocol st with
  | Server.Http2 _ (Some _) =>
      if Res.is_ok server && Res.is_ok redirect then Returned (Ok ()) else Exited 1
  | _ => Returned server
  end.

(** The shutdown of a server: one waiter, or two that share the cancel receiver when the
    redirect server runs as well; the grace period is a [u8]. *)
Definition waiters_of (st : Server.Started) : nat :=
  match Server.st_protocol st with Server.Http2 _ (Some _) => 2 | _ => 1 end.
Definition shutdown_start (st : Server.Started) (cancel : option Signals.Watch) : Signals.Sys :=
  Signals.start (waiters_of st) cancel.
Definition grace_period (g : Cli.General) : nat := Z.to_nat (Cli.grace_period g).

(** [start_server] from its two halves: up to the servers, and serving. *)
Definition start_server (started : result error Server.Started)
    (hyper : Server.Started → result error unit * result error unit) : Exit :=
  match started with
  | Err e => Returned (Err e)
  | Ok st => serve st (hyper st).1 (hyper st).2
  end.

(** [run_server_on_rt]; [rt] is building the tokio runtime. *)
Definition run_server_on_rt (rt : result error unit) (start_server : Exit) (exit_on_error : bool)
    : Exit :=
  match rt with
  | Err e => Returned (Err e)
  | Ok _ =>
      match start_server with
      | Returned (Err e) => if exit_on_error then Exited 1 else Returned (Err e)
      | res => res
      end
  end.

(** [run_standalone] and [run_as_service]. *)
Definition run_standalone (rt : result error unit) (start_server : Exit) : Exit :=
  run_server_on_rt rt start_server true.
End Run.
End Run.

(** * [bin/server.rs] *)

Module Main.

(** What the program shows or writes. *)
Inductive Action :=
| DisplayVersion
| RenderShellCompletions (dir : Path.t)
| RenderManpages (dir : Path.t)
| RunServer.

Section Main.
Context `{HeadersLib, CodecLib, GlobLib, RegexLib, TlsLib}.
(** [clap_allgen]: writing the artifacts may fail. *)
Context (render : Action → result error unit).
(** [Server::new(opts)] followed by [run_standalone(None)]. *)
Context (cpus : option Z) (run : Server.Server → Exit).

(** An action and, if it succeeds, what comes after. *)
Definition act (a : Action) (k : list Action * Exit) : list Action * Exit :=
  match render a with
  | Err e => ([a], Returned (Err e))
  | Ok _ => (a :: k.1, k.2)
  end.

Definition generate (completions man_pages : bool) (out_dir : Path.t) : list Action * Exit :=
  let man :=
    if man_pages || negb completions
    then act (RenderManpages (Path.push out_dir (Path.parse "man"))) ([], Returned (Ok ()))
    else ([], Returned (Ok ())) in
  if completions || negb man_pages
  then act (RenderShellCompletions (Path.push out_dir (Path.parse "completions"))) man
  else man.

(** [main]; [opts] is [Settings::get(true)]. *)
Definition main (opts : result error Settings) : list Action * Exit :=
  match opts with
  | Err e => ([], Returned (Err e))
  | Ok opts =>
      if Cli.version (general opts) then ([DisplayVersion], Returned (Ok ()))
      else
        match Cli.commands (general opts) with
        | Some (Cli.Generate completions man_pages out_dir) => generate completions man_pages out_dir
        | None =>
            match Server.new cpus opts with
            | Err e => ([], Returned (Err e))
            | Ok server => ([RunServer], run server)
            end
        end
  end.
End Main.
End Main.

(** * [bin/bench_echo.rs] *)

Module BenchEcho.
Section Echo.
Context `{HttpLib}.

Definition port (env : string → option string) : Z :=
  default 13000%Z (env "BENCH_ECHO_PORT" ≫= Str.parse_uint u16_max).

Definition echo (req : Request) : Response :=
  let path := uri_path (rq_uri req) in
  set_header "content-length" (Str.of_uint (Z.of_nat (String.length path)))
    (resp_new (BodyBytes path)).
End Echo.

(** [main]: what it prints and how it ends; [bind] is the listener's outcome (its local port) and
    [serve] hyper's, both with the text their errors display. *)
Definition main (env : string → option string) (bind : Z → result string Z)
    (serve : Z → result string unit) : list string * Exit :=
  let text port := "127.0.0.1:" +:+ Str.of_uint port in
  match bind (port env) with
  | Err err => (["bench-echo: failed to bind " +:+ text (port env) +:+ ": " +:+ err], Exited 1)
  | Ok addr =>
      let listening := "bench-echo: listening on http://" +:+ text addr in
      match serve addr with
      | Err err => ([listening; "bench-echo: server error: " +:+ err], Exited 1)
      | Ok _ => ([listening], Returned (Ok ()))
      end
  end.
End BenchEcho.

(** * [settings/cli_output.rs] *)

Module CliOutput.

(** The constants of the build script and of the package. *)
Record Build := mkBuild {
  PKG_VERSION : string;
  COMMIT_DATE : string;
  COMMIT_HASH : string;
  BUILD_TARGET : string;
  RUST_VERSION : string;
  CARGO_PKG_LICENSE : string;
  CARGO_PKG_HOMEPAGE : string;
  CARGO_PKG_AUTHORS : string;
}.

(** The lines of [display_version]; [fips] is a build with [http2-fips] whose
    [try_fips_mode] succeeds. *)
Definition display_version (build : Build) (fips : bool) : list string :=
  ["Version:      " +:+ PKG_VERSION build;
   "Built:        " +:+ COMMIT_DATE build;
   "Git commit:   " +:+ COMMIT_HASH build;
   "Build target: " +:+ BUILD_TARGET build] ++
  (if fips
   then ["FIPS Mode:"; "  Module Version:   AWS-LC-FIPS 3.0.x";
         "  Crypto Provider:  aws-lc-rs (via aws-lc-fips-sys)"]
   else []) ++
  ["Rust version: " +:+ RUST_VERSION build;
   "License:      " +:+ CARGO_PKG_LICENSE build;
   "Homepage:     " +:+ CARGO_PKG_HOMEPAGE build;
   "Author:       " +:+ CARGO_PKG_AUTHORS build].
End CliOutput.

(** The echo server listens on the loopback only, prints where once it does, and fails with code
    1 exactly when it cannot bind or hyper gives up. *)
Lemma bench_echo_exit env bind serve :
  (BenchEcho.main env bind serve).2 = Exited 1 ↔
    Res.is_ok (let? port := bind (BenchEcho.port env) in serve port) = false.
Proof.
  unfold BenchEcho.main. destruct (bind _) as [a|e]; [|done]. cbn [Res.bind].
  by destruct (serve a).
Qed.

(** * What a process amounts to *)

Section Outcome.
Context `{HeadersLib, CodecLib, GlobLib, RegexLib, TlsLib}.
Context (rt : result error unit) (started : Server.Server → result error Server.Started).
Context (hyper : Server.Started → result error unit * result error unit).
Context (render : Main.Action → result error unit) (cpus : option Z).

(** A server process over a start-up, a runtime and hyper. *)
Definition run (server : Server.Server) : Exit :=
  Run.run_standalone rt (Run.start_server (started server) hyper).
Abbreviation main := (Main.main render cpus run).

(** The servers of a start-up that was made ended without an error. *)
Definition served (st : Server.Started) : Prop :=
  (hyper st).1 = Ok () ∧
  ∀ tls redirect, Server.st_protocol st = Server.Http2 tls (Some redirect) → (hyper st).2 = Ok ().

Lemma serve_served st :
  let e := Run.serve st (hyper st).1 (hyper st).2 in
  (e = Returned (Ok ()) ∧ served st) ∨
  ((e = Exited 1 ∨ ∃ err, e = Returned (Err err)) ∧ ¬ served st).
Proof.
  unfold Run.serve, served.
  destruct (Server.st_protocol st) as [|tls [redirect|]], (hyper st) as [[[]|e1] [[]|e2]]; simpl.
  5: left; split; [done|]; split; [done|]; intros; done.
  all: try (left; split; [done|]; split; [done|]; intros; discriminate).
  all: right; split; [by eauto|]; intros [Hs Hr]; first [done | discriminate (Hr _ _ eq_refl)].
Qed.

Lemma run_outcome server :
  (run server = Returned (Ok ()) ↔
     rt = Ok () ∧ ∃ st, started server = Ok st ∧ served st) ∧
  (∀ code, run server = Exited code ↔
     code = 1%Z ∧ rt = Ok () ∧ ∀ st, started server = Ok st → ¬ served st) ∧
  (∀ e, run server = Returned (Err e) ↔ rt = Err e).
Proof.
  unfold run, Run.run_standalone, Run.run_server_on_rt, Run.start_server.
  destruct rt as [[]|e0]; [|naive_solver].
  destruct (started server) as [st|e1]; [|naive_solver].
  pose proof (serve_served st) as Hs. cbv zeta in Hs.
  destruct Hs as [[-> ?]|[[->|[err ->]] ?]]; naive_solver.
Qed.

(** The documents a [generate] command asks for, completions first; both by default. *)
Definition requested (completions man_pages : bool) (out_dir : Path.t) : list Main.Action :=
  (if completions || negb man_pages
   then [Main.RenderShellCompletions (Path.push out_dir (Path.parse "completions"))] else []) ++
  (if man_pages || negb completions
   then [Main.RenderManpages (Path.push out_dir (Path.parse "man"))] else []).

Lemma generate_requested completions man_pages out_dir :
  let '(acts, e) := Main.generate render completions man_pages out_dir in
  acts `prefix_of` requested completions man_pages out_dir ∧
  ((e = Returned (Ok ()) ∧ acts = requested completions man_pages out_dir ∧
      Forall (λ a, Res.is_ok (render a) = true) acts) ∨
   (∃ err a, e = Returned (Err err) ∧ last acts = Some a ∧ render a = Err err)).
Proof.
  unfold Main.generate, Main.act, requested.
  destruct completions, man_pages; simpl;
    repeat match goal with |- context [match render ?a with _ => _ end] =>
      let E := fresh "E" in destruct (render a) as [[]|] eqn:E end; simpl;
    (split; [by eexists|]);
    first [ left; split_and!; [done..|];
            repeat constructor; repeat match goal with E : render _ = _ |- _ => rewrite E; clear E end; done
          | right; by eauto ].
Qed.
End Outcome.

(** C17. How a process ends.  Settings that cannot be read end it with their error before anything
    is done; the version is shown without starting anything, whatever else was asked; [generate]
    writes the documents asked for in order, all of them unless one fails, and fails with that
    error.  Otherwise the server runs, and: the process ends well exactly if the runtime was
    built, the start-up succeeded and its servers ended well; it exits with code 1, and no other,
    exactly if the runtime was built but the start-up or one of its servers failed; and it returns
    an error exactly if the runtime could not be built. *)
Theorem process_outcome `{HeadersLib, CodecLib, GlobLib, RegexLib, TlsLib}
    (rt : result error unit) (started : Server.Server → result error Server.Started)
    (hyper : Server.Started → result error unit * result error unit)
    (render : Main.Action → result error unit) (cpus : option Z) (opts : result error Settings) :
  let '(acts, e) := Main.main render cpus (run rt started hyper) opts in
  match opts with
  | Err err => acts = [] ∧ e = Returned (Err err)
  | Ok s =>
      if Cli.version (general s) then acts = [Main.DisplayVersion] ∧ e = Returned (Ok ())
      else
        match Cli.commands (general s) with
        | Some (Cli.Generate completions man_pages out_dir) =>
            acts `prefix_of` requested completions man_pages out_dir ∧
            ((e = Returned (Ok ()) ∧ acts = requested completions man_pages out_dir ∧
                Forall (λ a, Res.is_ok (render a) = true) acts) ∨
             (∃ err a, e = Returned (Err err) ∧ last acts = Some a ∧ render a = Err err))
        | None =>
            match Server.new cpus s with
            | Err err => acts = [] ∧ e = Returned (Err err)
            | Ok server =>
                acts = [Main.RunServer] ∧
                (e = Returned (Ok ()) ↔
                   rt = Ok () ∧ ∃ st, started server = Ok st ∧ served hyper st) ∧
                (∀ code, e = Exited code ↔
                   code = 1%Z ∧ rt = Ok () ∧ ∀ st, started server = Ok st → ¬ served hyper st) ∧
                (∀ err, e = Returned (Err err) ↔ rt = Err err)
            end
        end
  end.
Proof.
  unfold Main.main. destruct opts as [s|err]; [|done].
  destruct (Cli.version (general s)); [done|].
  destruct (Cli.commands (general s)) as [[completions man_pages out_dir]|].
  - apply generate_requested.
  - destruct (Server.new cpus s) as [server|err]; [|done]. split; [done|apply run_outcome].
Qed.

(** C14. A started server shuts down as a whole.  Whatever protocol it serves, with or without a
    cancel receiver, and whatever signals, cancels and task steps came before: once SIGTERM,
    SIGINT or SIGQUIT arrives, and whatever happens from there on, the tasks of all its waiters
    stop after finitely many steps, they cannot stop before the main server and the redirect
    server have both been told to shut down, and they get there. *)
Theorem server_shutdown `{HeadersLib, CodecLib, GlobLib, RegexLib, TlsLib}
    (g : Cli.General) (st : Server.Started) (cancel : option Signals.Watch) (s : Signals.Signal)
    (ws : list Signals.Waiter) (h : option nat) (r : option Signals.Watch) (c : Signals.Sys)
    (Hreach : rtc (serving_moves (Run.grace_period g)) (Run.shutdown_start st cancel)
                (Signals.mkSys ws h r))
    (Hterm : Signals.terminates s = true)
    (Hrun : rtc (moves (Run.grace_period g)) (Signals.mkSys (Signals.deliver s <$> ws) h r) c) :
  let step := Signals.step (Run.grace_period g) in
  sn step c ∧
  (∀ c', rtc step c c' → nf step c' → ∀ i, i < Run.waiters_of st → delegated c' i) ∧
  ∃ c', rtc step c c' ∧ ∀ i, i < Run.waiters_of st → delegated c' i.
Proof.
  apply serving_attentive in Hreach as [Hatt Hlen].
  2:{ apply Forall_replicate. left. by exists []. }
  simpl in Hatt, Hlen. rewrite length_replicate in Hlen.
  assert (∀ i, i < Run.waiters_of st → waiter_called i c) as Hcalled.
  { intros i Hi. eapply moves_called; [exact Hrun|].
    destruct (lookup_lt_is_Some_2 ws i) as [w Hw]; [by rewrite Hlen|].
    exists (Signals.deliver s w). simpl. rewrite list_lookup_fmap, Hw. split; [done|].
    apply deliver_calls; [done|]. by eapply Forall_lookup_1. }
  split_and!; [apply step_sn| |by apply all_called_end].
  intros c' Hr. apply all_called_stuck. intros i Hi. by eapply rtc_step_called, Hcalled.
Qed.

Import (hints) TlsRef.

Lemma server_shutdown_witness :
  ∃ st ops, ServerRef.start ServerRef.settings = (Ok st, ops) ∧
    ∃ c', rtc (Signals.step 0)
            (Signals.mkSys (Signals.deliver Signals.SIGINT <$>
               replicate (Run.waiters_of st) Signals.spawn) None None) c' ∧
          delegated c' 0.
Proof.
  pose proof ServerRef.start_ok as Hok.
  destruct (ServerRef.start ServerRef.settings) as [[st|e] ops] eqn:E; [|discriminate Hok].
  exists st, ops. split; [reflexivity|].
  destruct (server_shutdown Cli.General_default st None Signals.SIGINT _ None None _
    (rtc_refl _ _) eq_refl (rtc_refl _ _)) as (_ & _ & c' & Hr & Hend).
  exists c'. split; [exact Hr|]. apply Hend. unfold Run.waiters_of. repeat case_match; lia.
Defined.
