(* ===== verification/Windows.v ===== *)
(** The Windows build, where it differs: [wait_for_ctrl_c] of [signals.rs] and the ctrl+c task of
    [server.rs], the service of [winservice.rs], and the entry point of [bin/server.rs].

    [CtrlC.step] interleaves the waiters of the servers (one, or two that share a receiver behind
    a mutex) with the task that listens for ctrl+c and owns the sender of their channel. *)
From Stdlib Require Import ZArith Lia Ascii String Wellfounded.
From stdpp Require Import base list strings gmap relations.
From S2P Require Import Prelude Http Libs RefLibs Path Fs Opts CommandLine Metrics Routes Settings.
From S2P Require Import Transport Tls Server Signals Main.
Local Open Scope string_scope.
Local Open Scope list_scope.
Local Open Scope nat_scope.

(** * [signals.rs], [server.rs] *)

Module CtrlC.

(** [wait_for_ctrl_c]: waiting for the mutex, for [changed] with the mutex held, the grace period
    with the seconds left, the end. *)
Inductive Waiter := Locking | Changing | Grace (secs : nat) | Delegated.

(** The ctrl+c task: waiting for the key, about to send, holding the sender after the send, gone
    (and the sender with it). *)
Inductive CtrlTask := Listening | Pressed | Sent | Ended.

#[export] Instance Waiter_eq_dec : EqDecision Waiter.
Proof. solve_decision. Defined.
#[export] Instance CtrlTask_eq_dec : EqDecision CtrlTask.
Proof. solve_decision. Defined.

(** The waiters, the mutex and the receiver behind it, the task. *)
Record Sys := mkSys {
  waiters : list Waiter;
  holder : option nat;
  recv : option Signals.Watch;
  ctrl : CtrlTask;
}.

(** What [start_server] sets up for [n] servers: a service waits on the receiver it was given and
    its ctrl+c task ends at once; otherwise the servers wait on the task's channel. *)
Definition start (windows_service : bool) (n : nat) (cancel_recv : option Signals.Watch) : Sys :=
  if windows_service then mkSys (replicate n Locking) None cancel_recv Ended
  else mkSys (replicate n Locking) None (Some (Signals.mkWatch false true)) Listening.

(** One step of a waiter or of the task. *)
Inductive step (grace : nat) : Sys → Sys → Prop :=
| LockNone i ws t :
    ws !! i = Some Locking →
    step grace (mkSys ws None None t) (mkSys (<[i := Grace grace]> ws) None None t)
| LockSome i ws r t :
    ws !! i = Some Locking →
    step grace (mkSys ws None (Some r) t) (mkSys (<[i := Changing]> ws) (Some i) (Some r) t)
| Change i ws h r t :
    ws !! i = Some Changing → Signals.changed r || negb (Signals.open r) = true →
    step grace (mkSys ws h (Some r) t)
      (mkSys (<[i := Grace grace]> ws) None (Some (Signals.mkWatch false (Signals.open r))) t)
| GraceSecond i ws h r t n :
    ws !! i = Some (Grace (S n)) → step grace (mkSys ws h r t) (mkSys (<[i := Grace n]> ws) h r t)
| GraceOver i ws h r t :
    ws !! i = Some (Grace 0) → step grace (mkSys ws h r t) (mkSys (<[i := Delegated]> ws) h r t)
| CtrlSend ws h r :
    step grace (mkSys ws h (Some r) Pressed)
      (mkSys ws h (Some (Signals.mkWatch true (Signals.open r))) Sent)
| CtrlDrop ws h r :
    step grace (mkSys ws h (Some r) Sent)
      (mkSys ws h (Some (Signals.mkWatch (Signals.changed r) false)) Ended).

(** What happens around: the key; a listener that cannot be installed panics and drops its
    sender; and for a service the stop event sends, then drops the sender. *)
Inductive event : Sys → Sys → Prop :=
| EvCtrlC ws h r : event (mkSys ws h r Listening) (mkSys ws h r Pressed)
| EvPanic ws h r :
    event (mkSys ws h (Some r) Listening)
      (mkSys ws h (Some (Signals.mkWatch (Signals.changed r) false)) Ended)
| EvStop ws h c :
    event (mkSys ws h (Some (Signals.mkWatch c true)) Ended)
      (mkSys ws h (Some (Signals.mkWatch true true)) Ended)
| EvDropSender ws h c :
    event (mkSys ws h (Some (Signals.mkWatch c true)) Ended)
      (mkSys ws h (Some (Signals.mkWatch c false)) Ended).

Definition moves (grace : nat) (c c' : Sys) : Prop := step grace c c' ∨ event c c'.

(** How the servers and the task end the process: the errors of the servers exit it, a task that
    panicked is an error of [try_join!]; the HTTP/2 server alone is awaited without the task. *)
Definition serve `{HeadersLib, CodecLib, GlobLib, RegexLib, TlsLib} (st : Server.Started)
    (ctrlc server redirect : result error unit) : Exit :=
  match Server.st_protocol st with
  | Server.Http2 _ (Some _) =>
      if Res.is_ok server && Res.is_ok redirect then Returned ctrlc else Exited 1
  | Server.Http2 _ None => Returned server
  | Server.Http1 => if Res.is_ok server then Returned ctrlc else Exited 1
  end.

(** * Every run ends, with the servers told to shut down *)

Section Shutdown.
Context (grace : nat).

Definition waiter_measure (w : Waiter) : nat :=
  match w with Locking => 3 + grace | Changing => 2 + grace | Grace n => S n | Delegated => 0 end.
Definition ctrl_measure (t : CtrlTask) : nat :=
  match t with Listening => 3 | Pressed => 2 | Sent => 1 | Ended => 0 end.
Definition measure (c : Sys) : nat :=
  sum_list_with waiter_measure (waiters c) + ctrl_measure (ctrl c).

Lemma ctrlc_step_measure c c' : step grace c c' → measure c' < measure c.
Proof.
  destruct 1; unfold measure; simpl; try lia; apply Nat.add_lt_mono_r;
    (eapply sum_list_with_insert; [eassumption|simpl; lia]).
Qed.

Lemma ctrlc_step_sn c : sn (step grace) c.
Proof.
  apply (Acc_incl _ _ (ltof _ measure)); [|apply well_founded_ltof].
  intros c1 c2 Hs. by apply ctrlc_step_measure.
Qed.

(** The mutex is with the waiter that waits for the change, and there is a receiver behind it; a
    task that has not ended holds the sender. *)
Record inv (c : Sys) : Prop := {
  inv_holder i : waiters c !! i = Some Changing ↔ holder c = Some i;
  inv_locked : is_Some (holder c) → is_Some (recv c);
  inv_task : ctrl c ≠ Ended → ∃ b, recv c = Some (Signals.mkWatch b true);
}.

Lemma ctrlc_start_inv service n cancel : inv (start service n cancel).
Proof.
  unfold start. destruct service; split; simpl; try done; try (intros [? ?]; done); eauto.
  all: intros i; split; [by intros [? _]%lookup_replicate | done].
Qed.

Lemma holder_insert (ws : list Waiter) (h : option nat) i j w w' :
  (∀ k, ws !! k = Some Changing ↔ h = Some k) → ws !! i = Some w →
  w ≠ Changing → w' ≠ Changing → (<[i := w']> ws !! j = Some Changing ↔ h = Some j).
Proof.
  intros Hh Hi Hw Hw'. rewrite list_lookup_insert_Some, <- Hh. split.
  - by intros [(-> & -> & _)|[_ ?]].
  - intros Hj. right. split; [|done]. intros ->. congruence.
Qed.

Lemma ctrlc_step_inv c c' : step grace c c' → inv c → inv c'.
Proof.
  intros Hs [Hh Hl Ht]. destruct Hs as [i ws t Hi|i ws r t Hi|i ws h r t Hi Hc|i ws h r t n Hi|
    i ws h r t Hi|ws h r|ws h r]; simpl in *.
  - split; simpl; [|done|done]. intros j. by eapply (holder_insert ws None i).
  - split; simpl; [|by eexists|done]. intros j. rewrite list_lookup_insert_Some. split.
    + intros [(-> & _ & _)|[_ Hj]]; [done|]. apply Hh in Hj. done.
    + intros [= <-]. left. split_and!; [done..|]. by eapply lookup_lt_Some.
  - assert (h = Some i) as -> by by apply Hh.
    split; simpl; [|by intros [? ?]|].
    + intros j. rewrite list_lookup_insert_Some. split; [|done].
      intros [(-> & ? & _)|[Hne Hj]]; [done|]. apply Hh in Hj. congruence.
    + intros Hne. destruct (Ht Hne) as [b [= ->]]. by eexists.
  - split; simpl; [|done|done]. intros j. by eapply holder_insert.
  - split; simpl; [|done|done]. intros j. by eapply holder_insert.
  - split; simpl; [done|by eexists|]. intros _. destruct (Ht ltac:(done)) as [b [= ->]]. by eexists.
  - split; simpl; [done|by eexists|done].
Qed.

Lemma ctrlc_event_inv c c' : event c c' → inv c → inv c'.
Proof.
  intros He [Hh Hl Ht]. destruct He; split; simpl in *; try done; try (by eexists).
  intros _. by apply Ht.
Qed.

Lemma ctrlc_moves_inv c c' : rtc (moves grace) c c' → inv c → inv c'.
Proof.
  induction 1 as [|c1 c2 c3 [Hs|He] _ IH]; [done| |]; intros Hc; apply IH.
  - by eapply ctrlc_step_inv.
  - by eapply ctrlc_event_inv.
Qed.

(** A shutdown is under way: the key was pressed, or no sender is left. *)
Definition called (c : Sys) : Prop :=
  match ctrl c with
  | Listening => False
  | Pressed | Sent => True
  | Ended => match recv c with None => True | Some r => Signals.open r = false end
  end.

Definition finished (c : Sys) : Prop :=
  ctrl c = Ended ∧ Forall (λ w, w = Delegated) (waiters c).

Lemma ctrlc_moves_called c c' : rtc (moves grace) c c' → called c → called c'.
Proof.
  induction 1 as [|c1 c2 c3 [Hs|He] _ IH]; [done| |]; intros Hc; apply IH.
  - by destruct Hs.
  - by destruct He.
Qed.

Lemma ctrlc_called_progress c : inv c → called c → finished c ∨ ∃ c', step grace c c'.
Proof.
  destruct c as [ws h r t]. intros [Hh Hl Ht] Hc. simpl in *.
  destruct (decide (t = Ended)) as [->|Hne].
  2:{ destruct (Ht Hne) as [b ->]. right. destruct t; [done| | |done].
      - eexists. apply CtrlSend.
      - eexists. apply CtrlDrop. }
  destruct (decide (Forall (λ w, w = Delegated) ws)) as [Hall|Hall]; [by left|right].
  apply not_Forall_Exists, Exists_exists in Hall; [|intros ?; apply _].
  destruct Hall as (w & Hw & Hnd). apply list_elem_of_lookup in Hw as [i Hi].
  assert (∀ j x, ws !! j = Some Changing → r = Some x → ∃ c', step grace (mkSys ws h r Ended) c')
    as Hchange.
  { intros j x Hj ->. eexists. eapply Change; [exact Hj|]. unfold called in Hc. simpl in Hc.
    rewrite Hc. by destruct (Signals.changed x). }
  destruct w as [| |[|n]|]; [| | | |by destruct Hnd].
  - destruct h as [j|].
    + destruct (Hl ltac:(by eexists)) as [x Hx]. eapply (Hchange j x); [by apply Hh|done].
    + destruct r; eexists; [by eapply LockSome | by eapply LockNone].
  - pose proof (proj1 (Hh i) Hi) as Hhi. destruct Hl as [x Hx]; [by rewrite Hhi|].
    by apply (Hchange i x).
  - eexists. by eapply GraceOver.
  - eexists. by eapply GraceSecond.
Qed.

Lemma ctrlc_called_ends c :
  inv c → called c → ∃ c', rtc (step grace) c c' ∧ finished c'.
Proof.
  induction (ctrlc_step_sn c) as [c _ IH]. intros Hinv Hc.
  destruct (ctrlc_called_progress c Hinv Hc) as [?|[c1 Hs]]; [by exists c|].
  destruct (IH c1 Hs) as (c2 & Hr & Hf).
  - by eapply ctrlc_step_inv.
  - eapply ctrlc_moves_called; [apply rtc_once; by left|done].
  - exists c2. split; [by eapply rtc_l|done].
Qed.
End Shutdown.
End CtrlC.

(** * [winservice.rs] *)

Module WinService.

(** The states and the status the service reports; times are seconds. *)
Inductive ServiceState := Running | StopPending | Stopped.
Record ServiceStatus := mkServiceStatus {
  current_state : ServiceState;
  accepts_stop : bool;
  exit_code : Z;
  checkpoint : Z;
  wait_hint : Z;
}.

Inductive ServiceControl := Interrogate | Stop | OtherControl.
Inductive HandlerResult := NoError | NotImplemented.

(** [set_service_state]: what it reports. *)
Definition service_status (s : ServiceState) (checkpoint wait_hint : Z) : ServiceStatus :=
  mkServiceStatus s true 0 checkpoint wait_hint.

(** The event handler over [shutdown_tx] and the receiver it was made with; [None] is the panic
    of [send(()).unwrap()] when the receiver is gone.  Taking the sender drops it after the
    send. *)
Definition event_handler (control : ServiceControl) (shutdown_tx : bool)
    (rx : option Signals.Watch)
    : option (HandlerResult * bool * option Signals.Watch) :=
  match control with
  | Interrogate => Some (NoError, shutdown_tx, rx)
  | Stop =>
      if shutdown_tx
      then match rx with
           | Some _ => Some (NoError, false, Some (Signals.mkWatch true false))
           | None => None
           end
      else Some (NoError, shutdown_tx, rx)
  | OtherControl => Some (NotImplemented, shutdown_tx, rx)
  end.

(** The name of the service, of its executable, what it shows. *)
Definition SERVICE_NAME : string := "weavegate".
Definition SERVICE_EXE : string := "weavegate.exe".
Definition SERVICE_DISPLAY_NAME : string := "WeaveGate".
Definition SERVICE_DESC : string :=
  "A cross-platform, high-performance and asynchronous web server for static files-serving".

(** What is asked of the system: the directory of the process, the service manager with its
    access rights, a service and its description. *)
Inductive ManagerAccess := CONNECT | CREATE_SERVICE.
Inductive ServiceAccess := CHANGE_CONFIG | QUERY_STATUS | STOP | DELETE.
(** What [install_service] fills with constants is left out: a process of its own, started on
    demand, with normal error control, no dependencies and the System account. *)
Record ServiceInfo := mkServiceInfo {
  si_name : string;
  si_display_name : string;
  si_executable_path : Path.t;
  si_launch_arguments : list string;
}.
Inductive SystemCall :=
| SetCurrentDir (p : Path.t)
| StartDispatcher (name : string)
| LocalComputer (access : list ManagerAccess)
| CreateService (info : ServiceInfo) (access : list ServiceAccess)
| SetDescription (text : string)
| OpenService (name : string) (access : list ServiceAccess)
| QueryStatus
| StopService
| Sleep (secs : Z)
| DeleteService.

(** [helpers::adjust_canonicalization]: the text without its verbatim prefix; a path that is no
    text gives the empty one. *)
Definition VERBATIM_PREFIX : string := Str.bytes [92; 92; 63; 92].
Definition adjust_canonicalization (p : Path.t) : string :=
  let p := default "" (Path.to_str p) in
  default p (Str.strip_prefix VERBATIM_PREFIX p).

Section Manage.
(** The answer of the system: an error, or done. *)
Context (call : SystemCall → result error unit).

(** A call, and if it succeeds, the rest: the calls made and the result. *)
Definition do (c : SystemCall) (k : list SystemCall * result error unit)
    : list SystemCall * result error unit :=
  match call c with
  | Err e => ([c], Err e)
  | Ok _ => (c :: k.1, k.2)
  end.

(** [run_server_as_service], in the directory of the executable; when that cannot be entered the
    [unwrap] panics in the main thread, which ends the process with code 101. *)
Definition run_server_as_service (current_exe : Path.t) : list SystemCall * Exit :=
  let enter := SetCurrentDir (Path.pop current_exe) in
  match call enter with
  | Err _ => ([enter], Exited 101)
  | Ok _ =>
      let '(calls, r) := do (StartDispatcher SERVICE_NAME) ([], Ok ()) in
      (enter :: calls,
       Returned (Res.context "error registering generated `ffi_service_main` with the system" r))
  end.

(** [install_service]. *)
Definition launch_arguments (config_file : Path.t) : list string :=
  let f := adjust_canonicalization config_file in
  ["--windows-service=true"] ++ (if negb (Str.is_empty f) then ["--config-file=" +:+ f] else []).

Definition service_info (current_exe config_file : Path.t) : ServiceInfo := {|
  si_name := SERVICE_NAME;
  si_display_name := SERVICE_DISPLAY_NAME;
  si_executable_path := Path.set_file_name SERVICE_EXE current_exe;
  si_launch_arguments := launch_arguments config_file;
|}.

Definition install_service (current_exe config_file : Path.t)
    : list SystemCall * result error unit :=
  do (LocalComputer [CONNECT; CREATE_SERVICE])
    (do (CreateService (service_info current_exe config_file) [CHANGE_CONFIG])
       (do (SetDescription SERVICE_DESC) ([], Ok ()))).

(** [uninstall_service]; [state] is what [query_status] reports. *)
Definition uninstall_service (state : ServiceState) : list SystemCall * result error unit :=
  do (LocalComputer [CONNECT])
    (do (OpenService SERVICE_NAME [QUERY_STATUS; STOP; DELETE])
       (do QueryStatus
          (let delete := do DeleteService ([], Ok ()) in
           match state with
           | Stopped => delete
           | _ => do StopService (let '(calls, r) := delete in (Sleep 1 :: calls, r))
           end))).
End Manage.

Section Service.
Context `{HeadersLib, CodecLib, GlobLib, RegexLib, TlsLib}.
(** Whether the service manager takes a report; [Settings::get(false)]; registering the handler;
    the processors; running the server, which calls its [cancel_fn] if serving ends well. *)
Context (set_service_status : ServiceStatus → result error unit).
Context (opts : result error Settings) (register : result error unit) (cpus : option Z).
Context (run_as_service : Server.Server → Exit).

(** [run_service]: the reports in order, and the end. *)
Definition run_service : list ServiceStatus * Exit :=
  let running := service_status Running 1 0 in
  let stop_pending := service_status StopPending 2 3 in
  let stopped := service_status Stopped 3 3 in
  match (let? opts := opts in let? _ := register in Ok opts) with
  | Err e => ([], Returned (Err e))
  | Ok opts =>
      match set_service_status running with
      | Err e => ([running], Returned (Err e))
      | Ok _ =>
          let stop reports := (reports ++ [stopped], Returned (set_service_status stopped)) in
          match Server.new cpus opts with
          | Err _ => stop [running]
          | Ok server =>
              match run_as_service server with
              | Exited code => ([running], Exited code)
              | Returned (Err _) => stop [running]
              | Returned (Ok _) => stop [running; stop_pending]
              end
          end
      end
  end.
End Service.
End WinService.

(** * [bin/server.rs] *)

Module WinMain.

(** [cli::Commands] with the commands only Windows has. *)
Inductive Commands := Install | Uninstall | Shared (c : Cli.Commands).

Section Entry.
Context `{HeadersLib, CodecLib, GlobLib, RegexLib, TlsLib}.
Context (render : Main.Action → result error unit) (cpus : option Z) (run : Server.Server → Exit).
(** The system, the path of the executable and the state of the installed service. *)
Context (call : WinService.SystemCall → result error unit) (current_exe : Path.t)
  (state : WinService.ServiceState).

Abbreviation trace := (list (Main.Action + WinService.SystemCall)).

Definition managed (x : list WinService.SystemCall * result error unit) : trace * Exit :=
  (map inr x.1, Returned x.2).
Definition shown (x : list Main.Action * Exit) : trace * Exit := (map inl x.1, x.2).

(** [main]; [command] and [windows_service] are the fields of the settings that only the Windows
    build has. *)
Definition main (opts : result error Settings) (command : option Commands) (windows_service : bool)
    : trace * Exit :=
  match opts with
  | Err e => ([], Returned (Err e))
  | Ok opts =>
      if Cli.version (general opts) then ([inl Main.DisplayVersion], Returned (Ok ()))
      else
        match command with
        | Some Install =>
            managed (WinService.install_service call current_exe (Cli.config_file (general opts)))
        | Some Uninstall => managed (WinService.uninstall_service call state)
        | Some (Shared (Cli.Generate completions man_pages out_dir)) =>
            shown (Main.generate render completions man_pages out_dir)
        | None =>
            if windows_service then
              let '(calls, e) := WinService.run_server_as_service call current_exe in
              (map inr calls, e)
            else match Server.new cpus opts with
                 | Err e => ([], Returned (Err e))
                 | Ok server => ([inl Main.RunServer], run server)
                 end
        end
  end.

(** Without the commands and the flag of Windows the program is the one of [Main]. *)
Lemma main_shared opts :
  main opts (match opts with Ok s => Shared <$> Cli.commands (general s) | Err _ => None end) false =
    shown (Main.main render cpus run opts).
Proof.
  unfold main, Main.main, shown. destruct opts as [s|e]; [|done].
  destruct (Cli.version (general s)); [done|].
  destruct (Cli.commands (general s)) as [[c m o]|]; [done|]. cbn [fmap option_fmap option_map].
  by destruct (Server.new cpus s).
Qed.
End Entry.
End WinMain.

(** * What the servers wait for *)

Section Waiting.
Import CtrlC.

(** C21. On Windows too a shutdown goes through as a whole.  Whatever number of servers share the
    receiver, standalone or as a service, from every state that can be reached: once ctrl+c was
    pressed, or the stop event of the service was passed on and its sender dropped, then whatever
    else happens the waiters and the ctrl+c task stop after finitely many steps, they cannot stop
    before every server has been told to shut down and the task has ended (what [try_join!]
    waits for), and they get there. *)
Theorem windows_shutdown (grace n : nat) (windows_service : bool)
    (cancel_recv : option Signals.Watch) (c c' : Sys)
    (Hreach : rtc (moves grace) (start windows_service n cancel_recv) c) (Hcalled : called c)
    (Hrun : rtc (moves grace) c c') :
  sn (step grace) c' ∧ (nf (step grace) c' → finished c') ∧
  ∃ c'', rtc (step grace) c' c'' ∧ finished c''.
Proof.
  assert (inv c') as Hinv.
  { eapply ctrlc_moves_inv; [exact Hrun|]. eapply ctrlc_moves_inv; [exact Hreach|]. apply ctrlc_start_inv. }
  assert (called c') as Hc' by by eapply ctrlc_moves_called.
  split; [apply ctrlc_step_sn|]. split; [|by apply ctrlc_called_ends].
  intros Hnf. by destruct (ctrlc_called_progress grace c' Hinv Hc').
Qed.

(** And nothing else ends the wait: without the key, a stop event or the end of a sender, every
    waiter keeps waiting. *)
Theorem windows_no_spurious_shutdown (grace n : nat) (windows_service : bool)
    (cancel_recv : option Signals.Watch) (c : Sys)
    (Hcancel : windows_service = true → cancel_recv = Some (Signals.mkWatch false true))
    (Hreach : rtc (step grace) (start windows_service n cancel_recv) c) :
  Forall (λ w, w = Locking ∨ w = Changing) (waiters c).
Proof.
  set (t0 := if windows_service then Ended else Listening).
  assert (start windows_service n cancel_recv =
            mkSys (replicate n Locking) None (Some (Signals.mkWatch false true)) t0) as Hs0.
  { unfold start, t0. destruct windows_service; [by rewrite Hcancel|done]. }
  cut (Forall (λ w, w = Locking ∨ w = Changing) (waiters c) ∧
       recv c = Some (Signals.mkWatch false true) ∧ ctrl c = t0); [by intros [? _]|].
  rewrite Hs0 in Hreach. clear Hs0 Hcancel.
  remember (mkSys (replicate n Locking) None (Some (Signals.mkWatch false true)) t0) as c0 eqn:E.
  assert (Forall (λ w, w = Locking ∨ w = Changing) (waiters c0) ∧
          recv c0 = Some (Signals.mkWatch false true) ∧ ctrl c0 = t0) as Hc0.
  { subst c0. split; [|done]. apply Forall_replicate. by left. }
  clear E. induction Hreach as [|c1 c2 c3 Hs _ IH]; [done|]. apply IH. clear IH.
  destruct Hc0 as (Hall & Hr & Ht).
  destruct Hs as [i ws t Hi|i ws r t Hi|i ws h r t Hi Hc|i ws h r t k Hi|i ws h r t Hi|ws h r|ws h r];
    simpl in *; simplify_eq; try done.
  - split; [|done]. apply Forall_insert; auto.
  - apply (Forall_lookup_1 _ _ _ _ Hall) in Hi. by destruct Hi.
  - apply (Forall_lookup_1 _ _ _ _ Hall) in Hi. by destruct Hi.
  - by destruct windows_service.
  - by destruct windows_service.
Qed.
End Waiting.

(** * The service *)

(** The Windows service, with a service manager that takes every report: it is running, then
    asked to stop and stopped when the server ends well; only running and stopped when the server
    cannot be made or the runtime cannot be built; but when the start-up or the serving fails the
    process exits first, and neither 'StopPending' nor 'Stopped' is ever reported. *)
Theorem service_reports `{HeadersLib, CodecLib, GlobLib, RegexLib, TlsLib}
    (rt : result error unit) (started : Server.Server → result error Server.Started)
    (hyper : Server.Started → result error unit * result error unit)
    (set_status : WinService.ServiceStatus → result error unit) (s : Settings) (cpus : option Z)
    (Hset : ∀ st, set_status st = Ok ()) :
  let '(reports, e) :=
    WinService.run_service set_status (Ok s) (Ok ()) cpus (run rt started hyper) in
  let states := (λ r, (WinService.current_state r, WinService.checkpoint r)) <$> reports in
  match Server.new cpus s with
  | Err _ => states = [(WinService.Running, 1%Z); (WinService.Stopped, 3%Z)] ∧ e = Returned (Ok ())
  | Ok server =>
      (rt = Ok () ∧ (∃ st, started server = Ok st ∧ served hyper st) ∧ e = Returned (Ok ()) ∧
       states = [(WinService.Running, 1%Z); (WinService.StopPending, 2%Z); (WinService.Stopped, 3%Z)]) ∨
      (rt ≠ Ok () ∧ e = Returned (Ok ()) ∧
       states = [(WinService.Running, 1%Z); (WinService.Stopped, 3%Z)]) ∨
      (rt = Ok () ∧ (∀ st, started server = Ok st → ¬ served hyper st) ∧ e = Exited 1 ∧
       states = [(WinService.Running, 1%Z)])
  end.
Proof.
  unfold WinService.run_service. simpl. rewrite Hset.
  destruct (Server.new cpus s) as [server|err]; [|by rewrite Hset].
  destruct (run_outcome rt started hyper server) as (Hok & Hex & Herr).
  destruct (run rt started hyper server) as [[[]|err]|code]; simpl; rewrite ?Hset.
  - left. destruct (proj1 Hok eq_refl) as [? ?]. by split_and!.
  - right. left. split_and!; [|done..]. by rewrite (proj1 (Herr err) eq_refl).
  - right. right. destruct (proj1 (Hex code) eq_refl) as (-> & ? & ?). by split_and!.
Qed.

(** The stop event is passed on once: the sender is taken, used and dropped, so that every task
    that waits on the receiver sees the change or the end; later stop events change nothing. *)
Lemma stop_once tx rx r tx' rx' :
  WinService.event_handler WinService.Stop tx rx = Some (r, tx', rx') →
  r = WinService.NoError ∧ tx' = false ∧
  (tx = true → rx' = Some (Signals.mkWatch true false)) ∧
  WinService.event_handler WinService.Stop tx' rx' = Some (r, tx', rx').
Proof. simpl. destruct tx; [destruct rx|]; intros; by simplify_eq. Qed.

(** * Installing and removing the service *)

Section Manage.
Context (call : WinService.SystemCall → result error unit).

(** The calls a command makes when nothing fails. *)
Definition install_calls (current_exe config_file : Path.t) : list WinService.SystemCall :=
  [WinService.LocalComputer [WinService.CONNECT; WinService.CREATE_SERVICE];
   WinService.CreateService (WinService.service_info current_exe config_file)
     [WinService.CHANGE_CONFIG];
   WinService.SetDescription WinService.SERVICE_DESC].
Definition uninstall_calls (state : WinService.ServiceState) : list WinService.SystemCall :=
  [WinService.LocalComputer [WinService.CONNECT];
   WinService.OpenService WinService.SERVICE_NAME
     [WinService.QUERY_STATUS; WinService.STOP; WinService.DELETE];
   WinService.QueryStatus] ++
  match state with
  | WinService.Stopped => []
  | _ => [WinService.StopService; WinService.Sleep 1]
  end ++ [WinService.DeleteService].

(** Sleeping does not fail. *)
Definition succeeds (c : WinService.SystemCall) : Prop :=
  match c with WinService.Sleep _ => True | _ => call c = Ok () end.

(** [l] is carried out in order up to the first failing call, whose error is the result. *)
Definition carried_out (l : list WinService.SystemCall)
    (x : list WinService.SystemCall * result error unit) : Prop :=
  (x = (l, Ok ()) ∧ Forall succeeds l) ∨
  (∃ l1 c l2 e, l = l1 ++ c :: l2 ∧ x = (l1 ++ [c], Err e) ∧ call c = Err e ∧ Forall succeeds l1).

Lemma carried_out_nil : carried_out [] ([], Ok ()).
Proof. by left. Qed.

Lemma carried_out_cons c l x :
  succeeds c → carried_out l x → carried_out (c :: l) (c :: x.1, x.2).
Proof.
  intros Hc [[-> Hall]|(l1 & c' & l2 & e & -> & -> & He & Hall)].
  - left. split; [done|]. by constructor.
  - right. exists (c :: l1), c', l2, e. split_and!; [done..|]. by constructor.
Qed.

Lemma carried_out_do c l x :
  (∀ n, c ≠ WinService.Sleep n) → carried_out l x →
  carried_out (c :: l) (WinService.do call c x).
Proof.
  intros Hc Hx. unfold WinService.do. destruct (call c) as [[]|e] eqn:E.
  - apply carried_out_cons; [|done]. by destruct c; simpl.
  - right. by exists [], c, l, e.
Qed.
End Manage.

(** The words the installed service is started with are options of the command, with texts their
    value parsers take. *)
Lemma launch_arguments_accepted `{HttpLib} (ip_parse : string → option IpAddr) config_file word :
  word ∈ WinService.launch_arguments config_file →
  ∃ a text v, a ∈ CommandLine.args ++ CommandLine.windows_args true ∧ word = option_word a text ∧
    CommandLine.accept ip_parse (CommandLine.arg_kind a) text = Some v.
Proof.
  unfold WinService.launch_arguments. intros [Hw|Hw]%elem_of_app.
  - apply list_elem_of_singleton in Hw as ->. eexists _, "true", _.
    split; [apply elem_of_app; right; apply list_elem_of_singleton; reflexivity|]. by split.
  - destruct (Str.is_empty (WinService.adjust_canonicalization config_file)) eqn:Ef; [by apply elem_of_nil in Hw|].
    apply list_elem_of_singleton in Hw as ->.
    assert (∃ a, a ∈ CommandLine.args ∧ CommandLine.arg_id a = "config_file" ∧
              CommandLine.arg_kind a = CommandLine.KPathAny) as (a & Ha & Hid & Hk).
    { assert ((λ a, (CommandLine.arg_id a, CommandLine.arg_kind a)) <$>
        List.find (λ a, String.eqb (CommandLine.arg_id a) "config_file") CommandLine.args =
        Some ("config_file", CommandLine.KPathAny)) as Hf by (vm_compute; reflexivity).
      destruct (List.find _ _) as [a|] eqn:E; [|done]. apply find_some in E as [E _].
      injection Hf as Hid Hk. exists a. split_and!; [by apply list_elem_of_In|done|done]. }
    exists a, (WinService.adjust_canonicalization config_file).
    eexists. split; [apply elem_of_app; by left|]. split; [unfold option_word; by rewrite Hid|].
    by rewrite Hk.
Qed.

(** C28. The service commands do what they say, in order and no further than the first failure:
    [install] opens the manager, creates the service for the executable next to the running one,
    told to run as a service and with the configuration file that was given (unless its path is
    no text), and describes it; [uninstall] opens the service, stops it first when it is not
    stopped, and deletes it last; either ends well exactly if every call succeeded, and fails
    with the error of the call that did not. *)
Theorem service_commands (call : WinService.SystemCall → result error unit)
    (current_exe config_file : Path.t) (state : WinService.ServiceState) :
  carried_out call (install_calls current_exe config_file)
    (WinService.install_service call current_exe config_file) ∧
  carried_out call (uninstall_calls state) (WinService.uninstall_service call state) ∧
  (let f := WinService.adjust_canonicalization config_file in
   WinService.si_launch_arguments (WinService.service_info current_exe config_file) =
     "--windows-service=true" :: (if Str.is_empty f then [] else ["--config-file=" +:+ f])).
Proof.
  split_and!.
  - unfold WinService.install_service, install_calls.
    repeat (apply carried_out_do; [done|]). apply carried_out_nil.
  - unfold WinService.uninstall_service, uninstall_calls. cbv zeta.
    pose proof (carried_out_do call WinService.DeleteService [] _ ltac:(done) (carried_out_nil call))
      as Hdel.
    repeat (apply carried_out_do; [done|]).
    destruct state; simpl; [..|exact Hdel]; apply carried_out_do; try done;
      destruct (WinService.do call WinService.DeleteService ([], Ok ())) as [calls r];
      by apply (carried_out_cons call (WinService.Sleep 1) _ (calls, r)).
  - unfold WinService.service_info, WinService.launch_arguments. simpl. by destruct (Str.is_empty _).
Qed.

(** * Examples *)

(** With the service flag and no receiver, which [run_standalone(None)] of a library user gives,
    nothing is waited for: the servers are told to shut down at once. *)
Example service_without_receiver :
  rtc (CtrlC.step 0) (CtrlC.start true 1 None)
    (CtrlC.mkSys [CtrlC.Delegated] None None CtrlC.Ended).
Proof.
  eapply rtc_l; [by apply (CtrlC.LockNone 0 0)|]. eapply rtc_l; [by apply (CtrlC.GraceOver 0 0)|].
  apply rtc_refl.
Qed.

(** Standalone, the cancel receiver given to [run_standalone] is dropped: a cancel already sent
    does not end the wait. *)
Example standalone_cancel_ignored :
  nf (CtrlC.step 0)
    (CtrlC.mkSys [CtrlC.Changing] (Some 0) (CtrlC.recv (CtrlC.start false 1
       (Some (Signals.mkWatch true true)))) CtrlC.Listening).
Proof.
  intros [c' Hs]. inversion Hs as [i ws t Hi|i ws r t Hi|i ws h r t Hi Hc|i ws h r t k Hi|i ws h r t Hi| |];
    subst; try discriminate; destruct i; simpl in *; done.
Qed.

Lemma windows_shutdown_witness :
  let c := CtrlC.mkSys [CtrlC.Locking; CtrlC.Locking] None (Some (Signals.mkWatch false true))
             CtrlC.Pressed in
  ∃ c', rtc (CtrlC.step 3) c c' ∧ CtrlC.finished c'.
Proof.
  cbv zeta.
  assert (rtc (CtrlC.moves 3) (CtrlC.start false 2 None)
            (CtrlC.mkSys [CtrlC.Locking; CtrlC.Locking] None (Some (Signals.mkWatch false true))
               CtrlC.Pressed)) as Hr.
  { apply rtc_once. right. apply CtrlC.EvCtrlC. }
  exact (proj2 (proj2 (windows_shutdown 3 2 false None _ _ Hr I (rtc_refl _ _)))).
Defined.

Lemma windows_no_spurious_shutdown_witness :
  Forall (λ w, w = CtrlC.Locking ∨ w = CtrlC.Changing)
    (CtrlC.waiters (CtrlC.mkSys [CtrlC.Changing] (Some 0) (Some (Signals.mkWatch false true))
       CtrlC.Ended)).
Proof.
  apply (windows_no_spurious_shutdown 0 1 true (Some (Signals.mkWatch false true))); [done|].
  apply rtc_once. by apply (CtrlC.LockSome 0 0).
Defined.

Import (hints) TlsRef.

Lemma service_reports_witness :
  ∃ reports e,
    WinService.run_service (λ _, Ok ()) (Ok ServerRef.settings) (Ok ()) (Some 4%Z)
      (run (Ok ()) (λ _, Err ["failed to bind to address"]) (λ _, (Ok (), Ok ()))) = (reports, e) ∧
    length reports = 1 ∧ e = Exited 1.
Proof.
  pose proof (service_reports (Ok ()) (λ _, Err ["failed to bind to address"])
    (λ _, (Ok (), Ok ())) (λ _, Ok ()) ServerRef.settings (Some 4%Z) (λ _, eq_refl)) as Hs.
  destruct (WinService.run_service _ _ _ _ _) as [reports e] eqn:E. exists reports, e.
  split; [reflexivity|].
  destruct (Server.new (Some 4%Z) ServerRef.settings) as [server|err] eqn:En;
    [|discriminate En].
  destruct Hs as [(_ & (st & Hst & _) & _)|[(Hrt & _)|(_ & _ & He & Hr)]];
    [discriminate Hst | by destruct Hrt |].
  split; [|exact He]. apply (f_equal length) in Hr. rewrite length_fmap in Hr. exact Hr.
Defined.
