(* ===== verification/Archive.v ===== *)
(** The archive download as a running task: the rest of [directory_listing_download.rs].

    [ChannelBuffer] is the writer over hyper's body channel.  The walk itself is
    [Download.archive_loop] of [DirListing]; here its rounds are a relation on stacks, with the
    proofs that the walk always ends, symbolic-link cycles included, and that a walk that is not
    cut short by an error archives the whole visible tree. *)
From Stdlib Require Import ZArith Lia Ascii String.
From stdpp Require Import base list strings gmap relations.
From S2P Require Import Prelude Http Libs RefLibs Path Fs Opts Transport DirListing.
Local Open Scope string_scope.
Local Open Scope list_scope.
Local Open Scope nat_scope.

(** * [ChannelBuffer] *)

Module ChannelBuffer.
Section ChannelBuffer.
(** hyper's [body::Sender]: [poll_ready], and [try_send_data], which may refuse the chunk. *)
Context (Sender : Type) (poll_ready : Sender → Poll (result string unit) * Sender).
Context (try_send_data : Sender → string → bool * Sender).

(** [AsyncWrite for ChannelBuffer]. *)
Definition poll_write (s : Sender) (buf : string) : Poll (io_result nat) * Sender :=
  match poll_ready s with
  | (Ready (Ok _), s) =>
      let '(sent, s) := try_send_data s buf in
      (if sent then Ready (Ok (String.length buf)) else Pending, s)
  | (Ready (Err e), s) => (Ready (Err (mkIoError BrokenPipe e)), s)
  | (Pending, s) => (Pending, s)
  end.
Definition poll_flush (s : Sender) : Poll (io_result unit) * Sender := (Ready (Ok ()), s).
Definition poll_shutdown (s : Sender) : Poll (io_result unit) * Sender := (Ready (Ok ()), s).
End ChannelBuffer.
End ChannelBuffer.

(** * The rounds of the walk *)

Section Walk.
Context (append_dir append_path : Path.t → Path.t → bool) (fs : Fs.t).
Context (path src_path : Path.t) (follow hidden : bool).
Abbreviation item := (Path.t * bool * bool)%type.
Abbreviation archive_step := (Download.archive_step append_dir append_path fs path src_path follow hidden).
Abbreviation archive_loop := (Download.archive_loop append_dir append_path fs).

(** One round that does not stop the walk. *)
Inductive round : list item → list item → Prop :=
| round_step it rest out stack :
    archive_step it rest = Some (out, stack) → round (it :: rest) stack.

(** The deepest path of the tree, and how far a resolved directory can still be descended into:
    every name goes one level down or follows one of the links that are left. *)
Definition depth : nat := list_max (length <$> (map_to_list (Fs.nodes fs)).*1).
Definition potential (q : list string) (links : nat) : nat :=
  links * S depth + (depth - length q).

Lemma depth_bound q : is_dir_at fs q = true → length q ≤ depth.
Proof.
  unfold is_dir_at, Fs.node_at. destruct q as [|n q]; [simpl; lia|].
  destruct (Fs.nodes fs !! (n :: q)) as [v|] eqn:E; [intros _|done].
  apply elem_of_map_to_list in E. unfold depth.
  pose proof (proj1 (list_max_le (length <$> (map_to_list (Fs.nodes fs)).*1) _) (le_n _)) as Hall.
  rewrite Forall_forall in Hall. apply Hall.
  apply list_elem_of_fmap. exists (n :: q). split; [done|].
  apply list_elem_of_fmap. by exists (n :: q, v).
Qed.

Lemma walk_links links cur p q l :
  Fs.walk fs true links cur p = Ok (q, l) → l ≤ links.
Proof.
  revert cur p. induction links as [links IHl] using lt_wf_ind.
  intros cur p. revert cur. induction p as [|c p IH]; intros cur; rewrite walk_unfold.
  { by intros [= _ <-]. }
  destruct c as [| | |n]; [apply IH..|].
  destruct (Fs.node_at fs (cur ++ [n])) as [[c m r|es m r|t m]|]; [|apply IH| |done].
  - destruct p; [by intros [= _ <-]|done].
  - destruct links as [|links]; [by destruct p|]. intros Hw.
    assert (Fs.walk fs true links cur (Path.parse t ++ p) = Ok (q, l)) as Hw' by by destruct p.
    apply IHl in Hw'; lia.
Qed.

(** What a path on the stack can still cost: nothing unless it is a directory. *)
Definition cost (src : Path.t) : nat :=
  match Fs.walk fs true Fs.max_links (Fs.cwd fs) src with
  | Ok (q, l) => if is_dir_at fs q then S (potential q l) else 0
  | Err _ => 0
  end.

Lemma child_cost src n :
  0 < cost src → cost (src ++ [Normal n]) < cost src.
Proof.
  unfold cost. destruct (Fs.walk fs true _ _ src) as [[q l]|] eqn:Ew; [|lia].
  destruct (is_dir_at fs q) eqn:Ed; [|lia]. intros _.
  rewrite (walk_app_dir fs true Fs.max_links (Fs.cwd fs) src q [Normal n] l) by done.
  rewrite walk_unfold. pose proof (depth_bound q Ed) as Hq. unfold potential.
  destruct (Fs.node_at fs (q ++ [n])) as [[c m r|es m r|t m]|] eqn:En; [| | |lia].
  - unfold is_dir_at. rewrite En. lia.
  - rewrite walk_unfold. assert (is_dir_at fs (q ++ [n]) = true) as Hd
      by (unfold is_dir_at; by rewrite En).
    rewrite Hd. apply depth_bound in Hd. rewrite length_app in *. simpl in *. lia.
  - simpl. destruct l as [|l]; [lia|].
    destruct (Fs.walk fs true l q _) as [[q' l']|] eqn:Ew'; [|lia].
    apply walk_links in Ew'. destruct (is_dir_at fs q'); nia.
Qed.

Lemma read_dir_cost src es : Fs.read_dir fs src = Ok es → 0 < cost src.
Proof.
  unfold Fs.read_dir, Fs.get, Fs.resolve, cost. intros Hr. inv_res.
  destruct src as [|c src]; [done|]. inv_res.
  match goal with H : Fs.walk _ _ _ _ _ = Ok ?x |- _ => destruct x as [q l]; rewrite H end.
  simpl in *. unfold is_dir_at. match goal with H : Fs.node_at _ _ = Some _ |- _ => rewrite H end.
  case_match; [done|lia|done].
Qed.

(** What a directory pushes lies right below it. *)
Lemma push_entries_app src names stack stack' :
  Download.push_entries fs src hidden names stack = Some stack' →
  ∃ new, stack' = new ++ stack ∧
    (∀ it, it ∈ new → ∃ n m, n ∈ names ∧ it = (src ++ [Normal n], md_is_dir m, md_is_symlink m) ∧
       Fs.symlink_metadata fs (src ++ [Normal n]) = Ok m) ∧
    (∀ n, n ∈ names → (hidden = true → Str.starts_with_char "." n = false) →
       ∃ m, (src ++ [Normal n], md_is_dir m, md_is_symlink m) ∈ new ∧
         Fs.symlink_metadata fs (src ++ [Normal n]) = Ok m).
Proof.
  revert stack. induction names as [|n names IH]; intros stack; simpl.
  { intros [= <-]. exists []. split_and!; [done|by intros ? ?%elem_of_nil|by intros ? ?%elem_of_nil]. }
  destruct (hidden && Str.starts_with_char "." n) eqn:Eh.
  - intros (new & -> & Hin & Hall)%IH. exists new. split_and!; [done| |].
    + intros it (n' & m & ? & ?)%Hin. exists n', m. split; [by right|done].
    + intros n' [->|Hn]%elem_of_cons Hv; [|by apply Hall].
      apply andb_true_iff in Eh as [Eh1 Eh2]. by rewrite (Hv Eh1) in Eh2.
  - rewrite push_Normal.
    destruct (Fs.symlink_metadata fs (src ++ [Normal n])) as [m|] eqn:Em; [|done].
    intros (new & -> & Hin & Hall)%IH.
    exists (new ++ [(src ++ [Normal n], md_is_dir m, md_is_symlink m)]).
    split_and!; [by rewrite <- app_assoc| |].
    + intros it [(n' & m' & ? & ?)%Hin | ->%list_elem_of_singleton]%elem_of_app.
      * exists n', m'. split; [by right|done].
      * exists n, m. split; [by left|done].
    + intros n' [->|Hn]%elem_of_cons Hv.
      * exists m. split; [|done]. apply elem_of_app. right. by apply list_elem_of_singleton.
      * destruct (Hall n' Hn Hv) as (m' & ? & ?). exists m'. split; [|done].
        apply elem_of_app. by left.
Qed.

(** What a round does to the stack. *)
Lemma archive_step_stack it rest out stack :
  archive_step it rest = Some (out, stack) →
  ∃ new, stack = new ++ rest ∧
    (new = [] ∨ 0 < cost it.1.1) ∧ ∀ i, i ∈ new → ∃ n, i.1.1 = it.1.1 ++ [Normal n].
Proof.
  destruct it as [[src d] s]. unfold Download.archive_step.
  destruct (Path.strip_prefix src src_path) as [rel|]; [|done].
  destruct (d || _).
  2:{ destruct (append_path _ _); [|done]. intros [= <- <-]. exists []. split_and!; [done|by left|].
      by intros ? ?%elem_of_nil. }
  destruct (Fs.read_dir fs src) as [names|] eqn:Er; [|done].
  destruct (Download.push_entries _ _ _ _ _) as [stack1|] eqn:Ep; [|done].
  apply push_entries_app in Ep as (new & -> & Hin & _). intros Hs.
  assert (stack = new ++ rest) as ->.
  { destruct (bool_decide _); [destruct (append_dir _ _)|]; by simplify_eq. }
  exists new. split_and!; [done|right; by eapply read_dir_cost|].
  intros i (n & m & _ & -> & _)%Hin. by exists n.
Qed.

Lemma round_cons_sn k it rest :
  cost it.1.1 < k → sn round rest → sn round (it :: rest).
Proof.
  revert it rest. induction k as [|k IH]; intros it rest Hk Hrest; [lia|].
  constructor. intros stack Hr. inversion Hr as [? ? out ? Hs]; subst.
  destruct (archive_step_stack _ _ _ _ Hs) as (new & -> & Hnew & Hchild).
  assert (∀ i, i ∈ new → cost i.1.1 < k) as Hcost.
  { intros i Hi. destruct Hnew as [->|Hpos]; [by apply elem_of_nil in Hi|].
    destruct (Hchild i Hi) as [n ->]. pose proof (child_cost it.1.1 n Hpos). lia. }
  clear Hs Hr Hnew Hchild. induction new as [|i new IHn]; [done|].
  simpl. apply IH; [apply Hcost; by left|]. apply IHn. intros j Hj. apply Hcost. by right.
Qed.

Lemma round_sn stack : sn round stack.
Proof.
  induction stack as [|it stack IH]; [constructor; by inversion 1|].
  apply (round_cons_sn (S (cost it.1.1))); [lia | done].
Qed.

(** With enough rounds the loop has stopped. *)
Lemma archive_loop_stable stack :
  ∃ n, ∀ m, n ≤ m →
    archive_loop m path src_path follow hidden stack = archive_loop n path src_path follow hidden stack.
Proof.
  induction (round_sn stack) as [stack _ IH]. destruct stack as [|it rest].
  { exists 0. intros m _. by destruct m. }
  destruct (archive_step it rest) as [[out stack]|] eqn:Es.
  - destruct (IH stack) as [n Hn]; [by econstructor|]. exists (S n). intros [|m] Hm; [lia|].
    simpl. rewrite Es. f_equal. apply Hn. lia.
  - exists 1. intros [|m] Hm; [lia|]. simpl. by rewrite Es.
Qed.

(** * What a finished walk has written *)

(** The walk to its end, with all it writes: no error cut it short. *)
Inductive finishes : list item → list Download.TarEntry → Prop :=
| finishes_nil : finishes [] []
| finishes_round it rest out stack outs :
    archive_step it rest = Some (out, stack) → finishes stack outs →
    finishes (it :: rest) (out ++ outs).

(** The path of [names] is walked into: the root, a directory, or a followed link to one. *)
Definition descended (names : list string) : Prop :=
  names = [] ∨ ∃ m, Fs.symlink_metadata fs (src_path ++ normals names) = Ok m ∧
    md_is_dir m || (md_is_symlink m && follow && Fs.is_dir fs (src_path ++ normals names)) = true.

(** The visible tree below [p]: the names that lead to its entries. *)
Inductive below : list string → list string → Prop :=
| below_nil p : below p []
| below_cons p n r es :
    descended p → Fs.read_dir fs (src_path ++ normals p) = Ok es → n ∈ es →
    (hidden = true → Str.starts_with_char "." n = false) →
    below (p ++ [n]) r → below p (n :: r).

(** The stack's flags are those of the path. *)
Definition flagged (it : item) (names : list string) : Prop :=
  it.1.1 = src_path ++ normals names ∧
  (it.1.2 || (it.2 && follow && Fs.is_dir fs it.1.1) = true ↔ descended names) ∧
  (names = [] ∨ ∃ m, Fs.symlink_metadata fs it.1.1 = Ok m).

Definition archived (names : list string) (outs : list Download.TarEntry) : Prop :=
  let src := src_path ++ normals names in
  let dest := Path.push path (normals names) in
  dest ≠ [] →
  (descended names → Download.TarDir dest src ∈ outs) ∧
  (¬ descended names → Download.TarPath dest src ∈ outs).

Lemma flagged_child names n m src :
  src = src_path ++ normals names →
  Fs.symlink_metadata fs (src ++ [Normal n]) = Ok m →
  flagged (src ++ [Normal n], md_is_dir m, md_is_symlink m) (names ++ [n]).
Proof.
  intros -> Hm. assert ((src_path ++ normals names) ++ [Normal n] = src_path ++ normals (names ++ [n]))
    as Heq by (unfold normals; by rewrite fmap_app, app_assoc).
  rewrite Heq in Hm |- *. split_and!; simpl; [done| |by right; exists m].
  unfold descended. split.
  - intros Hd. right. by exists m.
  - intros [Hn|(m' & Hm' & Hd)]; [by destruct names|]. rewrite Hm in Hm'. by injection Hm' as <-.
Qed.

(** A round archives its item and, if it descends, puts every visible child on the stack. *)
Lemma step_archives it rest out stack names :
  flagged it names → archive_step it rest = Some (out, stack) →
  archived names out ∧
  ∀ n r, below names (n :: r) → ∃ i, i ∈ stack ∧ flagged i (names ++ [n]).
Proof.
  destruct it as [[src d] s]. intros (Hsrc & Hflag & _). simpl in Hsrc, Hflag.
  unfold Download.archive_step. rewrite Hsrc, strip_prefix_app, <- Hsrc.
  destruct (d || (s && follow && Fs.is_dir fs src)) eqn:Ed.
  - destruct (Fs.read_dir fs src) as [es|] eqn:Er; [|done].
    destruct (Download.push_entries fs src hidden es rest) as [stack1|] eqn:Ep; [|done].
    apply push_entries_app in Ep as (new & -> & _ & Hall). intros Hout.
    assert (stack = new ++ rest ∧ (Path.push path (normals names) ≠ [] →
              Download.TarDir (Path.push path (normals names)) src ∈ out)) as [-> Hin].
    { case_bool_decide; [destruct (append_dir _ _)|]; simplify_eq; split; try done.
      intros _. by apply list_elem_of_singleton. }
    split.
    + intros Hdest. rewrite <- Hsrc. split; [intros _; by apply Hin|].
      intros Hn. destruct Hn. by apply Hflag.
    + intros n r Hb. inversion Hb as [|? ? ? es' _ Hr' Hn Hv _]; subst.
      rewrite Er in Hr'. simplify_eq. destruct (Hall n Hn Hv) as (m & Hi & Hm).
      eexists. split; [apply elem_of_app; by left|]. by apply flagged_child.
  - destruct (append_path _ _); [|done]. intros [= <- <-]. split.
    + intros _. rewrite <- Hsrc. split; [intros Hd%Hflag; done|].
      intros _. by apply list_elem_of_singleton.
    + intros n r Hb. inversion Hb as [|? ? ? ? Hd]; subst. apply Hflag in Hd. done.
Qed.

Lemma archived_mono names outs outs1 outs2 :
  archived names outs → archived names (outs1 ++ outs ++ outs2).
Proof.
  intros Ha Hd. destruct (Ha Hd) as [H1 H2].
  split; intros Hn; apply elem_of_app; right; apply elem_of_app; left; auto.
Qed.

Lemma finishes_archives stack outs :
  finishes stack outs →
  ∀ it p r, it ∈ stack → flagged it p → below p r → archived (p ++ r) outs.
Proof.
  induction 1 as [|it rest out stack outs Hs _ IH]; intros i p r Hi Hf Hb.
  { by apply elem_of_nil in Hi. }
  pose proof (archive_step_stack _ _ _ _ Hs) as (new & -> & _ & _).
  apply elem_of_cons in Hi as [->|Hi].
  - destruct (step_archives it rest out (new ++ rest) p Hf Hs) as [Ha Hch].
    destruct r as [|n r].
    + rewrite app_nil_r. by apply (archived_mono p out [] outs).
    + destruct (Hch n r Hb) as (j & Hj & Hfj).
      inversion Hb as [|? ? ? ? _ _ _ _ Hb']; subst.
      pose proof (IH j (p ++ [n]) r Hj Hfj Hb') as Ha'. rewrite <- app_assoc in Ha'. simpl in Ha'.
      rewrite <- (app_nil_r outs). by apply archived_mono.
  - rewrite <- (app_nil_r outs). apply archived_mono.
    eapply IH; [|exact Hf|exact Hb]. apply elem_of_app. by right.
Qed.

Lemma finishes_loop stack outs :
  finishes stack outs → ∃ n, ∀ m, n ≤ m → archive_loop m path src_path follow hidden stack = outs.
Proof.
  induction 1 as [|it rest out stack outs Hs _ [n IH]].
  - exists 0. intros m _. by destruct m.
  - exists (S n). intros [|m] Hm; [lia|]. simpl. rewrite Hs. f_equal. apply IH. lia.
Qed.
End Walk.

(** C16. An archive download always ends: on every file tree, links to ancestors and cycles of
    links included, whatever the switches say and whatever the tar builder refuses, there is a
    number of rounds after which the walk has stopped and nothing more is written.  (Each name on
    the stack goes one level down a finite tree or spends one of the forty links the system
    follows.) *)
Theorem archive_terminates (append_dir append_path : Path.t → Path.t → bool) (fs : Fs.t)
    (path src_path : Path.t) (follow hidden : bool) :
  sn (round append_dir append_path fs path src_path follow hidden) [(src_path, true, false)] ∧
  ∃ n, ∀ m, n ≤ m →
    Download.archive append_dir append_path fs m path src_path follow hidden
    = Download.archive append_dir append_path fs n path src_path follow hidden.
Proof. split; [apply round_sn | apply archive_loop_stable]. Qed.

(** C29. A walk that no error cuts short archives the whole visible tree: every entry that is
    reached from the requested directory through listed, visible names, descending into
    directories and, if links are followed, into links to directories, is written under the
    archive's name — as a directory if it is descended into, else as a file or link — and what is
    written is what the loop gives with enough rounds. *)
Theorem archive_complete (append_dir append_path : Path.t → Path.t → bool) (fs : Fs.t)
    (path src_path : Path.t) (follow hidden : bool) (outs : list Download.TarEntry)
    (names : list string)
    (Hfin : finishes append_dir append_path fs path src_path follow hidden
              [(src_path, true, false)] outs)
    (Htree : below fs src_path follow hidden [] names) :
  archived fs path src_path follow names outs ∧
  ∃ n, ∀ m, n ≤ m →
    Download.archive append_dir append_path fs m path src_path follow hidden = outs.
Proof.
  split; [|by eapply finishes_loop].
  eapply (finishes_archives _ _ _ _ _ _ _ _ _ Hfin (src_path, true, false) [] names);
    [by left| |done].
  split_and!; simpl; [by rewrite app_nil_r| |by left]. split; [intros _; by left|done].
Qed.

Lemma archive_complete_witness :
  Download.TarPath (Path.parse "docs/x") (Path.parse "/srv/www/docs/x")
    ∈ Download.archive (λ _ _, true) (λ _ _, true) FsRef.fs 2 (Path.parse "docs")
        (Path.parse "/srv/www/docs") false true.
Proof.
  destruct (archive_complete (λ _ _, true) (λ _ _, true) FsRef.fs (Path.parse "docs")
    (Path.parse "/srv/www/docs") false true
    [Download.TarDir (Path.parse "docs") (Path.parse "/srv/www/docs");
     Download.TarPath (Path.parse "docs/x") (Path.parse "/srv/www/docs/x")] ["x"])
    as [Ha _].
  - apply (finishes_round _ _ _ _ _ _ _ _ _ [Download.TarDir (Path.parse "docs") (Path.parse "/srv/www/docs")]
      [(Path.parse "/srv/www/docs/x", false, false)]); [vm_compute; reflexivity|].
    apply (finishes_round _ _ _ _ _ _ _ _ _ [Download.TarPath (Path.parse "docs/x") (Path.parse "/srv/www/docs/x")]
      []); [vm_compute; reflexivity|]. constructor.
  - eapply (below_cons _ _ _ _ _ "x" [] ["x"]);
      [by left | vm_compute; reflexivity | by left | reflexivity | constructor].
  - destruct (Ha ltac:(discriminate)) as [_ Hp].
    assert (¬ descended FsRef.fs (Path.parse "/srv/www/docs") false ["x"]) as Hn.
    { intros [?|(m & Hm & Hd)]; [discriminate|].
      assert (Fs.symlink_metadata FsRef.fs (Path.parse "/srv/www/docs" ++ normals ["x"])
              = Ok (mkMetadata 1 false true false (Some 1000000000%Z) 4096)) as Hm'
        by (vm_compute; reflexivity).
      rewrite Hm' in Hm. injection Hm as <-. discriminate Hd. }
    vm_compute. right. left.
Defined.
