(* ===== verification/UnitTests.v ===== *)
(** The unit tests of the sources, run against the definitions: access control, the pages, metrics,
    paths.

    A test is the body of a [#[test]] function as a computation that may panic: [Some ()] is a test
    that passes.  The tests are stated for any libraries, as the program is, and run with those of
    [TestLib]: the reference ones, with base64 credentials, a bcrypt that knows the hash of the
    tests, and the regular expressions of the tests. *)
From Stdlib Require Import ZArith Lia Ascii String.
From stdpp Require Import base list strings gmap.
From coqutil Require Import Datatypes.RecordSetters.
Import DoubleBraceUpdate.
From S2P Require Import Prelude Http Libs RefLibs Path Fs Quality Opts Pages Compression Cors Policies Metrics.
Local Open Scope string_scope.
Local Open Scope list_scope.
Local Open Scope nat_scope.

(** * Tests *)

Abbreviation test := (option ()).

(** [assert!], [assert_eq!] and [assert_ne!]. *)
Definition assert (b : bool) : test := if b then Some () else None.
Definition assert_eq `{EqDecision A} (x y : A) : test := assert (bool_decide (x = y)).
Definition assert_ne `{EqDecision A} (x y : A) : test := assert (negb (bool_decide (x = y))).

(** [for x in l { body(x) }]. *)
Definition each {A} (body : A → test) (l : list A) : test :=
  foldr (λ x rest, body x ;; rest) (Some ()) l.

(** [is_none] and [is_some]. *)
Definition is_none {A} (x : option A) : bool := match x with None => true | Some _ => false end.
Definition is_some {A} (x : option A) : bool := negb (is_none x).

(** [Request::builder()] with headers, a method and a URI, [body(Body::empty()).unwrap()]. *)
Definition builder `{HttpLib} (headers : list (string * string)) (method uri : string)
    : option Request :=
  if method_valid method && forallb (λ kv, hname_valid kv.1 && hv_valid kv.2) headers
  then (λ u, mkRequest method u
               (hm_insert_all ((λ kv, (Str.to_ascii_lowercase kv.1, kv.2)) <$> headers) hm_empty)
               BodyEmpty) <$> uri_parse uri
  else None.

(** [Response::new(Body::empty())] and [Response::builder().body(Body::empty())]. *)
Definition empty_response `{HttpLib} : Response := resp_new BodyEmpty.

(** The status of a response a stage answered with. *)
Definition answered_status `{HttpLib} (x : option (result error Response)) : option Z :=
  match x with Some (Ok response) => Some (rs_status response) | _ => None end.

(** * The libraries of the tests *)

Module TestLib.
Definition alphabet : string := "ABCDEFGHIJKLMNOPQRSTUVWXYZabcdefghijklmnopqrstuvwxyz0123456789+/".

Definition sextet (c : ascii) : option nat := String.index 0 (String c "") alphabet.

(** Base64 with padding, four characters at a time. *)
Fixpoint base64 (s : string) : option string :=
  match s with
  | "" => Some ""
  | String a (String b (String c (String d s'))) =>
      x ← sextet a; y ← sextet b;
      let n1 := ascii_of_nat (4 * x + y / 16) in
      if Ascii.eqb c "="
      then if Ascii.eqb d "=" && Str.is_empty s' then Some (String n1 "") else None
      else
        z ← sextet c;
        let n2 := ascii_of_nat (16 * (y mod 16) + z / 4) in
        if Ascii.eqb d "="
        then if Str.is_empty s' then Some (String n1 (String n2 "")) else None
        else
          w ← sextet d; rest ← base64 s';
          Some (String n1 (String n2 (String (ascii_of_nat (64 * (z mod 4) + w)) rest)))
  | _ => None
  end.

Definition basic (h : @HeaderMap ref_http) : option (string * string) :=
  v ← hm_get "authorization" h; c ← Str.strip_prefix "Basic " v; s ← base64 c;
  Str.split_once ":" s.

(** The bcrypt hash of [jq] the tests use. *)
Definition jq_hash : string := "$2y$05$32zazJ1yzhlDHnt26L3MFOgY0HVqPmDUvG0KUx6cjf9RDiUGp/M9q".
Definition verify (password hash : string) : result error bool :=
  if String.eqb hash jq_hash then Ok (String.eqb password "jq") else Err ["invalid hash"].

Definition headers_lib : HeadersLib := {|
  enc_content_length := @enc_content_length _ _ ref_headers_lib;
  enc_last_modified := @enc_last_modified _ _ ref_headers_lib;
  enc_accept_ranges_bytes := @enc_accept_ranges_bytes _ _ ref_headers_lib;
  enc_allow := @enc_allow _ _ ref_headers_lib;
  enc_content_range := @enc_content_range _ _ ref_headers_lib;
  enc_content_range_unsatisfied := @enc_content_range_unsatisfied _ _ ref_headers_lib;
  enc_comma_list := @enc_comma_list _ _ ref_headers_lib;
  http_date := @http_date _ _ ref_headers_lib;
  get_if_modified_since := @get_if_modified_since _ _ ref_headers_lib;
  get_if_unmodified_since := @get_if_unmodified_since _ _ ref_headers_lib;
  IfRange := @IfRange _ _ ref_headers_lib;
  get_if_range := @get_if_range _ _ ref_headers_lib;
  get_range := @get_range _ _ ref_headers_lib;
  get_authorization_basic := basic;
  get_host_hostname := @get_host_hostname _ _ ref_headers_lib;
  get_content_type := @get_content_type _ _ ref_headers_lib;
  since_is_modified := @since_is_modified _ _ ref_headers_lib;
  precondition_passes := @precondition_passes _ _ ref_headers_lib;
  if_range_is_modified := @if_range_is_modified _ _ ref_headers_lib;
  origin_try_from_parts := @origin_try_from_parts _ _ ref_headers_lib;
|}.
Definition codec_lib : CodecLib := {|
  percent_decode := @percent_decode ref_codec;
  form_parse := @form_parse ref_codec;
  form_byte_serialize := @form_byte_serialize ref_codec;
  bcrypt_verify := verify;
  maud_render := @maud_render ref_codec;
  percent_encode := @percent_encode ref_codec;
  json_to_string := @json_to_string ref_codec;
  str_to_lowercase := @str_to_lowercase ref_codec;
  format_local := @format_local ref_codec;
  format_utc := @format_utc ref_codec;
|}.
End TestLib.

(** * [basic_auth.rs] *)

Module BasicAuthTests.
Section Tests.
Context `{HeadersLib, CodecLib, GlobLib, RegexLib}.
Context (fs : Fs.t).

Definition make_request (method auth_header : string) : option Request :=
  builder (if negb (Str.is_empty auth_header) then [("Authorization", auth_header)] else []) method "/".

Definition is_401 (x : option (result error Response)) : bool :=
  match x with
  | Some (Ok response) =>
      (rs_status response =? 401)%Z && is_some (rs_get "www-authenticate" response)
  | _ => false
  end.

Definition is_500 (x : option (result error Response)) : bool :=
  match x with Some (Ok response) => (rs_status response =? 500)%Z | _ => false end.

(** [pre_process] of the options with these credentials. *)
Definition pre_process (credentials method auth_header : string)
    : option (option (result error Response)) :=
  BasicAuth.pre_process fs (RequestHandlerOpts_default {{ basic_auth := credentials }})
    <$> make_request method auth_header.

(** [headers.insert("Authorization", text.parse().unwrap())]. *)
Definition auth_headers (text : string) : option HeaderMap :=
  (λ v, hm_insert "authorization" v hm_empty) <$> hv_from_str text.

Definition test_auth_disabled : test :=
  r ← pre_process "" "GET" "Basic anE6anE="; assert (is_none r).

Definition test_invalid_auth_configuration : test :=
  r ← pre_process "xyz" "GET" "Basic anE6anE="; assert (is_500 r).

Definition test_options_request : test :=
  r ← pre_process ("jq:" +:+ TestLib.jq_hash) "OPTIONS" ""; assert (is_none r).

Definition test_valid_auth : test :=
  headers ← auth_headers "Basic anE6anE=";
  assert (Res.is_ok (BasicAuth.check_request headers "jq" TestLib.jq_hash)) ;;
  r ← pre_process ("jq:" +:+ TestLib.jq_hash) "GET" "Basic anE6anE="; assert (is_none r).

Definition test_invalid_auth_header : test :=
  assert (negb (Res.is_ok (BasicAuth.check_request hm_empty "jq" ""))) ;;
  r ← pre_process "jq:" "GET" ""; assert (is_401 r).

Definition test_invalid_auth_pairs : test :=
  headers ← auth_headers "Basic anE6anE=";
  assert (negb (Res.is_ok (BasicAuth.check_request headers "xyz" ""))) ;;
  r ← pre_process "xyz:" "GET" "Basic anE6anE="; assert (is_401 r).

Definition test_invalid_auth : test :=
  headers ← auth_headers "Basic anE6anE=";
  assert (negb (Res.is_ok (BasicAuth.check_request headers "abc" TestLib.jq_hash))) ;;
  assert (negb (Res.is_ok (BasicAuth.check_request headers "jq" "password"))) ;;
  assert (negb (Res.is_ok (BasicAuth.check_request headers "" "password"))) ;;
  assert (negb (Res.is_ok (BasicAuth.check_request headers "jq" ""))) ;;
  each (λ credentials, r ← pre_process credentials "GET" "Basic anE6anE="; assert (is_401 r))
    ["abc:" +:+ TestLib.jq_hash; "jq:password"; ":password"; "jq:"].

Definition test_invalid_auth_encoding : test :=
  headers ← auth_headers "Basic xyz";
  assert (negb (Res.is_ok (BasicAuth.check_request headers "jq" TestLib.jq_hash))) ;;
  r ← pre_process ("jq:" +:+ TestLib.jq_hash) "GET" "Basic xyz"; assert (is_401 r).

Definition test_invalid_auth_encoding2 : test :=
  headers ← auth_headers "abcd";
  assert (negb (Res.is_ok (BasicAuth.check_request headers "jq" TestLib.jq_hash))) ;;
  r ← pre_process ("jq:" +:+ TestLib.jq_hash) "GET" "abcd"; assert (is_401 r).

Definition tests : list test :=
  [test_auth_disabled; test_invalid_auth_configuration; test_options_request; test_valid_auth;
   test_invalid_auth_header; test_invalid_auth_pairs; test_invalid_auth;
   test_invalid_auth_encoding; test_invalid_auth_encoding2].
End Tests.
End BasicAuthTests.

(** * [control_headers.rs] *)

Module ControlHeadersTests.
Section Tests.
Context `{HttpLib}.

(** The response after [append_headers] answers 200 with the [max-age]. *)
Definition check_max_age (max_age : Z) (resp : Response) : test :=
  cache_control ← rs_get "cache-control" resp;
  assert_eq (rs_status resp) 200%Z ;;
  text ← hv_to_str cache_control;
  assert_eq text ("max-age=" +:+ Str.of_uint max_age).

(** The loop over the extensions: one response gets all the headers. *)
Fixpoint extensions (max_age : Z) (l : list string) (resp : Response) : test :=
  match l with
  | [] => Some ()
  | ext :: l' =>
      let resp := ControlHeaders.append_headers ("/some." +:+ ext) resp in
      check_max_age max_age resp ;; extensions max_age l' resp
  end.

Definition headers_one_hour : test :=
  extensions ControlHeaders.MAX_AGE_ONE_HOUR ControlHeaders.CACHE_EXT_ONE_HOUR
    (set_status 200 empty_response).

Definition headers_one_day_default : test :=
  check_max_age ControlHeaders.MAX_AGE_ONE_DAY
    (ControlHeaders.append_headers "/" (set_status 200 empty_response)).

Definition headers_one_year : test :=
  extensions ControlHeaders.MAX_AGE_ONE_YEAR ControlHeaders.CACHE_EXT_ONE_YEAR
    (set_status 200 empty_response).

Definition find_uri_extension : test :=
  assert_eq (ControlHeaders.get_file_extension "/potato.zip") (Some "zip") ;;
  assert_eq (ControlHeaders.get_file_extension "/potato.") (Some "") ;;
  assert_eq (ControlHeaders.get_file_extension "/") None.

Definition tests : list test :=
  [headers_one_hour; headers_one_day_default; headers_one_year; find_uri_extension].
End Tests.
End ControlHeadersTests.

(** * [cors.rs] *)

Module CorsTests.
Section Tests.
Context `{HeadersLib, CodecLib, GlobLib, RegexLib}.
Context (order : gset string → list string) (fs : Fs.t).

Definition make_request (method origin : string) : option Request :=
  builder (if negb (Str.is_empty origin) then [("Origin", origin)] else []) method "/".

(** The chain of the builder; its setters panic on an illegal name. *)
Definition make_cors_config : option (option Configured) :=
  c ← Res.ok (CorsConfig.allow_origins ["https://example.com/"] CorsConfig.empty);
  c ← Res.ok (CorsConfig.allow_headers ["X-Allowed"] c);
  c ← Res.ok (CorsConfig.allow_methods ["GET"; "HEAD"] c);
  Some (CorsConfig.build order (Some c)).

Definition get_allowed_origin (resp : Response) : option string :=
  rs_get "access-control-allow-origin" resp ≫= hv_to_str.

Definition is_403 (x : option (result error Response)) : bool :=
  bool_decide (answered_status x = Some 403%Z).

Definition opts (c : option Configured) : RequestHandlerOpts :=
  RequestHandlerOpts_default {{ cors := c }}.

(** [req.headers_mut().insert(name, value)] for each pair. *)
Definition with_headers (l : list (string * string)) (req : Request) : Request :=
  mkRequest (rq_method req) (rq_uri req) (hm_insert_all l (rq_headers req)) (rq_body req).

(** A request that passes, and the origin its answer allows. *)
Definition passes (o : RequestHandlerOpts) (req : Request) (allowed : option string) : test :=
  assert (is_none (CorsCheck.pre_process fs o req)) ;;
  resp ← Res.ok (CorsCheck.post_process o req empty_response);
  assert_eq (get_allowed_origin resp) allowed.

Definition test_cors_disabled : test :=
  req ← make_request "GET" "https://example.com/"; passes (opts None) req None.

Definition test_non_cors_request : test :=
  c ← make_cors_config; req ← make_request "GET" ""; passes (opts c) req None.

Definition test_forbidden_request : test :=
  c ← make_cors_config;
  req ← make_request "GET" "https://example.info";
  assert (is_403 (CorsCheck.pre_process fs (opts c) req)) ;;
  req ← make_request "OPTIONS" "https://example.com";
  assert (is_403 (CorsCheck.pre_process fs (opts c) req)) ;;
  assert (is_403 (CorsCheck.pre_process fs (opts c)
    (with_headers [("access-control-request-method", "POST")] req))) ;;
  assert (is_403 (CorsCheck.pre_process fs (opts c)
    (with_headers [("access-control-request-method", "GET");
                   ("access-control-request-headers", "X-Forbidden")] req))).

Definition test_allowed_request : test :=
  c ← make_cors_config;
  req ← make_request "GET" "https://example.com";
  passes (opts c) req (Some "https://example.com") ;;
  passes (opts c) (with_headers [("access-control-request-method", "GET");
                                 ("access-control-request-headers", "X-Allowed")] req)
    (Some "https://example.com").

Definition tests : list test :=
  [test_cors_disabled; test_non_cors_request; test_forbidden_request; test_allowed_request].
End Tests.
End CorsTests.

(** * [fallback_page.rs], [maintenance_mode.rs] and [health.rs] *)

Module FallbackPageTests.
Section Tests.
Context `{HeadersLib, CodecLib, GlobLib, RegexLib}.
Context (fs : Fs.t).

Definition make_request (method : string) : option Request := builder [] method "/".

Definition make_response (status : Z) : option Response :=
  uri ← uri_parse "/";
  Res.ok (ErrorPage.error_response fs uri "GET" status (Path.parse "") (Path.parse "")).

(** The response to a request with this method, with this fallback page. *)
Definition answer (page_fallback' method : string) (status : Z) : option Response :=
  req ← make_request method; resp ← make_response status;
  Res.ok (FallbackPage.post_process (RequestHandlerOpts_default {{ page_fallback := page_fallback' }})
            req resp).

(** [.get("Content-Length").map(|v| v.to_str().unwrap()).unwrap_or("3")]. *)
Definition content_length (resp : Response) : option string :=
  match rs_get "content-length" resp with Some v => hv_to_str v | None => Some "3" end.

Definition page : string := Str.bytes [1; 2; 3].

Definition test_success_code : test :=
  resp ← answer page "GET" 200; assert_eq (rs_status resp) 200%Z ;;
  n ← content_length resp; assert_ne n "3".

Definition test_wrong_error : test :=
  resp ← answer page "GET" 500; assert_eq (rs_status resp) 500%Z ;;
  n ← content_length resp; assert_ne n "3".

Definition test_wrong_method : test :=
  resp ← answer page "POST" 404; assert_eq (rs_status resp) 404%Z ;;
  n ← content_length resp; assert_ne n "3".

Definition test_unconfigured : test :=
  resp ← answer "" "GET" 404; assert_eq (rs_status resp) 404%Z.

Definition test_fallback : test :=
  resp ← answer page "GET" 404; assert_eq (rs_status resp) 200%Z ;;
  n ← content_length resp; assert_eq n "3".

Definition tests : list test :=
  [test_success_code; test_wrong_error; test_wrong_method; test_unconfigured; test_fallback].
End Tests.
End FallbackPageTests.

Module MaintenanceTests.
Section Tests.
Context `{HeadersLib, CodecLib, GlobLib, RegexLib}.
Context (fs : Fs.t).

Definition make_request : option Request := builder [] "GET" "/".

Definition test_maintenance_disabled : test :=
  req ← make_request;
  assert (is_none (Maintenance.pre_process fs
    (RequestHandlerOpts_default {{ maintenance_mode := false }}) req)).

Definition test_maintenance_default : test :=
  req ← make_request;
  assert_eq (answered_status (Maintenance.pre_process fs
    (RequestHandlerOpts_default {{ maintenance_mode := true }}) req)) (Some 503%Z).

Definition test_maintenance_custom_status : test :=
  req ← make_request;
  assert_eq (answered_status (Maintenance.pre_process fs
    (RequestHandlerOpts_default {{ maintenance_mode := true; maintenance_mode_status := 418%Z }})
    req)) (Some 418%Z).

Definition tests : list test :=
  [test_maintenance_disabled; test_maintenance_default; test_maintenance_custom_status].
End Tests.
End MaintenanceTests.

Module HealthTests.
Section Tests.
Context `{HeadersLib, GlobLib, RegexLib}.

(** [make_request] and [pre_process]. *)
Definition pre_process (enabled : bool) (method uri : string)
    : option (option (result error Response)) :=
  Health.pre_process (RequestHandlerOpts_default {{ health := enabled }}) <$> builder [] method uri.

Definition test_health_disabled : test :=
  r ← pre_process false "GET" "/health"; assert (is_none r).
Definition test_wrong_uri : test :=
  r ← pre_process true "GET" "/health2"; assert (is_none r).
Definition test_wrong_method : test :=
  r ← pre_process true "POST" "/health"; assert (is_none r).
Definition test_correct_request : test :=
  r ← pre_process true "GET" "/health"; assert (is_some r).

Definition tests : list test :=
  [test_health_disabled; test_wrong_uri; test_wrong_method; test_correct_request].
End Tests.
End HealthTests.

(** * [metrics.rs] *)

Module MetricsTests.
Section Tests.
Context `{HeadersLib, GlobLib, RegexLib}.
Context (encode_text : MetricsState → string).

Definition make_request (method uri : string) : option Request := builder [] method uri.

(** [pre_process], with no sample recorded. *)
Definition pre_process (enabled : bool) (method uri : string)
    : option (option (result error Response)) :=
  (λ req, Metrics.pre_process encode_text (RequestHandlerOpts_default {{ metrics_enabled := enabled }})
            req Metrics.empty) <$> make_request method uri.

Definition test_metrics_disabled : test :=
  r ← pre_process false "GET" "/metrics"; assert (is_none r).
Definition test_wrong_uri : test :=
  r ← pre_process true "GET" "/metrics2"; assert (is_none r).
Definition test_wrong_method : test :=
  r ← pre_process true "POST" "/metrics"; assert (is_none r).
Definition test_correct_request : test :=
  r ← pre_process true "GET" "/metrics"; assert (is_some r).

Definition test_status_class : test :=
  each (λ '(code, class), assert_eq (Metrics.status_class code) class)
    [(100, "1xx"); (200, "2xx"); (301, "3xx"); (404, "4xx"); (500, "5xx"); (999, "5xx")]%Z.

(** [with_label_values(labels).get()]. *)
Definition value (l : Labels) (c : gmap Labels Z) : Z := default 0%Z (c !! l).

(** The tests of the collectors start from whatever the others left there. *)
Definition test_record_request (m : MetricsState) : test :=
  let l := ("GET", "2xx", "example.com") in
  req ← builder [("Host", "example.com")] "GET" "/index.html";
  let m' := Metrics.record_request req 200 1024 5000000 m in
  assert_eq (value l (requests_total m')) (wrap64 (value l (requests_total m) + 1)) ;;
  assert_eq (value l (response_bytes_total m')) (wrap64 (value l (response_bytes_total m) + 1024)).

Definition test_record_request_skips_metrics_path (m : MetricsState) : test :=
  let l := ("GET", "2xx", "") in
  req ← make_request "GET" "/metrics";
  let m' := Metrics.record_request req 200 0 1000000 m in
  assert_eq (value l (requests_total m')) (value l (requests_total m)).

Definition test_connection_gauge (m : MetricsState) : test :=
  let m1 := Metrics.inc_connections m in
  assert_eq (connections_active m1) (connections_active m + 1)%Z ;;
  assert_eq (connections_active (Metrics.dec_connections m1)) (connections_active m).

Definition test_inflight_gauge (m : MetricsState) : test :=
  let m1 := Metrics.inc_requests_inflight m in
  assert_eq (requests_inflight m1) (requests_inflight m + 1)%Z ;;
  assert_eq (requests_inflight (Metrics.dec_requests_inflight m1)) (requests_inflight m).

Definition tests : list test :=
  [test_metrics_disabled; test_wrong_uri; test_wrong_method; test_correct_request; test_status_class].
Definition state_tests (m : MetricsState) : list test :=
  [test_record_request m; test_record_request_skips_metrics_path m; test_connection_gauge m;
   test_inflight_gauge m].
End Tests.
End MetricsTests.

(** * [markdown.rs] and [fs/path.rs] *)

Module MarkdownTests.
Section Tests.
Context `{HeadersLib, GlobLib, RegexLib}.
Context (fs : Fs.t).

Definition pre_process (headers : list (string * string)) : test :=
  req ← builder headers "GET" "/test";
  assert (is_none (Markdown.pre_process fs req (Path.parse "/tmp") "/test")).

Definition test_no_accept_header : test := pre_process [].
Definition test_accepts_html_only : test := pre_process [("Accept", "text/html")].
Definition test_accepts_markdown_no_file : test := pre_process [("Accept", "text/markdown")].

Definition tests : list test :=
  [test_no_accept_header; test_accepts_html_only; test_accepts_markdown_no_file].
End Tests.
End MarkdownTests.

Module PathTests.
Section Tests.
Context `{CodecLib}.

Definition root_dir : Path.t := Path.parse "docker/public/".

Definition test_sanitize_path : test :=
  let base_dir := Path.parse "docker/public" in
  each (λ '(tail, expected),
      path ← Res.ok (PathExt.sanitize_path base_dir tail);
      assert_eq path (Path.push root_dir (Path.parse expected)))
    [("/index.html", "index.html"); ("/../foo.html", "foo.html");
     ("/../W�foo.html", "W�foo.html"); ("/%EF%BF%BD/../bar.html", "�/bar.html");
     ("àí/é%20/öüñ", "àí/é /öüñ"); ("/C:\/foo.html", "C:\/foo.html")].
End Tests.

Section Links.
Context (fs : Fs.t).

Definition base : Path.t := Path.parse "tests/fixtures/public".

Definition test_contains_symlink_returns_false : test :=
  contains ← Res.ok (PathExt.contains_symlink fs (Path.parse "./index.htm") base);
  assert (negb contains).

Definition test_contains_symlink_returns_true : test :=
  contains ← Res.ok (PathExt.contains_symlink fs (Path.parse "./readme.md") base);
  assert contains.

Definition test_contains_symlink_returns_error : test :=
  match PathExt.contains_symlink fs (Path.parse "./unknown_file.txt") base with
  | Ok _ => None
  | Err err => assert (Str.contains "unable to get metadata for path" (default "" (head err)))
  end.

Definition link_tests : list test :=
  [test_contains_symlink_returns_false; test_contains_symlink_returns_true;
   test_contains_symlink_returns_error].
End Links.
End PathTests.

(** * They pass *)

Module Fixtures.
(** Of [tests/fixtures/public] what the tests look at: a file, and a symbolic link. *)
Definition fs : Fs.t := Fs.mkFs
  (list_to_map
     [(["repo"], NDir ["README.md"; "tests"] (Some 0%Z) true);
      (["repo"; "README.md"], NFile "# WeaveGate" (Some 0%Z) true);
      (["repo"; "tests"], NDir ["fixtures"] (Some 0%Z) true);
      (["repo"; "tests"; "fixtures"], NDir ["public"] (Some 0%Z) true);
      (["repo"; "tests"; "fixtures"; "public"], NDir ["index.htm"; "readme.md"] (Some 0%Z) true);
      (["repo"; "tests"; "fixtures"; "public"; "index.htm"], NFile "<html></html>" (Some 0%Z) true);
      (["repo"; "tests"; "fixtures"; "public"; "readme.md"], NLink "../../../README.md" (Some 0%Z))])
  ["repo"] 4096.
End Fixtures.

Abbreviation pass := (Forall (λ t : test, t = Some ())).

#[local] Existing Instance TestLib.headers_lib | 0.
#[local] Existing Instance TestLib.codec_lib | 0.

(** The tests of access control and of the policies. *)
Lemma policy_tests_pass :
  pass (BasicAuthTests.tests Fixtures.fs ++ ControlHeadersTests.tests ++
        CorsTests.tests elements Fixtures.fs).
Proof. by vm_compute; repeat constructor. Qed.

(** The tests of the pages the server answers itself, and of the endpoints. *)
Lemma page_tests_pass :
  pass (FallbackPageTests.tests Fixtures.fs ++ MaintenanceTests.tests Fixtures.fs ++
        HealthTests.tests ++ MetricsTests.tests (λ _, "") ++ MarkdownTests.tests Fixtures.fs).
Proof. by vm_compute; repeat constructor. Qed.

(** The tests of paths. *)
Lemma path_tests_pass : pass (PathTests.test_sanitize_path :: PathTests.link_tests Fixtures.fs).
Proof. by vm_compute; repeat constructor. Qed.

(** The tests of the collectors, whatever was counted before. *)
Lemma metrics_tests_pass (m : MetricsState) : pass (MetricsTests.state_tests m).
Proof.
  assert (∀ A `{EqDecision A} (x : A), assert_eq x x = Some ()) as Heq
    by (intros A ? x; unfold assert_eq; by rewrite bool_decide_true).
  repeat constructor.
  - unfold MetricsTests.test_record_request.
    destruct (builder [("Host", "example.com")] "GET" "/index.html") as [req|] eqn:E; [|discriminate E].
    injection E as <-. cbn [mbind option_bind].
    unfold MetricsTests.value. cbn -[wrap64 lookup insert].
    unfold Metrics.inc_by. rewrite !lookup_insert_eq. cbn [default from_option id].
    by rewrite !Heq.
  - unfold MetricsTests.test_record_request_skips_metrics_path, MetricsTests.make_request.
    destruct (builder [] "GET" "/metrics") as [req|] eqn:E; [|discriminate E].
    injection E as <-. cbn [mbind option_bind]. apply Heq.
  - unfold MetricsTests.test_connection_gauge. cbv zeta. destruct m as [t d b i k]. cbn -[Z.add].
    replace (-1 + (1 + k))%Z with k by lia. by rewrite (Z.add_comm 1 k), !Heq.
  - unfold MetricsTests.test_inflight_gauge. cbv zeta. destruct m as [t d b i k]. cbn -[Z.add].
    replace (-1 + (1 + i))%Z with i by lia. by rewrite (Z.add_comm 1 i), !Heq.
Qed.
