(* ===== verification/UnitTestsRouting.v ===== *)
(** The unit tests of the sources, run against the definitions: content negotiation, listings,
    redirects, rewrites, virtual hosts and the proxy.  [UnitTests] says what a test is. *)
From Stdlib Require Import ZArith Lia Ascii String.
From stdpp Require Import base list strings gmap.
From coqutil Require Import Datatypes.RecordSetters.
Import DoubleBraceUpdate.
From S2P Require Import Prelude Http Libs RefLibs Path Fs Quality Opts Pages Compression DirListing Routing.
From S2P Require Import Balancer Proxy Cors Policies Metrics UnitTests.
Local Open Scope string_scope.
Local Open Scope list_scope.
Local Open Scope nat_scope.

(** * The regular expressions of the tests *)

Module TestRegex.
Inductive t := Lit (s : string) | Any | End | Opt (r : t) | Group (i : nat) (r : t) | Seq (r1 r2 : t).

Abbreviation caps := (list (nat * string)).

(** A backtracking matcher: [k] is what is left to match. *)
Fixpoint match_at (r : t) (s : string) (c : caps) (k : string → caps → option caps) : option caps :=
  match r with
  | Lit l => s' ← Str.strip_prefix l s; k s' c
  | Any => (fix go s := match match s with "" => None | String _ s' => go s' end with
                        | Some x => Some x
                        | None => k s c
                        end) s
  | End => if Str.is_empty s then k s c else None
  | Opt r => match match_at r s c k with Some x => Some x | None => k s c end
  | Group i r =>
      match_at r s c
        (λ s' c', k s' ((i, Stream.str_take (String.length s - String.length s') s) :: c'))
  | Seq r1 r2 => match_at r1 s c (λ s' c', match_at r2 s' c' k)
  end.

(** The leftmost match, as group 0. *)
Fixpoint search (r : t) (s : string) : option caps :=
  match match_at (Group 0 r) s [] (λ _ c, Some c) with
  | Some c => Some c
  | None => match s with "" => None | String _ s' => search r s' end
  end.

Definition group (c : caps) (i : nat) : option string := snd <$> List.find (λ p, Nat.eqb p.1 i) c.

(** The patterns, with their numbers of groups. *)
Definition compile (s : string) : option (t * nat) :=
  if String.eqb s "/source1$" then Some (Seq (Lit "/source1") End, 0)
  else if String.eqb s "/source2$" then Some (Seq (Lit "/source2") End, 0)
  else if String.eqb s "/(prefix/)?(source3)/(.*)"
  then Some (Seq (Lit "/") (Seq (Opt (Group 1 (Lit "prefix/")))
               (Seq (Group 2 (Lit "source3")) (Seq (Lit "/") (Group 3 Any)))), 3)
  else if String.eqb s "/(source4)/(.*)"
  then Some (Seq (Lit "/") (Seq (Group 1 (Lit "source4")) (Seq (Lit "/") (Group 2 Any))), 2)
  else None.

Definition lib : RegexLib := {|
  Regex := t * nat;
  regex_new := compile;
  regex_is_match r s := is_some (search r.1 s);
  regex_captures r s := (λ c, group c <$> seq 0 (S r.2)) <$> search r.1 s;
  ac_new := @ac_new ref_regex;
  ac_replace_all := @ac_replace_all ref_regex;
|}.
End TestRegex.

(** * [headers_ext/] *)

Module QualityTests.
Section Tests.
Context `{HttpLib}.

(** [HeaderValue::from_static(text)], and all that the iterator yields. *)
Definition yields (text : string) (expected : list string) : test :=
  value ← hv_from_str text; assert_eq (Quality.iter value) expected.

(** The first one is not run by the sources: it lacks the attribute. *)
Definition without_qualities : test := yields "zstd, br, gzip, deflate" ["zstd"; "br"; "gzip"; "deflate"].
Definition without_qualities_wrong_order : test :=
  yields "gzip, deflate, br, zstd" ["zstd"; "br"; "gzip"; "deflate"].
Definition honor_client_preference_order : test :=
  yields "gzip, br;q=0.5, zstd;q=0" ["gzip"; "br"; "zstd"].
Definition multiple_qualities : test := yields "gzip;q=1, br;q=0.8" ["gzip"; "br"].
Definition multiple_qualities_wrong_order : test := yields "br;q=0.8, gzip;q=1.0" ["gzip"; "br"].
Definition multiple_values : test :=
  yields "deflate, gzip;q=1, br;q=0.8" ["gzip"; "deflate"; "br"].
Definition multiple_values_whitespace : test :=
  yields "deflate  ;q=0.9, br;   q=0.001 ,gzip  ;  q=0.8" ["deflate"; "gzip"; "br"].
Definition multiple_values_wrong_order : test :=
  yields "deflate, br;q=0.8, gzip;q=1, *;q=0.1" ["gzip"; "deflate"; "br"; "*"].

Definition quality_tests : list test :=
  [without_qualities; without_qualities_wrong_order; honor_client_preference_order;
   multiple_qualities; multiple_qualities_wrong_order; multiple_values;
   multiple_values_whitespace; multiple_values_wrong_order].

(** [Accept(HeaderValue::from_static(text).into()).accepts_markdown()]. *)
Definition accepts_markdown (text : string) (expected : bool) : test :=
  accept ← hv_from_str text; assert_eq (Accept.accepts_markdown accept) expected.

Definition accepts_markdown_explicit : test := accepts_markdown "text/markdown" true.
Definition accepts_markdown_with_quality : test :=
  accepts_markdown "text/html, text/markdown;q=0.9" true.
Definition does_not_accept_markdown_wildcard : test := accepts_markdown "text/*" false.
Definition does_not_accept_markdown_any : test := accepts_markdown "*/*" false.
Definition does_not_accept_markdown_html : test :=
  accepts_markdown "text/html, application/json" false.

Definition accept_tests : list test :=
  [accepts_markdown_explicit; accepts_markdown_with_quality; does_not_accept_markdown_wildcard;
   does_not_accept_markdown_any; does_not_accept_markdown_html].

(** [from_static] of [accept_encoding.rs]. *)
Definition from_static : test :=
  value ← hv_from_str "deflate, zstd;q=0.7, gzip;q=1.0, br;q=0.9";
  assert_eq (AcceptEncoding.sorted_encodings value) [GZIP; DEFLATE; BROTLI; ZSTD].
End Tests.

(** [content_coding.rs]. *)
Definition as_str : test := assert_eq (Coding.as_str GZIP) "gzip".
Definition to_string : test := assert_eq (Coding.to_string DEFLATE) "deflate".
Definition from : test :=
  each (λ '(text, coding), assert_eq (Coding.from text) coding)
    [("br", BROTLI); ("GZIP", GZIP); ("zstd", ZSTD); ("blah blah", IDENTITY)].
Definition from_str : test :=
  each (λ '(text, coding), assert_eq (Coding.from_str text) coding)
    [("br", Some BROTLI); ("zstd", Some ZSTD); ("blah blah", None)].

Definition coding_tests : list test := [as_str; to_string; from; from_str].
End QualityTests.

(** * [mime_ext.rs], [text_charset.rs] and the sizes of a listing *)

Module MimeTests.
Section Tests.
Context `{MimeLib}.

(** [ext.parse::<Mime>().unwrap()] of each text, put to a predicate. *)
Definition all_types (predicate : Mime → bool) (expected : bool) (l : list string) : test :=
  each (λ ext, m ← mime_parse ext; assert_eq (predicate m) expected) l.

Definition test_is_text : test :=
  all_types MimeExt.is_text true MimeExt.TEXT_MIME_TYPES ;;
  all_types MimeExt.is_text true
    ["application/problem+json"; "application/problem+xml"; "application/vnd.api+json";
     "application/vnd.api+xml"; "image/svg+xml"; "text/calendar"; "text/csv"].

Definition test_is_not_text : test :=
  all_types MimeExt.is_text false
    ["application/font-woff2"; "application/octet-stream"; "application/wasm"; "font/ttf"; "image/png"].

Definition test_is_compressible : test :=
  all_types MimeExt.is_compressible true MimeExt.TEXT_MIME_TYPES ;;
  all_types MimeExt.is_compressible true MimeExt.ADDITIONAL_COMPRESSIBLE_TYPES.

Definition test_is_not_compressible : test :=
  all_types MimeExt.is_compressible false
    ["application/font-woff2"; "application/gzip"; "application/octet-stream"; "application/pdf";
     "application/zip"; "image/jpeg"; "image/png"].

Definition test_is_text_only : test :=
  all_types MimeExt.is_text_only true
    ["text/plain"; "text/csv"; "text/calendar"; "text/css"; "text/html"; "text/markdown";
     "text/plain; boundary=x; charset=utf-8"].

Definition test_is_not_text_only : test :=
  all_types MimeExt.is_text_only false
    ["application/json"; "application/problem+json"; "application/xml"; "image/svg+xml"].

Definition tests : list test :=
  [test_is_text; test_is_not_text; test_is_compressible; test_is_not_compressible;
   test_is_text_only; test_is_not_text_only].
End Tests.
End MimeTests.

Module TextCharsetTests.
Section Tests.
Context `{HeadersLib, GlobLib, RegexLib}.

Definition opts (text_charset' : bool) : RequestHandlerOpts :=
  RequestHandlerOpts_default {{ text_charset := text_charset' }}.

Definition resp_with (ct : string) : option Response :=
  (λ v, set_header "content-type" v empty_response) <$> hv_from_str ct.

Definition ct (resp : Response) : option string := rs_get "content-type" resp ≫= hv_to_str.

(** [post_process(&opts(enabled), resp_with(text)).unwrap()] has this type then. *)
Definition becomes (enabled : bool) (text expected : string) : test :=
  resp ← resp_with text; r ← Res.ok (TextCharset.post_process (opts enabled) resp);
  s ← ct r; assert_eq s expected.

Definition annotates_bare_text_type : test := becomes true "text/plain" "text/plain; charset=utf-8".
Definition annotates_text_markdown : test :=
  becomes true "text/markdown" "text/markdown; charset=utf-8".
Definition preserves_existing_charset : test :=
  becomes true "text/html; charset=iso-8859-1" "text/html; charset=iso-8859-1".
Definition preserves_charset_with_unusual_casing_and_spacing : test :=
  becomes true "text/html;CHARSET=utf-8" "text/html;CHARSET=utf-8".
Definition preserves_charset_when_not_first_param : test :=
  becomes true "text/plain; foo=bar; charset=latin1" "text/plain; foo=bar; charset=latin1".
Definition ignores_non_text_type : test := becomes true "application/json" "application/json".
Definition ignores_when_disabled : test := becomes false "text/plain" "text/plain".
Definition ignores_when_content_type_missing : test :=
  r ← Res.ok (TextCharset.post_process (opts true) empty_response);
  assert (is_none (rs_get "content-type" r)).
Definition appends_when_unrelated_param_present : test :=
  becomes true "text/plain; boundary=x" "text/plain; boundary=x; charset=utf-8".

Definition tests : list test :=
  [annotates_bare_text_type; annotates_text_markdown; preserves_existing_charset;
   preserves_charset_with_unusual_casing_and_spacing; preserves_charset_when_not_first_param;
   ignores_non_text_type; ignores_when_disabled; ignores_when_content_type_missing;
   appends_when_unrelated_param_present].
End Tests.
End TextCharsetTests.

Module FileSizeTests.
Definition handle_byte : test := assert_eq "128 B" (DirListing.format_file_size 128).
Definition handle_kibibyte : test := assert_eq "1.00 KiB" (DirListing.format_file_size 1024).
Definition handle_mebibyte : test := assert_eq "1.00 MiB" (DirListing.format_file_size 1048576).
Definition handle_gibibyte : test := assert_eq "1.00 GiB" (DirListing.format_file_size 1073741824).
Definition handle_tebibyte : test :=
  assert_eq "1.00 TiB" (DirListing.format_file_size 1099511627776).
Definition handle_pebibyte : test :=
  assert_eq "1.00 PiB" (DirListing.format_file_size 1125899906842624).
Definition handle_large : test := assert_eq "16384.00 PiB" (DirListing.format_file_size u64_max).

Definition tests : list test :=
  [handle_byte; handle_kibibyte; handle_mebibyte; handle_gibibyte; handle_tebibyte;
   handle_pebibyte; handle_large].
End FileSizeTests.

(** * [redirects.rs] and [rewrites.rs] *)

(** [make_request] of both. *)
Definition host_request `{HttpLib} (host uri : string) : option Request :=
  builder (if negb (Str.is_empty host) then [("Host", host)] else []) "GET" uri.

(** [is_redirect] of both. *)
Definition is_redirect `{HttpLib} (x : option (result error Response)) : option (Z * string) :=
  match x with
  | Some (Ok response) => (λ location, (rs_status response, location)) <$>
                            (rs_get "location" response ≫= hv_to_str)
  | _ => None
  end.

Module RedirectsTests.
Section Tests.
Context `{HeadersLib, CodecLib, GlobLib, RegexLib}.
Context (fs : Fs.t).

Definition redirect (host : option string) (source destination : string) (kind : Z)
    : option Redirects :=
  (λ r, mkRedirects host r destination kind) <$> regex_new source.

Definition get_redirects : option (list Redirects) :=
  mapM id
    [redirect None "/source1$" "/destination1" 302;
     redirect (Some "example.com") "/source2$" "/destination2" 301;
     redirect (Some "example.info") "/(prefix/)?(source3)/(.*)" "/destination3/$2/$3" 301].

Definition opts (l : option (list Redirects)) : RequestHandlerOpts :=
  RequestHandlerOpts_default {{ advanced_opts := Some (Advanced_default {{ redirects := l }}) }}.

Definition test_no_redirects : test :=
  req ← host_request "" "/";
  assert (is_none (Redirects.pre_process fs (RequestHandlerOpts_default {{ advanced_opts := None }}) req)) ;;
  assert (is_none (Redirects.pre_process fs (opts None) req)).

Definition test_no_match : test :=
  l ← get_redirects;
  req ← host_request "example.com" "/source2/whatever";
  assert (is_none (Redirects.pre_process fs (opts (Some l)) req)) ;;
  req ← host_request "" "/source2";
  assert (is_none (Redirects.pre_process fs (opts (Some l)) req)).

Definition test_match : test :=
  l ← get_redirects;
  each (λ '(host, uri, answer),
      req ← host_request host uri;
      assert_eq (is_redirect (Redirects.pre_process fs (opts (Some l)) req)) (Some answer))
    [("", "/source1", (302%Z, "/destination1")); ("example.com", "/source2", (301%Z, "/destination2"));
     ("example.info", "/source3/whatever", (301%Z, "/destination3/source3/whatever"))].

Definition tests : list test := [test_no_redirects; test_no_match; test_match].
End Tests.
End RedirectsTests.

Module RewritesTests.
Section Tests.
Context `{HeadersLib, CodecLib, GlobLib, RegexLib}.
Context (fs : Fs.t).

Definition rewrite_ (source destination : string) (redirect : option RedirectsKind)
    : option Rewrites :=
  (λ r, mkRewrites r destination redirect) <$> regex_new source.

Definition get_rewrites : option (list Rewrites) :=
  mapM id
    [rewrite_ "/source1$" "/destination1" None;
     rewrite_ "/source2$" "/destination2" (Some Temporary);
     rewrite_ "/(prefix/)?(source3)/(.*)" "/destination3/$2/$3" (Some Permanent);
     rewrite_ "/(source4)/(.*)" "http://example.net:1234/destination4/$1?$2" None].

Definition opts (l : option (list Rewrites)) : RequestHandlerOpts :=
  RequestHandlerOpts_default {{ advanced_opts := Some (Advanced_default {{ rewrites := l }}) }}.

(** A request that goes on, and its URI then. *)
Definition continues (o : RequestHandlerOpts) (host uri uri' : string) : option Request :=
  req ← host_request host uri;
  let '(x, req) := Rewrites.pre_process fs o req in
  assert (is_none x) ;; assert_eq (uri_display (rq_uri req)) uri' ;; Some req.

(** A request that is redirected. *)
Definition redirected (o : RequestHandlerOpts) (host uri : string) (answer : Z * string) : test :=
  req ← host_request host uri;
  assert_eq (is_redirect (Rewrites.pre_process fs o req).1) (Some answer).

Definition test_no_rewrites : test :=
  continues (RequestHandlerOpts_default {{ advanced_opts := None }}) "" "/" "/" ;;
  continues (opts None) "" "/" "/" ;; Some ().

Definition test_no_match : test :=
  l ← get_rewrites;
  continues (opts (Some l)) "example.com" "/source2/whatever" "/source2/whatever" ;; Some ().

Definition test_match : test :=
  l ← get_rewrites;
  continues (opts (Some l)) "" "/source1?query" "/destination1?query" ;;
  redirected (opts (Some l)) "" "/source2" (302%Z, "/destination2") ;;
  redirected (opts (Some l)) "" "/source3/whatever" (301%Z, "/destination3/source3/whatever") ;;
  req ← continues (opts (Some l)) "example.com" "/source4/whatever?query"
          "http://example.net:1234/destination4/source4?whatever";
  assert_eq (match rq_get "host" req with Some h => hv_to_str h | None => Some "" end)
    (Some "example.net:1234").

Definition tests : list test := [test_no_rewrites; test_no_match; test_match].
End Tests.
End RewritesTests.

(** * [virtual_hosts.rs] *)

Module VirtualHostTests.
Section Tests.
Context `{HttpLib, GlobLib, RegexLib}.

Definition create_vhost (host root : string) : VirtualHosts := mkVirtualHosts host (Path.parse root).

(** The root of a request for [uri] that names [host]. *)
Definition real_root (host uri : string) (vhosts : option (list VirtualHosts))
    (expected : option string) : test :=
  req ← builder [("Host", host)] "GET" uri;
  assert_eq (VirtualHost.get_real_root req vhosts) (Path.parse <$> expected).

Definition test_get_real_root_match_http1 : test :=
  real_root "example.com" "http://example.com/"
    (Some [create_vhost "example.com" "/var/www/example"; create_vhost "test.com" "/var/www/test"])
    (Some "/var/www/example").

Definition test_get_real_root_match_http1_with_port : test :=
  real_root "example.com:8080" "http://example.com:8080/"
    (Some [create_vhost "example.com" "/var/www/example"]) (Some "/var/www/example").

Definition test_get_real_root_match_http2_authority : test :=
  uri ← uri_from_parts None (Some "example.com") None;
  assert_eq
    (VirtualHost.get_real_root (mkRequest "GET" uri hm_empty BodyEmpty)
       (Some [create_vhost "example.com" "/var/www/example"]))
    (Some (Path.parse "/var/www/example")).

Definition test_get_real_root_no_match : test :=
  real_root "example2.com" "http://example2.com/"
    (Some [create_vhost "example.com" "/var/www/example"]) None.

Definition test_get_real_root_no_vhosts : test :=
  real_root "example.com" "http://example.com/" None None.

Definition test_get_real_root_empty_vhosts : test :=
  real_root "example.com" "http://example.com/" (Some []) None.

Definition tests : list test :=
  [test_get_real_root_match_http1; test_get_real_root_match_http1_with_port;
   test_get_real_root_match_http2_authority; test_get_real_root_no_match;
   test_get_real_root_no_vhosts; test_get_real_root_empty_vhosts].
End Tests.
End VirtualHostTests.

(** * [proxy.rs] *)

Module ProxyTests.
Section Tests.
Context `{HttpLib, GlobLib}.

(** [build_upstream_uri], which only the tests have; [None] is one of its panics. *)
Definition build_upstream_uri (upstream_base : Uri) (strip_prefix : option string) (req_uri : Uri)
    : option (result error Uri) :=
  authority ← uri_authority upstream_base; scheme ← uri_scheme upstream_base;
  let p := uri_path upstream_base in
  let template := mkUpstreamUriTemplate (scheme +:+ "://" +:+ authority)
                    (if Str.is_empty p then "/" else p) strip_prefix in
  Some (Template.build_upstream_uri_from_template template req_uri).

Definition upstream (target : string) : option Uri := uri_parse target.

Definition build_upstream_uri_with_strip_prefix : test :=
  base ← upstream "http://127.0.0.1:3000";
  uri ← uri_parse "http://localhost/api/users/1?q=1";
  got ← build_upstream_uri base (Some "/api") uri ≫= Res.ok;
  assert_eq (uri_display got) "http://127.0.0.1:3000/users/1?q=1".

Definition build_upstream_uri_from_template_matches_legacy : test :=
  base ← upstream "http://backend:8080/v1";
  uri ← uri_parse "http://localhost/users";
  let template := mkUpstreamUriTemplate "http://backend:8080" "/v1" None in
  x ← Res.ok (Template.build_upstream_uri_from_template template uri);
  y ← build_upstream_uri base None uri ≫= Res.ok;
  assert_eq (uri_display x) (uri_display y).

Definition proxy_balancer_round_robin : test :=
  targets ← mapM upstream ["http://127.0.0.1:3001"; "http://127.0.0.1:3002"; "http://127.0.0.1:3003"];
  b ← Res.ok (Balancer.new (Some "api") targets);
  assert_eq (Balancer.len b) 3 ;;
  let '(i1, b) := Balancer.next_index b in assert_eq i1 0 ;;
  let '(i2, b) := Balancer.next_index b in assert_eq i2 1 ;;
  let '(i3, b) := Balancer.next_index b in assert_eq i3 2 ;;
  let '(i4, b) := Balancer.next_index b in assert_eq i4 0.

Definition detects_websocket_upgrade_request : test :=
  req ← builder [("Connection", "Upgrade"); ("Upgrade", "websocket");
                 ("Sec-WebSocket-Key", "dGhlIHNhbXBsZSBub25jZQ=="); ("Sec-WebSocket-Version", "13")]
          "GET" "http://localhost/ws";
  assert (Proxy.is_protocol_upgrade req).

Definition tests : list test :=
  [build_upstream_uri_with_strip_prefix; build_upstream_uri_from_template_matches_legacy;
   proxy_balancer_round_robin; detects_websocket_upgrade_request].
End Tests.
End ProxyTests.

(** * They pass *)

(** The tests of the negotiation headers and of media types. *)
Lemma negotiation_tests_pass :
  pass (QualityTests.quality_tests ++ QualityTests.accept_tests ++
        QualityTests.from_static :: QualityTests.coding_tests ++ MimeTests.tests ++
        TextCharsetTests.tests ++ FileSizeTests.tests).
Proof. by vm_compute; repeat constructor. Qed.

(** The tests of virtual hosts and of the proxy. *)
Lemma proxy_tests_pass : pass (VirtualHostTests.tests ++ ProxyTests.tests).
Proof. by vm_compute; repeat constructor. Qed.

#[local] Existing Instance TestRegex.lib | 0.

(** The tests of redirects and rewrites. *)
Lemma rules_tests_pass : pass (RedirectsTests.tests Fixtures.fs ++ RewritesTests.tests Fixtures.fs).
Proof. by vm_compute; repeat constructor. Qed.
